(** * abootimg: layout engine of the Android boot image tool

    A shallow embedding of [src/abootimg.c] and [src/bootimg.h].

    - C [unsigned] is a [Z] reduced modulo 2^32 after each operation ([u32]);
      [size_t] is reduced modulo 2^64 ([usize]); [off_t] sizes of files are
      exact (64-bit signed, never reached by the quantities handled here).
      The host is little-endian with 4-byte [unsigned], as the image format
      expects.
    - Memory blocks and files are [buffer]s: a length and a byte at each index.
    - Functions that read or write [img->stream] live in a state and error
      monad [M] over the stream; [abort_perror] and [abort_printf] are the
      [Abort] result. The files named on the command line are a read-only
      [filesystem]; the text of the config file is taken as already split
      into entries.
    - Behaviour the C standard leaves undefined (reading or writing outside an
      allocated block, division by zero) is the error [E_undefined]. *)

From Stdlib Require Import String Ascii DecimalString ZArith Lia Bool List.
Import ListNotations.
Local Open Scope Z_scope.

(** ** Machine integers *)

Definition u32 (z : Z) : Z := z mod 2 ^ 32.
Definition usize (z : Z) : Z := z mod 2 ^ 64.

(** The mathematical ceiling of [a / b], used to state the layout claims. *)
Definition ceil_div (a b : Z) : Z := (a + b - 1) / b.

(** ** Buffers: allocated blocks and file contents *)

Record buffer := mkbuf { blen : Z; bget : Z -> Z }.

Definition of_list (l : list Z) : buffer :=
  mkbuf (Z.of_nat (length l))
        (fun i => if i <? 0 then 0 else nth (Z.to_nat i) l 0).


(** [n] bytes of [b] starting at [off] (what a [fread] of [n] bytes returns). *)
Definition sub (b : buffer) (off n : Z) : buffer :=
  mkbuf n (fun i => bget b (off + i)).

(** [calloc(n, 1)] *)
Definition zeros (n : Z) : buffer := mkbuf n (fun _ => 0).

(** Byte-for-byte equality of two blocks. *)
Definition same_bytes (a b : buffer) : Prop :=
  blen a = blen b /\ forall i, 0 <= i < blen a -> bget a i = bget b i.

Definition byte_at (b : buffer) (i : Z) : Z := bget b i mod 256.

(** A little-endian 32-bit word at byte offset [off] (an [unsigned] field of a
    struct that lives in the block). *)
Definition get_u32 (b : buffer) (off : Z) : Z :=
  byte_at b off + 256 * byte_at b (off + 1)
  + 65536 * byte_at b (off + 2) + 16777216 * byte_at b (off + 3).

Definition le32_byte (v k : Z) : Z := (u32 v / 256 ^ k) mod 256.

Definition set_u32 (b : buffer) (off v : Z) : buffer :=
  mkbuf (blen b)
        (fun i => if (off <=? i) && (i <? off + 4)
                  then le32_byte v (i - off) else bget b i).

(** ** bootimg.h *)

Definition BOOT_MAGIC : list Z := [65; 78; 68; 82; 79; 73; 68; 33]. (* "ANDROID!" *)
Definition BOOT_MAGIC_SIZE : Z := 8.
Definition BOOT_NAME_SIZE : Z := 16.
Definition BOOT_ARGS_SIZE : Z := 512.

Record boot_img_hdr := mkhdr {
  magic : list Z;          (* unsigned char magic[8] *)
  kernel_size : Z;
  kernel_addr : Z;
  ramdisk_size : Z;
  ramdisk_addr : Z;
  second_size : Z;
  second_addr : Z;
  tags_addr : Z;
  page_size : Z;
  dtbs_size : Z;
  unused : Z;              (* unsigned unused[1] *)
  name : list Z;           (* unsigned char name[16] *)
  cmdline : list Z;        (* unsigned char cmdline[512] *)
  id : list Z              (* unsigned id[8] *)
}.

(** [sizeof(boot_img_hdr)]: 8 + 10*4 + 16 + 512 + 8*4. *)
Definition sizeof_boot_img_hdr : Z := 608.

(** [sizeof(dtbs_t)], [sizeof(dt_entry_t)] (seven words and two chars, padded
    to the alignment of a word) and the offsets of two fields of an entry. *)
Definition sizeof_dtbs_t : Z := 12.
Definition sizeof_dt_entry_t : Z := 32.
Definition offsetof_num_entries : Z := 8.
Definition offsetof_offset : Z := 20.
Definition offsetof_dtb_size : Z := 24.

(** The byte at offset [i] of the header struct in memory. *)
Definition header_words (h : boot_img_hdr) : list Z :=
  [kernel_size h; kernel_addr h; ramdisk_size h; ramdisk_addr h;
   second_size h; second_addr h; tags_addr h; page_size h; dtbs_size h;
   unused h].

Definition header_byte (h : boot_img_hdr) (i : Z) : Z :=
  if i <? 8 then nth (Z.to_nat i) (magic h) 0
  else if i <? 48 then
    le32_byte (nth (Z.to_nat ((i - 8) / 4)) (header_words h) 0) ((i - 8) mod 4)
  else if i <? 64 then nth (Z.to_nat (i - 48)) (name h) 0
  else if i <? 576 then nth (Z.to_nat (i - 64)) (cmdline h) 0
  else le32_byte (nth (Z.to_nat ((i - 576) / 4)) (id h) 0) ((i - 576) mod 4).

Definition header_block (h : boot_img_hdr) : buffer :=
  mkbuf sizeof_boot_img_hdr (header_byte h).

Definition bytes_from (b : buffer) (off : Z) (n : nat) : list Z :=
  map (fun k => byte_at b (off + Z.of_nat k)) (seq 0 n).

Definition words_from (b : buffer) (off : Z) (n : nat) : list Z :=
  map (fun k => get_u32 b (off + 4 * Z.of_nat k)) (seq 0 n).

(** The struct read back from the first 608 bytes of a block. *)
Definition header_of_block (b : buffer) : boot_img_hdr :=
  {| magic := bytes_from b 0 8;
     kernel_size := get_u32 b 8;
     kernel_addr := get_u32 b 12;
     ramdisk_size := get_u32 b 16;
     ramdisk_addr := get_u32 b 20;
     second_size := get_u32 b 24;
     second_addr := get_u32 b 28;
     tags_addr := get_u32 b 32;
     page_size := get_u32 b 36;
     dtbs_size := get_u32 b 40;
     unused := get_u32 b 44;
     name := bytes_from b 48 16;
     cmdline := bytes_from b 64 512;
     id := words_from b 576 8 |}.

Definition is_byte (x : Z) : Prop := 0 <= x < 256.
Definition is_word (x : Z) : Prop := 0 <= x < 2 ^ 32.

(** A header whose fields hold what their C types can hold. *)
Definition wf_header (h : boot_img_hdr) : Prop :=
  length (magic h) = 8%nat /\ Forall is_byte (magic h) /\
  Forall is_word (header_words h) /\
  length (name h) = 16%nat /\ Forall is_byte (name h) /\
  length (cmdline h) = 512%nat /\ Forall is_byte (cmdline h) /\
  length (id h) = 8%nat /\ Forall is_word (id h).

(** ** Results, the stream and the monad *)

(** One constructor per way the program stops: [abort_perror] and each
    [abort_printf] message. *)
Inductive error :=
| E_perror             (* abort_perror: open, stat, read, write or seek failed *)
| E_not_valid          (* "not a valid Android Boot Image" (spec: FormatError) *)
| E_page_size_null     (* "Image page size is null" (spec: FormatError) *)
| E_too_big            (* "updated is too big for the Boot Image" (spec: CapacityError) *)
| E_blkdev_size        (* "cannot change Boot Image size for a block device" *)
| E_sanity             (* "Sanity cheks failed" *)
| E_cmdline_too_long   (* "cmdline length is too long" *)
| E_bad_config         (* "bad config entry" *)
| E_partition          (* "refuse to write on a valid partition type" *)
| E_undefined          (* undefined behaviour in C *)
| E_fuel.              (* the model of a loop ran out of steps *)

Inductive result (A : Type) :=
| Ok (a : A)
| Abort (e : error).
Arguments Ok {A} a.
Arguments Abort {A} e.

(** [FILE*]: the bytes of the file and the position indicator. *)
Record FILE := mkFILE { content : buffer; fpos : Z }.

Definition M (A : Type) : Type := FILE -> result A * FILE.

Definition ret {A} (a : A) : M A := fun s => (Ok a, s).
Definition abort {A} (e : error) : M A := fun s => (Abort e, s).
Definition bind {A B} (m : M A) (k : A -> M B) : M B :=
  fun s => match m s with
           | (Ok a, s') => k a s'
           | (Abort e, s') => (Abort e, s')
           end.
Definition lift {A} (r : result A) : M A := fun s => (r, s).
Definition fstat_size : M Z := fun s => (Ok (blen (content s)), s).

Notation "x <- c ;; k" := (bind c (fun x => k))
  (at level 61, c at next level, right associativity).
Notation "c ;;; k" := (bind c (fun _ => k))
  (at level 61, right associativity).

(** [fseek(stream, off, SEEK_SET)]. The device is taken not to fail: the
    call returns 0, and the [abort_perror] that follows it in the source is
    not reached. *)
Definition fseek (off : Z) : M unit :=
  fun s => (Ok tt, mkFILE (content s) off).

(** [fread(ptr, n, 1, stream)] into a block of [n] bytes, followed by the
    test [rb != 1] that every call site makes: a short read, or a read of
    zero bytes, returns 0 items and the program stops in [abort_perror]. *)
Definition fread (n : Z) : M buffer :=
  fun s =>
    if (0 <? n) && (0 <=? fpos s) && (fpos s + n <=? blen (content s))
    then (Ok (sub (content s) (fpos s) n), mkFILE (content s) (fpos s + n))
    else (Abort E_perror, s).

(** The file after [n] bytes of [src] are stored at [pos]; a hole between the
    old end of the file and [pos] reads as zero. *)
Definition write_at (f : buffer) (pos : Z) (src : buffer) (n : Z) : buffer :=
  mkbuf (Z.max (blen f) (pos + n))
        (fun i => if (pos <=? i) && (i <? pos + n) then bget src (i - pos)
                  else if i <? blen f then bget f i else 0).

(** [fwrite(src, n, 1, stream)]: reading [n] bytes out of a shorter block is
    undefined. The device is taken not to fail: [ferror] stays clear, and
    the [abort_perror] that follows each call in the source is not reached;
    what is proved of a run that writes holds for runs without a failed
    write. *)
Definition fwrite (src : buffer) (n : Z) : M unit :=
  fun s =>
    if n =? 0 then (Ok tt, s)
    else if blen src <? n then (Abort E_undefined, s)
    else (Ok tt, mkFILE (write_at (content s) (fpos s) src n) (fpos s + n)).

(** ** The working set, [t_abootimg] *)

(** An element of [img->dtbs]: a block of its own, or a pointer into the
    block [img->dtbh]. *)
Inductive dtb_ptr :=
| Owned (b : buffer)
| InDtbh (off : Z).

(** A line of the config file or of a [-c] argument, once split into key and
    value (the text syntax is not modelled). *)
Inductive config_entry :=
| cfg_cmdline (value : list Z)
| cfg_name (value : list Z)
| cfg_bootsize (valuenum : Z)
| cfg_pagesize (valuenum : Z)
| cfg_kerneladdr (valuenum : Z)
| cfg_ramdiskaddr (valuenum : Z)
| cfg_secondaddr (valuenum : Z)
| cfg_tagsaddr (valuenum : Z)
| cfg_unknown.

Record t_abootimg := mkimg {
  size : Z;
  is_blkdev : bool;
  config : list config_entry;       (* config_fname and config_args, read *)
  kernel_fname : option string;
  ramdisk_fname : option string;
  second_fname : option string;
  dtbs_fname : option string;
  header : boot_img_hdr;
  kernel : option buffer;
  ramdisk : option buffer;
  second : option buffer;
  dtbh : option buffer;
  dtbs : list dtb_ptr;
  signature : buffer                 (* char signature[255] *)
}.

Definition with_size (v : Z) (i : t_abootimg) : t_abootimg :=
  mkimg v (is_blkdev i) (config i) (kernel_fname i) (ramdisk_fname i)
        (second_fname i) (dtbs_fname i) (header i) (kernel i) (ramdisk i)
        (second i) (dtbh i) (dtbs i) (signature i).
Definition with_is_blkdev (v : bool) (i : t_abootimg) : t_abootimg :=
  mkimg (size i) v (config i) (kernel_fname i) (ramdisk_fname i)
        (second_fname i) (dtbs_fname i) (header i) (kernel i) (ramdisk i)
        (second i) (dtbh i) (dtbs i) (signature i).
Definition with_header (v : boot_img_hdr) (i : t_abootimg) : t_abootimg :=
  mkimg (size i) (is_blkdev i) (config i) (kernel_fname i) (ramdisk_fname i)
        (second_fname i) (dtbs_fname i) v (kernel i) (ramdisk i)
        (second i) (dtbh i) (dtbs i) (signature i).
Definition with_kernel (v : option buffer) (i : t_abootimg) : t_abootimg :=
  mkimg (size i) (is_blkdev i) (config i) (kernel_fname i) (ramdisk_fname i)
        (second_fname i) (dtbs_fname i) (header i) v (ramdisk i)
        (second i) (dtbh i) (dtbs i) (signature i).
Definition with_ramdisk (v : option buffer) (i : t_abootimg) : t_abootimg :=
  mkimg (size i) (is_blkdev i) (config i) (kernel_fname i) (ramdisk_fname i)
        (second_fname i) (dtbs_fname i) (header i) (kernel i) v
        (second i) (dtbh i) (dtbs i) (signature i).
Definition with_second (v : option buffer) (i : t_abootimg) : t_abootimg :=
  mkimg (size i) (is_blkdev i) (config i) (kernel_fname i) (ramdisk_fname i)
        (second_fname i) (dtbs_fname i) (header i) (kernel i) (ramdisk i)
        v (dtbh i) (dtbs i) (signature i).
Definition with_dtbh (v : option buffer) (t : list dtb_ptr) (i : t_abootimg)
  : t_abootimg :=
  mkimg (size i) (is_blkdev i) (config i) (kernel_fname i) (ramdisk_fname i)
        (second_fname i) (dtbs_fname i) (header i) (kernel i) (ramdisk i)
        (second i) v t (signature i).
Definition with_signature (v : buffer) (i : t_abootimg) : t_abootimg :=
  mkimg (size i) (is_blkdev i) (config i) (kernel_fname i) (ramdisk_fname i)
        (second_fname i) (dtbs_fname i) (header i) (kernel i) (ramdisk i)
        (second i) (dtbh i) (dtbs i) v.

Definition with_kernel_size (v : Z) (h : boot_img_hdr) : boot_img_hdr :=
  mkhdr (magic h) v (kernel_addr h) (ramdisk_size h) (ramdisk_addr h)
        (second_size h) (second_addr h) (tags_addr h) (page_size h)
        (dtbs_size h) (unused h) (name h) (cmdline h) (id h).
Definition with_kernel_addr (v : Z) (h : boot_img_hdr) : boot_img_hdr :=
  mkhdr (magic h) (kernel_size h) v (ramdisk_size h) (ramdisk_addr h)
        (second_size h) (second_addr h) (tags_addr h) (page_size h)
        (dtbs_size h) (unused h) (name h) (cmdline h) (id h).
Definition with_ramdisk_size (v : Z) (h : boot_img_hdr) : boot_img_hdr :=
  mkhdr (magic h) (kernel_size h) (kernel_addr h) v (ramdisk_addr h)
        (second_size h) (second_addr h) (tags_addr h) (page_size h)
        (dtbs_size h) (unused h) (name h) (cmdline h) (id h).
Definition with_ramdisk_addr (v : Z) (h : boot_img_hdr) : boot_img_hdr :=
  mkhdr (magic h) (kernel_size h) (kernel_addr h) (ramdisk_size h) v
        (second_size h) (second_addr h) (tags_addr h) (page_size h)
        (dtbs_size h) (unused h) (name h) (cmdline h) (id h).
Definition with_second_size (v : Z) (h : boot_img_hdr) : boot_img_hdr :=
  mkhdr (magic h) (kernel_size h) (kernel_addr h) (ramdisk_size h)
        (ramdisk_addr h) v (second_addr h) (tags_addr h) (page_size h)
        (dtbs_size h) (unused h) (name h) (cmdline h) (id h).
Definition with_second_addr (v : Z) (h : boot_img_hdr) : boot_img_hdr :=
  mkhdr (magic h) (kernel_size h) (kernel_addr h) (ramdisk_size h)
        (ramdisk_addr h) (second_size h) v (tags_addr h) (page_size h)
        (dtbs_size h) (unused h) (name h) (cmdline h) (id h).
Definition with_tags_addr (v : Z) (h : boot_img_hdr) : boot_img_hdr :=
  mkhdr (magic h) (kernel_size h) (kernel_addr h) (ramdisk_size h)
        (ramdisk_addr h) (second_size h) (second_addr h) v (page_size h)
        (dtbs_size h) (unused h) (name h) (cmdline h) (id h).
Definition with_page_size (v : Z) (h : boot_img_hdr) : boot_img_hdr :=
  mkhdr (magic h) (kernel_size h) (kernel_addr h) (ramdisk_size h)
        (ramdisk_addr h) (second_size h) (second_addr h) (tags_addr h) v
        (dtbs_size h) (unused h) (name h) (cmdline h) (id h).
Definition with_dtbs_size (v : Z) (h : boot_img_hdr) : boot_img_hdr :=
  mkhdr (magic h) (kernel_size h) (kernel_addr h) (ramdisk_size h)
        (ramdisk_addr h) (second_size h) (second_addr h) (tags_addr h)
        (page_size h) v (unused h) (name h) (cmdline h) (id h).
Definition with_name (v : list Z) (h : boot_img_hdr) : boot_img_hdr :=
  mkhdr (magic h) (kernel_size h) (kernel_addr h) (ramdisk_size h)
        (ramdisk_addr h) (second_size h) (second_addr h) (tags_addr h)
        (page_size h) (dtbs_size h) (unused h) v (cmdline h) (id h).
Definition with_cmdline (v : list Z) (h : boot_img_hdr) : boot_img_hdr :=
  mkhdr (magic h) (kernel_size h) (kernel_addr h) (ramdisk_size h)
        (ramdisk_addr h) (second_size h) (second_addr h) (tags_addr h)
        (page_size h) (dtbs_size h) (unused h) (name h) v (id h).

(** ** The page arithmetic *)

(** [(size + page_size - 1) / page_size] on [unsigned] operands. *)
Definition pages (size page_size : Z) : Z :=
  u32 (size + page_size - 1) / page_size.

(** ** check_boot_img_header *)

(** [strncmp] on byte arrays; past the end of a list stands the terminating
    NUL of a C string. *)
Fixpoint strncmp (a b : list Z) (n : nat) : Z :=
  match n with
  | O => 0
  | S n' =>
      let x := hd 0 a in
      let y := hd 0 b in
      if x =? y then (if x =? 0 then 0 else strncmp (tl a) (tl b) n')
      else x - y
  end.

Definition check_boot_img_header (img : t_abootimg) : Z :=
  let h := header img in
  if negb (strncmp (magic h) BOOT_MAGIC (Z.to_nat BOOT_MAGIC_SIZE) =? 0) then 1
  else if kernel_size h =? 0 then 1
  else if ramdisk_size h =? 0 then 1
  else
    let page_size := page_size h in
    if page_size =? 0 then 1
    else
      let n := pages (kernel_size h) page_size in
      let m := pages (ramdisk_size h) page_size in
      let o := pages (second_size h) page_size in
      let p := pages (dtbs_size h) page_size in
      let total_size := u32 ((1 + n + m + o + p) * page_size) in
      if size img <? total_size then 1 else 0.

(** ** read_header *)

(** [is_blk] tells whether the stream is a block device; its capacity, like
    the length of a regular file, is the length of [content]. *)
Definition read_header (is_blk : bool) (img : t_abootimg) : M t_abootimg :=
  b <- fread sizeof_boot_img_hdr ;;
  sz <- fstat_size ;;
  let img := with_header (header_of_block b) img in
  let img := with_is_blkdev is_blk (with_size (u32 sz) img) in
  if check_boot_img_header img =? 0 then ret img else abort E_not_valid.

(** ** update_header *)

Definition pad_to (n : nat) (l : list Z) : list Z := firstn n (l ++ repeat 0 n).

Definition update_header_entry (img : t_abootimg) (e : config_entry)
  : result t_abootimg :=
  let h := header img in
  match e with
  | cfg_cmdline value =>
      if BOOT_ARGS_SIZE <=? Z.of_nat (length value) then Abort E_cmdline_too_long
      else Ok (with_header (with_cmdline (pad_to 512 value) h) img)
  | cfg_name value =>
      Ok (with_header (with_name (pad_to 15 value ++ [0]) h) img)
  | cfg_bootsize v =>
      if is_blkdev img && negb (size img =? u32 v) then Abort E_blkdev_size
      else Ok (with_size (u32 v) img)
  | cfg_pagesize v => Ok (with_header (with_page_size (u32 v) h) img)
  | cfg_kerneladdr v => Ok (with_header (with_kernel_addr (u32 v) h) img)
  | cfg_ramdiskaddr v => Ok (with_header (with_ramdisk_addr (u32 v) h) img)
  | cfg_secondaddr v => Ok (with_header (with_second_addr (u32 v) h) img)
  | cfg_tagsaddr v => Ok (with_header (with_tags_addr (u32 v) h) img)
  | cfg_unknown => Abort E_bad_config
  end.

Fixpoint update_header_entries (img : t_abootimg) (es : list config_entry)
  : result t_abootimg :=
  match es with
  | [] => Ok img
  | e :: es' =>
      match update_header_entry img e with
      | Ok img' => update_header_entries img' es'
      | Abort x => Abort x
      end
  end.

Definition update_header (img : t_abootimg) : M t_abootimg :=
  lift (update_header_entries img (config img)).

(** ** update_images *)

(** The files other than the boot image, by name ([None]: [fopen] fails). *)
Definition filesystem := string -> option buffer.

(** [sprintf(dtbname, "%s.dtbh", img->dtbs_fname)] and
    [sprintf(dtbname, "%s.dtb_p%d", img->dtbs_fname, ientry)]. *)
Definition dtbh_name (f : string) : string := (f ++ ".dtbh")%string.
Definition dtb_name (f : string) (ientry : Z) : string :=
  (f ++ ".dtb_p" ++ NilZero.string_of_int (Z.to_int ientry))%string.

(** [char dtbname[256]] (lines 674 and 1241): [sprintf] stays inside the
    array when the name and its terminating NUL take at most 256 bytes; a
    longer name is written past the end of the array. *)
Definition sizeof_dtbname : Z := 256.
Definition fits_dtbname (s : string) : bool :=
  Z.of_nat (String.length s) <? sizeof_dtbname.

(** [fopen], [fstat], [malloc(size)] with [unsigned size = st.st_size], one
    [fread] of [size] bytes, [fclose]. *)
Definition read_file (fs : filesystem) (fname : string) : result (Z * buffer) :=
  match fs fname with
  | None => Abort E_perror
  | Some f =>
      let size := u32 (blen f) in
      if (0 <? size) && (size <=? blen f) then Ok (size, sub f 0 size)
      else Abort E_perror
  end.

(** Lines 572-592. *)
Definition load_kernel (fs : filesystem) (img : t_abootimg) : M t_abootimg :=
  match kernel_fname img with
  | Some fname =>
      r <- lift (read_file fs fname) ;;
      let '(ksize, k) := r in
      ret (with_kernel (Some k)
             (with_header (with_kernel_size ksize (header img)) img))
  | None => ret img
  end.

(** Lines 594-631: [rsize] and [roffset] are the locals computed on entry,
    from the header as it was read. *)
Definition load_ramdisk (fs : filesystem) (rsize roffset : Z)
  (img : t_abootimg) : M t_abootimg :=
  match ramdisk_fname img with
  | Some fname =>
      r <- lift (read_file fs fname) ;;
      let '(rsize', rd) := r in
      ret (with_ramdisk (Some rd)
             (with_header (with_ramdisk_size rsize' (header img)) img))
  | None =>
      match kernel img with
      | Some _ =>
          fseek roffset ;;;
          r <- fread rsize ;;
          ret (with_ramdisk (Some r) img)
      | None => ret img
      end
  end.

(** Lines 633-669. *)
Definition load_second (fs : filesystem) (ssize soffset : Z)
  (img : t_abootimg) : M t_abootimg :=
  match second_fname img with
  | Some fname =>
      r <- lift (read_file fs fname) ;;
      let '(ssize', s) := r in
      ret (with_second (Some s)
             (with_header (with_second_size ssize' (header img)) img))
  | None =>
      match ramdisk img with
      | Some _ =>
          if negb (second_size (header img) =? 0) then
            fseek soffset ;;;
            s <- fread ssize ;;
            ret (with_second (Some s) img)
          else ret img
      | None => ret img
      end
  end.

Definition num_entries (d : buffer) : Z := get_u32 d offsetof_num_entries.
Definition entry_at (ientry : Z) : Z := sizeof_dtbs_t + sizeof_dt_entry_t * ientry.
Definition dt_offset (d : buffer) (ientry : Z) : Z :=
  get_u32 d (entry_at ientry + offsetof_offset).
Definition dt_dtb_size (d : buffer) (ientry : Z) : Z :=
  get_u32 d (entry_at ientry + offsetof_dtb_size).

(** The loop of lines 717-754, one step for each unit of [fuel]. The name
    of the sub-blob file is formatted into [dtbname] first. The block [d]
    has [page_size] bytes; an entry that does not lie inside it is outside
    the allocation. The sub-blob is read with its full [off_t] length, and
    its page count is computed on 64-bit operands. *)
Fixpoint replace_dtbs_loop (fs : filesystem) (fname : string) (page_size : Z)
  (fuel : nat) (ientry p : Z) (d : buffer) (tbl : list dtb_ptr)
  : result (buffer * list dtb_ptr * Z) :=
  if ientry <? num_entries d then
    match fuel with
    | O => Abort E_fuel
    | S fuel' =>
        if negb (fits_dtbname (dtb_name fname ientry)) then Abort E_undefined
        else if blen d <? entry_at (ientry + 1) then Abort E_undefined
        else
          match fs (dtb_name fname ientry) with
          | None => Abort E_perror
          | Some f =>
              if blen f <=? 0 then Abort E_perror
              else
                let d := set_u32 d (entry_at ientry + offsetof_offset)
                                 (p * page_size) in
                let d := set_u32 d (entry_at ientry + offsetof_dtb_size)
                                 (blen f) in
                let p := u32 (p + (blen f + page_size - 1) / page_size) in
                replace_dtbs_loop fs fname page_size fuel' (ientry + 1) p d
                                  (tbl ++ [Owned f])
          end
    end
  else Ok (d, tbl, p).

(** [calloc(page_size, 1)] followed by a read of the whole table file [f]
    into the block. *)
Definition dtbh_block (page_size : Z) (f : buffer) : buffer :=
  mkbuf page_size
        (fun i => if (0 <=? i) && (i <? u32 (blen f)) then bget f i else 0).

(** Lines 671-758: the name of the table file is formatted into [dtbname],
    and the table header is read into a zeroed block of [page_size] bytes. *)
Definition replace_dtbs (fs : filesystem) (fname : string) (page_size : Z)
  (img : t_abootimg) : result t_abootimg :=
  if negb (fits_dtbname (dtbh_name fname)) then Abort E_undefined
  else
    match fs (dtbh_name fname) with
    | None => Abort E_perror
    | Some f =>
        let dsize := u32 (blen f) in
        if negb ((0 <? dsize) && (dsize <=? blen f)) then Abort E_perror
        else if page_size <? dsize then Abort E_undefined
        else
          let d := dtbh_block page_size f in
          if blen d <? sizeof_dtbs_t then Abort E_undefined
          else
            match replace_dtbs_loop fs fname page_size
                    (Z.to_nat (num_entries d)) 0 1 d [] with
            | Abort e => Abort e
            | Ok (d', tbl, p) =>
                Ok (with_header
                      (with_dtbs_size (u32 (p * page_size)) (header img))
                      (with_dtbh (Some d') tbl img))
            end
    end.

(** Lines 759-793: the region is read from the original image and each
    table slot points into it. *)
Definition copy_dtbs (dsize doffset : Z) (img : t_abootimg) : M t_abootimg :=
  fseek doffset ;;;
  d <- fread dsize ;;
  if blen d <? sizeof_dtbs_t then abort E_undefined
  else if blen d <? entry_at (num_entries d) then abort E_undefined
  else
    ret (with_dtbh (Some d)
           (map (fun k => InDtbh (dt_offset d (Z.of_nat k)))
                (seq 0 (Z.to_nat (num_entries d))))
           img).

Definition load_dtbs (fs : filesystem) (page_size dsize doffset : Z)
  (img : t_abootimg) : M t_abootimg :=
  match dtbs_fname img with
  | Some fname => lift (replace_dtbs fs fname page_size img)
  | None =>
      if negb (dtbs_size (header img) =? 0) then copy_dtbs dsize doffset img
      else ret img
  end.

(** ["SEANDROIDENFORCE"] with its terminating NUL: 17 bytes. *)
Definition SEANDROIDENFORCE : list Z :=
  [83; 69; 65; 78; 68; 82; 79; 73; 68; 69; 78; 70; 79; 82; 67; 69; 0].

Definition memcpy (dst : buffer) (src : list Z) : buffer :=
  mkbuf (blen dst)
        (fun i => if (0 <=? i) && (i <? Z.of_nat (length src))
                  then nth (Z.to_nat i) src 0 else bget dst i).

(** The total size computed at lines 800-805 from the header. *)
Definition total_size (h : boot_img_hdr) : Z :=
  let page_size := page_size h in
  let n := pages (kernel_size h) page_size in
  let m := pages (ramdisk_size h) page_size in
  let o := pages (second_size h) page_size in
  let p := pages (dtbs_size h) page_size in
  u32 ((1 + n + m + o + p + 1) * page_size).

(** Lines 795-810. *)
Definition finish_update (img : t_abootimg) : M t_abootimg :=
  let img := with_signature (memcpy (signature img) SEANDROIDENFORCE) img in
  let total_size := total_size (header img) in
  if size img =? 0 then ret (with_size total_size img)
  else if size img <? total_size then abort E_too_big
  else ret img.

(** Lines 552-794: the four sections, loaded in order. *)
Definition load_sections (fs : filesystem) (img : t_abootimg) : M t_abootimg :=
  let page_size := page_size (header img) in
  let ksize := kernel_size (header img) in
  let rsize := ramdisk_size (header img) in
  let ssize := second_size (header img) in
  let dsize := dtbs_size (header img) in
  if page_size =? 0 then abort E_page_size_null
  else
    let n := pages ksize page_size in
    let m := pages rsize page_size in
    let o := pages ssize page_size in
    let roffset := u32 ((1 + n) * page_size) in
    let soffset := u32 ((1 + n + m) * page_size) in
    let doffset := u32 ((1 + n + m + o) * page_size) in
    img <- load_kernel fs img ;;
    img <- load_ramdisk fs rsize roffset img ;;
    img <- load_second fs ssize soffset img ;;
    load_dtbs fs page_size dsize doffset img.

Definition update_images (fs : filesystem) (img : t_abootimg) : M t_abootimg :=
  img <- load_sections fs img ;;
  finish_update img.

(** ** write_bootimg *)

(** [psize - (size % psize)], the length of the padding written after the
    kernel, the ramdisk and the second stage. *)
Definition section_padding (psize size : Z) : Z := u32 (psize - size mod psize).

(** [psize - sizeof(img->header)], computed in [size_t]. *)
Definition header_padding (psize : Z) : Z := usize (psize - sizeof_boot_img_hdr).

(** Lines 834-843. *)
Definition write_header (padding : buffer) (img : t_abootimg) : M unit :=
  fseek 0 ;;;
  fwrite (header_block (header img)) sizeof_boot_img_hdr ;;;
  fwrite padding (header_padding (page_size (header img))).

(** Lines 845-855: no seek, the kernel follows the header page. *)
Definition write_kernel (padding : buffer) (img : t_abootimg) : M unit :=
  match kernel img with
  | Some k =>
      let h := header img in
      fwrite k (kernel_size h) ;;;
      fwrite padding (section_padding (page_size h) (kernel_size h))
  | None => ret tt
  end.

(** Lines 857-870. *)
Definition write_ramdisk (padding : buffer) (n : Z) (img : t_abootimg) : M unit :=
  match ramdisk img with
  | Some r =>
      let h := header img in
      fseek (u32 ((1 + n) * page_size h)) ;;;
      fwrite r (ramdisk_size h) ;;;
      fwrite padding (section_padding (page_size h) (ramdisk_size h))
  | None => ret tt
  end.

(** Lines 872-885: the test is on the header size, not on the pointer. *)
Definition write_second (padding : buffer) (n m : Z) (img : t_abootimg) : M unit :=
  let h := header img in
  if negb (second_size h =? 0) then
    fseek (u32 ((1 + n + m) * page_size h)) ;;;
    match second img with
    | Some s =>
        fwrite s (second_size h) ;;;
        fwrite padding (section_padding (page_size h) (second_size h))
    | None => abort E_undefined
    end
  else ret tt.

(** The bytes that can be read through an element of [img->dtbs]. *)
Definition deref (d : buffer) (p : dtb_ptr) : buffer :=
  match p with
  | Owned b => b
  | InDtbh off => sub d off (blen d - off)
  end.

(** The loop of lines 907-921 over the entries [ientries]. *)
Fixpoint write_dtbs_loop (psize : Z) (padding d : buffer) (tbl : list dtb_ptr)
  (ientries : list nat) : M unit :=
  match ientries with
  | [] => ret tt
  | k :: rest =>
      let ientry := Z.of_nat k in
      if blen d <? entry_at (ientry + 1) then abort E_undefined
      else
        match nth_error tbl k with
        | None => abort E_undefined
        | Some ptr =>
            let dtb_size := dt_dtb_size d ientry in
            fwrite (deref d ptr) dtb_size ;;;
            (if 0 <? dtb_size mod psize
             then fwrite padding (u32 (psize - dtb_size mod psize))
             else ret tt) ;;;
            write_dtbs_loop psize padding d tbl rest
        end
  end.

(** Lines 887-923. *)
Definition write_dtbs (padding : buffer) (n m o : Z) (img : t_abootimg) : M unit :=
  match dtbh img with
  | Some d =>
      let psize := page_size (header img) in
      fseek (u32 ((1 + n + m + o) * psize)) ;;;
      fwrite d psize ;;;
      if blen d <? sizeof_dtbs_t then abort E_undefined
      else write_dtbs_loop psize padding d (dtbs img)
             (seq 0 (Z.to_nat (num_entries d)))
  | None => ret tt
  end.

(** Lines 926-938. *)
Definition write_signature (padding : buffer) (n m o p : Z) (img : t_abootimg)
  : M unit :=
  let psize := page_size (header img) in
  fseek (u32 ((1 + n + m + o + p) * psize)) ;;;
  fwrite (signature img) 255 ;;;
  fwrite padding (usize (psize - 255 mod psize)).

(** A page size of zero makes the page counts divide by zero. *)
Definition write_bootimg (img : t_abootimg) : M unit :=
  let h := header img in
  let psize := page_size h in
  if psize =? 0 then abort E_undefined
  else
    let padding := zeros psize in
    let n := pages (kernel_size h) psize in
    let m := pages (ramdisk_size h) psize in
    let o := pages (second_size h) psize in
    let p := pages (dtbs_size h) psize in
    write_header padding img ;;;
    write_kernel padding img ;;;
    write_ramdisk padding n img ;;;
    write_second padding n m img ;;;
    write_dtbs padding n m o img ;;;
    write_signature padding n m o p img.

(** ** The extraction path: each function returns the bytes it writes to
    its output file. *)

Definition extract_kernel (img : t_abootimg) : M buffer :=
  let psize := page_size (header img) in
  let ksize := kernel_size (header img) in
  fseek psize ;;;
  fread ksize.

Definition extract_ramdisk (img : t_abootimg) : M buffer :=
  let psize := page_size (header img) in
  let ksize := kernel_size (header img) in
  let rsize := ramdisk_size (header img) in
  if psize =? 0 then abort E_undefined
  else
    let n := pages ksize psize in
    let roffset := u32 ((1 + n) * psize) in
    fseek roffset ;;;
    fread rsize.

(** The offset used by [extract_second]: one page count for kernel and
    ramdisk together (lines 1188-1189). *)
Definition extract_second_offset (psize ksize rsize : Z) : Z :=
  let n := u32 (rsize + ksize + psize - 1) / psize in
  u32 ((1 + n) * psize).

(** The offset of the second stage in the layout of [update_images] and
    [write_bootimg] (lines 563-569 and 875). *)
Definition layout_second_offset (psize ksize rsize : Z) : Z :=
  let n := pages ksize psize in
  let m := pages rsize psize in
  u32 ((1 + n + m) * psize).

Definition extract_second (img : t_abootimg) : M (option buffer) :=
  let psize := page_size (header img) in
  let ksize := kernel_size (header img) in
  let rsize := ramdisk_size (header img) in
  let ssize := second_size (header img) in
  if ssize =? 0 then ret None
  else if psize =? 0 then abort E_undefined
  else
    fseek (extract_second_offset psize ksize rsize) ;;;
    s <- fread ssize ;;
    ret (Some s).

(** [extract_dtbs] returns the table file and the sub-blob files. The
    table and the sub-blobs are written from the block of [dsize] bytes: a
    table that does not lie inside it, or an entry whose [dtb_size] bytes
    from [d + offset] do not, is read outside the allocation. *)
Definition extract_dtbs (img : t_abootimg) : M (buffer * list buffer) :=
  let psize := page_size (header img) in
  let ksize := kernel_size (header img) in
  let rsize := ramdisk_size (header img) in
  let ssize := second_size (header img) in
  let dsize := dtbs_size (header img) in
  if psize =? 0 then abort E_undefined
  else
    let n := u32 (ksize + rsize + ssize + psize - 1) / psize in
    let doffset := u32 ((1 + n) * psize) in
    fseek doffset ;;;
    d <- fread dsize ;;
    if blen d <? sizeof_dtbs_t then abort E_undefined
    else
      let dtbhsize := u32 (entry_at (num_entries d)) in
      let ientries := seq 0 (Z.to_nat (num_entries d)) in
      if blen d <? entry_at (num_entries d) then abort E_undefined
      else if existsb
                (fun k => blen d <? dt_offset d (Z.of_nat k)
                                    + dt_dtb_size d (Z.of_nat k))
                ientries
      then abort E_undefined
      else
        ret (sub d 0 dtbhsize,
             map (fun k => sub d (dt_offset d (Z.of_nat k))
                               (dt_dtb_size d (Z.of_nat k)))
                 ientries).

(** The body of [extract_signature] is commented out. *)
Definition extract_signature (img : t_abootimg) : M unit := ret tt.

(** ** new_bootimg, parse_args and main *)

Definition new_header : boot_img_hdr :=
  mkhdr BOOT_MAGIC 0 0 0 0 0 0 0 2048 0 0 (repeat 0 16) (repeat 0 512)
        (repeat 0 8).

(** What [parse_args] leaves in the image for [-u] and [--create]. *)
Record arguments := mkargs {
  arg_config : list config_entry;
  arg_kernel : option string;
  arg_ramdisk : option string;
  arg_second : option string;
  arg_dtbs : option string
}.

Definition new_bootimg (a : arguments) : t_abootimg :=
  mkimg 0 false (arg_config a) (arg_kernel a) (arg_ramdisk a) (arg_second a)
        (arg_dtbs a) new_header None None None None [] (zeros 255).

(** What the program knows about the path of the boot image. *)
Record target := mktarget {
  is_blk : bool;          (* S_ISBLK(st.st_mode) *)
  has_blkid : bool;       (* compiled with HAS_BLKID *)
  has_type : bool         (* blkid finds a partition type on the device *)
}.

(** [open_bootimg]: mode ["w"] truncates a regular file. [fopen] is taken
    to succeed; when it fails the source stops in [abort_perror] with the
    file as it was. *)
Definition open_bootimg (truncate : bool) (t : target) (file : buffer) : FILE :=
  if truncate && negb (is_blk t) then mkFILE (zeros 0) 0 else mkFILE file 0.

(** Lines 362-392. [stat], [open] and [blkgetsize] are taken to succeed;
    when one fails the source stops in [abort_perror] before the image is
    opened. *)
Definition check_if_block_device (t : target) (capacity : Z) (img : t_abootimg)
  : result t_abootimg :=
  if has_blkid t && is_blk t then
    if has_type t then Abort E_partition
    else Ok (with_size (u32 capacity) (with_is_blkdev true img))
  else Ok img.

(** [case update] of [main]: the three steps before the image is written,
    and the whole run. *)
Definition update_steps (fs : filesystem) (t : target) (a : arguments)
  : M t_abootimg :=
  img <- read_header (is_blk t) (new_bootimg a) ;;
  img <- update_header img ;;
  update_images fs img.

Definition main_update (fs : filesystem) (t : target) (a : arguments)
  (file : buffer) : result unit * FILE :=
  (img <- update_steps fs t a ;;
   write_bootimg img) (open_bootimg false t file).

(** [case create] of [main]. *)
Definition main_create (fs : filesystem) (t : target) (a : arguments)
  (file : buffer) : result unit * FILE :=
  match arg_kernel a, arg_ramdisk a with
  | Some _, Some _ =>
      match check_if_block_device t (blen file) (new_bootimg a) with
      | Abort e => (Abort e, mkFILE file 0)
      | Ok img =>
          (img <- update_header img ;;
           img <- update_images fs img ;;
           if check_boot_img_header img =? 0 then write_bootimg img
           else abort E_sanity) (open_bootimg true t file)
      end
  | _, _ => (Ok tt, mkFILE file 0)
  end.

(** ** The layout of an image *)

(** The page counts and offsets the program derives from the sizes: the
    counts and the three read offsets of [update_images] (lines 563-570), the
    kernel offset of [write_bootimg] and [extract_kernel] (one page), the
    signature offset of [write_bootimg] (line 929) and the total size of
    [update_images] (line 805). *)
Record layout_t := mklayout {
  n_pages : Z;
  m_pages : Z;
  o_pages : Z;
  p_pages : Z;
  kernel_offset : Z;
  ramdisk_offset : Z;
  second_offset : Z;
  dtbs_offset : Z;
  signature_offset : Z;
  layout_size : Z
}.

Definition layout (page_size ksize rsize ssize dsize : Z) : layout_t :=
  let n := pages ksize page_size in
  let m := pages rsize page_size in
  let o := pages ssize page_size in
  let p := pages dsize page_size in
  {| n_pages := n;
     m_pages := m;
     o_pages := o;
     p_pages := p;
     kernel_offset := page_size;
     ramdisk_offset := u32 ((1 + n) * page_size);
     second_offset := u32 ((1 + n + m) * page_size);
     dtbs_offset := u32 ((1 + n + m + o) * page_size);
     signature_offset := u32 ((1 + n + m + o + p) * page_size);
     layout_size := u32 ((1 + n + m + o + p + 1) * page_size) |}.

Definition layout_of (h : boot_img_hdr) : layout_t :=
  layout (page_size h) (kernel_size h) (ramdisk_size h) (second_size h)
         (dtbs_size h).

(** [q] is the ceiling of [a / b]. *)
Definition is_ceiling (q a b : Z) : Prop := (q - 1) * b < a <= q * b.

(** The sizes for which no 32-bit operation of the layout wraps around: the
    exact total size fits in an [unsigned]. *)
Definition fits32 (page_size ksize rsize ssize dsize : Z) : Prop :=
  0 < page_size /\ 0 <= ksize /\ 0 <= rsize /\ 0 <= ssize /\ 0 <= dsize /\
  (2 + ceil_div ksize page_size + ceil_div rsize page_size
     + ceil_div ssize page_size + ceil_div dsize page_size) * page_size
  < 2 ^ 32.

Definition header_fits32 (h : boot_img_hdr) : Prop :=
  fits32 (page_size h) (kernel_size h) (ramdisk_size h) (second_size h)
         (dtbs_size h).

(** ** What the reader rejects *)

(** The size against which [check_boot_img_header] compares the container:
    header page and section pages, without a signature page. *)
Definition checked_size (h : boot_img_hdr) : Z :=
  u32 ((1 + pages (kernel_size h) (page_size h)
          + pages (ramdisk_size h) (page_size h)
          + pages (second_size h) (page_size h)
          + pages (dtbs_size h) (page_size h)) * page_size h).

Definition rejected (h : boot_img_hdr) (container : Z) : Prop :=
  magic h <> BOOT_MAGIC \/ kernel_size h = 0 \/ ramdisk_size h = 0 \/
  page_size h = 0 \/ container < checked_size h.

(** ** Concrete images used to run the program *)

Definition is_ok {A} (r : result A) : bool :=
  match r with Ok _ => true | Abort _ => false end.

Definition is_set {A} (p : option A) : bool :=
  match p with Some _ => true | None => false end.

(** A header of 2048-byte pages with a 9000-byte kernel and a 500-byte
    ramdisk. *)
Definition example_header : boot_img_hdr :=
  with_kernel_size 9000 (with_ramdisk_size 500 new_header).

Definition no_arguments : arguments := mkargs [] None None None None.
Definition regular_file : target := mktarget false false false.

(** A file of seven pages that starts with [example_header]: header, five
    pages of kernel, one page of ramdisk and no signature page. *)
Definition seven_pages : buffer := mkbuf 14336 (header_byte example_header).

(** A 2048-byte kernel in an image of 2048-byte pages. *)
Definition aligned_kernel_image : t_abootimg :=
  with_kernel (Some (mkbuf 2048 (fun _ => 1)))
    (with_header (with_kernel_size 2048 (with_ramdisk_size 500 new_header))
       (new_bootimg no_arguments)).

(** A table with one entry whose sub-blob has 2048 bytes. *)
Definition aligned_dtb_table : buffer :=
  set_u32 (set_u32 (zeros 2048) offsetof_num_entries 1)
          (entry_at 0 + offsetof_dtb_size) 2048.

(** ** Properties of computations in [M] *)

(** [m] leaves the bytes of the stream as they are. *)
Definition read_only {A} (m : M A) : Prop :=
  forall s r s', m s = (r, s') -> content s' = content s.

(** [m] stops only on undefined behaviour. *)
Definition only_undefined {A} (m : M A) : Prop :=
  forall s e s', m s = (Abort e, s') -> e = E_undefined.

(** Started at or after [B], [m] stays at or after [B], keeps the bytes of
    the file below [B] and does not shorten the file. *)
Definition above {A} (B : Z) (m : M A) : Prop :=
  forall s r s', m s = (r, s') -> B <= fpos s ->
    B <= fpos s' /\ blen (content s) <= blen (content s') /\
    forall i, i < B -> i < blen (content s) ->
              bget (content s') i = bget (content s) i.

(** [m] writes nothing when it stops with [e]. *)
Definition writes_nothing_on {A} (e : error) (m : M A) : Prop :=
  forall s s', m s = (Abort e, s') -> content s' = content s.

(** A file of ten pages that starts with [example_header]: two pages of
    slack after the signature page. *)
Definition ten_pages : buffer := mkbuf 20480 (header_byte example_header).

(** A file of five pages of 2048 bytes: header, a 3-byte kernel, a 2-byte
    ramdisk, a device-tree region of one page holding an empty table, and a
    signature page. *)
Definition header_with_dtbs : boot_img_hdr :=
  with_dtbs_size 2048 (with_kernel_size 3 (with_ramdisk_size 2 new_header)).
Definition image_with_dtbs : buffer :=
  mkbuf 10240 (fun i => if i <? 608 then header_byte header_with_dtbs i else 0).

(** A file of five pages of 4096 bytes: header, a 3-byte kernel, a 2-byte
    ramdisk, a device-tree region of one page at offset 12288 holding an
    empty table, and a signature page. The byte 66 stands in the region, the
    byte 55 at offset 6244. *)
Definition header_of_large_pages : boot_img_hdr :=
  with_page_size 4096
    (with_dtbs_size 4096 (with_kernel_size 3 (with_ramdisk_size 2 new_header))).
Definition image_of_large_pages : buffer :=
  mkbuf 20480
        (fun i => if i <? 608 then header_byte header_of_large_pages i
                  else if i =? 6244 then 55
                  else if i =? 12388 then 66 else 0).

(** An update that names no section and sets the page size to 2048. *)
Definition smaller_pages : arguments :=
  mkargs [cfg_pagesize 2048] None None None None.

Definition no_files : filesystem := fun _ => None.

(** The image of [new_bootimg] with [example_header], and no size fixed. *)
Definition example_image : t_abootimg :=
  with_header example_header (new_bootimg no_arguments).

(** ** Sizes of sub-blobs *)

(** The pages taken by a list of sub-blobs, each rounded up on its own. *)
Definition sum_pages (page_size : Z) (blobs : list buffer) : Z :=
  fold_right (fun b acc => ceil_div (blen b) page_size + acc) 0 blobs.

(** The files of a device-tree replacement named [fname]: a table file and
    one file per sub-blob. *)
Definition dtbs_files (fs : filesystem) (fname : string) (table : buffer)
  (blobs : list buffer) : Prop :=
  fs (dtbh_name fname) = Some table /\
  forall k b, nth_error blobs k = Some b ->
              fs (dtb_name fname (Z.of_nat k)) = Some b.

(** The file names formatted for a replacement with [n] sub-blobs lie
    within [dtbname]. *)
Definition dtbs_names_fit (fname : string) (n : nat) : Prop :=
  fits_dtbname (dtbh_name fname) = true /\
  forall k, (k < n)%nat -> fits_dtbname (dtb_name fname (Z.of_nat k)) = true.

(** A replacement named "platform": a table file with one entry and a
    sub-blob of [n] bytes. *)
Definition one_entry_table : buffer :=
  set_u32 (zeros 44) offsetof_num_entries 1.

Definition platform_files (n : Z) : filesystem :=
  fun s =>
    if String.eqb s "platform.dtbh" then Some one_entry_table
    else if String.eqb s "platform.dtb_p0" then Some (mkbuf n (fun _ => 7))
    else None.

(** ** The writer after each of its first three blocks *)

Definition write_after_ramdisk (img : t_abootimg) : M unit :=
  let h := header img in
  let psize := page_size h in
  let padding := zeros psize in
  let n := pages (kernel_size h) psize in
  let m := pages (ramdisk_size h) psize in
  let o := pages (second_size h) psize in
  let p := pages (dtbs_size h) psize in
  write_second padding n m img ;;;
  write_dtbs padding n m o img ;;;
  write_signature padding n m o p img.

Definition write_after_kernel (img : t_abootimg) : M unit :=
  let h := header img in
  let psize := page_size h in
  write_ramdisk (zeros psize) (pages (kernel_size h) psize) img ;;;
  write_after_ramdisk img.

Definition write_after_header (img : t_abootimg) : M unit :=
  write_kernel (zeros (page_size (header img))) img ;;;
  write_after_kernel img.

(** The arguments of an update that names a kernel and no other section,
    with the header settings [cfg]. *)
Definition kernel_only (cfg : list config_entry) (kf : string) : arguments :=
  mkargs cfg (Some kf) None None None.

(** A file of ten pages with [example_header] and recognisable bytes after
    the header, and a replacement kernel of 12000 bytes. *)
Definition update_source : buffer :=
  mkbuf 20480
        (fun i => if i <? 608 then header_byte example_header i else i mod 251).

Definition larger_kernel : filesystem :=
  fun s => if String.eqb s "zImage" then Some (mkbuf 12000 (fun _ => 9))
           else None.

(** A file of four pages of 1000 bytes whose header declares a kernel of
    4294967295 bytes and a ramdisk of 2 bytes; the bytes 11 and 22 stand at
    offset 1000. *)
Definition wrapping_header : boot_img_hdr :=
  with_page_size 1000
    (with_kernel_size 4294967295 (with_ramdisk_size 2 new_header)).

Definition wrapping_source : buffer :=
  mkbuf 4000
        (fun i => if i <? 608 then header_byte wrapping_header i
                  else if i =? 1000 then 11 else if i =? 1001 then 22 else 0).

Definition small_kernel : filesystem :=
  fun s => if String.eqb s "zImage" then Some (mkbuf 3 (fun _ => 9)) else None.

(** Files for an image with a kernel of 3 bytes, a ramdisk of 2 bytes and a
    second stage of 4 bytes. *)
Definition three_sections : filesystem :=
  fun s =>
    if String.eqb s "zImage" then Some (mkbuf 3 (fun _ => 1))
    else if String.eqb s "initrd.gz" then Some (mkbuf 2 (fun _ => 2))
    else if String.eqb s "stage2.img" then Some (mkbuf 4 (fun _ => 3))
    else None.

Definition create_three : arguments :=
  mkargs [] (Some "zImage"%string) (Some "initrd.gz"%string)
         (Some "stage2.img"%string) None.

(** An image with a kernel of 3 bytes and a ramdisk of 2 bytes, ready to be
    written. *)
Definition two_sections_image : t_abootimg :=
  with_kernel (Some (mkbuf 3 (fun _ => 1)))
    (with_ramdisk (Some (mkbuf 2 (fun _ => 2)))
       (with_header (with_kernel_size 3 (with_ramdisk_size 2 new_header))
          (new_bootimg no_arguments))).

(** ** What the header settings leave alone *)

(** Two images with the same file names, buffers and section sizes. *)
Definition same_sections (a b : t_abootimg) : Prop :=
  kernel_fname a = kernel_fname b /\ ramdisk_fname a = ramdisk_fname b /\
  second_fname a = second_fname b /\ dtbs_fname a = dtbs_fname b /\
  kernel a = kernel b /\ ramdisk a = ramdisk b /\ second a = second b /\
  dtbh a = dtbh b /\
  kernel_size (header a) = kernel_size (header b) /\
  ramdisk_size (header a) = ramdisk_size (header b) /\
  second_size (header a) = second_size (header b) /\
  dtbs_size (header a) = dtbs_size (header b).

(** A setting other than [pagesize]. *)
Definition keeps_page_size (e : config_entry) : Prop :=
  match e with cfg_pagesize _ => False | _ => True end.

(** ** The offset used by [extract_dtbs] *)

(** One page count for kernel, ramdisk and second stage together (lines
    1225-1226). *)
Definition extract_dtbs_offset (psize ksize rsize ssize : Z) : Z :=
  let n := u32 (ksize + rsize + ssize + psize - 1) / psize in
  u32 ((1 + n) * psize).

(** ** What the section loader leaves alone *)

(** Two images with the same size, device flag, file names, signature and
    header fields other than the four section sizes. *)
Definition same_settings (a b : t_abootimg) : Prop :=
  size a = size b /\ is_blkdev a = is_blkdev b /\ config a = config b /\
  kernel_fname a = kernel_fname b /\ ramdisk_fname a = ramdisk_fname b /\
  second_fname a = second_fname b /\ dtbs_fname a = dtbs_fname b /\
  signature a = signature b /\
  magic (header a) = magic (header b) /\
  kernel_addr (header a) = kernel_addr (header b) /\
  ramdisk_addr (header a) = ramdisk_addr (header b) /\
  second_addr (header a) = second_addr (header b) /\
  tags_addr (header a) = tags_addr (header b) /\
  page_size (header a) = page_size (header b) /\
  unused (header a) = unused (header b) /\
  name (header a) = name (header b) /\
  cmdline (header a) = cmdline (header b) /\
  id (header a) = id (header b).

(** A file of four pages of 2048 bytes whose header declares a kernel of 3
    bytes, a ramdisk of 2 bytes and a second stage of 4 bytes. *)
Definition header_with_second : boot_img_hdr :=
  with_second_size 4 (with_kernel_size 3 (with_ramdisk_size 2 new_header)).
Definition image_with_second : buffer :=
  mkbuf 10240
        (fun i => if i <? 608 then header_byte header_with_second i else 0).

(** ** Settings whose text fits the header *)

(** The characters of a name or command line are bytes. *)
Definition entry_bytes (e : config_entry) : Prop :=
  match e with
  | cfg_cmdline value | cfg_name value => Forall is_byte value
  | _ => True
  end.

(** [example_image] opened as a block device of 16384 bytes. *)
Definition example_device : t_abootimg :=
  with_is_blkdev true (with_size 16384 example_image).

(** [name] and [cmdline] end within their arrays: the last byte is NUL. *)
Definition terminated (h : boot_img_hdr) : Prop :=
  nth 15 (name h) 0 = 0 /\ nth 511 (cmdline h) 0 = 0.

(** A create run with a name and a command line given by [-c]. *)
Definition named_arguments : arguments :=
  mkargs [cfg_name [97; 98]; cfg_cmdline [99]; cfg_pagesize 4096]
         None None None None.

(** ** The writer after the second stage *)

Definition write_after_second (img : t_abootimg) : M unit :=
  let h := header img in
  let psize := page_size h in
  let padding := zeros psize in
  let n := pages (kernel_size h) psize in
  let m := pages (ramdisk_size h) psize in
  let o := pages (second_size h) psize in
  let p := pages (dtbs_size h) psize in
  write_dtbs padding n m o img ;;;
  write_signature padding n m o p img.

(** An image with a kernel of 4096 bytes, a ramdisk of 2 bytes and a second
    stage of 4 bytes, ready to be written. *)
Definition three_sections_image : t_abootimg :=
  with_kernel (Some (mkbuf 4096 (fun _ => 1)))
    (with_ramdisk (Some (mkbuf 2 (fun _ => 2)))
       (with_second (Some (mkbuf 4 (fun _ => 3)))
          (with_header
             (with_second_size 4
                (with_kernel_size 4096 (with_ramdisk_size 2 new_header)))
             (new_bootimg no_arguments)))).

(** ** The ways a computation stops *)

(** [m] stops only with one of the errors [l]. *)
Definition stops_only_with {A} (l : list error) (m : M A) : Prop :=
  forall s e s', m s = (Abort e, s') -> In e l.

(** A create run whose page size makes the total size wrap around. *)
Definition wrapping_arguments : arguments :=
  mkargs [cfg_pagesize 2147483648] (Some "zImage"%string)
         (Some "initrd.gz"%string) None None.

(** ** print_bootimg_info *)

(** The five offsets printed under "<boot_img layout>". *)
Record info_t := mkinfo {
  info_kernel_offset : Z;
  info_ramdisk_offset : Z;
  info_second_offset : Z;
  info_dts_offset : Z;
  info_signature_offset : Z
}.

(** Lines 959-971 and 1007-1013. [sizeof(img->header)] is a [size_t], so
    the number of header pages is computed on 64 bits and then stored in an
    [unsigned]; a page size of zero divides by zero. *)
Definition print_bootimg_info (img : t_abootimg) : result info_t :=
  let h := header img in
  let page_size := page_size h in
  if page_size =? 0 then Abort E_undefined
  else
    let n_pages := pages (kernel_size h) page_size in
    let m_pages := pages (ramdisk_size h) page_size in
    let o_pages := pages (second_size h) page_size in
    let p_pages := pages (dtbs_size h) page_size in
    let offset := u32 (usize (sizeof_boot_img_hdr + page_size - 1) / page_size) in
    let kernel_offset := u32 (offset * page_size) in
    let offset := u32 (offset + n_pages) in
    let ramdisk_offset := u32 (offset * page_size) in
    let offset := u32 (offset + m_pages) in
    let second_offset := u32 (offset * page_size) in
    let offset := u32 (offset + o_pages) in
    let dts_offset := u32 (offset * page_size) in
    let offset := u32 (offset + p_pages) in
    let signature_offset := u32 (offset * page_size) in
    Ok (mkinfo kernel_offset ramdisk_offset second_offset dts_offset
               signature_offset).


(** ** The text of the settings *)

(** C strings are lists of bytes; the terminating NUL stands after the last
    element. *)
Definition str (s : string) : list Z :=
  map (fun c => Z.of_nat (nat_of_ascii c)) (list_ascii_of_string s).

Fixpoint strcmp (a b : list Z) : Z :=
  match a with
  | [] => 0 - hd 0 b
  | x :: a' =>
      let y := hd 0 b in
      if x =? y then (if x =? 0 then 0 else strcmp a' (tl b)) else x - y
  end.

(** The string that starts at [cmd] once the first newline is replaced by a
    NUL (lines 444-446): the characters before the first NUL or newline. *)
Fixpoint line_text (cmd : list Z) : list Z :=
  match cmd with
  | [] => []
  | c :: r => if (c =? 0) || (c =? 10) then [] else c :: line_text r
  end.

(** [p += strspn(p, " \t")] *)
Fixpoint skip_blanks (p : list Z) : list Z :=
  match p with
  | [] => []
  | c :: r => if (c =? 32) || (c =? 9) then skip_blanks r else p
  end.

(** [strcspn(p, " =\t")]: the characters before the first blank or equals
    sign, and the string from there on. *)
Fixpoint split_token (p : list Z) : list Z * list Z :=
  match p with
  | [] => ([], [])
  | c :: r =>
      if (c =? 32) || (c =? 61) || (c =? 9) then ([], p)
      else let '(t, rest) := split_token r in (c :: t, rest)
  end.

(** [strtoul(s, NULL, 0)] for a 64-bit [unsigned long] in the C locale:
    white space, an optional sign, the base taken from the prefix, the
    longest run of digits; a value that does not fit gives [ULONG_MAX]. *)
Definition isspace (c : Z) : bool := (c =? 32) || ((9 <=? c) && (c <=? 13)).

Fixpoint skip_spaces (p : list Z) : list Z :=
  match p with
  | [] => []
  | c :: r => if isspace c then skip_spaces r else p
  end.

Definition digit_of (c : Z) : option Z :=
  if (48 <=? c) && (c <=? 57) then Some (c - 48)
  else if (97 <=? c) && (c <=? 122) then Some (c - 97 + 10)
  else if (65 <=? c) && (c <=? 90) then Some (c - 65 + 10)
  else None.

Fixpoint digits (base acc : Z) (p : list Z) : Z :=
  match p with
  | [] => acc
  | c :: r =>
      match digit_of c with
      | Some d => if d <? base then digits base (acc * base + d) r else acc
      | None => acc
      end
  end.

Definition ULONG_MAX : Z := 2 ^ 64 - 1.

Definition strtoul (s : list Z) : Z :=
  let p := skip_spaces s in
  let '(neg, p) :=
    match p with
    | c :: r => if c =? 45 then (true, r)
                else if c =? 43 then (false, r) else (false, p)
    | [] => (false, p)
    end in
  let '(base, p) :=
    match p with
    | c0 :: c1 :: r =>
        if (c0 =? 48) && ((c1 =? 120) || (c1 =? 88)) then (16, r)
        else if c0 =? 48 then (8, p) else (10, p)
    | c0 :: [] => if c0 =? 48 then (8, p) else (10, p)
    | [] => (10, p)
    end in
  let v := digits base 0 p in
  if ULONG_MAX <? v then ULONG_MAX
  else if neg then usize (- v) else v.

(** Lines 464-498: the entry named by [token]. The first test is an exact
    comparison, the others compare a prefix of [token]. *)
Definition classify (token value : list Z) : config_entry :=
  let valuenum := strtoul value in
  if strcmp token (str "cmdline") =? 0 then cfg_cmdline value
  else if strncmp token (str "name") 4 =? 0 then cfg_name value
  else if strncmp token (str "bootsize") 8 =? 0 then cfg_bootsize valuenum
  else if strncmp token (str "pagesize") 8 =? 0 then cfg_pagesize valuenum
  else if strncmp token (str "kerneladdr") 10 =? 0 then cfg_kerneladdr valuenum
  else if strncmp token (str "ramdiskaddr") 11 =? 0
       then cfg_ramdiskaddr valuenum
  else if strncmp token (str "secondaddr") 10 =? 0 then cfg_secondaddr valuenum
  else if strncmp token (str "tagsaddr") 8 =? 0 then cfg_tagsaddr valuenum
  else cfg_unknown.

(** Lines 444-462: a line is split into token and value; [cfg_unknown] is
    the jump to [err]. *)
Definition parse_entry (cmd : list Z) : config_entry :=
  let p := skip_blanks (line_text cmd) in
  let '(token, p) := split_token p in
  let p := skip_blanks p in
  match p with
  | [] => cfg_unknown
  | c :: r => if c =? 61 then classify token (skip_blanks r) else cfg_unknown
  end.

(** The lines that successive calls of [getline] return: each ends with its
    newline, except a last line that the text does not terminate. *)
Fixpoint getlines (text : list Z) : list (list Z) :=
  match text with
  | [] => []
  | c :: t =>
      if c =? 10 then [c] :: getlines t
      else match getlines t with
           | [] => [[c]]
           | l :: ls => (c :: l) :: ls
           end
  end.

(** Lines 506-548: the entries of the config file, when one is named, and
    then those of the [-c] arguments, which [parse_args] collected in
    [config_args]. *)
Definition config_of_text (config_file : option (list Z))
  (config_args : list Z) : list config_entry :=
  map parse_entry
      (match config_file with Some t => getlines t | None => [] end)
  ++ map parse_entry (getlines config_args).

(** ** write_bootimg_config *)

(** [%x] of an [unsigned]: at most eight digits, no leading zero. *)
Definition hex_digit (d : Z) : Z := if d <? 10 then 48 + d else 87 + d.

Fixpoint print_hex (fuel : nat) (v : Z) (acc : list Z) : list Z :=
  match fuel with
  | O => acc
  | S fuel' =>
      let acc := hex_digit (v mod 16) :: acc in
      if v / 16 =? 0 then acc else print_hex fuel' (v / 16) acc
  end.

Definition fmt_x (v : Z) : list Z := print_hex 8 v [].

(** [%s] of a byte array: the bytes before the first NUL; [None] when the
    array holds no NUL and the read runs past its end. *)
Fixpoint c_string (l : list Z) : option (list Z) :=
  match l with
  | [] => None
  | c :: r =>
      if c =? 0 then Some []
      else match c_string r with
           | Some t => Some (c :: t)
           | None => None
           end
  end.

(** Lines 1096-1105: the eight lines, for a name [n] and a command line
    [c]. *)
Definition config_text (img : t_abootimg) (n c : list Z) : list Z :=
  let h := header img in
  str "bootsize = 0x" ++ fmt_x (size img) ++ [10]
  ++ str "pagesize = 0x" ++ fmt_x (page_size h) ++ [10]
  ++ str "kerneladdr = 0x" ++ fmt_x (kernel_addr h) ++ [10]
  ++ str "ramdiskaddr = 0x" ++ fmt_x (ramdisk_addr h) ++ [10]
  ++ str "secondaddr = 0x" ++ fmt_x (second_addr h) ++ [10]
  ++ str "tagsaddr = 0x" ++ fmt_x (tags_addr h) ++ [10]
  ++ str "name = " ++ n ++ [10]
  ++ str "cmdline = " ++ c ++ [10].

(** Lines 1088-1108: the text written to the config file. *)
Definition write_bootimg_config (img : t_abootimg) : result (list Z) :=
  let h := header img in
  match c_string (name h), c_string (cmdline h) with
  | Some n, Some c => Ok (config_text img n c)
  | _, _ => Abort E_undefined
  end.

(** ** [case extract] of [main] *)

Record extracted := mkextracted {
  x_config : list Z;
  x_kernel : buffer;
  x_ramdisk : buffer;
  x_second : option buffer;
  x_dtbs : buffer * list buffer
}.

Definition main_extract (t : target) (a : arguments) : M extracted :=
  img <- read_header (is_blk t) (new_bootimg a) ;;
  c <- lift (write_bootimg_config img) ;;
  k <- extract_kernel img ;;
  r <- extract_ramdisk img ;;
  s <- extract_second img ;;
  d <- extract_dtbs img ;;
  extract_signature img ;;;
  ret (mkextracted c k r s d).

(** Characters of a line: no NUL and no newline; blanks; characters of a
    token. *)
Definition in_line (c : Z) : Prop := c <> 0 /\ c <> 10.
Definition blank (c : Z) : Prop := c = 32 \/ c = 9.
Definition in_token (c : Z) : Prop :=
  c <> 0 /\ c <> 10 /\ c <> 32 /\ c <> 61 /\ c <> 9.

(** A value as [update_header_entry] sees it: it runs to the end of the
    line and does not start with a blank. *)
Definition is_value (v : list Z) : Prop :=
  Forall in_line v /\ ~ blank (hd 0 v).

(** A hexadecimal digit. *)
Definition is_hex (c : Z) : Prop :=
  exists d, 0 <= d < 16 /\ digit_of c = Some d.

(** A text of a name or of a command line that comes back from the config
    file: no newline in it and no blank in front. *)
Definition plain_text (v : list Z) : Prop := ~ In 10 v /\ ~ blank (hd 0 v).

(** The settings that [write_bootimg_config] writes for [img], as entries. *)
Definition settings_of (img : t_abootimg) (n c : list Z) : list config_entry :=
  let h := header img in
  [cfg_bootsize (size img); cfg_pagesize (page_size h);
   cfg_kerneladdr (kernel_addr h); cfg_ramdiskaddr (ramdisk_addr h);
   cfg_secondaddr (second_addr h); cfg_tagsaddr (tags_addr h);
   cfg_name n; cfg_cmdline c].

(** [example_image] with a name and a command line. *)
Definition named_image : t_abootimg :=
  with_header
    (with_name (str "boot" ++ repeat 0 12)
       (with_cmdline (str "console=ttyS0 quiet" ++ repeat 0 493)
          (with_kernel_addr 268468224 example_header)))
    (with_size 16384 (new_bootimg no_arguments)).

(** ** parse_args *)

Inductive command :=
| cmd_none | cmd_help | cmd_info | cmd_extract | cmd_update | cmd_create
| cmd_dtbs.

(** The file names of [t_abootimg]; [None] is a null pointer. *)
Record fnames := mkfnames {
  fn_image : option string;
  fn_config : option string;
  fn_kernel : option string;
  fn_ramdisk : option string;
  fn_second : option string;
  fn_dtbs : option string;
  fn_signature : option string
}.

(** The names that [new_bootimg] sets. *)
Definition default_fnames : fnames :=
  mkfnames None (Some "bootimg.cfg"%string) (Some "zImage"%string)
           (Some "initrd.gz"%string) (Some "stage2.img"%string)
           (Some "platform"%string) (Some "signature"%string).

Definition with_fn_image (v : string) (f : fnames) : fnames :=
  mkfnames (Some v) (fn_config f) (fn_kernel f) (fn_ramdisk f) (fn_second f)
           (fn_dtbs f) (fn_signature f).
Definition with_fn_config (v : string) (f : fnames) : fnames :=
  mkfnames (fn_image f) (Some v) (fn_kernel f) (fn_ramdisk f) (fn_second f)
           (fn_dtbs f) (fn_signature f).
Definition with_fn_kernel (v : string) (f : fnames) : fnames :=
  mkfnames (fn_image f) (fn_config f) (Some v) (fn_ramdisk f) (fn_second f)
           (fn_dtbs f) (fn_signature f).
Definition with_fn_ramdisk (v : string) (f : fnames) : fnames :=
  mkfnames (fn_image f) (fn_config f) (fn_kernel f) (Some v) (fn_second f)
           (fn_dtbs f) (fn_signature f).
Definition with_fn_second (v : string) (f : fnames) : fnames :=
  mkfnames (fn_image f) (fn_config f) (fn_kernel f) (fn_ramdisk f) (Some v)
           (fn_dtbs f) (fn_signature f).
Definition with_fn_dtbs (v : string) (f : fnames) : fnames :=
  mkfnames (fn_image f) (fn_config f) (fn_kernel f) (fn_ramdisk f)
           (fn_second f) (Some v) (fn_signature f).
Definition with_fn_signature (v : string) (f : fnames) : fnames :=
  mkfnames (fn_image f) (fn_config f) (fn_kernel f) (fn_ramdisk f)
           (fn_second f) (fn_dtbs f) (Some v).

Definition MAX_CONF_LEN : Z := 4096.

(** What [parse_args] returns and leaves in the image and in the global
    [config_args], or the stop with "too many config parameters". When the
    command is [cmd_none] the names and the text are not used. *)
Inductive parsed :=
| Parsed (cmd : command) (f : fnames) (config_args : list Z)
| TooManyConfig.

(** The loop of lines 264-306 over [argv[i]], [i >= 3]. *)
Fixpoint parse_options (cmd : command) (args : list string) (f : fnames)
  (config_args : list Z) : parsed :=
  match args with
  | [] => Parsed cmd f config_args
  | opt :: rest =>
      match rest with
      | [] => Parsed cmd_none f config_args
      | v :: rest' =>
          if String.eqb opt "-c" then
            let len := Z.of_nat (length (str v)) in
            if MAX_CONF_LEN <=? Z.of_nat (length config_args) + len + 1
            then TooManyConfig
            else parse_options cmd rest' f (config_args ++ str v ++ [10])
          else if String.eqb opt "-f" then
            parse_options cmd rest' (with_fn_config v f) config_args
          else if String.eqb opt "-k" then
            parse_options cmd rest' (with_fn_kernel v f) config_args
          else if String.eqb opt "-r" then
            parse_options cmd rest' (with_fn_ramdisk v f) config_args
          else if String.eqb opt "-s" then
            parse_options cmd rest' (with_fn_second v f) config_args
          else if String.eqb opt "-d" then
            parse_options cmd rest' (with_fn_dtbs v f) config_args
          else if String.eqb opt "-g" then
            parse_options cmd rest' (with_fn_signature v f) config_args
          else Parsed cmd_none f config_args
      end
  end.

(** Lines 194-316. *)
Definition parse_args (argv : list string) : parsed :=
  let argc := Z.of_nat (length argv) in
  let arg i := nth i argv ""%string in
  let none := Parsed cmd_none default_fnames [] in
  let options cmd :=
    if argc <? 3 then none
    else parse_options cmd (skipn 3 argv)
           (mkfnames (Some (arg 2%nat)) None None None None None None) [] in
  if argc <? 2 then none
  else if String.eqb (arg 1%nat) "-h" then Parsed cmd_help default_fnames []
  else if String.eqb (arg 1%nat) "-i" then
    if negb (argc =? 3) then none
    else Parsed cmd_info (with_fn_image (arg 2%nat) default_fnames) []
  else if String.eqb (arg 1%nat) "-x" then
    if (argc <? 3) || (7 <? argc) then none
    else
      let f := with_fn_image (arg 2%nat) default_fnames in
      let f := if 4 <=? argc then with_fn_config (arg 3%nat) f else f in
      let f := if 5 <=? argc then with_fn_kernel (arg 4%nat) f else f in
      let f := if 6 <=? argc then with_fn_ramdisk (arg 5%nat) f else f in
      let f := if 7 <=? argc then with_fn_second (arg 6%nat) f else f in
      let f := if 8 <=? argc then with_fn_dtbs (arg 7%nat) f else f in
      let f := if 9 <=? argc then with_fn_signature (arg 8%nat) f else f in
      Parsed cmd_extract f []
  else if String.eqb (arg 1%nat) "-u" then options cmd_update
  else if String.eqb (arg 1%nat) "--create" then options cmd_create
  else if String.eqb (arg 1%nat) "--dtbs" then
    if negb (argc =? 3) then none
    else Parsed cmd_dtbs (with_fn_image (arg 2%nat) default_fnames) []
  else none.

(** The arguments of an update or create run, from the names that
    [parse_args] leaves, the text of the config file when one is named, and
    [config_args]. *)
Definition arguments_of (f : fnames) (config_file : option (list Z))
  (config_args : list Z) : arguments :=
  mkargs (config_of_text config_file config_args) (fn_kernel f)
         (fn_ramdisk f) (fn_second f) (fn_dtbs f).

(** ** The bytes of a created image *)

(** [size] bytes of [buf] laid over [spec] from offset [X] on, and zeros
    after them. *)
Definition place (spec : Z -> Z) (X : Z) (buf : buffer) (size : Z) (i : Z)
  : Z :=
  if i <? X then spec i
  else if i <? X + size then bget buf (i - X) else 0.

(** The image that the layout of [bootimg.h] describes for a header [h]
    without device trees: the header, the kernel [k], the ramdisk [r], the
    second stage [s] and the signature [sig], each at the start of its
    pages, and zeros everywhere else. *)
Definition image_bytes (h : boot_img_hdr) (k r s sig : buffer) : Z -> Z :=
  let ps := page_size h in
  let n := ceil_div (kernel_size h) ps in
  let m := ceil_div (ramdisk_size h) ps in
  let o := ceil_div (second_size h) ps in
  place
    (place
       (place
          (place
             (place (fun _ => 0) 0 (header_block h) sizeof_boot_img_hdr)
             ps k (kernel_size h))
          ((1 + n) * ps) r (ramdisk_size h))
       ((1 + n + m) * ps) s (second_size h))
    ((1 + n + m + o) * ps) sig 255.

(** The stream holds [spec] below [X], and only zeros from [X] to its end,
    which lies less than a page after [X]. *)
Definition written_up_to (ps X : Z) (spec : Z -> Z) (s : FILE) : Prop :=
  X <= blen (content s) <= X + ps /\
  (forall i, 0 <= i < X -> bget (content s) i = spec i) /\
  (forall i, X <= i < blen (content s) -> bget (content s) i = 0).


(** ** Device trees in the written image *)

(** The place of sub-blob [k], counted from the start of the device-tree
    region, when the sub-blobs follow the table page one after the other,
    each padded to whole pages (the loop of lines 907-921). *)
Fixpoint dtb_position (psize : Z) (d : buffer) (k : nat) : Z :=
  match k with
  | O => psize
  | S k' =>
      dtb_position psize d k'
      + ceil_div (dt_dtb_size d (Z.of_nat k')) psize * psize
  end.

(** A table of two entries in a page of 2048 bytes: a sub-blob of 3000 bytes
    and one of 2048 bytes. *)
Definition two_trees_table : buffer :=
  set_u32
    (set_u32 (set_u32 (zeros 2048) offsetof_num_entries 2)
       (entry_at 0 + offsetof_dtb_size) 3000)
    (entry_at 1 + offsetof_dtb_size) 2048.

(** [two_sections_image] with that table and its two sub-blobs: a region of
    four pages. *)
Definition two_trees_image : t_abootimg :=
  with_header (with_dtbs_size 8192 (header two_sections_image))
    (with_dtbh (Some two_trees_table)
       [Owned (mkbuf 3000 (fun _ => 7)); Owned (mkbuf 2048 (fun _ => 8))]
       two_sections_image).

(** An image with a kernel of two pages and a ramdisk of 2 bytes: without a
    second stage, [extract_dtbs] and the layout agree on where the device
    trees start. *)
Definition aligned_image : t_abootimg :=
  with_kernel (Some (mkbuf 4096 (fun _ => 1)))
    (with_ramdisk (Some (mkbuf 2 (fun _ => 2)))
       (with_header (with_kernel_size 4096 (with_ramdisk_size 2 new_header))
          (new_bootimg no_arguments))).

(** A device-tree region of two pages of 2048 bytes, as found in an image:
    a table with one entry, whose sub-blob of 2048 bytes stands at offset
    2048; every byte outside the three fields is 9. *)
Definition tree_region : buffer :=
  set_u32
    (set_u32 (set_u32 (mkbuf 4096 (fun _ => 9)) offsetof_num_entries 1)
       (entry_at 0 + offsetof_offset) 2048)
    (entry_at 0 + offsetof_dtb_size) 2048.

(** [aligned_image] with a header that declares those two pages. *)
Definition aligned_image_with_trees : t_abootimg :=
  with_header (with_dtbs_size 4096 (header aligned_image)) aligned_image.

(** ** print_dtbh_info *)

(** The seven words of entry [ientry] that [print_dtbh_info] prints:
    chip_id, platform_id, subtype_id, hw_rev, hw_rev_end, offset and
    dtb_size. *)
Definition entry_words (d : buffer) (ientry : Z) : list Z :=
  map (fun w => get_u32 d (entry_at ientry + 4 * w)) [0; 1; 2; 3; 4; 5; 6].

(** What [print_dtbh_info] prints: the three words of the table header and
    the words of each entry. *)
Record dtbh_info := mkdtbh_info {
  info_magic : Z;
  info_version : Z;
  info_num_entries : Z;
  info_entries : list (list Z)
}.

(** Lines 1025-1084: the block of [dtbs_size] bytes is read at the offset
    of the layout; an entry outside that block is outside the allocation. *)
Definition print_dtbh_info (img : t_abootimg) : M dtbh_info :=
  let h := header img in
  let page_size := page_size h in
  if page_size =? 0 then abort E_undefined
  else
    let n := pages (kernel_size h) page_size in
    let m := pages (ramdisk_size h) page_size in
    let o := pages (second_size h) page_size in
    let doffset := u32 ((1 + n + m + o) * page_size) in
    fseek doffset ;;;
    d <- fread (dtbs_size h) ;;
    if blen d <? sizeof_dtbs_t then abort E_undefined
    else if blen d <? entry_at (num_entries d) then abort E_undefined
    else
      ret (mkdtbh_info (get_u32 d 0) (get_u32 d 4) (num_entries d)
             (map (fun k => entry_words d (Z.of_nat k))
                  (seq 0 (Z.to_nat (num_entries d))))).

(** ** Buffers that hold what the header declares *)




(** ** [case create] of [main], before the image is written *)

(** The steps of a create run between [open_bootimg] and [write_bootimg]:
    the settings, the sections and the sanity check. *)
Definition create_steps (fs : filesystem) (img : t_abootimg) : M t_abootimg :=
  img <- update_header img ;;
  img <- update_images fs img ;;
  if check_boot_img_header img =? 0 then ret img else abort E_sanity.

(** ** main *)

(** The text that [getline] reads from a file: its bytes. *)
Definition text_of (b : buffer) : list Z :=
  map (fun k => byte_at b (Z.of_nat k)) (seq 0 (Z.to_nat (blen b))).

(** The settings that [update_header] reads: the lines of the config file,
    when [-f] names one, and then the text collected from [-c]. [None]:
    [fopen] of the config file fails. *)
Definition settings (fs : filesystem) (f : fnames) (config_args : list Z)
  : option arguments :=
  match fn_config f with
  | Some name =>
      match fs name with
      | Some b => Some (arguments_of f (Some (text_of b)) config_args)
      | None => None
      end
  | None => Some (arguments_of f None config_args)
  end.

(** How a run ends: [main] returns; the program stops in [abort_perror],
    with a message whose constructor is in [error], or on undefined
    behaviour; or [parse_args] stops with "too many config parameters.". *)
Inductive ending :=
| Returns
| Stops (e : error)
| TooManyConfigParameters.

Definition ending_of {A} (r : result A) : ending :=
  match r with Ok _ => Returns | Abort e => Stops e end.

(** Lines 1335-1397. [t] and [file] describe the file named by [argv[2]],
    [fs] the other files. In an update or create run the config file is
    opened by [update_header]: after [read_header] in an update, after
    [check_if_block_device] and [open_bootimg] in a create run. *)
Definition main (fs : filesystem) (t : target) (file : buffer)
  (argv : list string) : ending :=
  match parse_args argv with
  | TooManyConfig => TooManyConfigParameters
  | Parsed cmd f config_args =>
      let a0 := arguments_of f None [] in
      match cmd with
      | cmd_none | cmd_help => Returns
      | cmd_info =>
          ending_of
            (fst ((img <- read_header (is_blk t) (new_bootimg a0) ;;
                   lift (print_bootimg_info img))
                    (open_bootimg false t file)))
      | cmd_extract =>
          ending_of (fst (main_extract t a0 (open_bootimg false t file)))
      | cmd_update =>
          match settings fs f config_args with
          | Some a => ending_of (fst (main_update fs t a file))
          | None =>
              ending_of
                (fst ((img <- read_header (is_blk t) (new_bootimg a0) ;;
                       @abort unit E_perror)
                        (open_bootimg false t file)))
          end
      | cmd_create =>
          match settings fs f config_args with
          | Some a => ending_of (fst (main_create fs t a file))
          | None =>
              match fn_kernel f, fn_ramdisk f with
              | Some _, Some _ =>
                  match check_if_block_device t (blen file)
                          (new_bootimg a0) with
                  | Abort e => Stops e
                  | Ok _ => Stops E_perror
                  end
              | _, _ => Returns
              end
          end
      | cmd_dtbs =>
          ending_of
            (fst ((img <- read_header (is_blk t) (new_bootimg a0) ;;
                   print_dtbh_info img)
                    (open_bootimg false t file)))
      end
  end.

(** A command line whose [-c] arguments fill [config_args]: a first text of
    4000 characters and a second of 100. *)
Definition long_settings : list string :=
  ["abootimg"; "-u"; "boot.img"; "-c";
   string_of_list_ascii (repeat "a"%char 4000); "-c";
   string_of_list_ascii (repeat "b"%char 100)]%string.
(** * Lemmas *)

(** ** Arithmetic *)

Lemma u32_small (x : Z) : 0 <= x < 2 ^ 32 -> u32 x = x.
Proof. intros H. unfold u32. apply Z.mod_small. exact H. Qed.

Lemma u32_range (x : Z) : 0 <= u32 x < 2 ^ 32.
Proof. unfold u32. apply Z.mod_pos_bound. reflexivity. Qed.

Lemma ceil_div_is_ceiling (a b : Z) :
  0 < b -> is_ceiling (ceil_div a b) a b.
Proof.
  intros Hb. unfold is_ceiling, ceil_div.
  pose proof (Z.div_mod (a + b - 1) b ltac:(lia)) as E.
  pose proof (Z.mod_pos_bound (a + b - 1) b Hb) as R.
  nia.
Qed.

Lemma is_ceiling_unique (q q' a b : Z) :
  0 < b -> is_ceiling q a b -> is_ceiling q' a b -> q = q'.
Proof. unfold is_ceiling. intros Hb H H'. nia. Qed.

Lemma ceil_div_nonneg (a b : Z) : 0 < b -> 0 <= a -> 0 <= ceil_div a b.
Proof. intros Hb Ha. unfold ceil_div. apply Z.div_pos; lia. Qed.

Lemma ceil_div_zero (b : Z) : 0 < b -> ceil_div 0 b = 0.
Proof. intros Hb. unfold ceil_div. apply Z.div_small. lia. Qed.

Lemma ceil_div_bounds (a b : Z) :
  0 < b -> 0 <= a -> a <= ceil_div a b * b < a + b.
Proof.
  intros Hb Ha. pose proof (ceil_div_is_ceiling a b Hb) as H.
  unfold is_ceiling in H. lia.
Qed.

Lemma ceil_div_aligned (a b : Z) :
  0 < b -> 0 <= a -> a mod b = 0 -> ceil_div a b * b = a.
Proof.
  intros Hb Ha Hm. unfold ceil_div.
  pose proof (Z.div_mod a b ltac:(lia)) as E. rewrite Hm in E.
  replace (a + b - 1) with ((b - 1) + (a / b) * b) by lia.
  rewrite Z.div_add by lia. rewrite (Z.div_small (b - 1) b) by lia. lia.
Qed.

(** The page count of the program is the ceiling as long as the sum does not
    wrap. *)
Lemma pages_exact (size psize : Z) :
  0 < psize -> 0 <= size -> size + psize - 1 < 2 ^ 32 ->
  pages size psize = ceil_div size psize.
Proof.
  intros Hp Hs Hb. unfold pages, ceil_div. rewrite u32_small by lia.
  reflexivity.
Qed.

Lemma fits32_sizes (ps ks rs ss ds : Z) :
  fits32 ps ks rs ss ds ->
  ks + ps - 1 < 2 ^ 32 /\ rs + ps - 1 < 2 ^ 32 /\
  ss + ps - 1 < 2 ^ 32 /\ ds + ps - 1 < 2 ^ 32.
Proof.
  intros (Hp & Hk & Hr & Hs & Hd & Hb).
  pose proof (ceil_div_bounds ks ps Hp Hk).
  pose proof (ceil_div_bounds rs ps Hp Hr).
  pose proof (ceil_div_bounds ss ps Hp Hs).
  pose proof (ceil_div_bounds ds ps Hp Hd).
  nia.
Qed.

Lemma fits32_pages (ps ks rs ss ds : Z) :
  fits32 ps ks rs ss ds ->
  pages ks ps = ceil_div ks ps /\ pages rs ps = ceil_div rs ps /\
  pages ss ps = ceil_div ss ps /\ pages ds ps = ceil_div ds ps.
Proof.
  intros F. pose proof (fits32_sizes _ _ _ _ _ F) as (A & B & C & D).
  destruct F as (Hp & Hk & Hr & Hs & Hd & Hb).
  repeat split; apply pages_exact; assumption.
Qed.

(** Under [fits32] every offset of the layout is the exact product. *)
Lemma fits32_layout (ps ks rs ss ds : Z) :
  fits32 ps ks rs ss ds ->
  let n := ceil_div ks ps in
  let m := ceil_div rs ps in
  let o := ceil_div ss ps in
  let p := ceil_div ds ps in
  layout ps ks rs ss ds =
  mklayout n m o p ps ((1 + n) * ps) ((1 + n + m) * ps)
           ((1 + n + m + o) * ps) ((1 + n + m + o + p) * ps)
           ((1 + n + m + o + p + 1) * ps).
Proof.
  intros F n m o p. unfold layout.
  destruct (fits32_pages _ _ _ _ _ F) as (-> & -> & -> & ->).
  destruct F as (Hp & Hk & Hr & Hs & Hd & Hb).
  pose proof (ceil_div_nonneg ks ps Hp Hk).
  pose proof (ceil_div_nonneg rs ps Hp Hr).
  pose proof (ceil_div_nonneg ss ps Hp Hs).
  pose proof (ceil_div_nonneg ds ps Hp Hd).
  fold n m o p in Hb, H, H0, H1, H2 |- *.
  rewrite !u32_small by nia. reflexivity.
Qed.

(** * The layout calculator *)

(** C2, as amended: for every page size > 0 and section sizes whose exact
    total size fits in 32 bits, each page count is the ceiling of
    size / page_size (0 for a size of 0), kernel_off = page_size, the other
    offsets accumulate the page counts, and total_size = signature_off +
    page_size; layout(2048, 9000, 500, 0, 0) gives n = 5, kernel_off = 2048,
    ramdisk_off = 12288 and total_size = 16384. *)
Theorem layout_exact_when_it_fits (ps ks rs ss ds : Z)
  (F : fits32 ps ks rs ss ds) :
  let L := layout ps ks rs ss ds in
  (is_ceiling (n_pages L) ks ps /\ is_ceiling (m_pages L) rs ps /\
   is_ceiling (o_pages L) ss ps /\ is_ceiling (p_pages L) ds ps) /\
  ((ks = 0 -> n_pages L = 0) /\ (rs = 0 -> m_pages L = 0) /\
   (ss = 0 -> o_pages L = 0) /\ (ds = 0 -> p_pages L = 0)) /\
  kernel_offset L = ps /\
  ramdisk_offset L = (1 + n_pages L) * ps /\
  second_offset L = (1 + n_pages L + m_pages L) * ps /\
  dtbs_offset L = (1 + n_pages L + m_pages L + o_pages L) * ps /\
  signature_offset L =
    (1 + n_pages L + m_pages L + o_pages L + p_pages L) * ps /\
  layout_size L = signature_offset L + ps /\
  layout 2048 9000 500 0 0 =
    mklayout 5 1 0 0 2048 12288 14336 14336 14336 16384.
Proof.
  intros L. unfold L. rewrite (fits32_layout _ _ _ _ _ F). cbn.
  destruct F as (Hp & Hk & Hr & Hs & Hd & Hb).
  repeat split; try (apply ceil_div_is_ceiling; assumption);
    try (intros ->; apply ceil_div_zero; assumption); try lia.
Qed.

Lemma layout_exact_when_it_fits_witness :
  fits32 2048 9000 500 0 0 /\
  ramdisk_offset (layout 2048 9000 500 0 0) =
    (1 + n_pages (layout 2048 9000 500 0 0)) * 2048.
Proof.
  assert (F : fits32 2048 9000 500 0 0).
  { unfold fits32. vm_compute. repeat split; discriminate. }
  split; [exact F|].
  apply (layout_exact_when_it_fits 2048 9000 500 0 0 F).
Defined.

(** C2 as stated fails: with a page size of 2048 and a kernel size of
    4294967295 the sum size + page_size - 1 wraps around, the program counts
    0 kernel pages, and the ceiling is 2097152. *)
Lemma layout_wraps_around :
  0 < 2048 /\
  n_pages (layout 2048 4294967295 500 0 0) = 0 /\
  is_ceiling 2097152 4294967295 2048 /\
  ~ is_ceiling (n_pages (layout 2048 4294967295 500 0 0)) 4294967295 2048.
Proof.
  split; [reflexivity|]. split; [reflexivity|]. split.
  - unfold is_ceiling. lia.
  - change (n_pages (layout 2048 4294967295 500 0 0)) with 0.
    unfold is_ceiling. lia.
Qed.

(** The layout of a header is the layout on which [update_images] checks the
    capacity. *)
Lemma total_size_layout (h : boot_img_hdr) :
  total_size h = layout_size (layout_of h).
Proof. reflexivity. Qed.

(** * The two formulas for the offset of the second stage *)

Lemma second_offsets_aligned (ps ks rs : Z) :
  0 < ps -> 0 <= ks -> 0 <= rs -> ks mod ps = 0 -> rs mod ps = 0 ->
  ks + rs + ps < 2 ^ 32 ->
  extract_second_offset ps ks rs = ks + rs + ps /\
  layout_second_offset ps ks rs = ks + rs + ps.
Proof.
  intros Hp Hk Hr Ak Ar Hb.
  unfold extract_second_offset, layout_second_offset.
  rewrite !pages_exact by lia.
  pose proof (ceil_div_aligned ks ps Hp Hk Ak) as Ek.
  pose proof (ceil_div_aligned rs ps Hp Hr Ar) as Er.
  assert (Akr : (rs + ks) mod ps = 0).
  { rewrite Z.add_mod by lia. rewrite Ak, Ar. reflexivity. }
  pose proof (ceil_div_aligned (rs + ks) ps Hp ltac:(lia) Akr) as Ekr.
  rewrite (u32_small (rs + ks + ps - 1)) by lia.
  change ((rs + ks + ps - 1) / ps) with (ceil_div (rs + ks) ps).
  split; rewrite u32_small; nia.
Qed.

(** C7, as amended: the combined page count of [extract_second] and the
    layout of [update_images] disagree for some page size > 0 and sizes that
    are not page-aligned (there the two offsets are the two formulas of the
    claim), while they agree for all page-aligned sizes whose offset
    kernel_size + ramdisk_size + page_size fits in 32 bits. *)
Theorem second_offset_formulas :
  (exists ps ks rs,
      0 < ps /\ ks mod ps <> 0 /\ rs mod ps <> 0 /\
      extract_second_offset ps ks rs = (1 + ceil_div (ks + rs) ps) * ps /\
      layout_second_offset ps ks rs
        = (1 + ceil_div ks ps + ceil_div rs ps) * ps /\
      extract_second_offset ps ks rs <> layout_second_offset ps ks rs) /\
  (forall ps ks rs,
      0 < ps -> 0 <= ks -> 0 <= rs -> ks mod ps = 0 -> rs mod ps = 0 ->
      ks + rs + ps < 2 ^ 32 ->
      extract_second_offset ps ks rs = layout_second_offset ps ks rs).
Proof.
  split.
  - exists 2048, 3, 2. vm_compute. repeat split; discriminate.
  - intros ps ks rs Hp Hk Hr Ak Ar Hb.
    destruct (second_offsets_aligned ps ks rs Hp Hk Hr Ak Ar Hb) as (-> & ->).
    reflexivity.
Qed.

Lemma second_offset_formulas_witness :
  extract_second_offset 2048 4096 2048 = layout_second_offset 2048 4096 2048.
Proof.
  apply (proj2 second_offset_formulas); vm_compute; congruence.
Defined.

(** C7 as stated fails in its second half: with a page size of 3 and two
    sizes of 3221225472 bytes, both multiples of 3, the 32-bit sums wrap
    around and the two offsets differ. *)
Lemma second_offsets_differ_when_aligned :
  0 < 3 /\ 3221225472 mod 3 = 0 /\
  extract_second_offset 3 3221225472 3221225472 = 2147483652 /\
  layout_second_offset 3 3221225472 3221225472 = 2147483651.
Proof. vm_compute. repeat split. Qed.

(** * The image reader *)

(** [strncmp] against the magic value is zero exactly for the magic value. *)
Lemma strncmp_magic (a0 a1 a2 a3 a4 a5 a6 a7 : Z) :
  strncmp [a0; a1; a2; a3; a4; a5; a6; a7] BOOT_MAGIC 8 = 0 <->
  [a0; a1; a2; a3; a4; a5; a6; a7] = BOOT_MAGIC.
Proof.
  unfold BOOT_MAGIC. cbn [strncmp hd tl].
  repeat match goal with
         | |- context [if ?a =? ?c then _ else _] =>
             destruct (Z.eqb_spec a c) as [->|N];
             [ cbn [Z.eqb Pos.eqb]
             | split; [ intros E; exfalso; lia
                      | intros E; exfalso; injection E; intros; congruence ] ]
         end.
  split; reflexivity.
Qed.

Lemma header_of_block_sub (b : buffer) (n : Z) :
  header_of_block (sub b 0 n) = header_of_block b.
Proof. reflexivity. Qed.

Lemma check_boot_img_header_spec (img : t_abootimg) :
  length (magic (header img)) = 8%nat ->
  (rejected (header img) (size img) -> check_boot_img_header img = 1) /\
  (~ rejected (header img) (size img) -> check_boot_img_header img = 0).
Proof.
  intros L. unfold rejected, check_boot_img_header, checked_size.
  destruct (magic (header img)) as [|a0 [|a1 [|a2 [|a3 [|a4 [|a5 [|a6 [|a7 [|]]]]]]]]];
    try discriminate L.
  change (Z.to_nat BOOT_MAGIC_SIZE) with 8%nat.
  pose proof (strncmp_magic a0 a1 a2 a3 a4 a5 a6 a7) as SM.
  destruct (Z.eqb_spec (strncmp [a0; a1; a2; a3; a4; a5; a6; a7] BOOT_MAGIC 8) 0)
    as [E|E]; cbn [negb].
  2:{ split; [reflexivity|]. intros H. exfalso. apply H. left.
      intros X. apply E, SM, X. }
  apply SM in E.
  destruct (Z.eqb_spec (kernel_size (header img)) 0) as [K|K];
    [split; [reflexivity | intros H; exfalso; apply H; auto] |].
  destruct (Z.eqb_spec (ramdisk_size (header img)) 0) as [R|R];
    [split; [reflexivity | intros H; exfalso; apply H; auto] |].
  destruct (Z.eqb_spec (page_size (header img)) 0) as [P|P];
    [split; [reflexivity | intros H; exfalso; apply H; auto 6] |].
  match goal with
  | |- context [if ?a <? ?b then _ else _] => destruct (Z.ltb_spec a b) as [T|T]
  end.
  - split; [reflexivity | intros H; exfalso; apply H; auto 6].
  - split; [|reflexivity]. intros [H|[H|[H|[H|H]]]]; try contradiction.
    lia.
Qed.

(** C3, as amended: for every file whose header can be read, [read_header]
    stops with "not a valid Android Boot Image" exactly when the 8-byte magic
    differs from "ANDROID!", or kernel_size is 0, or ramdisk_size is 0, or
    page_size is 0, or (1+n+m+o+p) x page_size, the size of the header page
    and the section pages without a signature page, in 32-bit arithmetic,
    exceeds the measured container size; a header meeting none of these
    conditions is accepted. *)
Theorem read_header_validation (is_blk : bool) (img : t_abootimg)
  (file : buffer) (Hlen : sizeof_boot_img_hdr <= blen file) :
  let h := header_of_block file in
  let r := fst (read_header is_blk img (mkFILE file 0)) in
  (rejected h (u32 (blen file)) -> r = Abort E_not_valid) /\
  (~ rejected h (u32 (blen file)) ->
   exists img', r = Ok img' /\ header img' = h /\ size img' = u32 (blen file)).
Proof.
  intros h r. unfold r, read_header, bind, fread, fstat_size.
  cbn [content fpos].
  assert (C : (0 <? sizeof_boot_img_hdr) && (0 <=? 0)
              && (0 + sizeof_boot_img_hdr <=? blen file) = true).
  { apply andb_true_intro. split; [reflexivity|]. apply Z.leb_le. lia. }
  rewrite C. cbn [content fpos].
  rewrite header_of_block_sub. fold h.
  set (img1 := with_is_blkdev is_blk
                 (with_size (u32 (blen file)) (with_header h img))).
  assert (L : length (magic (header img1)) = 8%nat) by reflexivity.
  destruct (check_boot_img_header_spec img1 L) as [Bad Good].
  change (header img1) with h in Bad, Good.
  change (size img1) with (u32 (blen file)) in Bad, Good.
  split; intros H.
  - rewrite (Bad H). reflexivity.
  - rewrite (Good H). cbn. exists img1. repeat split.
Qed.

Lemma read_header_validation_witness :
  sizeof_boot_img_hdr <= blen seven_pages /\
  exists img',
    fst (read_header false (new_bootimg no_arguments) (mkFILE seven_pages 0))
      = Ok img' /\
    header img' = header_of_block seven_pages /\ size img' = 14336.
Proof.
  assert (Hlen : sizeof_boot_img_hdr <= blen seven_pages) by (vm_compute; discriminate).
  split; [exact Hlen|].
  apply (proj2 (read_header_validation false (new_bootimg no_arguments)
                  seven_pages Hlen)).
  unfold rejected.
  intros [H|[H|[H|[H|H]]]]; vm_compute in H; try discriminate H.
  apply H. reflexivity.
Defined.

(** C3 as stated fails: a file of seven pages whose header declares five
    pages of kernel and one of ramdisk is accepted, although the total size
    with the signature page, (2+n+m+o+p) x page_size = 16384, exceeds the
    14336 bytes of the container. *)
Lemma reader_accepts_image_without_signature_page :
  let h := header_of_block seven_pages in
  layout_of h = mklayout 5 1 0 0 2048 12288 14336 14336 14336 16384 /\
  blen seven_pages < layout_size (layout_of h) /\
  is_ok (fst (read_header false (new_bootimg no_arguments)
                (mkFILE seven_pages 0))) = true.
Proof. vm_compute. repeat split. Qed.

(** * Reasoning about computations in [M] *)

Ltac cases :=
  repeat match goal with
         | |- context [?a <=? ?b] => destruct (Z.leb_spec a b)
         | |- context [?a <? ?b] => destruct (Z.ltb_spec a b)
         | |- context [?a =? ?b] => destruct (Z.eqb_spec a b)
         end; cbn [andb orb negb].

Lemma bind_ok {A B} (m : M A) (k : A -> M B) (s s' : FILE) (b : B) :
  bind m k s = (Ok b, s') ->
  exists a s1, m s = (Ok a, s1) /\ k a s1 = (Ok b, s').
Proof.
  unfold bind. destruct (m s) as [[a|e] s1]; intros H.
  - exists a, s1. split; [reflexivity | exact H].
  - discriminate H.
Qed.

Lemma bind_eq {A B} (m : M A) (k : A -> M B) (s s1 : FILE) (a : A) :
  m s = (Ok a, s1) -> bind m k s = k a s1.
Proof. unfold bind. intros ->. reflexivity. Qed.

Lemma read_only_ret {A} (a : A) : read_only (ret a).
Proof. intros s r s' H. inversion H. reflexivity. Qed.

Lemma read_only_abort {A} (e : error) : read_only (@abort A e).
Proof. intros s r s' H. inversion H. reflexivity. Qed.

Lemma read_only_lift {A} (x : result A) : read_only (lift x).
Proof. intros s r s' H. inversion H. reflexivity. Qed.

Lemma read_only_fseek (off : Z) : read_only (fseek off).
Proof. intros s r s' H. inversion H. reflexivity. Qed.

Lemma read_only_fstat : read_only fstat_size.
Proof. intros s r s' H. inversion H. reflexivity. Qed.

Lemma read_only_fread (n : Z) : read_only (fread n).
Proof.
  intros s r s' H. unfold fread in H.
  destruct ((0 <? n) && (0 <=? fpos s) && (fpos s + n <=? blen (content s)));
    inversion H; reflexivity.
Qed.

Lemma read_only_bind {A B} (m : M A) (k : A -> M B) :
  read_only m -> (forall a, read_only (k a)) -> read_only (bind m k).
Proof.
  intros Hm Hk s r s' H. unfold bind in H.
  destruct (m s) as [[a|e] s1] eqn:E.
  - rewrite (Hk a _ _ _ H). apply (Hm _ _ _ E).
  - inversion H. subst. apply (Hm _ _ _ E).
Qed.

Create HintDb ro.
#[local] Hint Resolve read_only_ret read_only_abort read_only_lift
  read_only_fseek read_only_fstat read_only_fread : ro.

Ltac read_only_tac :=
  repeat first
    [ apply read_only_bind; [|intros]
    | progress auto with ro
    | match goal with
      | |- read_only (match ?x with _ => _ end) => destruct x
      | |- read_only (if ?x then _ else _) => destruct x
      | |- read_only (let '(_, _) := ?x in _) => destruct x
      end ].

Lemma only_undefined_ret {A} (a : A) : only_undefined (ret a).
Proof. intros s e s' H. discriminate H. Qed.

Lemma only_undefined_abort {A} : only_undefined (@abort A E_undefined).
Proof. intros s e s' H. inversion H. reflexivity. Qed.

Lemma only_undefined_fseek (off : Z) : only_undefined (fseek off).
Proof. intros s e s' H. discriminate H. Qed.

Lemma only_undefined_fwrite (b : buffer) (n : Z) : only_undefined (fwrite b n).
Proof.
  intros s e s' H. unfold fwrite in H.
  destruct (n =? 0); [discriminate H|].
  destruct (blen b <? n); inversion H. reflexivity.
Qed.

Lemma only_undefined_bind {A B} (m : M A) (k : A -> M B) :
  only_undefined m -> (forall a, only_undefined (k a)) ->
  only_undefined (bind m k).
Proof.
  intros Hm Hk s e s' H. unfold bind in H.
  destruct (m s) as [[a|e1] s1] eqn:E.
  - apply (Hk a _ _ _ H).
  - inversion H. subst. apply (Hm _ _ _ E).
Qed.

Create HintDb undef.
#[local] Hint Resolve only_undefined_ret only_undefined_abort
  only_undefined_fseek only_undefined_fwrite : undef.

Ltac only_undefined_tac :=
  repeat first
    [ apply only_undefined_bind; [|intros]
    | progress auto with undef
    | match goal with
      | |- only_undefined (match ?x with _ => _ end) => destruct x
      | |- only_undefined (if ?x then _ else _) => destruct x
      end ].

Lemma above_ret {A} (B : Z) (a : A) : above B (ret a).
Proof. intros s r s' H. inversion H. subst. auto with zarith. Qed.

Lemma above_abort {A} (B : Z) (e : error) : above B (@abort A e).
Proof. intros s r s' H. inversion H. subst. auto with zarith. Qed.

Lemma above_fseek (B off : Z) : B <= off -> above B (fseek off).
Proof.
  intros Ho s r s' H. inversion H. subst. cbn. auto with zarith.
Qed.

Lemma above_fwrite (B : Z) (b : buffer) (n : Z) : 0 <= n -> above B (fwrite b n).
Proof.
  intros Hn s r s' H Hp. unfold fwrite in H.
  destruct (n =? 0); [inversion H; subst; auto with zarith|].
  destruct (blen b <? n); inversion H; subst; [auto with zarith|].
  cbn. split; [lia|]. split; [lia|]. intros i Hi Hl. cases; lia || reflexivity.
Qed.

Lemma above_bind {A B} (X : Z) (m : M A) (k : A -> M B) :
  above X m -> (forall a, above X (k a)) -> above X (bind m k).
Proof.
  intros Hm Hk s r s' H Hp. unfold bind in H.
  destruct (m s) as [[a|e] s1] eqn:E.
  - destruct (Hm _ _ _ E Hp) as (P1 & L1 & G1).
    destruct (Hk a _ _ _ H P1) as (P2 & L2 & G2).
    split; [exact P2|]. split; [lia|].
    intros i Hi Hl. rewrite G2 by lia. apply G1; lia.
  - inversion H. subst. apply (Hm _ _ _ E Hp).
Qed.


(** * The image writer: header page and padding *)

Lemma header_padding_exact (ps : Z) :
  sizeof_boot_img_hdr <= ps < 2 ^ 32 -> header_padding ps = ps - sizeof_boot_img_hdr.
Proof.
  intros H. unfold header_padding, usize, sizeof_boot_img_hdr in *.
  apply Z.mod_small. lia.
Qed.

Lemma header_padding_wraps (ps : Z) :
  0 <= ps < sizeof_boot_img_hdr ->
  header_padding ps = 2 ^ 64 + ps - sizeof_boot_img_hdr.
Proof.
  intros H. unfold header_padding, usize, sizeof_boot_img_hdr in *.
  replace (ps - 608) with ((2 ^ 64 + ps - 608) + (-1) * 2 ^ 64) by lia.
  rewrite Z.mod_add by lia. apply Z.mod_small. lia.
Qed.

(** The block of lines 834-843 for a page size in, and out of, the range
    that the padding length supports. *)
Lemma write_header_spec (img : t_abootimg) (s : FILE) :
  let ps := page_size (header img) in
  0 <= ps < 2 ^ 32 ->
  (sizeof_boot_img_hdr <= ps ->
   exists s',
     write_header (zeros ps) img s = (Ok tt, s') /\
     fpos s' = ps /\ ps <= blen (content s') /\
     (forall i, 0 <= i < sizeof_boot_img_hdr ->
                bget (content s') i = header_byte (header img) i) /\
     (forall i, sizeof_boot_img_hdr <= i < ps -> bget (content s') i = 0)) /\
  (ps < sizeof_boot_img_hdr ->
   fst (write_header (zeros ps) img s) = Abort E_undefined).
Proof.
  intros ps R. unfold write_header. fold ps.
  unfold bind, fseek, fwrite. cbn [content fpos blen header_block zeros].
  change (sizeof_boot_img_hdr =? 0) with false.
  change (sizeof_boot_img_hdr <? sizeof_boot_img_hdr) with false.
  cbn iota. split.
  - intros H. rewrite header_padding_exact by lia.
    unfold sizeof_boot_img_hdr in *.
    destruct (Z.eqb_spec (ps - 608) 0) as [E|E].
    + eexists. split; [reflexivity|]. cbn [content fpos blen write_at bget].
      split; [lia|]. split; [lia|]. split.
      * intros i Hi. cases; try lia; cbn; f_equal; lia.
      * intros i Hi. lia.
    + destruct (Z.ltb_spec ps (ps - 608)) as [L|L]; [lia|].
      eexists. split; [reflexivity|]. cbn [content fpos blen write_at bget].
      split; [lia|]. split; [lia|]. split.
      * intros i Hi. cases; try lia; cbn; f_equal; lia.
      * intros i Hi. cases; try lia; reflexivity.
  - intros H. rewrite header_padding_wraps by lia.
    unfold sizeof_boot_img_hdr in *.
    destruct (Z.eqb_spec (2 ^ 64 + ps - 608) 0) as [E|E]; [lia|].
    destruct (Z.ltb_spec ps (2 ^ 64 + ps - 608)) as [L|L]; [reflexivity|lia].
Qed.


(** C10: for every page size of at least 608 bytes, the size of the header
    struct, the writer emits one page at offset 0: the 608 header bytes
    followed by page_size - 608 zero bytes. The padding length is the
    unsigned difference page_size - sizeof(header); it equals the
    mathematical difference only when page_size >= 608, and for a smaller
    page size it wraps around to more than the padding block holds, so the
    write is undefined. *)
Theorem header_page_written (img : t_abootimg) (s : FILE) :
  let ps := page_size (header img) in
  0 <= ps < 2 ^ 32 ->
  (sizeof_boot_img_hdr <= ps ->
   exists s',
     write_header (zeros ps) img s = (Ok tt, s') /\
     fpos s' = ps /\ ps <= blen (content s') /\
     (forall i, 0 <= i < sizeof_boot_img_hdr ->
                bget (content s') i = header_byte (header img) i) /\
     (forall i, sizeof_boot_img_hdr <= i < ps -> bget (content s') i = 0)) /\
  (header_padding ps = ps - sizeof_boot_img_hdr <-> sizeof_boot_img_hdr <= ps) /\
  (ps < sizeof_boot_img_hdr ->
   fst (write_header (zeros ps) img s) = Abort E_undefined).
Proof.
  intros ps R. destruct (write_header_spec img s R) as [Good Bad].
  split; [exact Good|]. split; [split|exact Bad].
  - intros E. destruct (Z.le_gt_cases sizeof_boot_img_hdr ps) as [G|G]; [exact G|].
    fold ps in E. rewrite header_padding_wraps in E by lia. lia.
  - intros H. apply header_padding_exact. lia.
Qed.

Lemma header_page_written_witness :
  0 <= 2048 < 2 ^ 32 /\
  exists s',
    write_header (zeros 2048) aligned_kernel_image (mkFILE (zeros 0) 0)
      = (Ok tt, s') /\ fpos s' = 2048.
Proof.
  assert (R : 0 <= page_size (header aligned_kernel_image) < 2 ^ 32)
    by (change (page_size (header aligned_kernel_image)) with 2048; lia).
  split; [exact R|].
  destruct (proj1 (header_page_written aligned_kernel_image
                     (mkFILE (zeros 0) 0) R)) as (s' & W & P & _).
  - vm_compute. discriminate.
  - exists s'. split; [exact W | exact P].
Defined.

(** * The image writer: padding after a section *)

Lemma section_padding_exact (ps size : Z) :
  0 < ps < 2 ^ 32 -> section_padding ps size = ps - size mod ps.
Proof.
  intros H. unfold section_padding. apply u32_small.
  pose proof (Z.mod_pos_bound size ps ltac:(lia)). lia.
Qed.

(** The padding after a page-aligned section is a whole page. *)
Lemma section_padding_aligned (ps size : Z) :
  0 < ps < 2 ^ 32 -> size mod ps = 0 -> section_padding ps size = ps.
Proof. intros H A. rewrite section_padding_exact by exact H. lia. Qed.

(** C9 fails on the code. A kernel of 2048 bytes in an image of 2048-byte
    pages needs (-2048) mod 2048 = 0 bytes of padding, and the writer emits
    2048: starting at offset 2048 the stream ends at 6144, with page
    [4096, 6144) zero. The loop over the device trees tests
    [dtb_size % psize > 0] and emits no padding for a sub-blob of 2048
    bytes. *)
Theorem aligned_kernel_is_followed_by_a_page_of_padding :
  let img := aligned_kernel_image in
  let s' := snd (write_kernel (zeros 2048) img (mkFILE (zeros 2048) 2048)) in
  kernel_size (header img) mod page_size (header img) = 0 /\
  (- kernel_size (header img)) mod page_size (header img) = 0 /\
  section_padding (page_size (header img)) (kernel_size (header img)) = 2048 /\
  fpos s' = 2048 + 2048 + 2048 /\ blen (content s') = 6144 /\
  bget (content s') 4095 = 1 /\ bget (content s') 4096 = 0 /\
  fpos (snd (write_dtbs_loop 2048 (zeros 2048) aligned_dtb_table
               [Owned (mkbuf 2048 (fun _ => 2))] [0%nat]
               (mkFILE (zeros 2048) 2048))) = 2048 + 2048.
Proof. vm_compute. repeat split. Qed.

(** * Steps that only read the stream *)

Lemma read_only_read_header (b : bool) (img : t_abootimg) :
  read_only (read_header b img).
Proof. unfold read_header. read_only_tac. Qed.

Lemma read_header_ok (b : bool) (img img1 : t_abootimg) (s s1 : FILE) :
  read_header b img s = (Ok img1, s1) ->
  img1 = with_is_blkdev b
           (with_size (u32 (blen (content s)))
              (with_header
                 (header_of_block (sub (content s) (fpos s) sizeof_boot_img_hdr))
                 img)) /\
  check_boot_img_header img1 = 0 /\
  fpos s + sizeof_boot_img_hdr <= blen (content s) /\
  content s1 = content s.
Proof.
  intros R. pose proof (read_only_read_header _ _ _ _ _ R) as C.
  unfold read_header, bind, fread, fstat_size in R.
  destruct (Z.ltb_spec 0 sizeof_boot_img_hdr) as [_|X]; [|discriminate R].
  destruct (Z.leb_spec 0 (fpos s)) as [_|X]; [|discriminate R].
  destruct (Z.leb_spec (fpos s + sizeof_boot_img_hdr) (blen (content s)))
    as [Len|X]; [|discriminate R].
  cbn [andb content fpos] in R.
  remember (header_of_block (sub (content s) (fpos s) sizeof_boot_img_hdr))
    as h eqn:Hh.
  match type of R with
  | (if ?c then _ else _) _ = _ => destruct c eqn:Chk; [|discriminate R]
  end.
  apply Z.eqb_eq in Chk. inversion R. subst img1.
  repeat split; assumption.
Qed.

Lemma read_only_update_header (img : t_abootimg) : read_only (update_header img).
Proof. unfold update_header. read_only_tac. Qed.

Lemma read_only_load_sections (fs : filesystem) (img : t_abootimg) :
  read_only (load_sections fs img).
Proof.
  unfold load_sections, load_kernel, load_ramdisk, load_second, load_dtbs,
    copy_dtbs.
  read_only_tac.
Qed.

Lemma read_only_finish_update (img : t_abootimg) : read_only (finish_update img).
Proof. unfold finish_update. read_only_tac. Qed.

Lemma read_only_update_images (fs : filesystem) (img : t_abootimg) :
  read_only (update_images fs img).
Proof.
  unfold update_images. apply read_only_bind.
  - apply read_only_load_sections.
  - intros a. apply read_only_finish_update.
Qed.

Lemma read_only_update_steps (fs : filesystem) (t : target) (a : arguments) :
  read_only (update_steps fs t a).
Proof.
  unfold update_steps. apply read_only_bind; [apply read_only_read_header|].
  intros i. apply read_only_bind; [apply read_only_update_header|].
  intros j. apply read_only_update_images.
Qed.

(** * The writer stops only on undefined behaviour *)

Lemma only_undefined_write_dtbs_loop (ps : Z) (padding d : buffer)
  (tbl : list dtb_ptr) (l : list nat) :
  only_undefined (write_dtbs_loop ps padding d tbl l).
Proof.
  induction l as [|k l IH]; cbn [write_dtbs_loop]; [auto with undef|].
  destruct (blen d <? entry_at (Z.of_nat k + 1)); [auto with undef|].
  destruct (nth_error tbl k); [|auto with undef].
  apply only_undefined_bind; [auto with undef|]. intros _.
  apply only_undefined_bind; [|intros _; exact IH].
  destruct (0 <? dt_dtb_size d (Z.of_nat k) mod ps); auto with undef.
Qed.

Lemma only_undefined_write_bootimg (img : t_abootimg) :
  only_undefined (write_bootimg img).
Proof.
  unfold write_bootimg, write_header, write_kernel, write_ramdisk,
    write_second, write_dtbs, write_signature.
  destruct (page_size (header img) =? 0); [auto with undef|].
  repeat (apply only_undefined_bind; [|intros _]);
    try only_undefined_tac; try apply only_undefined_write_dtbs_loop.
Qed.

Lemma writes_nothing_read_only {A} (e : error) (m : M A) :
  read_only m -> writes_nothing_on e m.
Proof. intros H s s' E. apply (H _ _ _ E). Qed.

Lemma writes_nothing_only_undefined {A} (e : error) (m : M A) :
  only_undefined m -> e <> E_undefined -> writes_nothing_on e m.
Proof. intros H N s s' E. exfalso. apply N. apply (H _ _ _ E). Qed.

Lemma writes_nothing_bind {A B} (e : error) (m : M A) (k : A -> M B) :
  read_only m -> (forall a, writes_nothing_on e (k a)) ->
  writes_nothing_on e (bind m k).
Proof.
  intros Hm Hk s s' E. unfold bind in E.
  destruct (m s) as [[a|x] s1] eqn:Em.
  - rewrite (Hk a _ _ E). apply (Hm _ _ _ Em).
  - inversion E. subst. apply (Hm _ _ _ Em).
Qed.

Lemma writes_nothing_run {A} (e : error) (m : M A) (s : FILE) :
  writes_nothing_on e m -> fst (m s) = Abort e ->
  content (snd (m s)) = content s.
Proof.
  intros W E. destruct (m s) as [r s'] eqn:R. cbn [fst snd] in *. subst r.
  apply (W _ _ R).
Qed.

Lemma finish_update_cases (img : t_abootimg) (s : FILE) :
  let img1 := with_signature (memcpy (signature img) SEANDROIDENFORCE) img in
  let total := total_size (header img) in
  (size img = 0 -> finish_update img s = (Ok (with_size total img1), s)) /\
  (size img <> 0 -> size img < total ->
   finish_update img s = (Abort E_too_big, s)) /\
  (size img <> 0 -> total <= size img -> finish_update img s = (Ok img1, s)).
Proof.
  intros img1 total. unfold finish_update.
  change (size (with_signature (memcpy (signature img) SEANDROIDENFORCE) img))
    with (size img).
  change (header (with_signature (memcpy (signature img) SEANDROIDENFORCE) img))
    with (header img).
  fold total img1.
  destruct (Z.eqb_spec (size img) 0) as [Z|Z];
    destruct (Z.ltb_spec (size img) total) as [L|L];
    repeat split; intros; try reflexivity; try contradiction; try lia.
Qed.

(** * Capacity *)

(** C6, as amended: in every update or create run, once the sections are
    resolved the total size is recomputed from the final header; if a size
    is already fixed for the image (it is not 0: the length of the file
    being updated, the capacity of a block device, or a bootsize setting)
    and the total size exceeds it, the run stops with "updated is too big"
    and the bytes of the target are those it had when it was opened; if no
    size is fixed the size becomes the total size; otherwise the size stays
    as it was. *)
Theorem capacity_enforcement (fs : filesystem) (img img1 : t_abootimg)
  (s s1 : FILE) (H : load_sections fs img s = (Ok img1, s1)) :
  let total := layout_size (layout_of (header img1)) in
  (size img1 <> 0 -> size img1 < total ->
   update_images fs img s = (Abort E_too_big, s1)) /\
  (size img1 = 0 ->
   exists img2, update_images fs img s = (Ok img2, s1) /\
                size img2 = total /\ header img2 = header img1) /\
  (size img1 <> 0 -> total <= size img1 ->
   exists img2, update_images fs img s = (Ok img2, s1) /\
                size img2 = size img1 /\ header img2 = header img1) /\
  content s1 = content s /\
  (forall t a file,
      fst (main_update fs t a file) = Abort E_too_big ->
      content (snd (main_update fs t a file)) = file) /\
  (forall t a file,
      fst (main_create fs t a file) = Abort E_too_big ->
      content (snd (main_create fs t a file))
        = content (open_bootimg true t file)).
Proof.
  intros total. unfold total. rewrite <- total_size_layout.
  destruct (finish_update_cases img1 s1) as (Zero & Big & Fit).
  unfold update_images. rewrite (bind_eq _ _ _ _ _ H).
  split; [exact Big|]. split; [|split; [|split; [|split]]].
  - intros Z. eexists. split; [apply Zero; exact Z|]. split; reflexivity.
  - intros N L. eexists. split; [apply Fit; assumption|]. split; reflexivity.
  - apply (read_only_load_sections fs img _ _ _ H).
  - intros t a file E. unfold main_update in *.
    refine (writes_nothing_run E_too_big _ (open_bootimg false t file) _ E).
    apply writes_nothing_bind; [apply read_only_update_steps|].
    intros i. apply writes_nothing_only_undefined;
      [apply only_undefined_write_bootimg | discriminate].
  - intros t a file E. unfold main_create in *.
    destruct (arg_kernel a); [|discriminate E].
    destruct (arg_ramdisk a); [|discriminate E].
    destruct (check_if_block_device t (blen file) (new_bootimg a)) as [i0|x] eqn:C.
    2:{ cbn [fst snd] in *. inversion E. subst x.
        unfold check_if_block_device in C.
        destruct (has_blkid t && is_blk t); [|discriminate C].
        destruct (has_type t); discriminate C. }
    refine (writes_nothing_run E_too_big _ (open_bootimg true t file) _ E).
    apply writes_nothing_bind; [apply read_only_update_header|]. intros i.
    apply writes_nothing_bind; [apply read_only_update_images|]. intros j.
    destruct (check_boot_img_header j =? 0).
    + apply writes_nothing_only_undefined;
        [apply only_undefined_write_bootimg | discriminate].
    + apply writes_nothing_read_only, read_only_abort.
Qed.

Lemma capacity_enforcement_witness :
  load_sections no_files example_image (mkFILE seven_pages 0)
    = (Ok example_image, mkFILE seven_pages 0) /\
  exists img2,
    update_images no_files example_image (mkFILE seven_pages 0)
      = (Ok img2, mkFILE seven_pages 0) /\
    size img2 = layout_size (layout_of (header example_image)) /\
    header img2 = header example_image.
Proof.
  assert (H : load_sections no_files example_image (mkFILE seven_pages 0)
              = (Ok example_image, mkFILE seven_pages 0)) by reflexivity.
  split; [exact H|].
  apply (proj1 (proj2 (capacity_enforcement no_files example_image
                         example_image _ _ H))).
  reflexivity.
Defined.

(** C6 as stated fails in its last part: updating a file of ten pages
    (20480 bytes) whose layout needs 16384 bytes goes through, and the size
    of the image stays 20480; it is not set to the computed total size. *)
Lemma fixed_size_is_kept :
  match fst (update_steps no_files regular_file no_arguments
               (mkFILE ten_pages 0)) with
  | Ok img =>
      size img = 20480 /\ layout_size (layout_of (header img)) = 16384
  | Abort _ => False
  end.
Proof. vm_compute. split; reflexivity. Qed.

(** * The section loader *)

Lemma same_sections_refl (a : t_abootimg) : same_sections a a.
Proof. unfold same_sections. repeat split. Qed.

Lemma same_sections_trans (a b c : t_abootimg) :
  same_sections a b -> same_sections b c -> same_sections a c.
Proof.
  unfold same_sections. intros H1 H2.
  repeat match goal with H : _ /\ _ |- _ => destruct H end.
  repeat split; congruence.
Qed.

Lemma update_header_entry_frame (img img' : t_abootimg) (e : config_entry) :
  update_header_entry img e = Ok img' ->
  same_sections img' img /\
  (keeps_page_size e -> page_size (header img') = page_size (header img)).
Proof.
  intros H. destruct e; cbn [update_header_entry] in H;
    try discriminate H;
    repeat match type of H with
           | (if ?c then _ else _) = _ => destruct c; [discriminate H|]
           end;
    injection H as <-; (split; [unfold same_sections; repeat split|]);
    cbn [keeps_page_size]; intros K; try reflexivity; contradiction.
Qed.

Lemma update_header_entries_frame (es : list config_entry) :
  forall img img',
    update_header_entries img es = Ok img' ->
    same_sections img' img /\
    (Forall keeps_page_size es ->
     page_size (header img') = page_size (header img)).
Proof.
  induction es as [|e es IH]; intros img img' H; cbn [update_header_entries] in H.
  - injection H as <-. split; [apply same_sections_refl | reflexivity].
  - destruct (update_header_entry img e) as [img1|x] eqn:E; [|discriminate H].
    destruct (update_header_entry_frame _ _ _ E) as [S1 P1].
    destruct (IH _ _ H) as [S2 P2]. split.
    + apply (same_sections_trans _ _ _ S2 S1).
    + intros F. inversion F as [|? ? Fe Fes]. subst.
      rewrite (P2 Fes). apply P1. exact Fe.
Qed.

Lemma update_header_frame (img img' : t_abootimg) (s s' : FILE) :
  update_header img s = (Ok img', s') ->
  s' = s /\ same_sections img' img /\
  (Forall keeps_page_size (config img) ->
   page_size (header img') = page_size (header img)).
Proof.
  unfold update_header, lift. intros H.
  destruct (update_header_entries img (config img)) as [i|x] eqn:E;
    [|discriminate H].
  injection H as <- <-. split; [reflexivity|].
  apply (update_header_entries_frame _ _ _ E).
Qed.

Lemma update_header_no_config (img : t_abootimg) (s : FILE) :
  config img = [] -> update_header img s = (Ok img, s).
Proof. intros C. unfold update_header. rewrite C. reflexivity. Qed.

Lemma load_sections_nothing_named (fs : filesystem) (img : t_abootimg)
  (s : FILE) :
  kernel_fname img = None -> ramdisk_fname img = None ->
  second_fname img = None -> kernel img = None -> ramdisk img = None ->
  page_size (header img) <> 0 ->
  load_sections fs img s =
  load_dtbs fs (page_size (header img)) (dtbs_size (header img))
            (dtbs_offset (layout_of (header img))) img s.
Proof.
  intros Kf Rf Sf K R P. unfold load_sections, load_kernel.
  destruct (Z.eqb_spec (page_size (header img)) 0) as [E|_]; [contradiction|].
  rewrite Kf. unfold bind at 1. cbn [ret].
  unfold load_ramdisk. rewrite Rf, K. unfold bind at 1. cbn [ret].
  unfold load_second. rewrite Sf, R. unfold bind at 1. cbn [ret].
  reflexivity.
Qed.

Lemma update_images_nothing_named (fs : filesystem) (img img' : t_abootimg)
  (s s' : FILE) :
  kernel_fname img = None -> ramdisk_fname img = None ->
  second_fname img = None -> dtbs_fname img = None ->
  kernel img = None -> ramdisk img = None -> second img = None ->
  dtbh img = None ->
  update_images fs img s = (Ok img', s') ->
  kernel img' = None /\ ramdisk img' = None /\ second img' = None /\
  (dtbs_size (header img') = 0 -> dtbh img' = None) /\
  (dtbs_size (header img') <> 0 ->
   dtbh img' = Some (sub (content s) (dtbs_offset (layout_of (header img')))
                         (dtbs_size (header img')))).
Proof.
  intros Kf Rf Sf Df K R S D H. unfold update_images in H.
  apply bind_ok in H. destruct H as (img2 & s2 & L & F).
  assert (P : page_size (header img) <> 0).
  { intros Z. unfold load_sections in L. rewrite Z in L. discriminate L. }
  rewrite (load_sections_nothing_named fs img s Kf Rf Sf K R P) in L.
  unfold load_dtbs in L. rewrite Df in L.
  destruct (finish_update_cases img2 s2) as (Zero & Big & Fit).
  assert (X : header img' = header img2 /\ kernel img' = kernel img2 /\
              ramdisk img' = ramdisk img2 /\ second img' = second img2 /\
              dtbh img' = dtbh img2).
  { destruct (Z.eq_dec (size img2) 0) as [Z|Z].
    - rewrite (Zero Z) in F. inversion F. repeat split.
    - destruct (Z_lt_le_dec (size img2) (total_size (header img2))) as [B|B].
      + rewrite (Big Z B) in F. discriminate F.
      + rewrite (Fit Z B) in F. inversion F. repeat split. }
  destruct X as (-> & -> & -> & -> & ->). clear Zero Big Fit F.
  destruct (Z.eqb_spec (dtbs_size (header img)) 0) as [E|E]; cbn [negb] in L.
  - inversion L. subst img2. rewrite K, R, S, D. repeat split.
    intros N. contradiction.
  - unfold copy_dtbs, bind, fseek, fread in L. cbn [content fpos] in L.
    destruct ((0 <? dtbs_size (header img)) && (0 <=? _)
              && (_ <=? blen (content s))); [|discriminate L].
    cbn [blen sub] in L.
    destruct (dtbs_size (header img) <? sizeof_dtbs_t); [discriminate L|].
    destruct (dtbs_size (header img) <? entry_at _); [discriminate L|].
    inversion L. cbn [kernel ramdisk second dtbh header with_dtbh].
    rewrite K, R, S. repeat split. intros Z. contradiction.
Qed.

Lemma update_images_nothing_named_header (fs : filesystem)
  (img img' : t_abootimg) (s s' : FILE) :
  kernel_fname img = None -> ramdisk_fname img = None ->
  second_fname img = None -> dtbs_fname img = None ->
  kernel img = None -> ramdisk img = None ->
  update_images fs img s = (Ok img', s') ->
  header img' = header img.
Proof.
  intros Kf Rf Sf Df K R H. unfold update_images in H.
  apply bind_ok in H. destruct H as (img2 & s2 & L & F).
  assert (P : page_size (header img) <> 0).
  { intros Z. unfold load_sections in L. rewrite Z in L. discriminate L. }
  rewrite (load_sections_nothing_named fs img s Kf Rf Sf K R P) in L.
  unfold load_dtbs in L. rewrite Df in L.
  assert (X : header img' = header img2).
  { unfold finish_update in F. cbn [size header with_signature] in F.
    destruct (size img2 =? 0); [injection F as <- _; reflexivity|].
    destruct (size img2 <? total_size (header img2)); [discriminate F|].
    injection F as <- _. reflexivity. }
  rewrite X. clear X F.
  destruct (negb (dtbs_size (header img) =? 0)).
  - unfold copy_dtbs in L.
    apply bind_ok in L. destruct L as ([] & s3 & _ & L).
    apply bind_ok in L. destruct L as (d & s4 & _ & L).
    destruct (blen d <? sizeof_dtbs_t); [discriminate L|].
    destruct (blen d <? entry_at (num_entries d)); [discriminate L|].
    injection L as <- _. reflexivity.
  - injection L as <- _. reflexivity.
Qed.

(** C8, as amended: in every update run in which no replacement file is
    named for any of the four sections, the kernel, ramdisk and second-stage
    buffers remain unset and the four sizes of the header are those of the
    original image; the device-tree buffer remains unset only when the
    header's dtbs_size is 0, otherwise the region of dtbs_size bytes is
    copied forward, although no preceding section was replaced, from the
    device-tree offset computed from the header after the settings are
    applied. When no setting changes the page size, that offset is the
    offset of the region in the original image. *)
Theorem nothing_named_loads_only_dtbs (fs : filesystem) (t : target)
  (a : arguments) (s s' : FILE) (img' : t_abootimg)
  (Hk : arg_kernel a = None) (Hr : arg_ramdisk a = None)
  (Hs : arg_second a = None) (Hd : arg_dtbs a = None)
  (H : update_steps fs t a s = (Ok img', s')) :
  let h0 := header_of_block (sub (content s) (fpos s) sizeof_boot_img_hdr) in
  kernel img' = None /\ ramdisk img' = None /\ second img' = None /\
  (kernel_size (header img') = kernel_size h0 /\
   ramdisk_size (header img') = ramdisk_size h0 /\
   second_size (header img') = second_size h0 /\
   dtbs_size (header img') = dtbs_size h0) /\
  (dtbs_size h0 = 0 -> dtbh img' = None) /\
  (dtbs_size h0 <> 0 ->
   dtbh img' = Some (sub (content s) (dtbs_offset (layout_of (header img')))
                         (dtbs_size h0))) /\
  (Forall keeps_page_size (arg_config a) ->
   page_size (header img') = page_size h0 /\
   layout_of (header img') = layout_of h0 /\
   (dtbs_size h0 <> 0 ->
    dtbh img' = Some (sub (content s) (dtbs_offset (layout_of h0))
                          (dtbs_size h0)))).
Proof.
  intros h0. unfold update_steps in H.
  apply bind_ok in H. destruct H as (img0 & s0 & R & H).
  apply read_header_ok in R. destruct R as (E0 & _ & _ & C0).
  fold h0 in E0.
  apply bind_ok in H. destruct H as (img1 & s1 & U & H).
  apply update_header_frame in U. destruct U as (-> & Same & Pg).
  destruct Same as (Kf & Rf & Sf & Df & K & R & S & D & Zk & Zr & Zs & Zd).
  assert (Q : kernel_fname img1 = None /\ ramdisk_fname img1 = None /\
              second_fname img1 = None /\ dtbs_fname img1 = None /\
              kernel img1 = None /\ ramdisk img1 = None /\
              second img1 = None /\ dtbh img1 = None).
  { rewrite Kf, Rf, Sf, Df, K, R, S, D. subst img0.
    repeat split; assumption. }
  destruct Q as (Kf1 & Rf1 & Sf1 & Df1 & K1 & R1 & S1 & D1).
  pose proof (update_images_nothing_named_header fs img1 img' s0 s'
                Kf1 Rf1 Sf1 Df1 K1 R1 H) as Eh.
  destruct (update_images_nothing_named fs img1 img' s0 s'
              Kf1 Rf1 Sf1 Df1 K1 R1 S1 D1 H) as (A1 & A2 & A3 & A4 & A5).
  assert (Z0 : kernel_size (header img') = kernel_size h0 /\
               ramdisk_size (header img') = ramdisk_size h0 /\
               second_size (header img') = second_size h0 /\
               dtbs_size (header img') = dtbs_size h0).
  { rewrite Eh, Zk, Zr, Zs, Zd. subst img0. repeat split. }
  destruct Z0 as (Xk & Xr & Xs & Xd).
  rewrite Xd in A4, A5. rewrite C0 in A5.
  assert (Cfg : config img0 = arg_config a) by (subst img0; reflexivity).
  assert (P0 : page_size (header img0) = page_size h0)
    by (subst img0; reflexivity).
  split; [exact A1|]. split; [exact A2|]. split; [exact A3|].
  split; [repeat split; assumption|].
  split; [exact A4|]. split; [exact A5|].
  intros Keep. rewrite Cfg in Pg. specialize (Pg Keep).
  assert (Xp : page_size (header img') = page_size h0)
    by (rewrite Eh, Pg; exact P0).
  assert (La : layout_of (header img') = layout_of h0)
    by (unfold layout_of; rewrite Xp, Xk, Xr, Xs, Xd; reflexivity).
  split; [exact Xp|]. split; [exact La|].
  rewrite <- La. exact A5.
Qed.

Lemma nothing_named_loads_only_dtbs_witness :
  exists img' s',
    update_steps no_files regular_file no_arguments (mkFILE image_with_dtbs 0)
      = (Ok img', s') /\
    kernel img' = None /\ dtbs_size (header img') = 2048 /\
    dtbh img' = Some (sub image_with_dtbs 6144 2048).
Proof.
  destruct (update_steps no_files regular_file no_arguments
              (mkFILE image_with_dtbs 0)) as [[img'|e] s'] eqn:E.
  - exists img', s'. split; [reflexivity|].
    destruct (nothing_named_loads_only_dtbs _ _ no_arguments _ _ _
                eq_refl eq_refl eq_refl eq_refl E)
      as (K & _ & _ & (_ & _ & _ & Zd) & _ & _ & Keep).
    split; [exact K|]. split; [exact Zd|].
    destruct (Keep (Forall_nil _)) as (_ & _ & Cp).
    apply Cp. vm_compute. discriminate.
  - exfalso. apply (f_equal (fun r => is_ok (fst r))) in E.
    vm_compute in E. discriminate E.
Defined.

(** C8 as stated fails: an update of a five-page image whose header has
    dtbs_size = 2048, with no replacement named, leaves kernel, ramdisk and
    second stage unset and sets the device-tree buffer. *)
Lemma dtbs_are_copied_when_nothing_is_named :
  match fst (update_steps no_files regular_file no_arguments
               (mkFILE image_with_dtbs 0)) with
  | Ok img =>
      is_set (kernel img) = false /\ is_set (ramdisk img) = false /\
      is_set (second img) = false /\ is_set (dtbh img) = true /\
      dtbs_size (header img) = 2048
  | Abort _ => False
  end.
Proof. vm_compute. repeat split. Qed.

(** The offset of the copy follows the page size in force after the
    settings: on an image of 4096-byte pages whose device trees stand at
    offset 12288, an update that names no section and sets the page size to
    2048 completes and fills the device-tree buffer from offset 6144. *)
Lemma pagesize_setting_moves_the_copy :
  dtbs_offset (layout_of header_of_large_pages) = 12288 /\
  bget image_of_large_pages (12288 + 100) = 66 /\
  match fst (update_steps no_files regular_file smaller_pages
               (mkFILE image_of_large_pages 0)) with
  | Ok img =>
      page_size (header img) = 2048 /\
      dtbs_offset (layout_of (header img)) = 6144 /\
      match dtbh img with
      | Some d => blen d = 4096 /\ bget d 100 = 55
      | None => False
      end
  | Abort _ => False
  end.
Proof. vm_compute. repeat split. Qed.

(** * Words in a block *)

Lemma le32_recompose (v : Z) :
  le32_byte v 0 mod 256 + 256 * (le32_byte v 1 mod 256)
  + 65536 * (le32_byte v 2 mod 256) + 16777216 * (le32_byte v 3 mod 256)
  = u32 v.
Proof.
  unfold le32_byte. pose proof (u32_range v) as R. set (w := u32 v) in *.
  rewrite !Z.mod_mod by lia.
  change (256 ^ 0) with 1. change (256 ^ 1) with 256.
  change (256 ^ 2) with 65536. change (256 ^ 3) with 16777216.
  change (2 ^ 32) with 4294967296 in R.
  rewrite Z.div_1_r.
  pose proof (Z.div_mod w 256 ltac:(lia)) as E0.
  pose proof (Z.div_mod (w / 256) 256 ltac:(lia)) as E1.
  pose proof (Z.div_mod (w / 256 / 256) 256 ltac:(lia)) as E2.
  rewrite Z.div_div in E1, E2 by lia.
  rewrite Z.div_div in E2 by lia.
  change (256 * 256) with 65536 in *. change (65536 * 256) with 16777216 in *.
  assert (B : 0 <= w / 16777216 < 256).
  { split; [apply Z.div_pos; lia|]. apply Z.div_lt_upper_bound; lia. }
  rewrite (Z.mod_small (w / 16777216) 256) by exact B.
  lia.
Qed.

Lemma get_u32_range (b : buffer) (off : Z) : 0 <= get_u32 b off < 2 ^ 32.
Proof.
  unfold get_u32, byte_at.
  pose proof (Z.mod_pos_bound (bget b off) 256 eq_refl).
  pose proof (Z.mod_pos_bound (bget b (off + 1)) 256 eq_refl).
  pose proof (Z.mod_pos_bound (bget b (off + 2)) 256 eq_refl).
  pose proof (Z.mod_pos_bound (bget b (off + 3)) 256 eq_refl).
  change (2 ^ 32) with 4294967296. lia.
Qed.

(** A word whose four bytes are those of [v]. *)
Lemma get_u32_bytes (b : buffer) (off v : Z) :
  (forall j, 0 <= j < 4 -> bget b (off + j) = le32_byte v j) ->
  get_u32 b off = u32 v.
Proof.
  intros H. unfold get_u32, byte_at.
  replace (bget b off) with (bget b (off + 0)) by (f_equal; lia).
  rewrite !H by lia. apply le32_recompose.
Qed.

Lemma get_u32_ext (a b : buffer) (off : Z) :
  (forall j, 0 <= j < 4 -> bget a (off + j) = bget b (off + j)) ->
  get_u32 a off = get_u32 b off.
Proof.
  intros H. unfold get_u32, byte_at.
  replace (bget a off) with (bget a (off + 0)) by (f_equal; lia).
  replace (bget b off) with (bget b (off + 0)) by (f_equal; lia).
  rewrite !H by lia. reflexivity.
Qed.

Lemma get_set_u32_same (b : buffer) (off v : Z) :
  get_u32 (set_u32 b off v) off = u32 v.
Proof.
  apply get_u32_bytes. intros j Hj. unfold set_u32. cbn [bget].
  cases; try lia; f_equal; lia.
Qed.

Lemma get_set_u32_other (b : buffer) (off off' v : Z) :
  off' + 4 <= off \/ off + 4 <= off' ->
  get_u32 (set_u32 b off v) off' = get_u32 b off'.
Proof.
  intros H. apply get_u32_ext. intros j Hj. unfold set_u32. cbn [bget].
  cases; try lia; reflexivity.
Qed.

(** * Replacing the device-tree table *)

Lemma sum_pages_app (ps : Z) (a b : list buffer) :
  sum_pages ps (a ++ b) = sum_pages ps a + sum_pages ps b.
Proof.
  induction a as [|x a IH]; cbn [sum_pages app fold_right] in *; [reflexivity|].
  fold (sum_pages ps (a ++ b)). fold (sum_pages ps a). rewrite IH. lia.
Qed.

Lemma sum_pages_nonneg (ps : Z) (l : list buffer) :
  0 < ps -> Forall (fun b => 0 < blen b) l -> 0 <= sum_pages ps l.
Proof.
  intros Hp F. induction F as [|x l Hx F IH]; cbn [sum_pages fold_right];
    [lia|].
  fold (sum_pages ps l). pose proof (ceil_div_nonneg (blen x) ps Hp). lia.
Qed.

Section ReplaceDtbs.
Variables (fs : filesystem) (fname : string) (ps : Z) (blobs : list buffer).
Hypothesis Hps : 0 < ps < 2 ^ 32.
Hypothesis Hfs : forall k b, nth_error blobs k = Some b ->
                             fs (dtb_name fname (Z.of_nat k)) = Some b.
Hypothesis Hpos : Forall (fun b => 0 < blen b) blobs.
Hypothesis Hfit : (1 + sum_pages ps blobs) * ps < 2 ^ 32.
Hypothesis Hnm : forall k, (k < length blobs)%nat ->
                           fits_dtbname (dtb_name fname (Z.of_nat k)) = true.

(** The entries below [k] hold the offsets and sizes of the first [k]
    sub-blobs. *)
Let entries_set (d : buffer) (k : nat) : Prop :=
  forall j, (j < k)%nat ->
    dt_offset d (Z.of_nat j) = (1 + sum_pages ps (firstn j blobs)) * ps /\
    dt_dtb_size d (Z.of_nat j) = blen (nth j blobs (zeros 0)).

Lemma replace_dtbs_loop_spec (rest done : list buffer) (d : buffer) :
  blobs = done ++ rest ->
  blen d = ps ->
  num_entries d = Z.of_nat (length blobs) ->
  entry_at (Z.of_nat (length blobs)) <= ps ->
  entries_set d (length done) ->
  exists d',
    replace_dtbs_loop fs fname ps (length rest) (Z.of_nat (length done))
      (1 + sum_pages ps done) d (map Owned done)
    = Ok (d', map Owned blobs, 1 + sum_pages ps blobs) /\
    blen d' = ps /\ num_entries d' = Z.of_nat (length blobs) /\
    entries_set d' (length blobs).
Proof.
  revert done d.
  induction rest as [|b rest IH]; intros done d E L Hn B Hs.
  - rewrite app_nil_r in E. subst done. cbn [length replace_dtbs_loop].
    rewrite Hn, Z.ltb_irrefl. exists d.
    split; [reflexivity|]. split; [exact L|]. split; [exact Hn | exact Hs].
  - cbn [length replace_dtbs_loop].
    assert (Ld : length blobs = (length done + S (length rest))%nat).
    { rewrite E, length_app. reflexivity. }
    assert (Fb : 0 < blen b /\ Forall (fun b => 0 < blen b) done
                 /\ Forall (fun b => 0 < blen b) rest).
    { rewrite E in Hpos. apply Forall_app in Hpos. destruct Hpos as [A C].
      inversion C. auto. }
    destruct Fb as (Pb & Fd & Fr).
    assert (Sp : sum_pages ps blobs
                 = sum_pages ps done + ceil_div (blen b) ps + sum_pages ps rest).
    { rewrite E, sum_pages_app. cbn [sum_pages fold_right].
      fold (sum_pages ps rest). lia. }
    pose proof (sum_pages_nonneg ps done ltac:(lia) Fd) as Nd.
    pose proof (sum_pages_nonneg ps rest ltac:(lia) Fr) as Nr.
    pose proof (ceil_div_bounds (blen b) ps ltac:(lia) ltac:(lia)) as Cb.
    assert (Cp : 0 < ceil_div (blen b) ps) by nia.
    rewrite Hn.
    destruct (Z.ltb_spec (Z.of_nat (length done)) (Z.of_nat (length blobs)))
      as [_|X]; [|lia].
    rewrite (Hnm (length done)) by lia. cbn [negb].
    rewrite L.
    destruct (Z.ltb_spec ps (entry_at (Z.of_nat (length done) + 1)))
      as [X|_]; [unfold entry_at, sizeof_dtbs_t, sizeof_dt_entry_t in *; lia|].
    rewrite (Hfs (length done) b)
      by (rewrite E, nth_error_app2, Nat.sub_diag by lia; reflexivity).
    destruct (Z.leb_spec (blen b) 0) as [X|_]; [lia|].
    set (d1 := set_u32 _ _ (blen b)).
    replace (u32 (1 + sum_pages ps done + (blen b + ps - 1) / ps))
      with (1 + sum_pages ps (done ++ [b])).
    2:{ rewrite sum_pages_app. cbn [sum_pages fold_right].
        fold (ceil_div (blen b) ps). rewrite u32_small; [lia|]. nia. }
    replace (Z.of_nat (length done) + 1) with (Z.of_nat (length (done ++ [b])))
      by (rewrite length_app; cbn [length]; lia).
    replace (map Owned done ++ [Owned b]) with (map Owned (done ++ [b]))
      by (rewrite map_app; reflexivity).
    apply (IH (done ++ [b]) d1).
    + rewrite E, <- app_assoc. reflexivity.
    + exact L.
    + unfold d1, num_entries.
      rewrite !get_set_u32_other; [exact Hn | |];
        unfold entry_at, sizeof_dtbs_t, sizeof_dt_entry_t, offsetof_offset,
          offsetof_dtb_size, offsetof_num_entries; lia.
    + exact B.
    + intros j Hj. rewrite length_app in Hj. cbn [length] in Hj.
      unfold d1, dt_offset, dt_dtb_size.
      destruct (Nat.eq_dec j (length done)) as [->|Nj].
      * rewrite get_set_u32_other, !get_set_u32_same
          by (unfold offsetof_offset, offsetof_dtb_size; lia).
        split.
        -- rewrite E, firstn_app, Nat.sub_diag, firstn_all, firstn_O,
             app_nil_r.
           apply u32_small. nia.
        -- rewrite E, app_nth2, Nat.sub_diag by lia. cbn [nth].
           apply u32_small. nia.
      * assert (Hlt : (j < length done)%nat) by lia.
        destruct (Hs j Hlt) as [O1 O2]. unfold dt_offset, dt_dtb_size in O1, O2.
        rewrite !get_set_u32_other; [split; assumption | | | |];
          unfold entry_at, sizeof_dtbs_t, sizeof_dt_entry_t, offsetof_offset,
            offsetof_dtb_size; lia.
Qed.
End ReplaceDtbs.

(** C5, as amended: after the table is replaced with N sub-blobs of byte
    lengths s_0 .. s_(N-1), when (1 + sum_j ceil(s_j / page_size)) x page_size
    fits in 32 bits, every entry i has its offset field equal to
    (1 + sum_(j<i) ceil(s_j / page_size)) x page_size (the first sub-blob
    starts at page_size) and its dtb_size field equal to s_i, and the
    header's dtbs_size is (1 + sum_j ceil(s_j / page_size)) x page_size.
    The replacement completes when the names of the table file and of the
    N sub-blob files fit, with their terminating NUL, in the 256 bytes of
    [dtbname], the table file is not empty and fits in one page together
    with its N entries, and no sub-blob file is empty. *)
Theorem dtb_table_rewritten (fs : filesystem) (fname : string)
  (img : t_abootimg) (table : buffer) (blobs : list buffer) :
  let ps := page_size (header img) in
  0 < ps < 2 ^ 32 ->
  dtbs_names_fit fname (length blobs) ->
  dtbs_files fs fname table blobs ->
  0 < blen table <= ps ->
  num_entries (dtbh_block ps table) = Z.of_nat (length blobs) ->
  entry_at (Z.of_nat (length blobs)) <= ps ->
  Forall (fun b => 0 < blen b) blobs ->
  (1 + sum_pages ps blobs) * ps < 2 ^ 32 ->
  exists img' d',
    replace_dtbs fs fname ps img = Ok img' /\
    (forall s ds doff, dtbs_fname img = Some fname ->
                       load_dtbs fs ps ds doff img s = (Ok img', s)) /\
    dtbh img' = Some d' /\ dtbs img' = map Owned blobs /\
    num_entries d' = Z.of_nat (length blobs) /\
    (forall i, (i < length blobs)%nat ->
       dt_offset d' (Z.of_nat i) = (1 + sum_pages ps (firstn i blobs)) * ps /\
       dt_dtb_size d' (Z.of_nat i) = blen (nth i blobs (zeros 0))) /\
    dtbs_size (header img') = (1 + sum_pages ps blobs) * ps.
Proof.
  intros ps Hps [Nt Nb] [Ft Fb] Ht Hn Hb Hpos Hfit.
  assert (Hd : u32 (blen table) = blen table) by (apply u32_small; lia).
  pose proof (sum_pages_nonneg ps blobs ltac:(lia) Hpos) as Nn.
  destruct (replace_dtbs_loop_spec fs fname ps blobs Hps Fb Hpos Hfit Nb
              blobs [] (dtbh_block ps table) eq_refl eq_refl Hn Hb)
    as (d' & Loop & Ld & Nd & Ed).
  { intros j Hj. inversion Hj. }
  cbn [length Z.of_nat map sum_pages fold_right] in Loop.
  rewrite Z.add_0_r in Loop.
  assert (R : replace_dtbs fs fname ps img
              = Ok (with_header
                      (with_dtbs_size ((1 + sum_pages ps blobs) * ps) (header img))
                      (with_dtbh (Some d') (map Owned blobs) img))).
  { unfold replace_dtbs. rewrite Nt. cbn [negb]. rewrite Ft, Hd.
    destruct (Z.ltb_spec 0 (blen table)) as [_|X]; [|lia].
    destruct (Z.leb_spec (blen table) (blen table)) as [_|X]; [|lia].
    cbn [andb negb].
    destruct (Z.ltb_spec ps (blen table)) as [X|_]; [lia|].
    cbn [blen dtbh_block].
    destruct (Z.ltb_spec ps sizeof_dtbs_t) as [X|_];
      [unfold entry_at, sizeof_dtbs_t, sizeof_dt_entry_t in *; lia|].
    rewrite Hn, Nat2Z.id, Loop. rewrite u32_small by nia. reflexivity. }
  eexists. exists d'. split; [exact R|]. split.
  - intros s ds doff Df. unfold load_dtbs. rewrite Df, R. reflexivity.
  - cbn [dtbh dtbs header with_header with_dtbh dtbs_size with_dtbs_size].
    repeat split; try assumption; apply Ed; assumption.
Qed.

Lemma dtb_table_rewritten_witness :
  exists img' d',
    replace_dtbs (platform_files 3000) "platform" 2048 example_image = Ok img' /\
    dtbh img' = Some d' /\
    dt_offset d' 0 = 2048 /\ dt_dtb_size d' 0 = 3000 /\
    dtbs_size (header img') = 6144.
Proof.
  destruct (dtb_table_rewritten (platform_files 3000) "platform" example_image
              one_entry_table [mkbuf 3000 (fun _ => 7)])
    as (img' & d' & R & _ & D & _ & _ & E & S).
  - change (page_size (header example_image)) with 2048. lia.
  - split; [reflexivity|]. intros [|k] Hk; [reflexivity | cbn in Hk; lia].
  - split; [reflexivity|]. intros [|[|k]] b Hk; cbn in Hk; try discriminate Hk.
    inversion Hk. reflexivity.
  - change (page_size (header example_image)) with 2048.
    change (blen one_entry_table) with 44. lia.
  - reflexivity.
  - change (page_size (header example_image)) with 2048.
    change (entry_at (Z.of_nat (length [mkbuf 3000 (fun _ => 7)]))) with 44. lia.
  - repeat constructor.
  - change (page_size (header example_image)) with 2048.
    change (sum_pages 2048 [mkbuf 3000 (fun _ => 7)]) with 2. lia.
  - exists img', d'. split; [exact R|]. split; [exact D|].
    destruct (E 0%nat ltac:(cbn; lia)) as [O Z]. split; [exact O|].
    split; [exact Z | exact S].
Defined.

(** The name of the table file is formatted into the 256 bytes of
    [dtbname]: a name of 251 characters or more given with [-d] is written
    past the end of the array, whatever the files hold. *)
Lemma string_length_append (a b : string) :
  String.length (a ++ b) = (String.length a + String.length b)%nat.
Proof.
  induction a as [|c a IH]; [reflexivity|].
  cbn [String.append String.length]. rewrite IH. reflexivity.
Qed.

Lemma long_name_overruns_dtbname (fs : filesystem) (fname : string) (ps : Z)
  (img : t_abootimg) :
  (251 <= String.length fname)%nat ->
  replace_dtbs fs fname ps img = Abort E_undefined.
Proof.
  intros L. unfold replace_dtbs, fits_dtbname, dtbh_name, sizeof_dtbname.
  rewrite string_length_append. cbn [String.length].
  destruct (Z.ltb_spec (Z.of_nat (String.length fname + 5)) 256) as [X|_];
    [lia | reflexivity].
Qed.

(** C5 as stated fails: with pages of 2048 bytes and one sub-blob of
    4294965248 bytes, the offset and the size of the entry are as claimed,
    and the header's dtbs_size, (1 + 2097151) x 2048 = 4294967296 in the
    claim, wraps around to 0. *)
Lemma dtbs_size_wraps_around :
  sum_pages 2048 [mkbuf 4294965248 (fun _ => 7)] = 2097151 /\
  match replace_dtbs (platform_files 4294965248) "platform" 2048
          example_image with
  | Ok img' =>
      dtbs_size (header img') = 0 /\
      match dtbh img' with
      | Some d' => dt_offset d' 0 = 2048 /\ dt_dtb_size d' 0 = 4294965248
      | None => False
      end
  | Abort _ => False
  end.
Proof. vm_compute. repeat split. Qed.

(** * What a write leaves in the file *)

Lemma fwrite_ok (b : buffer) (n : Z) (s s' : FILE) :
  0 < n -> 0 <= fpos s -> fwrite b n s = (Ok tt, s') ->
  n <= blen b /\ fpos s' = fpos s + n /\ fpos s + n <= blen (content s') /\
  forall i, 0 <= i < n -> bget (content s') (fpos s + i) = bget b i.
Proof.
  intros Hn Hp H. unfold fwrite in H.
  destruct (Z.eqb_spec n 0) as [E|_]; [lia|].
  destruct (Z.ltb_spec (blen b) n) as [L|L]; [discriminate H|].
  inversion H. subst s'. cbn [content fpos blen bget write_at].
  split; [lia|]. split; [lia|]. split; [lia|].
  intros i Hi. cases; try lia; f_equal; lia.
Qed.

Lemma fseek_ok (off : Z) (s s1 : FILE) (a : unit) :
  fseek off s = (Ok a, s1) -> s1 = mkFILE (content s) off.
Proof. unfold fseek. intros H. congruence. Qed.

Lemma usize_nonneg (z : Z) : 0 <= usize z.
Proof. unfold usize. apply Z.mod_pos_bound. reflexivity. Qed.

Lemma section_padding_nonneg (ps size : Z) : 0 <= section_padding ps size.
Proof. unfold section_padding. apply u32_range. Qed.

Lemma dt_dtb_size_nonneg (d : buffer) (i : Z) : 0 <= dt_dtb_size d i.
Proof. unfold dt_dtb_size. apply get_u32_range. Qed.

Lemma above_write_kernel (X : Z) (padding : buffer) (img : t_abootimg) :
  0 <= kernel_size (header img) -> above X (write_kernel padding img).
Proof.
  intros K. unfold write_kernel. destruct (kernel img); [|apply above_ret].
  apply above_bind; [apply above_fwrite; exact K|]. intros _.
  apply above_fwrite, section_padding_nonneg.
Qed.

Lemma above_write_ramdisk (X : Z) (padding : buffer) (n : Z) (img : t_abootimg) :
  0 <= ramdisk_size (header img) ->
  X <= u32 ((1 + n) * page_size (header img)) ->
  above X (write_ramdisk padding n img).
Proof.
  intros R L. unfold write_ramdisk. destruct (ramdisk img); [|apply above_ret].
  apply above_bind; [apply above_fseek; exact L|]. intros _.
  apply above_bind; [apply above_fwrite; exact R|]. intros _.
  apply above_fwrite, section_padding_nonneg.
Qed.

Lemma above_write_second (X : Z) (padding : buffer) (n m : Z) (img : t_abootimg) :
  0 <= second_size (header img) ->
  X <= u32 ((1 + n + m) * page_size (header img)) ->
  above X (write_second padding n m img).
Proof.
  intros S L. unfold write_second.
  destruct (negb (second_size (header img) =? 0)); [|apply above_ret].
  apply above_bind; [apply above_fseek; exact L|]. intros _.
  destruct (second img); [|apply above_abort].
  apply above_bind; [apply above_fwrite; exact S|]. intros _.
  apply above_fwrite, section_padding_nonneg.
Qed.

Lemma above_write_dtbs_loop (X ps : Z) (padding d : buffer)
  (tbl : list dtb_ptr) (l : list nat) :
  above X (write_dtbs_loop ps padding d tbl l).
Proof.
  induction l as [|k l IH]; cbn [write_dtbs_loop]; [apply above_ret|].
  destruct (blen d <? entry_at (Z.of_nat k + 1)); [apply above_abort|].
  destruct (nth_error tbl k); [|apply above_abort].
  apply above_bind; [apply above_fwrite, dt_dtb_size_nonneg|]. intros _.
  apply above_bind; [|intros _; exact IH].
  destruct (0 <? dt_dtb_size d (Z.of_nat k) mod ps); [|apply above_ret].
  apply above_fwrite, u32_range.
Qed.

Lemma above_write_dtbs (X : Z) (padding : buffer) (n m o : Z)
  (img : t_abootimg) :
  0 <= page_size (header img) ->
  X <= u32 ((1 + n + m + o) * page_size (header img)) ->
  above X (write_dtbs padding n m o img).
Proof.
  intros P L. unfold write_dtbs. destruct (dtbh img) as [d|]; [|apply above_ret].
  apply above_bind; [apply above_fseek; exact L|]. intros _.
  apply above_bind; [apply above_fwrite; exact P|]. intros _.
  destruct (blen d <? sizeof_dtbs_t); [apply above_abort|].
  apply above_write_dtbs_loop.
Qed.

Lemma above_write_signature (X : Z) (padding : buffer) (n m o p : Z)
  (img : t_abootimg) :
  X <= u32 ((1 + n + m + o + p) * page_size (header img)) ->
  above X (write_signature padding n m o p img).
Proof.
  intros L. unfold write_signature.
  apply above_bind; [apply above_fseek; exact L|]. intros _.
  apply above_bind; [apply above_fwrite; lia|]. intros _.
  apply above_fwrite, usize_nonneg.
Qed.

(** A block written at the current position stays in the file through
    whatever follows, as long as what follows stays above its end. *)
Lemma written_block_stays (b : buffer) (n : Z) (rest : M unit) (s s' : FILE) :
  0 < n -> 0 <= fpos s -> above (fpos s + n) rest ->
  (fwrite b n ;;; rest) s = (Ok tt, s') ->
  n <= blen b /\ fpos s + n <= blen (content s') /\
  forall i, 0 <= i < n -> bget (content s') (fpos s + i) = bget b i.
Proof.
  intros Hn Hp A H. apply bind_ok in H. destruct H as ([] & s1 & W & R).
  destruct (fwrite_ok b n s s1 Hn Hp W) as (Lb & P1 & L1 & G1).
  destruct (A _ _ _ R ltac:(lia)) as (_ & L2 & G2).
  split; [exact Lb|]. split; [lia|].
  intros i Hi. rewrite G2 by lia. apply G1. exact Hi.
Qed.

Lemma bind_assoc {A B C} (m : M A) (k1 : A -> M B) (k2 : B -> M C) (s : FILE) :
  bind (bind m k1) k2 s = bind m (fun a => bind (k1 a) k2) s.
Proof.
  unfold bind. destruct (m s) as [[a|e] s1]; reflexivity.
Qed.

Lemma fits32_facts (ps ks rs ss ds : Z) :
  fits32 ps ks rs ss ds ->
  let n := ceil_div ks ps in
  let m := ceil_div rs ps in
  let o := ceil_div ss ps in
  let p := ceil_div ds ps in
  0 < ps < 2 ^ 32 /\ 0 <= n /\ 0 <= m /\ 0 <= o /\ 0 <= p /\
  ks <= n * ps /\ rs <= m * ps /\ ss <= o * ps /\ ds <= p * ps /\
  (2 + n + m + o + p) * ps < 2 ^ 32.
Proof.
  intros (Hp & Hk & Hr & Hs & Hd & Hb) n m o p.
  pose proof (ceil_div_nonneg ks ps Hp Hk).
  pose proof (ceil_div_nonneg rs ps Hp Hr).
  pose proof (ceil_div_nonneg ss ps Hp Hs).
  pose proof (ceil_div_nonneg ds ps Hp Hd).
  pose proof (ceil_div_bounds ks ps Hp Hk).
  pose proof (ceil_div_bounds rs ps Hp Hr).
  pose proof (ceil_div_bounds ss ps Hp Hs).
  pose proof (ceil_div_bounds ds ps Hp Hd).
  fold n m o p in Hb, H, H0, H1, H2, H3, H4, H5, H6.
  change (2 ^ 32) with 4294967296 in *.
  repeat split; try lia.
Qed.

(** The last block of the writer makes the file end at or after the end of
    the signature page. *)
Lemma write_signature_ok (padding : buffer) (n m o p : Z) (img : t_abootimg)
  (s s' : FILE) :
  let ps := page_size (header img) in
  255 < ps < 2 ^ 32 -> 0 <= (1 + n + m + o + p) * ps < 2 ^ 32 ->
  write_signature padding n m o p img s = (Ok tt, s') ->
  (1 + n + m + o + p) * ps + ps <= blen (content s').
Proof.
  intros ps Hp Hb H. unfold write_signature in H.
  unfold ps in *. clear ps. set (ps := page_size (header img)) in *.
  clearbody ps.
  rewrite u32_small in H by exact Hb.
  apply bind_ok in H. destruct H as ([] & s1 & F & H).
  apply fseek_ok in F. subst s1.
  apply bind_ok in H. destruct H as ([] & s2 & W & H).
  apply fwrite_ok in W; [|lia|cbn [fpos]; lia].
  destruct W as (_ & P2 & L2 & _). cbn [fpos] in P2, L2.
  rewrite (Z.mod_small 255 ps) in H by lia.
  assert (U : usize (ps - 255) = ps - 255).
  { unfold usize. apply Z.mod_small. lia. }
  rewrite U in H. apply fwrite_ok in H; [|lia|lia].
  destruct H as (_ & P3 & L3 & _). lia.
Qed.

(** * The writer, block by block *)

Lemma write_bootimg_unfold (img : t_abootimg) :
  write_bootimg img =
  if page_size (header img) =? 0 then abort E_undefined
  else write_header (zeros (page_size (header img))) img ;;;
       write_after_header img.
Proof. reflexivity. Qed.

Section Writer.
Variable img : t_abootimg.
Hypothesis F : header_fits32 (header img).

Let h := header img.
Let ps := page_size h.
Let n := ceil_div (kernel_size h) ps.
Let m := ceil_div (ramdisk_size h) ps.
Let o := ceil_div (second_size h) ps.
Let p := ceil_div (dtbs_size h) ps.

Lemma writer_facts :
  0 < ps < 2 ^ 32 /\ 0 <= n /\ 0 <= m /\ 0 <= o /\ 0 <= p /\
  kernel_size h <= n * ps /\ ramdisk_size h <= m * ps /\
  second_size h <= o * ps /\ dtbs_size h <= p * ps /\
  (2 + n + m + o + p) * ps < 2 ^ 32 /\
  0 <= kernel_size h /\ 0 <= ramdisk_size h /\ 0 <= second_size h.
Proof.
  pose proof (fits32_facts _ _ _ _ _ F) as X. cbn zeta in X.
  destruct F as (A & B & C & D & E & G).
  fold h ps n m o p in X. fold h in B, C, D. intuition.
Qed.

Lemma writer_pages :
  pages (kernel_size h) ps = n /\ pages (ramdisk_size h) ps = m /\
  pages (second_size h) ps = o /\ pages (dtbs_size h) ps = p.
Proof. exact (fits32_pages _ _ _ _ _ F). Qed.

Lemma above_after_ramdisk (X : Z) :
  X <= (1 + n + m) * ps -> above X (write_after_ramdisk img).
Proof.
  intros L. unfold write_after_ramdisk. fold h ps.
  destruct writer_pages as (-> & -> & -> & ->).
  destruct writer_facts as (Hp & Nn & Nm & No & Np & Kn & Rm & So & Dp & T & K0 & R0 & S0).
  change (2 ^ 32) with 4294967296 in *.
  apply above_bind.
  - apply above_write_second; [exact S0|]. fold h ps.
    rewrite u32_small by (change (2 ^ 32) with 4294967296; nia). exact L.
  - intros _. apply above_bind.
    + apply above_write_dtbs; fold h ps; [lia|].
      rewrite u32_small by (change (2 ^ 32) with 4294967296; nia). nia.
    + intros _. apply above_write_signature. fold h ps.
      rewrite u32_small by (change (2 ^ 32) with 4294967296; nia). nia.
Qed.

Lemma above_after_kernel (X : Z) :
  X <= (1 + n) * ps -> above X (write_after_kernel img).
Proof.
  intros L. unfold write_after_kernel. fold h ps.
  destruct writer_pages as (-> & _).
  destruct writer_facts as (Hp & Nn & Nm & No & Np & Kn & Rm & So & Dp & T & K0 & R0 & S0).
  change (2 ^ 32) with 4294967296 in *.
  apply above_bind.
  - apply above_write_ramdisk; [exact R0|]. fold h ps.
    rewrite u32_small by (change (2 ^ 32) with 4294967296; nia). exact L.
  - intros _. apply above_after_ramdisk. nia.
Qed.

Lemma above_after_header (X : Z) :
  X <= (1 + n) * ps -> above X (write_after_header img).
Proof.
  intros L. unfold write_after_header.
  destruct writer_facts as (Hp & Nn & Nm & No & Np & Kn & Rm & So & Dp & T & K0 & R0 & S0).
  apply above_bind; [apply above_write_kernel; exact K0|].
  intros _. apply above_after_kernel. exact L.
Qed.

Lemma after_ramdisk_length (s s' : FILE) :
  sizeof_boot_img_hdr <= ps ->
  write_after_ramdisk img s = (Ok tt, s') ->
  (2 + n + m + o + p) * ps <= blen (content s').
Proof.
  intros P H. unfold write_after_ramdisk in H. fold h ps in H.
  destruct writer_pages as (En & Em & Eo & Ep). rewrite En, Em, Eo, Ep in H.
  destruct writer_facts as (Hp & Nn & Nm & No & Np & Kn & Rm & So & Dp & T & K0 & R0 & S0).
  apply bind_ok in H. destruct H as ([] & s1 & _ & H).
  apply bind_ok in H. destruct H as ([] & s2 & _ & H).
  apply write_signature_ok in H; fold h ps;
    unfold sizeof_boot_img_hdr in *; change (2 ^ 32) with 4294967296 in *.
  - fold h ps in H. lia.
  - lia.
  - nia.
Qed.

(** The ramdisk block and what follows it. *)
Lemma after_kernel_ramdisk (r : buffer) (s s' : FILE) :
  ramdisk img = Some r -> 0 < ramdisk_size h ->
  write_after_kernel img s = (Ok tt, s') ->
  ramdisk_size h <= blen r /\
  (1 + n) * ps + ramdisk_size h <= blen (content s') /\
  forall i, 0 <= i < ramdisk_size h ->
            bget (content s') ((1 + n) * ps + i) = bget r i.
Proof.
  intros R Hr H. unfold write_after_kernel, write_ramdisk in H.
  fold h ps in H. rewrite R in H.
  destruct writer_pages as (En & _). rewrite En in H.
  destruct writer_facts as (Hp & Nn & Nm & No & Np & Kn & Rm & So & Dp & T & K0 & R0 & S0).
  change (2 ^ 32) with 4294967296 in *.
  rewrite u32_small in H by (change (2 ^ 32) with 4294967296; nia).
  rewrite bind_assoc in H.
  apply bind_ok in H. destruct H as ([] & s1 & Sk & H).
  apply fseek_ok in Sk. subst s1. rewrite bind_assoc in H.
  apply written_block_stays in H.
  - cbn [fpos] in H. exact H.
  - exact Hr.
  - cbn [fpos]. nia.
  - cbn [fpos].
    apply above_bind; [apply above_fwrite, section_padding_nonneg|].
    intros _. apply above_after_ramdisk. nia.
Qed.

(** The kernel block and what follows it. *)
Lemma after_header_kernel (k : buffer) (s s' : FILE) :
  kernel img = Some k -> 0 < kernel_size h -> fpos s = ps ->
  write_after_header img s = (Ok tt, s') ->
  kernel_size h <= blen k /\
  forall i, 0 <= i < kernel_size h ->
            bget (content s') (ps + i) = bget k i.
Proof.
  intros K Hk Hs H. unfold write_after_header, write_kernel in H.
  fold h ps in H. rewrite K in H.
  destruct writer_facts as (Hp & Nn & Nm & No & Np & Kn & Rm & So & Dp & T & K0 & R0 & S0).
  rewrite bind_assoc in H.
  apply written_block_stays in H.
  - rewrite Hs in H. destruct H as (A & _ & B). split; assumption.
  - exact Hk.
  - lia.
  - apply above_bind; [apply above_fwrite, section_padding_nonneg|].
    intros _. apply above_after_kernel. lia.
Qed.

Lemma after_header_ramdisk (r : buffer) (s s' : FILE) :
  ramdisk img = Some r -> 0 < ramdisk_size h ->
  write_after_header img s = (Ok tt, s') ->
  ramdisk_size h <= blen r /\
  (1 + n) * ps + ramdisk_size h <= blen (content s') /\
  forall i, 0 <= i < ramdisk_size h ->
            bget (content s') ((1 + n) * ps + i) = bget r i.
Proof.
  intros R Hr H. unfold write_after_header in H.
  apply bind_ok in H. destruct H as ([] & s1 & _ & H).
  apply (after_kernel_ramdisk r s1 s' R Hr H).
Qed.

Lemma after_header_length (s s' : FILE) :
  sizeof_boot_img_hdr <= ps ->
  write_after_header img s = (Ok tt, s') ->
  (2 + n + m + o + p) * ps <= blen (content s').
Proof.
  intros P H. unfold write_after_header in H.
  apply bind_ok in H. destruct H as ([] & s1 & _ & H).
  unfold write_after_kernel in H.
  apply bind_ok in H. destruct H as ([] & s2 & _ & H).
  apply (after_ramdisk_length s2 s' P H).
Qed.

(** A completed [write_bootimg]: the page size holds the header, and the
    file holds the header, the kernel and the ramdisk at their offsets and
    reaches the end of the signature page. *)
Lemma write_bootimg_ok (s s' : FILE) :
  write_bootimg img s = (Ok tt, s') ->
  sizeof_boot_img_hdr <= ps /\
  (forall i, 0 <= i < sizeof_boot_img_hdr ->
             bget (content s') i = header_byte h i) /\
  (forall k, kernel img = Some k -> 0 < kernel_size h ->
             kernel_size h <= blen k /\
             forall i, 0 <= i < kernel_size h ->
                       bget (content s') (ps + i) = bget k i) /\
  (forall r, ramdisk img = Some r -> 0 < ramdisk_size h ->
             ramdisk_size h <= blen r /\
             forall i, 0 <= i < ramdisk_size h ->
                       bget (content s') ((1 + n) * ps + i) = bget r i) /\
  (2 + n + m + o + p) * ps <= blen (content s').
Proof.
  intros H. rewrite write_bootimg_unfold in H. fold h ps in H.
  destruct writer_facts as (Hp & Nn & Nm & No & Np & Kn & Rm & So & Dp & T & K0 & R0 & S0).
  destruct (Z.eqb_spec ps 0) as [Z|_]; [lia|].
  apply bind_ok in H. destruct H as ([] & s1 & Wh & H).
  pose proof (write_header_spec img s) as WS. cbv zeta in WS. fold h ps in WS.
  destruct (WS ltac:(lia)) as [Good Bad]. clear WS.
  destruct (Z_lt_le_dec ps sizeof_boot_img_hdr) as [Lt|Ge].
  { specialize (Bad Lt). rewrite Wh in Bad. discriminate Bad. }
  destruct (Good Ge) as (s1' & Wh' & P1 & L1 & Hd & _).
  rewrite Wh in Wh'. inversion Wh'. subst s1'. clear Wh'.
  split; [exact Ge|]. split; [|split; [|split]].
  - intros i Hi.
    destruct (above_after_header ps ltac:(nia) _ _ _ H ltac:(lia))
      as (_ & _ & G).
    rewrite G by (unfold sizeof_boot_img_hdr in *; lia). apply Hd. exact Hi.
  - intros k K Hk. apply (after_header_kernel k s1 s' K Hk P1 H).
  - intros r R Hr.
    destruct (after_header_ramdisk r s1 s' R Hr H) as (A & _ & B).
    split; assumption.
  - apply (after_header_length s1 s' Ge H).
Qed.
End Writer.

(** * The loader, step by step *)

Lemma read_file_ok (fs : filesystem) (fname : string) (data : buffer)
  (size : Z) (b : buffer) :
  fs fname = Some data -> read_file fs fname = Ok (size, b) ->
  size = u32 (blen data) /\ 0 < size /\ b = sub data 0 size.
Proof.
  intros E H. unfold read_file in H. rewrite E in H.
  destruct (Z.ltb_spec 0 (u32 (blen data))) as [P|P]; [|discriminate H].
  destruct (u32 (blen data) <=? blen data); [|discriminate H].
  inversion H. repeat split. exact P.
Qed.

Ltac ret_inv H := unfold ret in H; injection H as <- <-.

Lemma load_second_frame (fs : filesystem) (ssize soffset : Z)
  (img img' : t_abootimg) (s s' : FILE) :
  second_fname img = None ->
  load_second fs ssize soffset img s = (Ok img', s') ->
  header img' = header img /\ kernel img' = kernel img /\
  ramdisk img' = ramdisk img /\ dtbs_fname img' = dtbs_fname img.
Proof.
  intros Sf H. unfold load_second in H. rewrite Sf in H.
  assert (Same : forall x, ret img x = (Ok img', s') ->
                 header img' = header img /\ kernel img' = kernel img /\
                 ramdisk img' = ramdisk img /\ dtbs_fname img' = dtbs_fname img).
  { intros x E. ret_inv E. repeat split; reflexivity. }
  destruct (ramdisk img) eqn:R in H; [|exact (Same _ H)].
  destruct (negb (second_size (header img) =? 0)); [|exact (Same _ H)].
  apply bind_ok in H. destruct H as ([] & s1 & _ & H).
  apply bind_ok in H. destruct H as (x & s2 & _ & H).
  ret_inv H. repeat split; reflexivity.
Qed.

Lemma load_dtbs_frame (fs : filesystem) (page_size dsize doffset : Z)
  (img img' : t_abootimg) (s s' : FILE) :
  dtbs_fname img = None ->
  load_dtbs fs page_size dsize doffset img s = (Ok img', s') ->
  header img' = header img /\ kernel img' = kernel img /\
  ramdisk img' = ramdisk img.
Proof.
  intros Df H. unfold load_dtbs in H. rewrite Df in H.
  destruct (negb (dtbs_size (header img) =? 0)); [|ret_inv H; repeat split; reflexivity].
  unfold copy_dtbs in H.
  apply bind_ok in H. destruct H as ([] & s1 & _ & H).
  apply bind_ok in H. destruct H as (d & s2 & _ & H).
  destruct (blen d <? sizeof_dtbs_t); [discriminate H|].
  destruct (blen d <? entry_at (num_entries d)); [discriminate H|].
  ret_inv H. repeat split; reflexivity.
Qed.

Lemma finish_update_frame (img img' : t_abootimg) (s s' : FILE) :
  finish_update img s = (Ok img', s') ->
  header img' = header img /\ kernel img' = kernel img /\
  ramdisk img' = ramdisk img /\ second img' = second img /\ s' = s.
Proof.
  intros H. unfold finish_update in H.
  cbn [size header with_signature] in H.
  destruct (size img =? 0); [ret_inv H; repeat split; reflexivity|].
  destruct (size img <? total_size (header img)); [discriminate H|].
  ret_inv H. repeat split; reflexivity.
Qed.

(** An update in which only a kernel is named: the header gets the length
    of the new kernel, and the ramdisk is read at the offset that the header
    gave before. *)
Lemma update_images_kernel_named (fs : filesystem) (img img' : t_abootimg)
  (s s' : FILE) (kf : string) (newk : buffer) :
  kernel_fname img = Some kf -> ramdisk_fname img = None ->
  second_fname img = None -> dtbs_fname img = None ->
  fs kf = Some newk ->
  update_images fs img s = (Ok img', s') ->
  let h := header img in
  let roff := ramdisk_offset (layout_of h) in
  header img' = with_kernel_size (u32 (blen newk)) h /\
  kernel img' = Some (sub newk 0 (u32 (blen newk))) /\
  0 < u32 (blen newk) /\
  ramdisk img' = Some (sub (content s) roff (ramdisk_size h)) /\
  0 < ramdisk_size h /\ 0 <= roff /\
  roff + ramdisk_size h <= blen (content s).
Proof.
  intros Kf Rf Sf Df Ek H h roff. unfold update_images in H.
  apply bind_ok in H. destruct H as (img4 & s4 & L & Fin).
  destruct (finish_update_frame _ _ _ _ Fin) as (-> & -> & -> & _ & _).
  clear Fin. unfold load_sections in L. fold h in L.
  destruct (page_size h =? 0); [discriminate L|].
  apply bind_ok in L. destruct L as (img1 & s1 & L1 & L).
  apply bind_ok in L. destruct L as (img2 & s2 & L2 & L).
  apply bind_ok in L. destruct L as (img3 & s3 & L3 & L).
  (* kernel *)
  unfold load_kernel in L1. rewrite Kf in L1.
  apply bind_ok in L1. destruct L1 as ([ksize k] & s1' & Rk & L1).
  unfold lift in Rk. inversion Rk as [[Rk' Es]]. subst s1'. clear Rk.
  destruct (read_file_ok fs kf newk ksize k Ek Rk') as (Eks & Pk & Ebk).
  unfold ret in L1. inversion L1. subst img1 s1. clear L1.
  (* ramdisk *)
  unfold load_ramdisk in L2.
  cbn [ramdisk_fname with_kernel with_header kernel] in L2. rewrite Rf in L2.
  apply bind_ok in L2. destruct L2 as ([] & s1 & Sk & L2).
  apply fseek_ok in Sk. subst s1.
  apply bind_ok in L2. destruct L2 as (r & s1 & Rd & L2).
  unfold fread in Rd. cbn [content fpos] in Rd.
  change (u32 ((1 + pages (kernel_size h) (page_size h)) * page_size h))
    with roff in Rd.
  destruct (Z.ltb_spec 0 (ramdisk_size h)) as [Pr|X]; [|discriminate Rd].
  destruct (Z.leb_spec 0 roff) as [P0|X]; [|discriminate Rd].
  destruct (Z.leb_spec (roff + ramdisk_size h) (blen (content s)))
    as [Pl|X]; [|discriminate Rd].
  cbn [andb] in Rd. inversion Rd. subst r s1. clear Rd.
  unfold ret in L2. inversion L2. subst img2 s2. clear L2.
  (* second and device trees *)
  apply load_second_frame in L3; [|exact Sf].
  destruct L3 as (H3 & K3 & R3 & D3).
  apply load_dtbs_frame in L; [|rewrite D3; exact Df].
  destruct L as (H4 & K4 & R4).
  rewrite H4, K4, R4, H3, K3, R3.
  cbn [header kernel ramdisk with_ramdisk with_kernel with_header].
  subst ksize k. repeat split; assumption.
Qed.

(** * The header, read back *)

Lemma header_byte_word (h : boot_img_hdr) (k : nat) (j : Z) :
  (k < 10)%nat -> 0 <= j < 4 ->
  header_byte h (8 + 4 * Z.of_nat k + j)
  = le32_byte (nth k (header_words h) 0) j.
Proof.
  intros Hk Hj.
  assert (J : j = 0 \/ j = 1 \/ j = 2 \/ j = 3) by lia.
  do 10 (destruct k as [|k]; [destruct J as [->|[->|[->| ->]]]; reflexivity|]).
  lia.
Qed.

(** A word of the header in a file whose first 608 bytes are the header. *)
Lemma header_word_read_back (h : boot_img_hdr) (b : buffer) (k : nat) :
  (forall i, 0 <= i < sizeof_boot_img_hdr -> bget b i = header_byte h i) ->
  (k < 10)%nat ->
  get_u32 b (8 + 4 * Z.of_nat k) = u32 (nth k (header_words h) 0).
Proof.
  intros Hb Hk. apply get_u32_bytes. intros j Hj.
  rewrite Hb by (unfold sizeof_boot_img_hdr; lia).
  apply header_byte_word; assumption.
Qed.

(** * Copy-forward of the ramdisk *)

(** C1, as amended: for every valid source image and every replacement
    kernel, if only the kernel is replaced in an update that completes (with
    header settings, if any, that leave the page size alone), and the old
    ramdisk offset and the new layout fit in 32 bits, the ramdisk bytes in
    the output equal, byte for byte, the ramdisk_size bytes of the source
    image at the old offset (1 + ceil(old_kernel_size / page_size)) x
    page_size, and they stand at the new offset (1 + ceil(new_kernel_size /
    page_size)) x page_size computed from the final header, whose
    kernel_size is the length of the new kernel and whose ramdisk_size and
    page_size are those of the source. *)
Theorem ramdisk_copied_forward (fs : filesystem) (t : target)
  (cfg : list config_entry) (kf : string) (newk file : buffer) (sf : FILE) :
  let h0 := header_of_block file in
  let ps := page_size h0 in
  let rs := ramdisk_size h0 in
  let old_off := (1 + ceil_div (kernel_size h0) ps) * ps in
  let new_ks := u32 (blen newk) in
  let new_off := (1 + ceil_div new_ks ps) * ps in
  Forall keeps_page_size cfg ->
  fs kf = Some newk ->
  main_update fs t (kernel_only cfg kf) file = (Ok tt, sf) ->
  old_off < 2 ^ 32 ->
  fits32 ps new_ks rs (second_size h0) (dtbs_size h0) ->
  0 < rs /\ old_off + rs <= blen file /\ new_off + rs <= blen (content sf) /\
  (forall i, 0 <= i < rs ->
             bget (content sf) (new_off + i) = bget file (old_off + i)) /\
  kernel_size (header_of_block (content sf)) = new_ks /\
  ramdisk_size (header_of_block (content sf)) = rs /\
  page_size (header_of_block (content sf)) = ps.
Proof.
  intros h0 ps rs old_off new_ks new_off Hcfg Ek Run Hold Hfit.
  unfold main_update in Run. cbn [open_bootimg andb] in Run.
  apply bind_ok in Run. destruct Run as (img & s1 & U & W).
  unfold update_steps in U.
  apply bind_ok in U. destruct U as (img0 & s0 & R & U).
  apply read_header_ok in R. destruct R as (E0 & _ & _ & C0).
  cbn [content fpos] in E0, C0. rewrite header_of_block_sub in E0.
  fold h0 in E0.
  assert (G : is_word (kernel_size h0) /\ is_word rs /\ is_word ps).
  { unfold rs, ps, h0, is_word. cbn [kernel_size ramdisk_size page_size header_of_block].
    repeat split; apply get_u32_range. }
  clearbody h0.
  apply bind_ok in U. destruct U as (img1 & s0' & Uh & U).
  apply update_header_frame in Uh. destruct Uh as (-> & Same & Pg).
  destruct Same as (Kf & Rf & Sf & Df & _ & _ & _ & _ & Eks & Ers & Ess & Eds).
  assert (Eps : page_size (header img1) = ps).
  { rewrite Pg by (subst img0; exact Hcfg). subst img0. reflexivity. }
  assert (Eh : header img0 = h0) by (subst img0; reflexivity).
  rewrite Eh in Eks, Ers, Ess, Eds. fold rs in Ers.
  apply update_images_kernel_named with (kf := kf) (newk := newk) in U;
    try exact Ek;
    [| rewrite Kf | rewrite Rf | rewrite Sf | rewrite Df];
    try (subst img0; reflexivity).
  destruct U as (Hh & _ & _ & Hr & Pr & _ & Pl).
  set (h1 := header img1) in *.
  assert (F : header_fits32 (header img)).
  { rewrite Hh. unfold header_fits32.
    cbn [page_size kernel_size ramdisk_size second_size dtbs_size
         with_kernel_size].
    rewrite Eps, Ers, Ess, Eds. exact Hfit. }
  pose proof (write_bootimg_ok img F s1 sf W) as (_ & Hd & _ & Wr & Len).
  rewrite Hh in Hd, Wr, Len.
  cbn [page_size kernel_size ramdisk_size second_size dtbs_size
       with_kernel_size] in Wr, Len.
  rewrite Eps, Ers in Wr. rewrite Eps, Ers, Ess, Eds in Len.
  rewrite Ers in Pr, Pl, Hr. rewrite C0 in Hr, Pl.
  fold new_ks in Wr, Len.
  destruct (Wr _ Hr Pr) as (_ & Bytes).
  pose proof (fits32_facts _ _ _ _ _ Hfit) as X. cbn zeta in X.
  destruct Hfit as (Pp & _ & _ & _ & _ & _).
  destruct G as (Gk & Gr & Gp). unfold is_word in *.
  pose proof (ceil_div_bounds (kernel_size h0) ps Pp ltac:(lia)) as Bk.
  assert (Eoff : ramdisk_offset (layout_of h1) = old_off).
  { unfold layout_of, layout, ramdisk_offset. rewrite Eps, Eks.
    rewrite pages_exact by (fold old_off in Hold; unfold old_off in Hold; nia).
    apply u32_small. unfold old_off in Hold.
    pose proof (ceil_div_nonneg (kernel_size h0) ps Pp ltac:(lia)). nia. }
  rewrite Eoff in Hr, Pl, Bytes.
  split; [exact Pr|]. split; [exact Pl|]. split; [|split].
  - unfold new_off. nia.
  - intros i Hi. unfold new_off. rewrite (Bytes i Hi). reflexivity.
  - unfold header_of_block. cbn [kernel_size ramdisk_size page_size].
    pose proof (header_word_read_back _ _ 0 Hd ltac:(lia)) as K0.
    pose proof (header_word_read_back _ _ 2 Hd ltac:(lia)) as K2.
    pose proof (header_word_read_back _ _ 7 Hd ltac:(lia)) as K7.
    change (8 + 4 * Z.of_nat 0) with 8 in K0.
    change (8 + 4 * Z.of_nat 2) with 16 in K2.
    change (8 + 4 * Z.of_nat 7) with 36 in K7.
    rewrite K0, K2, K7.
    cbn [nth header_words kernel_size ramdisk_size page_size with_kernel_size].
    fold h1. rewrite Eps, Ers. unfold new_ks.
    repeat split; apply u32_small; [apply u32_range | lia | lia].
Qed.

Lemma ramdisk_copied_forward_witness :
  exists sf,
    main_update larger_kernel regular_file (kernel_only [] "zImage")
      update_source = (Ok tt, sf) /\
    forall i, 0 <= i < 500 ->
              bget (content sf) (14336 + i) = bget update_source (12288 + i).
Proof.
  destruct (main_update larger_kernel regular_file (kernel_only [] "zImage")
              update_source) as [[[]|e] sf] eqn:E.
  - exists sf. split; [reflexivity|].
    refine (proj1 (proj2 (proj2 (proj2
              (ramdisk_copied_forward larger_kernel regular_file [] "zImage"
                 _ update_source sf (Forall_nil _) eq_refl E _ _))))).
    + vm_compute. reflexivity.
    + vm_compute. repeat split; (reflexivity || discriminate).
  - exfalso. apply (f_equal (fun r => is_ok (fst r))) in E.
    vm_compute in E. discriminate E.
Defined.

(** C1 as stated fails: the header of a four-page source image of 1000-byte
    pages declares a kernel of 4294967295 bytes and passes validation, since
    the page count of the kernel wraps around to 0. The update with a 3-byte
    kernel completes and puts at the new offset 2000 the two bytes read at
    offset 1000 of the source; the offset of the claim,
    (1 + ceil(4294967295 / 1000)) x 1000 = 4294969000, lies beyond the end
    of the source. *)
Lemma ramdisk_read_at_wrapped_offset :
  let h0 := header_of_block wrapping_source in
  let run := main_update small_kernel regular_file (kernel_only [] "zImage")
               wrapping_source in
  is_ok (fst run) = true /\
  kernel_size h0 = 4294967295 /\ page_size h0 = 1000 /\ ramdisk_size h0 = 2 /\
  (1 + ceil_div (kernel_size h0) (page_size h0)) * page_size h0 = 4294969000 /\
  blen wrapping_source = 4000 /\
  ramdisk_offset (layout_of h0) = 1000 /\
  bget wrapping_source 1000 = 11 /\ bget wrapping_source 1001 = 22 /\
  (1 + ceil_div 3 (page_size h0)) * page_size h0 = 2000 /\
  bget (content (snd run)) 2000 = 11 /\ bget (content (snd run)) 2001 = 22.
Proof. vm_compute. repeat split. Qed.

Lemma bytes_from_S (b : buffer) (off : Z) (n : nat) :
  bytes_from b off (S n) = byte_at b off :: bytes_from b (off + 1) n.
Proof.
  unfold bytes_from. cbn [seq map]. rewrite <- seq_shift, map_map.
  f_equal; [f_equal; lia|]. apply map_ext. intros k. f_equal. lia.
Qed.

Lemma words_from_S (b : buffer) (off : Z) (n : nat) :
  words_from b off (S n) = get_u32 b off :: words_from b (off + 4) n.
Proof.
  unfold words_from. cbn [seq map]. rewrite <- seq_shift, map_map.
  f_equal; [f_equal; lia|]. apply map_ext. intros k. f_equal. lia.
Qed.

Lemma bytes_from_list (b : buffer) (l : list Z) (off : Z) :
  Forall is_byte l ->
  (forall k, (k < length l)%nat -> bget b (off + Z.of_nat k) = nth k l 0) ->
  bytes_from b off (length l) = l.
Proof.
  revert off. induction l as [|x l IH]; intros off Fb Hb; [reflexivity|].
  cbn [length]. rewrite bytes_from_S. inversion Fb as [|? ? Bx Fl]. subst.
  f_equal.
  - unfold byte_at. specialize (Hb 0%nat ltac:(cbn; lia)). cbn [nth] in Hb.
    replace (off + Z.of_nat 0) with off in Hb by lia. rewrite Hb.
    apply Z.mod_small. exact Bx.
  - apply IH; [exact Fl|]. intros k Hk.
    specialize (Hb (S k) ltac:(cbn; lia)). cbn [nth] in Hb.
    replace (off + 1 + Z.of_nat k) with (off + Z.of_nat (S k)) by lia.
    exact Hb.
Qed.

Lemma words_from_list (b : buffer) (l : list Z) (off : Z) :
  Forall is_word l ->
  (forall k, (k < length l)%nat ->
             get_u32 b (off + 4 * Z.of_nat k) = u32 (nth k l 0)) ->
  words_from b off (length l) = l.
Proof.
  revert off. induction l as [|x l IH]; intros off Fw Hw; [reflexivity|].
  cbn [length]. rewrite words_from_S. inversion Fw as [|? ? Wx Fl]. subst.
  f_equal.
  - specialize (Hw 0%nat ltac:(cbn; lia)). cbn [nth] in Hw.
    replace (off + 4 * Z.of_nat 0) with off in Hw by lia. rewrite Hw.
    apply u32_small. exact Wx.
  - apply IH; [exact Fl|]. intros k Hk.
    specialize (Hw (S k) ltac:(cbn; lia)). cbn [nth] in Hw.
    replace (off + 4 + 4 * Z.of_nat k) with (off + 4 * Z.of_nat (S k)) by lia.
    exact Hw.
Qed.

Lemma header_byte_id (h : boot_img_hdr) (k : nat) (j : Z) :
  (k < 8)%nat -> 0 <= j < 4 ->
  header_byte h (576 + 4 * Z.of_nat k + j) = le32_byte (nth k (id h) 0) j.
Proof.
  intros Hk Hj.
  assert (J : j = 0 \/ j = 1 \/ j = 2 \/ j = 3) by lia.
  do 8 (destruct k as [|k]; [destruct J as [->|[->|[->| ->]]]; reflexivity|]).
  lia.
Qed.

Lemma header_byte_array (h : boot_img_hdr) (k : nat) :
  ((k < 8)%nat -> header_byte h (0 + Z.of_nat k) = nth k (magic h) 0) /\
  ((k < 16)%nat -> header_byte h (48 + Z.of_nat k) = nth k (name h) 0) /\
  ((k < 512)%nat -> header_byte h (64 + Z.of_nat k) = nth k (cmdline h) 0).
Proof.
  unfold header_byte. repeat split; intros Hk; cases; try lia; f_equal; lia.
Qed.

(** A well-formed header is read back from a block that starts with its 608
    bytes. *)
Lemma header_read_back (h : boot_img_hdr) (b : buffer) :
  wf_header h ->
  (forall i, 0 <= i < sizeof_boot_img_hdr -> bget b i = header_byte h i) ->
  header_of_block b = h.
Proof.
  intros (Lm & Bm & Wd & Ln & Bn & Lc & Bc & Li & Wi) Hb.
  assert (W : forall k, (k < 10)%nat ->
              get_u32 b (8 + 4 * Z.of_nat k) = nth k (header_words h) 0).
  { intros k Hk. rewrite (header_word_read_back h b k Hb Hk).
    apply u32_small. apply (proj1 (Forall_nth _ _) Wd). cbn. exact Hk. }
  unfold header_of_block.
  rewrite <- Lm at 1. rewrite <- Ln at 1. rewrite <- Lc at 1.
  rewrite <- Li at 1.
  rewrite (bytes_from_list b (magic h) 0 Bm).
  2:{ intros k Hk. rewrite Hb by (unfold sizeof_boot_img_hdr; lia).
      apply (header_byte_array h k). lia. }
  rewrite (bytes_from_list b (name h) 48 Bn).
  2:{ intros k Hk. rewrite Hb by (unfold sizeof_boot_img_hdr; lia).
      apply (header_byte_array h k). lia. }
  rewrite (bytes_from_list b (cmdline h) 64 Bc).
  2:{ intros k Hk. rewrite Hb by (unfold sizeof_boot_img_hdr; lia).
      apply (header_byte_array h k). lia. }
  rewrite (words_from_list b (id h) 576 Wi).
  2:{ intros k Hk. apply get_u32_bytes. intros j Hj.
      rewrite Hb by (unfold sizeof_boot_img_hdr; lia).
      apply header_byte_id; [lia | exact Hj]. }
  pose proof (W 0%nat ltac:(lia)) as W0. pose proof (W 1%nat ltac:(lia)) as W1.
  pose proof (W 2%nat ltac:(lia)) as W2. pose proof (W 3%nat ltac:(lia)) as W3.
  pose proof (W 4%nat ltac:(lia)) as W4. pose proof (W 5%nat ltac:(lia)) as W5.
  pose proof (W 6%nat ltac:(lia)) as W6. pose proof (W 7%nat ltac:(lia)) as W7.
  pose proof (W 8%nat ltac:(lia)) as W8. pose proof (W 9%nat ltac:(lia)) as W9.
  cbn [Z.of_nat Pos.of_succ_nat Pos.succ Z.mul Pos.mul Z.add Pos.add
       Pos.add_carry nth header_words] in W0, W1, W2, W3, W4, W5, W6, W7, W8, W9.
  rewrite W0, W1, W2, W3, W4, W5, W6, W7, W8, W9.
  destruct h. reflexivity.
Qed.

(** * Writing an image and reading it back *)

Lemma fread_at (c : buffer) (pos n : Z) :
  0 < n -> 0 <= pos -> pos + n <= blen c ->
  fread n (mkFILE c pos) = (Ok (sub c pos n), mkFILE c (pos + n)).
Proof.
  intros Hn Hp Hl. unfold fread. cbn [content fpos].
  destruct (Z.ltb_spec 0 n); [|lia]. destruct (Z.leb_spec 0 pos); [|lia].
  destruct (Z.leb_spec (pos + n) (blen c)); [|lia]. reflexivity.
Qed.

Lemma Forall_repeat {A} (P : A -> Prop) (x : A) (n : nat) :
  P x -> Forall P (repeat x n).
Proof. intros H. induction n; cbn; constructor; assumption. Qed.

Lemma wf_new_header (ks rs : Z) :
  is_word ks -> is_word rs ->
  wf_header (with_kernel_size ks (with_ramdisk_size rs new_header)).
Proof.
  intros Hk Hr. unfold wf_header.
  assert (Z0 : is_word 0) by (unfold is_word; lia).
  assert (B0 : is_byte 0) by (unfold is_byte; lia).
  split; [reflexivity|]. split.
  { unfold new_header, BOOT_MAGIC. cbn [magic with_kernel_size with_ramdisk_size].
    unfold is_byte. repeat (apply Forall_cons; [lia|]). apply Forall_nil. }
  split.
  { unfold header_words, new_header.
    cbn [with_kernel_size with_ramdisk_size kernel_size
         kernel_addr ramdisk_size ramdisk_addr second_size second_addr
         tags_addr page_size dtbs_size unused].
    unfold is_word in *. repeat (apply Forall_cons; [lia|]). apply Forall_nil. }
  split; [reflexivity|]. split; [apply Forall_repeat; exact B0|].
  split; [reflexivity|]. split; [apply Forall_repeat; exact B0|].
  split; [reflexivity|]. apply Forall_repeat. exact Z0.
Qed.


(** * Further properties of the code *)

(** ** The offsets of the extraction path *)

Lemma ceil_div_split (a b : Z) :
  0 < b -> 0 <= a ->
  ceil_div a b = a / b + (if a mod b =? 0 then 0 else 1).
Proof.
  intros Hb Ha.
  apply (is_ceiling_unique _ _ a b Hb (ceil_div_is_ceiling a b Hb)).
  unfold is_ceiling.
  pose proof (Z.div_mod a b ltac:(lia)) as E.
  pose proof (Z.mod_pos_bound a b Hb) as R.
  destruct (Z.eqb_spec (a mod b) 0); nia.
Qed.

Lemma ceil_div_add_le (a b c : Z) :
  0 < c -> 0 <= a -> 0 <= b ->
  ceil_div (a + b) c <= ceil_div a c + ceil_div b c.
Proof.
  intros Hc Ha Hb.
  pose proof (ceil_div_is_ceiling (a + b) c Hc) as Q.
  pose proof (ceil_div_bounds a c Hc Ha) as A.
  pose proof (ceil_div_bounds b c Hc Hb) as B.
  unfold is_ceiling in Q. nia.
Qed.

Lemma second_offsets_exact (ps ks rs : Z) :
  0 < ps -> 0 <= ks -> 0 <= rs ->
  (1 + ceil_div ks ps + ceil_div rs ps) * ps < 2 ^ 32 ->
  extract_second_offset ps ks rs = (1 + ceil_div (ks + rs) ps) * ps /\
  layout_second_offset ps ks rs = (1 + ceil_div ks ps + ceil_div rs ps) * ps.
Proof.
  intros Hps Hk Hr F.
  pose proof (ceil_div_bounds ks ps Hps Hk) as A.
  pose proof (ceil_div_bounds rs ps Hps Hr) as B.
  pose proof (ceil_div_nonneg ks ps Hps Hk) as A0.
  pose proof (ceil_div_nonneg rs ps Hps Hr) as B0.
  pose proof (ceil_div_add_le ks rs ps Hps Hk Hr) as Q.
  pose proof (ceil_div_nonneg (ks + rs) ps Hps ltac:(lia)) as Q0.
  unfold extract_second_offset, layout_second_offset.
  rewrite !pages_exact by nia.
  replace (rs + ks + ps - 1) with (ks + rs + ps - 1) by lia.
  rewrite (u32_small (ks + rs + ps - 1)) by nia.
  fold (ceil_div (ks + rs) ps).
  rewrite !u32_small by nia. split; reflexivity.
Qed.

Lemma second_offsets_compare (ps ks rs : Z) :
  0 < ps -> 0 <= ks -> 0 <= rs ->
  (1 + ceil_div ks ps + ceil_div rs ps) * ps < 2 ^ 32 ->
  (extract_second_offset ps ks rs = layout_second_offset ps ks rs <->
   ks mod ps = 0 \/ rs mod ps = 0 \/ ps < ks mod ps + rs mod ps) /\
  (extract_second_offset ps ks rs <> layout_second_offset ps ks rs ->
   layout_second_offset ps ks rs = extract_second_offset ps ks rs + ps).
Proof.
  intros Hps Hk Hr F.
  destruct (second_offsets_exact ps ks rs Hps Hk Hr F) as [-> ->].
  pose proof (ceil_div_is_ceiling (ks + rs) ps Hps) as Q.
  unfold is_ceiling in Q.
  rewrite (ceil_div_split ks ps), (ceil_div_split rs ps) by assumption.
  pose proof (Z.div_mod ks ps ltac:(lia)) as Ek.
  pose proof (Z.div_mod rs ps ltac:(lia)) as Er.
  pose proof (Z.mod_pos_bound ks ps Hps) as Rk.
  pose proof (Z.mod_pos_bound rs ps Hps) as Rr.
  set (q := ceil_div (ks + rs) ps) in *. clearbody q.
  set (a := ks / ps) in *. set (b := rs / ps) in *.
  set (x := ks mod ps) in *. set (y := rs mod ps) in *.
  clearbody a b x y.
  destruct (Z.eqb_spec x 0) as [X|X]; destruct (Z.eqb_spec y 0) as [Y|Y].
  - assert (q = a + b) by nia. subst q. split; [split; [auto|lia]|lia].
  - assert (q = a + b + 1) by nia. subst q. split; [split; [auto|lia]|lia].
  - assert (q = a + b + 1) by nia. subst q. split; [split; [auto|lia]|lia].
  - destruct (Z.ltb_spec ps (x + y)) as [L|L].
    + assert (q = a + b + 2) by nia. subst q. split; [split; [auto|lia]|lia].
    + assert (q = a + b + 1) by nia. subst q.
      split; [split; [nia|lia]|nia].
Qed.

(** X1: without overflow [extract_second] seeks to
    (1 + ceil((ksize + rsize) / psize)) * psize, and [update_images] and
    [write_bootimg] place the second stage at
    (1 + ceil(ksize / psize) + ceil(rsize / psize)) * psize. The two are the
    same offset exactly when the kernel size or the ramdisk size is a
    multiple of the page size, or their remainders add up to more than a
    page; otherwise [extract_second] reads one page before the place where
    the second stage is written. *)
Theorem second_offsets_agree_iff (ps ks rs : Z)
  (Hps : 0 < ps) (Hk : 0 <= ks) (Hr : 0 <= rs)
  (F : (1 + ceil_div ks ps + ceil_div rs ps) * ps < 2 ^ 32) :
  (extract_second_offset ps ks rs = (1 + ceil_div (ks + rs) ps) * ps /\
   layout_second_offset ps ks rs
   = (1 + ceil_div ks ps + ceil_div rs ps) * ps) /\
  (extract_second_offset ps ks rs = layout_second_offset ps ks rs <->
   ks mod ps = 0 \/ rs mod ps = 0 \/ ps < ks mod ps + rs mod ps) /\
  (extract_second_offset ps ks rs <> layout_second_offset ps ks rs ->
   layout_second_offset ps ks rs = extract_second_offset ps ks rs + ps).
Proof.
  split; [apply second_offsets_exact; assumption|].
  apply second_offsets_compare; assumption.
Qed.

Lemma second_offsets_agree_iff_witness :
  extract_second_offset 2048 3000 1500 = layout_second_offset 2048 3000 1500 <->
  3000 mod 2048 = 0 \/ 1500 mod 2048 = 0 \/ 2048 < 3000 mod 2048 + 1500 mod 2048.
Proof.
  apply (second_offsets_agree_iff 2048 3000 1500); vm_compute;
    (reflexivity || discriminate).
Defined.

Lemma ceil_div_add3 (a b c d : Z) :
  0 < d -> 0 <= a -> 0 <= b -> 0 <= c ->
  ceil_div a d + ceil_div b d + ceil_div c d - 2 <= ceil_div (a + b + c) d
  <= ceil_div a d + ceil_div b d + ceil_div c d.
Proof.
  intros Hd Ha Hb Hc.
  pose proof (ceil_div_add_le (a + b) c d Hd ltac:(lia) Hc) as U1.
  pose proof (ceil_div_add_le a b d Hd Ha Hb) as U2.
  split; [|lia].
  pose proof (ceil_div_bounds a d Hd Ha) as A.
  pose proof (ceil_div_bounds b d Hd Hb) as B.
  pose proof (ceil_div_bounds c d Hd Hc) as C.
  pose proof (ceil_div_bounds (a + b + c) d Hd ltac:(lia)) as Q.
  set (q := ceil_div (a + b + c) d) in *.
  set (x := ceil_div a d) in *. set (y := ceil_div b d) in *.
  set (z := ceil_div c d) in *. clearbody q x y z. clear U1 U2.
  assert ((x + y + z - 3) * d < q * d) by lia.
  nia.
Qed.

Lemma dtbs_offsets_exact (ps ks rs ss ds : Z) :
  0 < ps -> 0 <= ks -> 0 <= rs -> 0 <= ss ->
  (1 + ceil_div ks ps + ceil_div rs ps + ceil_div ss ps) * ps < 2 ^ 32 ->
  extract_dtbs_offset ps ks rs ss = (1 + ceil_div (ks + rs + ss) ps) * ps /\
  dtbs_offset (layout ps ks rs ss ds)
  = (1 + ceil_div ks ps + ceil_div rs ps + ceil_div ss ps) * ps /\
  0 <= ceil_div (ks + rs + ss) ps /\
  ceil_div ks ps + ceil_div rs ps + ceil_div ss ps - 2
  <= ceil_div (ks + rs + ss) ps
  <= ceil_div ks ps + ceil_div rs ps + ceil_div ss ps.
Proof.
  intros Hps Hk Hr Hs F.
  pose proof (ceil_div_bounds ks ps Hps Hk) as A.
  pose proof (ceil_div_bounds rs ps Hps Hr) as B.
  pose proof (ceil_div_bounds ss ps Hps Hs) as C.
  pose proof (ceil_div_nonneg ks ps Hps Hk) as A0.
  pose proof (ceil_div_nonneg rs ps Hps Hr) as B0.
  pose proof (ceil_div_nonneg ss ps Hps Hs) as C0.
  pose proof (ceil_div_nonneg (ks + rs + ss) ps Hps ltac:(lia)) as Q0.
  pose proof (ceil_div_add3 ks rs ss ps Hps Hk Hr Hs) as T.
  change (2 ^ 32) with 4294967296 in *.
  split; [|split; [|split; [exact Q0 | exact T]]].
  - unfold extract_dtbs_offset.
    rewrite (u32_small (ks + rs + ss + ps - 1))
      by (change (2 ^ 32) with 4294967296; lia).
    fold (ceil_div (ks + rs + ss) ps). apply u32_small.
    change (2 ^ 32) with 4294967296.
    set (q := ceil_div (ks + rs + ss) ps) in *.
    set (x := ceil_div ks ps) in *. set (y := ceil_div rs ps) in *.
    set (z := ceil_div ss ps) in *. clearbody q x y z.
    clear A B C. nia.
  - unfold layout. cbn [dtbs_offset].
    rewrite !pages_exact
      by (try assumption; change (2 ^ 32) with 4294967296; lia).
    apply u32_small. change (2 ^ 32) with 4294967296.
    set (x := ceil_div ks ps) in *. set (y := ceil_div rs ps) in *.
    set (z := ceil_div ss ps) in *. clearbody x y z.
    clear A B C T. nia.
Qed.

(** X2: [extract_dtbs] seeks to an offset computed from one page count for
    the three sections before the device trees. Without overflow this offset
    is never after the offset of the device trees in the layout and at most
    two pages before it, and it is the offset of the layout when two of the
    three sizes are multiples of the page size. A successful [extract_dtbs]
    has read [dtbs_size] bytes from there. *)
Theorem extract_dtbs_offset_bounds (ps ks rs ss ds : Z)
  (Hps : 0 < ps) (Hk : 0 <= ks) (Hr : 0 <= rs) (Hs : 0 <= ss)
  (F : (1 + ceil_div ks ps + ceil_div rs ps + ceil_div ss ps) * ps < 2 ^ 32) :
  let off := extract_dtbs_offset ps ks rs ss in
  let doff := dtbs_offset (layout ps ks rs ss ds) in
  off = (1 + ceil_div (ks + rs + ss) ps) * ps /\
  doff = (1 + ceil_div ks ps + ceil_div rs ps + ceil_div ss ps) * ps /\
  off <= doff <= off + 2 * ps /\
  (ks mod ps = 0 /\ rs mod ps = 0 \/ ks mod ps = 0 /\ ss mod ps = 0 \/
   rs mod ps = 0 /\ ss mod ps = 0 -> off = doff) /\
  (forall img s r s',
      page_size (header img) = ps -> kernel_size (header img) = ks ->
      ramdisk_size (header img) = rs -> second_size (header img) = ss ->
      extract_dtbs img s = (Ok r, s') ->
      fpos s' = off + dtbs_size (header img)).
Proof.
  intros off doff.
  destruct (dtbs_offsets_exact ps ks rs ss ds Hps Hk Hr Hs F)
    as (Eoff & Edoff & Q0 & T).
  fold off in Eoff. fold doff in Edoff.
  pose proof (ceil_div_bounds ks ps Hps Hk) as A.
  pose proof (ceil_div_bounds rs ps Hps Hr) as B.
  pose proof (ceil_div_bounds ss ps Hps Hs) as C.
  pose proof (ceil_div_bounds (ks + rs + ss) ps Hps ltac:(lia)) as Q.
  assert (Ak : ks mod ps = 0 -> ceil_div ks ps * ps = ks)
    by (apply ceil_div_aligned; assumption).
  assert (Ar : rs mod ps = 0 -> ceil_div rs ps * ps = rs)
    by (apply ceil_div_aligned; assumption).
  assert (As : ss mod ps = 0 -> ceil_div ss ps * ps = ss)
    by (apply ceil_div_aligned; assumption).
  split; [exact Eoff|]. split; [exact Edoff|].
  set (q := ceil_div (ks + rs + ss) ps) in *.
  set (x := ceil_div ks ps) in *. set (y := ceil_div rs ps) in *.
  set (z := ceil_div ss ps) in *. clearbody q x y z.
  split; [rewrite Eoff, Edoff; clear Ak Ar As A B C Q Eoff Edoff F; nia|].
  split.
  - rewrite Eoff, Edoff. intros H.
    assert (q = x + y + z); [|subst q; ring].
    destruct H as [[H1 H2]|[[H1 H2]|[H1 H2]]].
    + specialize (Ak H1). specialize (Ar H2). clear As F Eoff Edoff. nia.
    + specialize (Ak H1). specialize (As H2). clear Ar F Eoff Edoff. nia.
    + specialize (Ar H1). specialize (As H2). clear Ak F Eoff Edoff. nia.
  - intros img s r s' Ep Ek Er Es H.
    unfold extract_dtbs in H. rewrite Ep, Ek, Er, Es in H.
    fold (extract_dtbs_offset ps ks rs ss) in H. fold off in H.
    destruct (Z.eqb_spec ps 0); [lia|].
    apply bind_ok in H. destruct H as (u & s1 & H1 & H).
    apply fseek_ok in H1. subst s1.
    apply bind_ok in H. destruct H as (d & s2 & H2 & H).
    unfold fread in H2. cbn [content fpos] in H2.
    destruct ((0 <? dtbs_size (header img)) && (0 <=? off) &&
              (off + dtbs_size (header img) <=? blen (content s)));
      [|discriminate].
    injection H2 as <- <-.
    cbn [sub blen] in H.
    destruct (dtbs_size (header img) <? sizeof_dtbs_t); [discriminate|].
    repeat match type of H with
           | (if ?c then _ else _) _ = _ => destruct c; [discriminate|]
           end.
    unfold ret in H. injection H as _ <-. reflexivity.
Qed.

Lemma extract_dtbs_offset_bounds_witness :
  extract_dtbs_offset 2048 3 2 4 <= dtbs_offset (layout 2048 3 2 4 0)
  <= extract_dtbs_offset 2048 3 2 4 + 2 * 2048.
Proof.
  apply (extract_dtbs_offset_bounds 2048 3 2 4 0); vm_compute;
    (reflexivity || discriminate).
Defined.

(** ** Runs that stop with an error *)

Lemma writes_nothing_main_update (fs : filesystem) (t : target)
  (a : arguments) (e : error) :
  e <> E_undefined ->
  writes_nothing_on e (img <- update_steps fs t a ;; write_bootimg img).
Proof.
  intros N. apply writes_nothing_bind; [apply read_only_update_steps|].
  intros i. apply writes_nothing_only_undefined;
    [apply only_undefined_write_bootimg | exact N].
Qed.

(** X3: an update run that stops before [write_bootimg] is called leaves
    every byte of the image file as it was. When [read_header],
    [update_header] or [update_images] stops in [abort_perror] or with a
    message, the run stops there with the same message, and the file holds
    the bytes it held: the three steps only seek in the stream and read
    from it. *)
Theorem update_stopped_before_writing_keeps_the_file (fs : filesystem)
  (t : target) (a : arguments) (file : buffer) (e : error)
  (E : fst (update_steps fs t a (open_bootimg false t file)) = Abort e)
  (N : e <> E_undefined) :
  fst (main_update fs t a file) = Abort e /\
  content (snd (main_update fs t a file)) = file.
Proof.
  unfold main_update, bind.
  destruct (update_steps fs t a (open_bootimg false t file))
    as [[img|x] s1] eqn:U; cbn [fst] in E; [discriminate E|].
  injection E as ->. cbn [fst snd]. split; [reflexivity|].
  apply (read_only_update_steps fs t a) in U. rewrite U. reflexivity.
Qed.

Lemma update_stopped_before_writing_keeps_the_file_witness :
  fst (main_update no_files regular_file no_arguments (zeros 700))
  = Abort E_not_valid /\
  content (snd (main_update no_files regular_file no_arguments (zeros 700)))
  = zeros 700.
Proof.
  apply (update_stopped_before_writing_keeps_the_file no_files regular_file
           no_arguments (zeros 700) E_not_valid).
  - vm_compute. reflexivity.
  - discriminate.
Defined.

Lemma read_only_create_steps (fs : filesystem) (img : t_abootimg) :
  read_only (create_steps fs img).
Proof.
  unfold create_steps.
  apply read_only_bind; [apply read_only_update_header|]. intros i.
  apply read_only_bind; [apply read_only_update_images|]. intros j.
  destruct (check_boot_img_header j =? 0);
    [apply read_only_ret | apply read_only_abort].
Qed.

(** The create run is its steps followed by the writer. *)
Lemma main_create_steps (fs : filesystem) (t : target) (a : arguments)
  (file : buffer) (kf rf : string) (imgb : t_abootimg) :
  arg_kernel a = Some kf -> arg_ramdisk a = Some rf ->
  check_if_block_device t (blen file) (new_bootimg a) = Ok imgb ->
  main_create fs t a file
  = (img <- create_steps fs imgb ;; write_bootimg img)
      (open_bootimg true t file).
Proof.
  intros K R C. unfold main_create, create_steps. rewrite K, R, C.
  unfold bind.
  destruct (update_header imgb (open_bootimg true t file)) as [[i|x] s1];
    [|reflexivity].
  destruct (update_images fs i s1) as [[j|y] s2]; [|reflexivity].
  destruct (check_boot_img_header j =? 0); reflexivity.
Qed.

(** X4: a create run that stops before [write_bootimg] is called has not
    written to the image file. When [check_if_block_device] stops, the run
    stops there and the file, not yet opened, is as it was. When the file
    has been opened and [update_header], [update_images] or the sanity
    check stops in [abort_perror] or with a message, the run stops there
    with the same message, a block device is as it was and a regular file,
    truncated by [fopen], is empty. *)
Theorem create_stopped_before_writing_leaves_the_file (fs : filesystem)
  (t : target) (a : arguments) (file : buffer) (kf rf : string)
  (K : arg_kernel a = Some kf) (R : arg_ramdisk a = Some rf) :
  (forall e,
     check_if_block_device t (blen file) (new_bootimg a) = Abort e ->
     fst (main_create fs t a file) = Abort e /\
     content (snd (main_create fs t a file)) = file) /\
  (forall imgb e,
     check_if_block_device t (blen file) (new_bootimg a) = Ok imgb ->
     fst (create_steps fs imgb (open_bootimg true t file)) = Abort e ->
     e <> E_undefined ->
     fst (main_create fs t a file) = Abort e /\
     content (snd (main_create fs t a file))
     = if is_blk t then file else zeros 0).
Proof.
  split.
  - intros e C. unfold main_create. rewrite K, R, C. split; reflexivity.
  - intros imgb e C E N.
    rewrite (main_create_steps fs t a file kf rf imgb K R C).
    unfold bind.
    destruct (create_steps fs imgb (open_bootimg true t file))
      as [[img|x] s1] eqn:U; cbn [fst] in E; [discriminate E|].
    injection E as ->. cbn [fst snd]. split; [reflexivity|].
    apply (read_only_create_steps fs imgb) in U. rewrite U.
    unfold open_bootimg. destruct (is_blk t); reflexivity.
Qed.

Lemma create_stopped_before_writing_leaves_the_file_witness :
  fst (main_create no_files regular_file create_three seven_pages)
  = Abort E_perror /\
  content (snd (main_create no_files regular_file create_three seven_pages))
  = zeros 0.
Proof.
  apply (proj2 (create_stopped_before_writing_leaves_the_file no_files
                  regular_file create_three seven_pages
                  "zImage"%string "initrd.gz"%string eq_refl eq_refl)
           (new_bootimg create_three) E_perror).
  - reflexivity.
  - vm_compute. reflexivity.
  - discriminate.
Defined.

(** ** What each loader leaves alone *)

Lemma same_settings_refl (a : t_abootimg) : same_settings a a.
Proof. unfold same_settings. repeat split; reflexivity. Qed.

Lemma same_settings_trans (a b c : t_abootimg) :
  same_settings a b -> same_settings b c -> same_settings a c.
Proof.
  unfold same_settings. intros H1 H2.
  repeat match goal with H : _ /\ _ |- _ => destruct H end.
  repeat split; etransitivity; eassumption.
Qed.

Lemma fread_ok (n : Z) (s s' : FILE) (b : buffer) :
  fread n s = (Ok b, s') ->
  b = sub (content s) (fpos s) n /\ s' = mkFILE (content s) (fpos s + n) /\
  0 < n /\ 0 <= fpos s /\ fpos s + n <= blen (content s).
Proof.
  unfold fread. intros H.
  destruct (Z.ltb_spec 0 n); [|discriminate H].
  destruct (Z.leb_spec 0 (fpos s)); [|discriminate H].
  destruct (Z.leb_spec (fpos s + n) (blen (content s))); [|discriminate H].
  cbn [andb] in H. injection H as <- <-. repeat split; assumption.
Qed.

Ltac frame_tac :=
  repeat split; try reflexivity; try assumption; try discriminate.

Lemma load_kernel_keeps (fs : filesystem) (img img' : t_abootimg) (s s' : FILE) :
  load_kernel fs img s = (Ok img', s') ->
  ramdisk img' = ramdisk img /\ second img' = second img /\
  ramdisk_size (header img') = ramdisk_size (header img) /\
  second_size (header img') = second_size (header img) /\
  dtbs_size (header img') = dtbs_size (header img) /\
  same_settings img' img /\
  (forall kf, kernel_fname img = Some kf -> 0 < kernel_size (header img')) /\
  (kernel_fname img = None ->
   kernel img' = kernel img /\
   kernel_size (header img') = kernel_size (header img)).
Proof.
  intros H. unfold load_kernel in H.
  destruct (kernel_fname img) as [kf|] eqn:Kf.
  - apply bind_ok in H. destruct H as ([ksize k] & s1 & R & H).
    unfold lift in R. injection R as R <-. ret_inv H.
    unfold read_file in R. destruct (fs kf); [|discriminate R].
    destruct (Z.ltb_spec 0 (u32 (blen b))); [|discriminate R].
    destruct (u32 (blen b) <=? blen b); [|discriminate R].
    cbn [andb] in R. injection R as <- <-.
    frame_tac. intros; assumption.
  - ret_inv H. frame_tac.
Qed.

Lemma load_ramdisk_keeps (fs : filesystem) (rsize roffset : Z)
  (img img' : t_abootimg) (s s' : FILE) :
  load_ramdisk fs rsize roffset img s = (Ok img', s') ->
  kernel img' = kernel img /\ second img' = second img /\
  kernel_size (header img') = kernel_size (header img) /\
  second_size (header img') = second_size (header img) /\
  dtbs_size (header img') = dtbs_size (header img) /\
  same_settings img' img /\
  (forall rf, ramdisk_fname img = Some rf -> 0 < ramdisk_size (header img')) /\
  (ramdisk_fname img = None ->
   ramdisk_size (header img') = ramdisk_size (header img) /\
   (kernel img = None -> ramdisk img' = ramdisk img)).
Proof.
  intros H. unfold load_ramdisk in H.
  destruct (ramdisk_fname img) as [rf|] eqn:Rf.
  - apply bind_ok in H. destruct H as ([sz r] & s1 & R & H).
    unfold lift in R. injection R as R <-. ret_inv H.
    unfold read_file in R. destruct (fs rf); [|discriminate R].
    destruct (Z.ltb_spec 0 (u32 (blen b))); [|discriminate R].
    destruct (u32 (blen b) <=? blen b); [|discriminate R].
    cbn [andb] in R. injection R as <- <-.
    frame_tac. intros; assumption.
  - destruct (kernel img) eqn:K.
    + apply bind_ok in H. destruct H as ([] & s1 & _ & H).
      apply bind_ok in H. destruct H as (x & s2 & _ & H). ret_inv H.
      frame_tac.
    + ret_inv H. frame_tac.
Qed.

Lemma load_second_keeps (fs : filesystem) (ssize soffset : Z)
  (img img' : t_abootimg) (s s' : FILE) :
  load_second fs ssize soffset img s = (Ok img', s') ->
  kernel img' = kernel img /\ ramdisk img' = ramdisk img /\
  kernel_size (header img') = kernel_size (header img) /\
  ramdisk_size (header img') = ramdisk_size (header img) /\
  dtbs_size (header img') = dtbs_size (header img) /\
  same_settings img' img /\
  (second_fname img = None ->
   second_size (header img') = second_size (header img) /\
   (ramdisk img = None -> second img' = second img)).
Proof.
  intros H. unfold load_second in H.
  destruct (second_fname img) as [sf|] eqn:Sf.
  - apply bind_ok in H. destruct H as ([sz r] & s1 & R & H).
    unfold lift in R. injection R as R <-. ret_inv H.
    frame_tac.
  - destruct (ramdisk img) eqn:R.
    + destruct (negb (second_size (header img) =? 0)).
      * apply bind_ok in H. destruct H as ([] & s1 & _ & H).
        apply bind_ok in H. destruct H as (x & s2 & _ & H). ret_inv H.
        frame_tac.
      * ret_inv H. frame_tac.
    + ret_inv H. frame_tac.
Qed.

Lemma load_dtbs_keeps (fs : filesystem) (ps dsize doffset : Z)
  (img img' : t_abootimg) (s s' : FILE) :
  load_dtbs fs ps dsize doffset img s = (Ok img', s') ->
  kernel img' = kernel img /\ ramdisk img' = ramdisk img /\
  second img' = second img /\
  kernel_size (header img') = kernel_size (header img) /\
  ramdisk_size (header img') = ramdisk_size (header img) /\
  second_size (header img') = second_size (header img) /\
  same_settings img' img.
Proof.
  intros H. unfold load_dtbs in H.
  destruct (dtbs_fname img) as [df|] eqn:Df.
  - unfold lift in H. injection H as H <-. unfold replace_dtbs in H.
    destruct (negb (fits_dtbname _)); [discriminate H|].
    destruct (fs (dtbh_name df)); [|discriminate H].
    destruct (negb _); [discriminate H|].
    destruct (ps <? _); [discriminate H|].
    destruct (blen _ <? _); [discriminate H|].
    destruct (replace_dtbs_loop _ _ _ _ _ _ _ _) as [[[d' tbl] p]|];
      [|discriminate H].
    injection H as <-. frame_tac.
  - destruct (negb (dtbs_size (header img) =? 0)).
    + unfold copy_dtbs in H.
      apply bind_ok in H. destruct H as ([] & s1 & _ & H).
      apply bind_ok in H. destruct H as (d & s2 & _ & H).
      destruct (blen d <? sizeof_dtbs_t); [discriminate H|].
      destruct (blen d <? entry_at (num_entries d)); [discriminate H|].
      ret_inv H. frame_tac.
    + ret_inv H. frame_tac.
Qed.

Lemma load_dtbs_size (fs : filesystem) (ps dsize doffset : Z)
  (img img' : t_abootimg) (s s' : FILE) :
  dtbs_fname img = None ->
  load_dtbs fs ps dsize doffset img s = (Ok img', s') ->
  dtbs_size (header img') = dtbs_size (header img).
Proof.
  intros Df H. apply load_dtbs_frame in H; [|exact Df].
  destruct H as (-> & _). reflexivity.
Qed.

Lemma load_sections_keeps (fs : filesystem) (img img' : t_abootimg)
  (s s' : FILE) :
  load_sections fs img s = (Ok img', s') ->
  page_size (header img) <> 0 /\ same_settings img' img /\
  (forall kf, kernel_fname img = Some kf -> 0 < kernel_size (header img')) /\
  (forall rf, ramdisk_fname img = Some rf -> 0 < ramdisk_size (header img')) /\
  (kernel_fname img = None ->
   kernel_size (header img') = kernel_size (header img)) /\
  (ramdisk_fname img = None ->
   ramdisk_size (header img') = ramdisk_size (header img)) /\
  (second_fname img = None ->
   second_size (header img') = second_size (header img)) /\
  (dtbs_fname img = None ->
   dtbs_size (header img') = dtbs_size (header img)) /\
  (kernel_fname img = None -> ramdisk_fname img = None ->
   second_fname img = None -> kernel img = None -> ramdisk img = None ->
   kernel img' = None /\ ramdisk img' = None /\ second img' = second img).
Proof.
  intros L. unfold load_sections in L.
  destruct (Z.eqb_spec (page_size (header img)) 0) as [Z|NZ]; [discriminate L|].
  split; [exact NZ|].
  apply bind_ok in L. destruct L as (img1 & s1 & L1 & L).
  apply bind_ok in L. destruct L as (img2 & s2 & L2 & L).
  apply bind_ok in L. destruct L as (img3 & s3 & L3 & L4).
  assert (D4 : dtbs_fname img3 = None ->
               dtbs_size (header img') = dtbs_size (header img3))
    by (intros Df; exact (load_dtbs_size _ _ _ _ _ _ _ _ Df L4)).
  apply load_kernel_keeps in L1.
  destruct L1 as (R1 & S1 & Rs1 & Ss1 & Ds1 & T1 & Kp1 & Kn1).
  apply load_ramdisk_keeps in L2.
  destruct L2 as (K2 & S2 & Ks2 & Ss2 & Ds2 & T2 & Rp2 & Rn2).
  apply load_second_keeps in L3.
  destruct L3 as (K3 & R3 & Ks3 & Rs3 & Ds3 & T3 & Sn3).
  apply load_dtbs_keeps in L4.
  destruct L4 as (K4 & R4 & S4 & Ks4 & Rs4 & Ss4 & T4).
  pose proof (same_settings_trans _ _ _ T2 T1) as T21.
  pose proof (same_settings_trans _ _ _ T3 T21) as T31.
  pose proof (same_settings_trans _ _ _ T4 T31) as T41.
  assert (F1 : ramdisk_fname img1 = ramdisk_fname img) by apply T1.
  assert (F2 : second_fname img2 = second_fname img) by apply T21.
  assert (F3 : dtbs_fname img3 = dtbs_fname img) by apply T31.
  split; [exact T41|].
  split; [intros kf Kf; rewrite Ks4, Ks3, Ks2; exact (Kp1 kf Kf)|].
  split; [intros rf Rf; rewrite Rs4, Rs3; apply (Rp2 rf); congruence|].
  split; [intros Kf; rewrite Ks4, Ks3, Ks2; apply (Kn1 Kf)|].
  split; [intros Rf; rewrite Rs4, Rs3, <- Rs1; apply Rn2; congruence|].
  split; [intros Sf; rewrite Ss4, <- Ss1, <- Ss2; apply Sn3; congruence|].
  split; [intros Df; rewrite D4 by congruence; congruence|].
  intros Kf Rf Sf K R.
  destruct (Kn1 Kf) as [Kk _].
  destruct (Rn2 ltac:(congruence)) as [_ Rr].
  destruct (Sn3 ltac:(congruence)) as [_ Sr].
  assert (K1 : kernel img1 = None) by congruence.
  assert (R2 : ramdisk img2 = None) by (rewrite (Rr K1); congruence).
  split; [congruence|]. split; [congruence|].
  rewrite S4, (Sr R2). congruence.
Qed.

(** ** The second stage in an update that names no section *)

Lemma write_bootimg_null_second (img : t_abootimg) (s : FILE) :
  second img = None -> second_size (header img) <> 0 ->
  fst (write_bootimg img s) = Abort E_undefined.
Proof.
  intros Hn Hs. destruct (write_bootimg img s) as [[[]|e] s'] eqn:W.
  - exfalso. unfold write_bootimg in W.
    destruct (page_size (header img) =? 0); [discriminate W|].
    apply bind_ok in W. destruct W as (u1 & s1 & _ & W).
    apply bind_ok in W. destruct W as (u2 & s2 & _ & W).
    apply bind_ok in W. destruct W as (u3 & s3 & _ & W).
    apply bind_ok in W. destruct W as (u4 & s4 & W4 & _).
    unfold write_second in W4. rewrite Hn in W4.
    destruct (Z.eqb_spec (second_size (header img)) 0); [contradiction|].
    cbn [negb] in W4.
    apply bind_ok in W4. destruct W4 as (u5 & s5 & _ & W4). discriminate W4.
  - cbn [fst]. f_equal. apply (only_undefined_write_bootimg img _ _ _ W).
Qed.

Lemma update_steps_nothing_named (fs : filesystem) (t : target)
  (a : arguments) (file : buffer) (img : t_abootimg) (s : FILE) :
  arg_kernel a = None -> arg_ramdisk a = None -> arg_second a = None ->
  update_steps fs t a (open_bootimg false t file) = (Ok img, s) ->
  kernel img = None /\ ramdisk img = None /\ second img = None /\
  kernel_size (header img) = kernel_size (header_of_block file) /\
  ramdisk_size (header img) = ramdisk_size (header_of_block file) /\
  second_size (header img) = second_size (header_of_block file).
Proof.
  intros Hk Hr Hs U. unfold update_steps in U.
  apply bind_ok in U. destruct U as (img1 & s1 & R & U).
  apply bind_ok in U. destruct U as (img2 & s2 & C & U).
  unfold update_images in U.
  apply bind_ok in U. destruct U as (img3 & s3 & L & F).
  apply finish_update_frame in F. destruct F as (-> & -> & -> & -> & _).
  apply read_header_ok in R. destruct R as (E1 & _).
  change (content (open_bootimg false t file)) with file in E1.
  change (fpos (open_bootimg false t file)) with 0 in E1.
  rewrite header_of_block_sub in E1.
  remember (header_of_block file) as h0 eqn:Hh. clear Hh.
  apply update_header_frame in C.
  destruct C as (_ & (Kf & Rf & Sf & Df & K & Rd & Sd & Dh & Ks & Rs & Ss & Ds)
                   & _).
  subst img1.
  cbn [kernel_fname ramdisk_fname second_fname kernel ramdisk second header
       with_is_blkdev with_size with_header new_bootimg] in *.
  apply load_sections_keeps in L.
  destruct L as (_ & _ & _ & _ & Kn & Rn & Sn & _ & N).
  destruct N as (K3 & R3 & S3); try congruence.
  rewrite K3, R3, S3, Kn, Rn, Sn by congruence. repeat split; assumption.
Qed.

(** X5: an update of an image that has a second stage, in which neither a
    kernel nor a ramdisk nor a second stage is named, never completes: the
    second stage is copied from the image only when a ramdisk was loaded, so
    [write_bootimg] reaches [fwrite] with the null pointer [img->second] and
    a non-zero size. The file is not one the reader would have refused: the
    run stops in the writer whenever the steps before it succeed. *)
Theorem update_naming_nothing_loses_second_stage (fs : filesystem)
  (t : target) (a : arguments) (file : buffer)
  (Hk : arg_kernel a = None) (Hr : arg_ramdisk a = None)
  (Hs : arg_second a = None)
  (Hss : second_size (header_of_block file) <> 0) :
  is_ok (fst (main_update fs t a file)) = false /\
  (is_ok (fst (update_steps fs t a (open_bootimg false t file))) = true ->
   fst (main_update fs t a file) = Abort E_undefined).
Proof.
  unfold main_update, bind.
  destruct (update_steps fs t a (open_bootimg false t file))
    as [[img|e] s] eqn:U.
  - destruct (update_steps_nothing_named fs t a file img s Hk Hr Hs U)
      as (_ & _ & Sn & _ & _ & Ss).
    rewrite <- Ss in Hss.
    pose proof (write_bootimg_null_second img s Sn Hss) as W.
    rewrite W. split; [reflexivity|]. intros _. reflexivity.
  - cbn [fst is_ok]. split; [reflexivity|]. intros X. discriminate X.
Qed.

Lemma update_naming_nothing_loses_second_stage_witness :
  fst (main_update no_files regular_file no_arguments image_with_second)
  = Abort E_undefined.
Proof.
  apply (update_naming_nothing_loses_second_stage no_files regular_file
           no_arguments image_with_second); try reflexivity.
  assert (E : second_size (header_of_block image_with_second) = 4)
    by (vm_compute; reflexivity).
  rewrite E. discriminate.
Defined.

(** X6: [update_images] changes no header field other than the four section
    sizes, and it changes the size of a section only when a file is named
    for that section; the device flag, the file names and the configuration
    stay as they are. It completes only for a non-zero page size. *)
Theorem update_images_changes_only_sizes (fs : filesystem)
  (img img' : t_abootimg) (s s' : FILE)
  (H : update_images fs img s = (Ok img', s')) :
  let h := header img in
  let h' := header img' in
  page_size h <> 0 /\
  (magic h' = magic h /\ page_size h' = page_size h /\
   kernel_addr h' = kernel_addr h /\ ramdisk_addr h' = ramdisk_addr h /\
   second_addr h' = second_addr h /\ tags_addr h' = tags_addr h /\
   unused h' = unused h /\ name h' = name h /\ cmdline h' = cmdline h /\
   id h' = id h) /\
  (is_blkdev img' = is_blkdev img /\ config img' = config img /\
   kernel_fname img' = kernel_fname img /\
   ramdisk_fname img' = ramdisk_fname img /\
   second_fname img' = second_fname img /\
   dtbs_fname img' = dtbs_fname img) /\
  (kernel_fname img = None -> kernel_size h' = kernel_size h) /\
  (ramdisk_fname img = None -> ramdisk_size h' = ramdisk_size h) /\
  (second_fname img = None -> second_size h' = second_size h) /\
  (dtbs_fname img = None -> dtbs_size h' = dtbs_size h).
Proof.
  intros h h'. unfold update_images in H.
  apply bind_ok in H. destruct H as (img1 & s1 & L & F).
  assert (E : header img' = header img1 /\ is_blkdev img' = is_blkdev img1 /\
              config img' = config img1 /\
              kernel_fname img' = kernel_fname img1 /\
              ramdisk_fname img' = ramdisk_fname img1 /\
              second_fname img' = second_fname img1 /\
              dtbs_fname img' = dtbs_fname img1).
  { unfold finish_update in F. cbn [size header with_signature] in F.
    destruct (size img1 =? 0); [ret_inv F; repeat split; reflexivity|].
    destruct (size img1 <? total_size (header img1)); [discriminate F|].
    ret_inv F. repeat split; reflexivity. }
  destruct E as (Eh & -> & -> & -> & -> & -> & ->).
  unfold h'. rewrite Eh.
  apply load_sections_keeps in L.
  destruct L as (NZ & T & _ & _ & Kn & Rn & Sn & Dn & _).
  unfold same_settings in T.
  destruct T as (_ & Tb & Tc & Tkf & Trf & Tsf & Tdf & _ & Tm & Tka & Tra
                 & Tsa & Tta & Tps & Tu & Tn & Tcl & Tid).
  repeat split; assumption.
Qed.

Lemma update_images_changes_only_sizes_witness :
  match fst (update_images no_files example_image (mkFILE seven_pages 0)) with
  | Ok img' => kernel_size (header img') = 9000
  | Abort _ => False
  end.
Proof.
  destruct (update_images no_files example_image (mkFILE seven_pages 0))
    as [[img'|e] s'] eqn:E; cbn [fst].
  - rewrite (proj1 (proj2 (proj2 (proj2
               (update_images_changes_only_sizes _ _ _ _ _ E)))));
      reflexivity.
  - apply (f_equal (fun r => is_ok (fst r))) in E. vm_compute in E.
    discriminate E.
Defined.

(** ** Invariants of the header settings *)

Lemma Forall_firstn {A} (P : A -> Prop) (n : nat) (l : list A) :
  Forall P l -> Forall P (firstn n l).
Proof.
  intros H. revert n. induction H as [|x l Hx Hl IH]; intros [|n]; cbn;
    constructor; auto.
Qed.

Lemma pad_to_spec (n : nat) (l : list Z) :
  length (pad_to n l) = n /\ (Forall is_byte l -> Forall is_byte (pad_to n l)).
Proof.
  unfold pad_to. split.
  - rewrite length_firstn, length_app, repeat_length. lia.
  - intros H. apply Forall_firstn. apply Forall_app. split; [exact H|].
    apply Forall_repeat. unfold is_byte. lia.
Qed.

Lemma update_header_entry_wf (img img' : t_abootimg) (e : config_entry) :
  wf_header (header img) -> entry_bytes e ->
  update_header_entry img e = Ok img' ->
  wf_header (header img') /\ magic (header img') = magic (header img) /\
  id (header img') = id (header img) /\
  unused (header img') = unused (header img).
Proof.
  intros W B H.
  destruct W as (M1 & M2 & Wd & N1 & N2 & C1 & C2 & I1 & I2).
  assert (U : forall v, is_word (u32 v)) by (intros v; apply u32_range).
  unfold header_words in Wd.
  repeat match goal with
         | X : Forall _ (_ :: _) |- _ => inversion_clear X
         end.
  destruct e; cbn [update_header_entry entry_bytes] in *.
  - destruct (BOOT_ARGS_SIZE <=? Z.of_nat (length value)); [discriminate H|].
    injection H as <-. destruct (pad_to_spec 512 value) as [L F].
    unfold wf_header, header_words. cbn -[pad_to].
    repeat split; auto 12.
  - injection H as <-. destruct (pad_to_spec 15 value) as [L F].
    unfold wf_header, header_words. cbn -[pad_to].
    repeat split; auto 12.
    + rewrite length_app, L. reflexivity.
    + apply Forall_app. split; [auto|]. repeat constructor; unfold is_byte; lia.
  - destruct (is_blkdev img && negb (size img =? u32 valuenum));
      [discriminate H|].
    injection H as <-. unfold wf_header, header_words. cbn -[pad_to].
    repeat split; auto 12.
  - injection H as <-. unfold wf_header, header_words. cbn -[pad_to].
    repeat split; auto 12.
  - injection H as <-. unfold wf_header, header_words. cbn -[pad_to].
    repeat split; auto 12.
  - injection H as <-. unfold wf_header, header_words. cbn -[pad_to].
    repeat split; auto 12.
  - injection H as <-. unfold wf_header, header_words. cbn -[pad_to].
    repeat split; auto 12.
  - injection H as <-. unfold wf_header, header_words. cbn -[pad_to].
    repeat split; auto 12.
  - discriminate H.
Qed.

Lemma update_header_entry_terminated (img img' : t_abootimg)
  (e : config_entry) :
  terminated (header img) -> update_header_entry img e = Ok img' ->
  terminated (header img').
Proof.
  intros [T1 T2] H. unfold terminated.
  destruct e; cbn [update_header_entry] in H.
  - destruct (Z.leb_spec BOOT_ARGS_SIZE (Z.of_nat (length value))) as [|L];
      [discriminate H|].
    injection H as <-. cbn -[pad_to nth]. split; [exact T1|].
    unfold pad_to. rewrite nth_firstn. cbn [Nat.ltb Nat.leb].
    change (511 <? 512)%nat with true. cbn iota.
    unfold BOOT_ARGS_SIZE in L.
    rewrite app_nth2 by lia. apply nth_repeat.
  - injection H as <-. cbn -[pad_to nth]. split; [|exact T2].
    rewrite app_nth2 by (rewrite (proj1 (pad_to_spec 15 value)); lia).
    rewrite (proj1 (pad_to_spec 15 value)). reflexivity.
  - destruct (is_blkdev img && negb (size img =? u32 valuenum));
      [discriminate H|].
    injection H as <-. split; assumption.
  - injection H as <-. split; assumption.
  - injection H as <-. split; assumption.
  - injection H as <-. split; assumption.
  - injection H as <-. split; assumption.
  - injection H as <-. split; assumption.
  - discriminate H.
Qed.

Lemma update_header_entries_wf (es : list config_entry) :
  forall img img',
    wf_header (header img) -> Forall entry_bytes es ->
    update_header_entries img es = Ok img' ->
    wf_header (header img') /\ magic (header img') = magic (header img) /\
    id (header img') = id (header img) /\
    unused (header img') = unused (header img) /\
    (terminated (header img) -> terminated (header img')).
Proof.
  induction es as [|e es IH]; intros img img' W B H; cbn in H.
  - injection H as <-. split; [exact W|].
    split; [reflexivity|]. split; [reflexivity|]. split; [reflexivity|].
    intros T; exact T.
  - inversion_clear B as [|? ? Be Bes].
    destruct (update_header_entry img e) as [img1|x] eqn:E; [|discriminate H].
    destruct (update_header_entry_wf _ _ _ W Be E) as (W1 & M1 & I1 & U1).
    destruct (IH _ _ W1 Bes H) as (W2 & M2 & I2 & U2 & T2).
    split; [exact W2|]. split; [congruence|]. split; [congruence|].
    split; [congruence|]. intros T. apply T2.
    apply (update_header_entry_terminated _ _ _ T E).
Qed.

(** X7: [update_header] keeps the header within its C types. If every field
    holds what its type can hold (arrays of their declared lengths, bytes
    below 256, words below 2^32) and the texts of the settings are bytes,
    the same is true after the settings are applied; the magic value, the
    id and the unused word are not touched; and if name and command line
    ended in a NUL within their arrays they still do. *)
Theorem update_header_keeps_header_well_formed (img img' : t_abootimg)
  (s s' : FILE) (W : wf_header (header img))
  (B : Forall entry_bytes (config img))
  (H : update_header img s = (Ok img', s')) :
  wf_header (header img') /\ magic (header img') = magic (header img) /\
  id (header img') = id (header img) /\
  unused (header img') = unused (header img) /\
  (terminated (header img) -> terminated (header img')).
Proof.
  unfold update_header, lift in H. injection H as H _.
  apply (update_header_entries_wf _ _ _ W B H).
Qed.

Lemma update_header_keeps_header_well_formed_witness :
  match fst (update_header (new_bootimg named_arguments) (mkFILE (zeros 0) 0))
  with
  | Ok img' => wf_header (header img') /\ terminated (header img')
  | Abort _ => False
  end.
Proof.
  destruct (update_header (new_bootimg named_arguments) (mkFILE (zeros 0) 0))
    as [[img'|e] s'] eqn:E; cbn [fst].
  - assert (W : wf_header (header (new_bootimg named_arguments))).
    { apply (wf_new_header 0 0); unfold is_word; lia. }
    assert (B : Forall entry_bytes (config (new_bootimg named_arguments))).
    { repeat constructor; unfold is_byte; lia. }
    destruct (update_header_keeps_header_well_formed _ _ _ _ W B E)
      as (W' & _ & _ & _ & T).
    split; [exact W'|]. apply T. split; reflexivity.
  - apply (f_equal (fun r => is_ok (fst r))) in E. vm_compute in E.
    discriminate E.
Defined.

Lemma update_header_entry_blkdev (img img' : t_abootimg) (e : config_entry) :
  is_blkdev img = true -> update_header_entry img e = Ok img' ->
  size img' = size img /\ is_blkdev img' = true /\
  (forall v, e = cfg_bootsize v -> u32 v = size img).
Proof.
  intros D H. destruct e; cbn [update_header_entry] in H;
    try (injection H as <-; repeat split; try assumption; discriminate).
  - destruct (BOOT_ARGS_SIZE <=? Z.of_nat (length value)); [discriminate H|].
    injection H as <-. repeat split; try assumption; discriminate.
  - rewrite D in H. cbn [andb] in H.
    destruct (Z.eqb_spec (size img) (u32 valuenum)) as [E|E];
      [|discriminate H].
    cbn [negb] in H. injection H as <-. cbn [size is_blkdev with_size].
    repeat split; [congruence|assumption|].
    intros v Ev. injection Ev as <-. congruence.
  - discriminate H.
Qed.

(** X8: on a block device no sequence of settings changes the size of the
    image: when [update_header_entry] accepts every entry of a list, the
    size is the capacity measured when the device was opened, and every
    bootsize setting in the list names exactly that capacity. *)
Theorem block_device_size_is_fixed (es : list config_entry)
  (img img' : t_abootimg) (D : is_blkdev img = true)
  (H : update_header_entries img es = Ok img') :
  size img' = size img /\ is_blkdev img' = true /\
  (forall v, In (cfg_bootsize v) es -> u32 v = size img).
Proof.
  revert img D H. induction es as [|e es IH]; intros img D H; cbn in H.
  - injection H as <-. repeat split; [assumption|]. intros v [].
  - destruct (update_header_entry img e) as [img1|x] eqn:E; [|discriminate H].
    destruct (update_header_entry_blkdev _ _ _ D E) as (S1 & D1 & B1).
    destruct (IH _ D1 H) as (S2 & D2 & B2).
    split; [congruence|]. split; [exact D2|].
    intros v [->|I]; [apply B1; reflexivity|].
    rewrite <- S1. apply B2. exact I.
Qed.

Lemma block_device_size_is_fixed_witness :
  match update_header_entries example_device
          [cfg_bootsize 16384; cfg_pagesize 4096] with
  | Ok img' => size img' = 16384
  | Abort _ => False
  end.
Proof.
  destruct (update_header_entries example_device
              [cfg_bootsize 16384; cfg_pagesize 4096]) as [img'|e] eqn:E.
  - apply (block_device_size_is_fixed _ example_device img' eq_refl E).
  - apply (f_equal is_ok) in E. vm_compute in E. discriminate E.
Defined.

(** ** The header as bytes *)

(** X9: the 608 bytes that [fwrite] takes from [&img->header] determine the
    header: a header whose fields hold what their C types can hold is read
    back, field by field, from the block of its bytes. *)
Theorem header_block_read_back (h : boot_img_hdr) (W : wf_header h) :
  blen (header_block h) = sizeof_boot_img_hdr /\
  header_of_block (header_block h) = h.
Proof.
  split; [reflexivity|].
  apply header_read_back; [exact W|]. intros i Hi. reflexivity.
Qed.

Lemma header_block_read_back_witness :
  header_of_block (header_block example_header) = example_header.
Proof.
  apply (header_block_read_back example_header).
  apply (wf_new_header 9000 500); unfold is_word; lia.
Defined.

Lemma nth_bytes_from (b : buffer) (off : Z) (n k : nat) :
  (k < n)%nat -> nth k (bytes_from b off n) 0 = byte_at b (off + Z.of_nat k).
Proof.
  revert off k. induction n as [|n IH]; intros off k Hk; [lia|].
  rewrite bytes_from_S. destruct k as [|k]; cbn [nth].
  - f_equal. lia.
  - rewrite IH by lia. f_equal. lia.
Qed.

Lemma nth_words_from (b : buffer) (off : Z) (n k : nat) :
  (k < n)%nat ->
  nth k (words_from b off n) 0 = get_u32 b (off + 4 * Z.of_nat k).
Proof.
  revert off k. induction n as [|n IH]; intros off k Hk; [lia|].
  rewrite words_from_S. destruct k as [|k]; cbn [nth].
  - f_equal. lia.
  - rewrite IH by lia. f_equal. lia.
Qed.

Lemma byte_at_range (b : buffer) (i : Z) : is_byte (byte_at b i).
Proof. unfold is_byte, byte_at. apply Z.mod_pos_bound. lia. Qed.

Lemma le32_byte_get_u32 (b : buffer) (off j : Z) :
  0 <= j < 4 -> le32_byte (get_u32 b off) j = byte_at b (off + j).
Proof.
  intros Hj. unfold le32_byte. rewrite u32_small by apply get_u32_range.
  unfold get_u32.
  pose proof (byte_at_range b off) as B0.
  pose proof (byte_at_range b (off + 1)) as B1.
  pose proof (byte_at_range b (off + 2)) as B2.
  pose proof (byte_at_range b (off + 3)) as B3.
  unfold is_byte in *.
  set (b0 := byte_at b off) in *. set (b1 := byte_at b (off + 1)) in *.
  set (b2 := byte_at b (off + 2)) in *. set (b3 := byte_at b (off + 3)) in *.
  assert (J : j = 0 \/ j = 1 \/ j = 2 \/ j = 3) by lia.
  destruct J as [->|[->|[->| ->]]].
  - replace (off + 0) with off by lia. fold b0.
    change (256 ^ 0) with 1. rewrite Z.div_1_r.
    symmetry. apply (Z.mod_unique _ _ (b1 + 256 * b2 + 65536 * b3)); lia.
  - fold b1. change (256 ^ 1) with 256.
    replace ((b0 + 256 * b1 + 65536 * b2 + 16777216 * b3) / 256)
      with (b1 + 256 * b2 + 65536 * b3)
      by (apply (Z.div_unique _ _ _ b0); lia).
    symmetry. apply (Z.mod_unique _ _ (b2 + 256 * b3)); lia.
  - fold b2. change (256 ^ 2) with 65536.
    replace ((b0 + 256 * b1 + 65536 * b2 + 16777216 * b3) / 65536)
      with (b2 + 256 * b3)
      by (apply (Z.div_unique _ _ _ (b0 + 256 * b1)); lia).
    symmetry. apply (Z.mod_unique _ _ b3); lia.
  - fold b3. change (256 ^ 3) with 16777216.
    replace ((b0 + 256 * b1 + 65536 * b2 + 16777216 * b3) / 16777216)
      with b3
      by (apply (Z.div_unique _ _ _ (b0 + 256 * b1 + 65536 * b2)); lia).
    apply Z.mod_small. lia.
Qed.

Lemma Forall_bytes_from (b : buffer) (off : Z) (n : nat) :
  Forall is_byte (bytes_from b off n).
Proof.
  unfold bytes_from. apply Forall_forall. intros x I.
  apply in_map_iff in I. destruct I as (k & <- & _). apply byte_at_range.
Qed.

Lemma Forall_words_from (b : buffer) (off : Z) (n : nat) :
  Forall is_word (words_from b off n).
Proof.
  unfold words_from. apply Forall_forall. intros x I.
  apply in_map_iff in I. destruct I as (k & <- & _). apply get_u32_range.
Qed.

Lemma header_words_of_block (b : buffer) (k : nat) :
  (k < 10)%nat ->
  nth k (header_words (header_of_block b)) 0 = get_u32 b (8 + 4 * Z.of_nat k).
Proof.
  intros Hk. unfold header_words, header_of_block.
  cbn [kernel_size kernel_addr ramdisk_size ramdisk_addr second_size
       second_addr tags_addr page_size dtbs_size unused].
  do 10 (destruct k as [|k]; [reflexivity|]). lia.
Qed.

(** X10: whatever bytes [fread] puts into [img->header], the fields hold
    what their C types can hold, and the struct holds the bytes that were
    read: written again, the header gives back the first 608 bytes of the
    block (as unsigned chars). *)
Theorem header_of_block_faithful (b : buffer) (i : Z)
  (Hi : 0 <= i < sizeof_boot_img_hdr) :
  wf_header (header_of_block b) /\
  header_byte (header_of_block b) i = byte_at b i.
Proof.
  split.
  - unfold wf_header.
    assert (L : forall off n, length (bytes_from b off n) = n)
      by (intros; unfold bytes_from; rewrite length_map, length_seq;
          reflexivity).
    assert (Lw : forall off n, length (words_from b off n) = n)
      by (intros; unfold words_from; rewrite length_map, length_seq;
          reflexivity).
    unfold header_words, header_of_block.
    cbn [magic name cmdline id kernel_size kernel_addr ramdisk_size
         ramdisk_addr second_size second_addr tags_addr page_size dtbs_size
         unused].
    rewrite !L, Lw.
    repeat split; try apply Forall_bytes_from; try apply Forall_words_from.
    repeat constructor; apply get_u32_range.
  - unfold sizeof_boot_img_hdr in Hi.
    remember (header_of_block b) as h eqn:Hh.
    assert (Em : magic h = bytes_from b 0 8) by (subst h; reflexivity).
    assert (En : name h = bytes_from b 48 16) by (subst h; reflexivity).
    assert (Ec : cmdline h = bytes_from b 64 512) by (subst h; reflexivity).
    assert (Ei : id h = words_from b 576 8) by (subst h; reflexivity).
    assert (Ew : forall k, (k < 10)%nat ->
                 nth k (header_words h) 0 = get_u32 b (8 + 4 * Z.of_nat k))
      by (subst h; apply header_words_of_block).
    clear Hh.
    destruct (Z_lt_le_dec i 8) as [C1|C1];
      [|destruct (Z_lt_le_dec i 48) as [C2|C2];
        [|destruct (Z_lt_le_dec i 64) as [C3|C3];
          [|destruct (Z_lt_le_dec i 576) as [C4|C4]]]].
    + replace i with (0 + Z.of_nat (Z.to_nat i)) by lia.
      rewrite (proj1 (header_byte_array h _)) by lia.
      rewrite Em. apply nth_bytes_from. lia.
    + pose proof (Z.div_mod (i - 8) 4 ltac:(lia)) as D.
      pose proof (Z.mod_pos_bound (i - 8) 4 ltac:(lia)) as R.
      assert (Q : 0 <= (i - 8) / 4 < 10)
        by (split; [apply Z.div_pos; lia | apply Z.div_lt_upper_bound; lia]).
      replace i with (8 + 4 * Z.of_nat (Z.to_nat ((i - 8) / 4)) + (i - 8) mod 4)
        at 1 by lia.
      rewrite header_byte_word by lia. rewrite Ew by lia.
      rewrite le32_byte_get_u32 by lia. f_equal. lia.
    + replace i with (48 + Z.of_nat (Z.to_nat (i - 48))) by lia.
      rewrite (proj1 (proj2 (header_byte_array h _))) by lia.
      rewrite En. apply nth_bytes_from. lia.
    + replace i with (64 + Z.of_nat (Z.to_nat (i - 64))) by lia.
      rewrite (proj2 (proj2 (header_byte_array h _))) by lia.
      rewrite Ec. apply nth_bytes_from. lia.
    + pose proof (Z.div_mod (i - 576) 4 ltac:(lia)) as D.
      pose proof (Z.mod_pos_bound (i - 576) 4 ltac:(lia)) as R.
      assert (Q : 0 <= (i - 576) / 4 < 8)
        by (split; [apply Z.div_pos; lia | apply Z.div_lt_upper_bound; lia]).
      replace i
        with (576 + 4 * Z.of_nat (Z.to_nat ((i - 576) / 4)) + (i - 576) mod 4)
        at 1 by lia.
      rewrite header_byte_id by lia. rewrite Ei.
      rewrite nth_words_from by lia.
      rewrite le32_byte_get_u32 by lia. f_equal. lia.
Qed.

Lemma header_of_block_faithful_witness :
  header_byte (header_of_block seven_pages) 36 = byte_at seven_pages 36.
Proof.
  apply (header_of_block_faithful seven_pages 36).
  unfold sizeof_boot_img_hdr. lia.
Defined.

(** ** Extraction from an image that the reader accepts *)

Lemma read_header_accepts (b0 : bool) (img0 img : t_abootimg) (file : buffer)
  (s : FILE) :
  read_header b0 img0 (mkFILE file 0) = (Ok img, s) ->
  header img = header_of_block file /\ size img = u32 (blen file) /\
  ~ rejected (header img) (size img) /\ sizeof_boot_img_hdr <= blen file /\
  content s = file.
Proof.
  intros R. apply read_header_ok in R.
  cbn [content fpos] in R. destruct R as (E & C & Len & Cs).
  rewrite header_of_block_sub in E.
  assert (Eh : header img = header_of_block file) by (subst img; reflexivity).
  assert (Es : size img = u32 (blen file)) by (subst img; reflexivity).
  assert (Lm : length (magic (header img)) = 8%nat).
  { rewrite Eh. unfold header_of_block. cbn [magic]. unfold bytes_from.
    rewrite length_map, length_seq. reflexivity. }
  split; [exact Eh|]. split; [exact Es|]. split; [|split; [lia | exact Cs]].
  intros Rj. apply (proj1 (check_boot_img_header_spec img Lm)) in Rj.
  rewrite Rj in C. discriminate C.
Qed.

Lemma checked_size_exact (h : boot_img_hdr) :
  header_fits32 h ->
  checked_size h
  = (1 + ceil_div (kernel_size h) (page_size h)
       + ceil_div (ramdisk_size h) (page_size h)
       + ceil_div (second_size h) (page_size h)
       + ceil_div (dtbs_size h) (page_size h)) * page_size h.
Proof.
  intros F. unfold checked_size.
  destruct (fits32_pages _ _ _ _ _ F) as (-> & -> & -> & ->).
  apply fits32_facts in F. cbv zeta in F.
  change (2 ^ 32) with 4294967296 in *.
  apply u32_small. change (2 ^ 32) with 4294967296.
  set (n := ceil_div (kernel_size h) (page_size h)) in *.
  set (m := ceil_div (ramdisk_size h) (page_size h)) in *.
  set (o := ceil_div (second_size h) (page_size h)) in *.
  set (p := ceil_div (dtbs_size h) (page_size h)) in *.
  clearbody n m o p. nia.
Qed.

Lemma seek_and_read (c : buffer) (pos off n : Z) :
  0 < n -> 0 <= off -> off + n <= blen c ->
  (fseek off ;;; fread n) (mkFILE c pos)
  = (Ok (sub c off n), mkFILE c (off + n)).
Proof. intros. unfold bind, fseek. cbn [content]. apply fread_at; assumption. Qed.

(** X11: an image that [read_header] accepts can be extracted. If the sizes
    in the header do not overflow and the file is shorter than 4 GiB, then
    [extract_kernel] returns the [kernel_size] bytes after the first page,
    [extract_ramdisk] the [ramdisk_size] bytes at the ramdisk offset of the
    layout, and [extract_second] the [second_size] bytes at its own offset:
    none of the three reads runs past the end of the file. [extract_dtbs]
    stops in [abort_perror] when the image has no device trees, because it
    reads an item of zero bytes; when there are device trees its read lies
    within the file. *)
Theorem accepted_image_can_be_extracted (b0 : bool) (img0 img : t_abootimg)
  (file : buffer) (s : FILE) (pos : Z)
  (R : read_header b0 img0 (mkFILE file 0) = (Ok img, s))
  (F : header_fits32 (header img)) (L : blen file < 2 ^ 32) :
  let h := header img in
  let ps := page_size h in
  let roff := ramdisk_offset (layout_of h) in
  let soff := extract_second_offset ps (kernel_size h) (ramdisk_size h) in
  let doff :=
    extract_dtbs_offset ps (kernel_size h) (ramdisk_size h) (second_size h) in
  extract_kernel img (mkFILE file pos)
  = (Ok (sub file ps (kernel_size h)), mkFILE file (ps + kernel_size h)) /\
  extract_ramdisk img (mkFILE file pos)
  = (Ok (sub file roff (ramdisk_size h)),
     mkFILE file (roff + ramdisk_size h)) /\
  extract_second img (mkFILE file pos)
  = (if second_size h =? 0 then (Ok None, mkFILE file pos)
     else (Ok (Some (sub file soff (second_size h))),
           mkFILE file (soff + second_size h))) /\
  (dtbs_size h = 0 ->
   fst (extract_dtbs img (mkFILE file pos)) = Abort E_perror) /\
  (dtbs_size h <> 0 -> doff + dtbs_size h <= blen file /\
   fst (extract_dtbs img (mkFILE file pos)) <> Abort E_perror).
Proof.
  intros h ps roff soff doff.
  destruct (read_header_accepts _ _ _ _ _ R) as (Eh & Es & NR & Len & _).
  fold h in NR, F.
  assert (B : 0 <= blen file < 2 ^ 32) by (unfold sizeof_boot_img_hdr in Len; lia).
  rewrite Es, (u32_small _ B) in NR.
  assert (K : kernel_size h <> 0) by (intros X; apply NR; right; left; exact X).
  assert (Rn : ramdisk_size h <> 0)
    by (intros X; apply NR; right; right; left; exact X).
  assert (C : checked_size h <= blen file).
  { destruct (Z_lt_le_dec (blen file) (checked_size h)) as [X|X]; [|exact X].
    exfalso. apply NR. right. right. right. right. exact X. }
  rewrite (checked_size_exact h F) in C.
  pose proof F as (Hp & Hk & Hr & Hs & Hd & _).
  pose proof (fits32_facts _ _ _ _ _ F) as FF. cbv zeta in FF.
  destruct (fits32_pages _ _ _ _ _ F) as (Pn & Pm & Po & Pp).
  fold ps in C, FF, Pn, Pm, Po, Pp, Hp.
  assert (Eroff : roff = (1 + ceil_div (kernel_size h) ps) * ps).
  { unfold roff, layout_of, layout. cbn [ramdisk_offset]. fold ps.
    rewrite Pn. apply u32_small. change (2 ^ 32) with 4294967296 in *.
    set (n := ceil_div (kernel_size h) ps) in *.
    set (m := ceil_div (ramdisk_size h) ps) in *.
    set (o := ceil_div (second_size h) ps) in *.
    set (p := ceil_div (dtbs_size h) ps) in *.
    clearbody n m o p. nia. }
  assert (F2 : (1 + ceil_div (kernel_size h) ps + ceil_div (ramdisk_size h) ps)
               * ps < 2 ^ 32).
  { change (2 ^ 32) with 4294967296 in *.
    set (n := ceil_div (kernel_size h) ps) in *.
    set (m := ceil_div (ramdisk_size h) ps) in *.
    set (o := ceil_div (second_size h) ps) in *.
    set (p := ceil_div (dtbs_size h) ps) in *.
    clearbody n m o p. nia. }
  assert (F3 : (1 + ceil_div (kernel_size h) ps + ceil_div (ramdisk_size h) ps
                + ceil_div (second_size h) ps) * ps < 2 ^ 32).
  { change (2 ^ 32) with 4294967296 in *.
    set (n := ceil_div (kernel_size h) ps) in *.
    set (m := ceil_div (ramdisk_size h) ps) in *.
    set (o := ceil_div (second_size h) ps) in *.
    set (p := ceil_div (dtbs_size h) ps) in *.
    clearbody n m o p. nia. }
  destruct (second_offsets_exact ps _ _ Hp Hk Hr F2) as (Esoff & _).
  fold soff in Esoff.
  pose proof (ceil_div_add_le (kernel_size h) (ramdisk_size h) ps Hp Hk Hr)
    as Q2.
  pose proof (ceil_div_nonneg (kernel_size h + ramdisk_size h) ps Hp
                ltac:(lia)) as Q20.
  destruct (dtbs_offsets_exact ps _ _ _ 0 Hp Hk Hr Hs F3)
    as (Edoff & _ & Q30 & Q3).
  fold doff in Edoff.
  set (n := ceil_div (kernel_size h) ps) in *.
  set (m := ceil_div (ramdisk_size h) ps) in *.
  set (o := ceil_div (second_size h) ps) in *.
  set (p := ceil_div (dtbs_size h) ps) in *.
  set (q2 := ceil_div (kernel_size h + ramdisk_size h) ps) in *.
  set (q3 := ceil_div (kernel_size h + ramdisk_size h + second_size h) ps) in *.
  clearbody n m o p q2 q3.
  destruct FF as (Bps & N0 & M0 & O0 & P0 & Kn & Rm & So & Dp & Tot).
  split; [|split; [|split; [|split]]].
  - unfold extract_kernel. fold h ps. apply seek_and_read; nia.
  - unfold extract_ramdisk. fold h ps.
    destruct (Z.eqb_spec ps 0); [lia|].
    change (u32 ((1 + pages (kernel_size h) ps) * ps)) with roff.
    apply seek_and_read; nia.
  - unfold extract_second. fold h ps.
    destruct (Z.eqb_spec (second_size h) 0); [reflexivity|].
    destruct (Z.eqb_spec ps 0); [lia|].
    fold soff. unfold bind, fseek. cbn [content fpos].
    rewrite (fread_at file soff (second_size h)) by nia.
    reflexivity.
  - intros D. unfold extract_dtbs. fold h ps.
    destruct (Z.eqb_spec ps 0); [lia|].
    rewrite D. unfold bind, fseek, fread. cbn [content fpos andb Z.ltb Z.compare].
    reflexivity.
  - intros D. split; [nia|].
    unfold extract_dtbs. fold h ps.
    destruct (Z.eqb_spec ps 0); [lia|].
    fold (extract_dtbs_offset ps (kernel_size h) (ramdisk_size h)
            (second_size h)). fold doff.
    unfold bind, fseek. cbn [content fpos].
    rewrite (fread_at file doff (dtbs_size h)) by nia.
    cbn [sub blen].
    destruct (dtbs_size h <? sizeof_dtbs_t); [discriminate|].
    match goal with
    | |- context [if ?c then _ else _] => destruct c
    end; [discriminate|].
    match goal with
    | |- context [if ?c then _ else _] => destruct c
    end; discriminate.
Qed.

Lemma accepted_image_can_be_extracted_witness :
  match fst (read_header false (new_bootimg no_arguments)
               (mkFILE seven_pages 0)) with
  | Ok img =>
      fst (extract_dtbs img (mkFILE seven_pages 0)) = Abort E_perror
  | Abort _ => False
  end.
Proof.
  destruct (read_header false (new_bootimg no_arguments)
              (mkFILE seven_pages 0)) as [[img|e] s] eqn:E; cbn [fst].
  - assert (H : header img = header_of_block seven_pages)
      by apply (read_header_accepts _ _ _ _ _ E).
    assert (H' : header_of_block seven_pages = example_header).
    { apply header_read_back; [|intros; reflexivity].
      apply (wf_new_header 9000 500); unfold is_word; lia. }
    rewrite H' in H.
    apply (accepted_image_can_be_extracted false (new_bootimg no_arguments)
             img seven_pages s 0 E).
    + rewrite H. unfold header_fits32, fits32. vm_compute.
      repeat split; (reflexivity || discriminate).
    + vm_compute. reflexivity.
    + rewrite H. reflexivity.
  - apply (f_equal (fun r => is_ok (fst r))) in E. vm_compute in E.
    discriminate E.
Defined.

(** ** The second stage and the signature in a written image *)

Lemma write_signature_spec (n m o p : Z) (img : t_abootimg) (s s' : FILE) :
  let ps := page_size (header img) in
  let off := (1 + n + m + o + p) * ps in
  255 < ps < 2 ^ 32 -> 0 <= off < 2 ^ 32 ->
  write_signature (zeros ps) n m o p img s = (Ok tt, s') ->
  fpos s' = off + ps /\ off + ps <= blen (content s') /\
  (forall i, 0 <= i < 255 ->
             bget (content s') (off + i) = bget (signature img) i) /\
  (forall i, 255 <= i < ps -> bget (content s') (off + i) = 0).
Proof.
  intros ps off Hp Hb H. unfold write_signature in H.
  fold ps in H. fold off in H. clearbody off. clearbody ps.
  rewrite u32_small in H by exact Hb.
  apply bind_ok in H. destruct H as ([] & s1 & F & H).
  apply fseek_ok in F. subst s1.
  rewrite (Z.mod_small 255 ps) in H by lia.
  assert (U : usize (ps - 255) = ps - 255).
  { unfold usize. apply Z.mod_small. lia. }
  rewrite U in H.
  pose proof H as H0.
  apply written_block_stays in H0;
    [|lia|cbn [fpos]; lia|apply above_fwrite; lia].
  cbn [fpos] in H0. destruct H0 as (_ & _ & Sig).
  apply bind_ok in H. destruct H as ([] & s2 & W & H).
  apply fwrite_ok in W; [|lia|cbn [fpos]; lia].
  destruct W as (_ & P2 & _ & _). cbn [fpos] in P2.
  apply fwrite_ok in H; [|lia|lia].
  destruct H as (_ & P3 & L3 & Pad). rewrite P2 in P3, L3, Pad.
  split; [lia|]. split; [lia|]. split; [exact Sig|].
  intros i Hi. specialize (Pad (i - 255) ltac:(lia)).
  replace (off + 255 + (i - 255)) with (off + i) in Pad by lia.
  exact Pad.
Qed.

Section WriterEnd.
Variable img : t_abootimg.
Hypothesis F : header_fits32 (header img).

Let h := header img.
Let ps := page_size h.
Let n := ceil_div (kernel_size h) ps.
Let m := ceil_div (ramdisk_size h) ps.
Let o := ceil_div (second_size h) ps.
Let p := ceil_div (dtbs_size h) ps.

Lemma write_after_ramdisk_unfold :
  write_after_ramdisk img
  = write_second (zeros ps) n m img ;;; write_after_second img.
Proof.
  unfold write_after_ramdisk, write_after_second.
  pose proof (writer_pages img F) as WP. cbv zeta in WP.
  destruct WP as (-> & -> & -> & ->). reflexivity.
Qed.

Lemma above_after_second (X : Z) :
  X <= (1 + n + m + o) * ps -> above X (write_after_second img).
Proof.
  intros L. unfold write_after_second.
  pose proof (writer_pages img F) as WP. cbv zeta in WP.
  destruct WP as (-> & -> & -> & ->). fold h ps n m o p.
  pose proof (writer_facts img F) as WF. cbv zeta in WF.
  destruct WF
    as (Hp & Nn & Nm & No & Np & Kn & Rm & So & Dp & T & K0 & R0 & S0).
  fold h ps n m o p in Hp, Nn, Nm, No, Np, Kn, Rm, So, Dp, T.
  change (2 ^ 32) with 4294967296 in *.
  apply above_bind.
  - apply above_write_dtbs; fold h ps; [lia|].
    rewrite u32_small by (change (2 ^ 32) with 4294967296; nia). exact L.
  - intros _. apply above_write_signature. fold h ps.
    rewrite u32_small by (change (2 ^ 32) with 4294967296; nia). nia.
Qed.

(** The second-stage block and what follows it. *)
Lemma after_ramdisk_second (sb : buffer) (s s' : FILE) :
  second img = Some sb -> 0 < second_size h ->
  write_after_ramdisk img s = (Ok tt, s') ->
  second_size h <= blen sb /\
  (1 + n + m) * ps + second_size h <= blen (content s') /\
  forall i, 0 <= i < second_size h ->
            bget (content s') ((1 + n + m) * ps + i) = bget sb i.
Proof.
  intros Sb Hs H. rewrite write_after_ramdisk_unfold in H.
  unfold write_second in H. fold h ps in H. rewrite Sb in H.
  destruct (Z.eqb_spec (second_size h) 0) as [Z|_]; [lia|]. cbn [negb] in H.
  pose proof (writer_facts img F) as WF. cbv zeta in WF.
  destruct WF
    as (Hp & Nn & Nm & No & Np & Kn & Rm & So & Dp & T & K0 & R0 & S0).
  fold h ps n m o p in Hp, Nn, Nm, No, Np, Kn, Rm, So, Dp, T.
  change (2 ^ 32) with 4294967296 in *.
  rewrite u32_small in H by (change (2 ^ 32) with 4294967296; nia).
  rewrite bind_assoc in H.
  apply bind_ok in H. destruct H as ([] & s1 & Sk & H).
  apply fseek_ok in Sk. subst s1. rewrite bind_assoc in H.
  apply written_block_stays in H.
  - cbn [fpos] in H. exact H.
  - exact Hs.
  - cbn [fpos]. nia.
  - cbn [fpos].
    apply above_bind; [apply above_fwrite, section_padding_nonneg|].
    intros _. apply above_after_second. nia.
Qed.

Lemma write_bootimg_tail (s s' : FILE) :
  write_bootimg img s = (Ok tt, s') ->
  exists s3 s4,
    write_after_ramdisk img s3 = (Ok tt, s') /\
    write_signature (zeros ps) n m o p img s4 = (Ok tt, s').
Proof.
  intros H. rewrite write_bootimg_unfold in H.
  destruct (page_size (header img) =? 0); [discriminate H|].
  apply bind_ok in H. destruct H as ([] & s1 & _ & H).
  unfold write_after_header in H.
  apply bind_ok in H. destruct H as ([] & s2 & _ & H).
  unfold write_after_kernel in H.
  apply bind_ok in H. destruct H as ([] & s3 & _ & H).
  exists s3. pose proof H as H'.
  rewrite write_after_ramdisk_unfold in H'.
  apply bind_ok in H'. destruct H' as ([] & s4 & _ & H').
  unfold write_after_second in H'.
  pose proof (writer_pages img F) as WP. cbv zeta in WP.
  destruct WP as (En & Em & Eo & Ep). rewrite En, Em, Eo, Ep in H'.
  fold h ps n m o p in H'.
  apply bind_ok in H'. destruct H' as ([] & s5 & _ & H').
  exists s5. split; assumption.
Qed.

Lemma write_bootimg_second (sb : buffer) (s s' : FILE) :
  second img = Some sb -> 0 < second_size h ->
  write_bootimg img s = (Ok tt, s') ->
  second_size h <= blen sb /\
  (1 + n + m) * ps + second_size h <= blen (content s') /\
  forall i, 0 <= i < second_size h ->
            bget (content s') ((1 + n + m) * ps + i) = bget sb i.
Proof.
  intros Sb Hs H. destruct (write_bootimg_tail s s' H) as (s3 & _ & H3 & _).
  apply (after_ramdisk_second sb s3 s' Sb Hs H3).
Qed.

Lemma write_bootimg_signature (s s' : FILE) :
  write_bootimg img s = (Ok tt, s') ->
  let off := (1 + n + m + o + p) * ps in
  sizeof_boot_img_hdr <= ps /\
  off + ps <= blen (content s') /\
  (forall i, 0 <= i < 255 ->
             bget (content s') (off + i) = bget (signature img) i) /\
  (forall i, 255 <= i < ps -> bget (content s') (off + i) = 0).
Proof.
  intros H off.
  destruct (write_bootimg_ok img F s s' H) as (Ge & _).
  fold h ps in Ge. split; [exact Ge|].
  destruct (write_bootimg_tail s s' H) as (_ & s4 & _ & H4).
  pose proof (writer_facts img F) as WF. cbv zeta in WF.
  destruct WF
    as (Hp & Nn & Nm & No & Np & Kn & Rm & So & Dp & T & K0 & R0 & S0).
  fold h ps n m o p in Hp, Nn, Nm, No, Np, Kn, Rm, So, Dp, T.
  unfold sizeof_boot_img_hdr in Ge.
  pose proof (write_signature_spec n m o p img s4 s') as W. cbv zeta in W.
  fold h ps in W.
  change (2 ^ 32) with 4294967296 in *.
  destruct (W ltac:(lia) ltac:(nia) H4) as (_ & L & Sig & Pad).
  split; [exact L|]. split; assumption.
Qed.
End WriterEnd.

Lemma finish_update_signature (img img' : t_abootimg) (s s' : FILE) :
  finish_update img s = (Ok img', s') ->
  signature img' = memcpy (signature img) SEANDROIDENFORCE.
Proof.
  intros H. unfold finish_update in H.
  cbn [size header with_signature] in H.
  destruct (size img =? 0); [ret_inv H; reflexivity|].
  destruct (size img <? total_size (header img)); [discriminate H|].
  ret_inv H. reflexivity.
Qed.

(** X12: every image written after [update_images] ends with a signature
    page. At the signature offset of the layout stand the 17 bytes of
    "SEANDROIDENFORCE" with its terminating NUL, then the bytes 17 to 254 of
    [img->signature] as they were before the update (zero after
    [new_bootimg]), then zeros up to the end of the page, and the file
    reaches the end of that page. *)
Theorem signature_page_written (fs : filesystem) (img0 img : t_abootimg)
  (s0 s1 s s' : FILE)
  (U : update_images fs img0 s0 = (Ok img, s1))
  (F : header_fits32 (header img))
  (W : write_bootimg img s = (Ok tt, s')) :
  let off := signature_offset (layout_of (header img)) in
  let ps := page_size (header img) in
  off + ps <= blen (content s') /\
  (forall i, 0 <= i < 17 ->
             bget (content s') (off + i) = nth (Z.to_nat i) SEANDROIDENFORCE 0) /\
  (forall i, 17 <= i < 255 ->
             bget (content s') (off + i) = bget (signature img0) i) /\
  (forall i, 255 <= i < ps -> bget (content s') (off + i) = 0).
Proof.
  intros off ps.
  pose proof (write_bootimg_signature img F s s' W) as (_ & L & Sig & Pad).
  assert (Eoff : off = (1 + ceil_div (kernel_size (header img)) ps
                          + ceil_div (ramdisk_size (header img)) ps
                          + ceil_div (second_size (header img)) ps
                          + ceil_div (dtbs_size (header img)) ps) * ps).
  { unfold off, layout_of. rewrite (fits32_layout _ _ _ _ _ F). reflexivity. }
  fold ps in L, Sig, Pad. rewrite <- Eoff in L, Sig, Pad.
  unfold update_images in U.
  apply bind_ok in U. destruct U as (img1 & s2 & Ld & Fin).
  apply finish_update_signature in Fin.
  apply load_sections_keeps in Ld. destruct Ld as (_ & T & _).
  assert (Es : signature img1 = signature img0) by apply T.
  rewrite Es in Fin.
  split; [exact L|]. split; [|split; [|exact Pad]].
  - intros i Hi. rewrite Sig by lia. rewrite Fin.
    unfold memcpy. cbn [bget]. change (Z.of_nat (length SEANDROIDENFORCE)) with 17.
    destruct (Z.leb_spec 0 i); [|lia]. destruct (Z.ltb_spec i 17); [|lia].
    reflexivity.
  - intros i Hi. rewrite Sig by lia. rewrite Fin.
    unfold memcpy. cbn [bget]. change (Z.of_nat (length SEANDROIDENFORCE)) with 17.
    destruct (Z.leb_spec 0 i); [|lia]. destruct (Z.ltb_spec i 17); [lia|].
    reflexivity.
Qed.

Lemma signature_page_written_witness :
  match fst (update_images three_sections (new_bootimg create_three)
               (mkFILE (zeros 0) 0)) with
  | Ok img =>
      match write_bootimg img (mkFILE (zeros 0) 0) with
      | (Ok _, s') =>
          signature_offset (layout_of (header img)) = 8192 /\
          bget (content s') (8192 + 0) = 83
      | (Abort _, _) => False
      end
  | Abort _ => False
  end.
Proof.
  destruct (update_images three_sections (new_bootimg create_three)
              (mkFILE (zeros 0) 0)) as [[img|e] s1] eqn:U; cbn [fst].
  - assert (Hw : header_words (header img) = [3; 0; 2; 0; 4; 0; 0; 2048; 0; 0]).
    { pose proof (f_equal (fun r => match fst r with
                                    | Ok i => header_words (header i)
                                    | Abort _ => []
                                    end) U) as X.
      cbn [fst] in X. rewrite <- X. vm_compute. reflexivity. }
    unfold header_words in Hw.
    injection Hw as Eks _ Ers _ Ess _ _ Eps Eds _.
    assert (F : header_fits32 (header img)).
    { unfold header_fits32. rewrite Eks, Ers, Ess, Eps, Eds.
      unfold fits32. vm_compute. repeat split; (reflexivity || discriminate). }
    assert (O : signature_offset (layout_of (header img)) = 8192).
    { unfold layout_of. rewrite Eks, Ers, Ess, Eps, Eds. reflexivity. }
    destruct (write_bootimg img (mkFILE (zeros 0) 0)) as [[[]|e] s'] eqn:W.
    + split; [exact O|]. rewrite <- O.
      apply (signature_page_written _ _ _ _ _ _ _ U F W). lia.
    + assert (X : is_ok (fst (write_bootimg img (mkFILE (zeros 0) 0))) = false)
        by (rewrite W; reflexivity).
      clear W.
      apply (f_equal (fun r => match fst r with
                               | Ok i => is_ok (fst (write_bootimg i
                                                      (mkFILE (zeros 0) 0)))
                               | Abort _ => false
                               end)) in U.
      cbn [fst] in U. rewrite X in U. vm_compute in U. discriminate U.
  - apply (f_equal (fun r => is_ok (fst r))) in U. vm_compute in U.
    discriminate U.
Defined.

(** X13: a second stage written by [write_bootimg] is read back by
    [extract_second] whenever the two offsets agree: for a header whose
    layout does not overflow and a second-stage buffer of the declared,
    non-zero size, if the kernel size or the ramdisk size is a multiple of
    the page size, or their remainders add up to more than a page, then
    [extract_second] on the written file returns the bytes of the buffer. *)
Theorem written_second_stage_reads_back (img img1 : t_abootimg) (sb : buffer)
  (s s' : FILE) (pos : Z)
  (F : header_fits32 (header img))
  (Sb : second img = Some sb) (Lb : blen sb = second_size (header img))
  (Ns : second_size (header img) <> 0)
  (A : kernel_size (header img) mod page_size (header img) = 0 \/
       ramdisk_size (header img) mod page_size (header img) = 0 \/
       page_size (header img)
       < kernel_size (header img) mod page_size (header img)
         + ramdisk_size (header img) mod page_size (header img))
  (W : write_bootimg img s = (Ok tt, s'))
  (E1 : header img1 = header img) :
  exists b s2,
    extract_second img1 (mkFILE (content s') pos) = (Ok (Some b), s2) /\
    same_bytes b sb.
Proof.
  pose proof F as (Hp & Hk & Hr & Hs & Hd & _).
  pose proof (fits32_facts _ _ _ _ _ F) as FF. cbv zeta in FF.
  destruct FF as (Bps & N0 & M0 & O0 & P0 & Kn & Rm & So & Dp & Tot).
  pose proof (write_bootimg_second img F sb s s' Sb ltac:(lia) W)
    as (_ & Len & Bytes).
  set (h := header img) in *. set (ps := page_size h) in *.
  assert (F2 : (1 + ceil_div (kernel_size h) ps + ceil_div (ramdisk_size h) ps)
               * ps < 2 ^ 32).
  { change (2 ^ 32) with 4294967296 in *.
    set (n := ceil_div (kernel_size h) ps) in *.
    set (m := ceil_div (ramdisk_size h) ps) in *.
    set (o := ceil_div (second_size h) ps) in *.
    set (p := ceil_div (dtbs_size h) ps) in *.
    clearbody n m o p. nia. }
  destruct (second_offsets_exact ps _ _ Hp Hk Hr F2) as (_ & El).
  destruct (second_offsets_compare ps _ _ Hp Hk Hr F2) as ((_ & Agree) & _).
  specialize (Agree A). rewrite El in Agree.
  unfold extract_second. rewrite E1. fold h ps.
  destruct (Z.eqb_spec (second_size h) 0) as [Zs|_]; [contradiction|].
  destruct (Z.eqb_spec ps 0) as [Zp|_]; [lia|].
  rewrite Agree. unfold bind, fseek. cbn [content fpos].
  rewrite fread_at; [|lia| |exact Len].
  2:{ set (n := ceil_div (kernel_size h) ps) in *.
      set (m := ceil_div (ramdisk_size h) ps) in *. clearbody n m. nia. }
  eexists. eexists. split; [reflexivity|].
  split; [cbn [sub blen]; lia|].
  cbn [sub blen bget]. exact Bytes.
Qed.

Lemma written_second_stage_reads_back_witness :
  match write_bootimg three_sections_image (mkFILE (zeros 0) 0) with
  | (Ok _, s') =>
      exists b s2,
        extract_second three_sections_image (mkFILE (content s') 0)
        = (Ok (Some b), s2) /\
        same_bytes b (mkbuf 4 (fun _ => 3))
  | (Abort _, _) => False
  end.
Proof.
  destruct (write_bootimg three_sections_image (mkFILE (zeros 0) 0))
    as [[[]|e] s'] eqn:W.
  - apply (written_second_stage_reads_back three_sections_image
             three_sections_image (mkbuf 4 (fun _ => 3))
             (mkFILE (zeros 0) 0) s' 0);
      try reflexivity; try exact W; try discriminate.
    + unfold header_fits32, fits32. vm_compute.
      repeat split; (reflexivity || discriminate).
    + left. reflexivity.
  - apply (f_equal (fun r => is_ok (fst r))) in W. vm_compute in W.
    discriminate W.
Defined.

(** ** The errors of each step *)

Lemma stops_ret {A} (l : list error) (a : A) : stops_only_with l (ret a).
Proof. intros s e s' H. discriminate H. Qed.

Lemma stops_abort {A} (l : list error) (e : error) :
  In e l -> stops_only_with l (@abort A e).
Proof. intros I s e' s' H. injection H as <- _. exact I. Qed.

Lemma stops_lift {A} (l : list error) (r : result A) :
  (forall e, r = Abort e -> In e l) -> stops_only_with l (lift r).
Proof. intros I s e s' H. injection H as -> _. apply I. reflexivity. Qed.

Lemma stops_fseek (l : list error) (off : Z) : stops_only_with l (fseek off).
Proof. intros s e s' H. discriminate H. Qed.

Lemma stops_fstat (l : list error) : stops_only_with l fstat_size.
Proof. intros s e s' H. discriminate H. Qed.

Lemma stops_fread (l : list error) (n : Z) :
  In E_perror l -> stops_only_with l (fread n).
Proof.
  intros I s e s' H. unfold fread in H.
  destruct ((0 <? n) && (0 <=? fpos s) && (fpos s + n <=? blen (content s)));
    [discriminate H|].
  injection H as <- _. exact I.
Qed.

Lemma stops_bind {A B} (l : list error) (m : M A) (k : A -> M B) :
  stops_only_with l m -> (forall a, stops_only_with l (k a)) ->
  stops_only_with l (bind m k).
Proof.
  intros Hm Hk s e s' H. unfold bind in H.
  destruct (m s) as [[a|x] s1] eqn:E.
  - apply (Hk a _ _ _ H).
  - injection H as <- _. apply (Hm _ _ _ E).
Qed.

Lemma stops_weaken {A} (l l' : list error) (m : M A) :
  incl l l' -> stops_only_with l m -> stops_only_with l' m.
Proof. intros I H s e s' E. apply I. apply (H _ _ _ E). Qed.

Lemma stops_only_undefined {A} (l : list error) (m : M A) :
  In E_undefined l -> only_undefined m -> stops_only_with l m.
Proof. intros I H s e s' E. rewrite (H _ _ _ E). exact I. Qed.

Lemma read_file_errors (fs : filesystem) (fname : string) (e : error) :
  read_file fs fname = Abort e -> e = E_perror.
Proof.
  unfold read_file. destruct (fs fname); [|intros H; injection H as <-; reflexivity].
  destruct ((0 <? u32 (blen b)) && (u32 (blen b) <=? blen b));
    [discriminate|].
  intros H; injection H as <-; reflexivity.
Qed.

Lemma replace_dtbs_loop_entries (fs : filesystem) (fname : string) (ps : Z)
  (fuel : nat) :
  forall ientry p d tbl e,
    0 <= ientry -> num_entries d - ientry <= Z.of_nat fuel ->
    replace_dtbs_loop fs fname ps fuel ientry p d tbl = Abort e ->
    e = E_undefined \/ e = E_perror.
Proof.
  induction fuel as [|fuel IH]; intros ientry p d tbl e H0 Hf H;
    cbn [replace_dtbs_loop] in H.
  - destruct (Z.ltb_spec ientry (num_entries d)); [lia|discriminate H].
  - destruct (Z.ltb_spec ientry (num_entries d)); [|discriminate H].
    destruct (negb (fits_dtbname _));
      [injection H as <-; left; reflexivity|].
    destruct (blen d <? entry_at (ientry + 1));
      [injection H as <-; left; reflexivity|].
    destruct (fs (dtb_name fname ientry)) as [f|];
      [|injection H as <-; right; reflexivity].
    destruct (blen f <=? 0); [injection H as <-; right; reflexivity|].
    apply IH in H; [exact H|lia|].
    unfold num_entries.
    rewrite !get_set_u32_other
      by (unfold entry_at, offsetof_num_entries, offsetof_dtb_size,
          offsetof_offset, sizeof_dtbs_t, sizeof_dt_entry_t; lia).
    fold (num_entries d). lia.
Qed.

Lemma replace_dtbs_errors (fs : filesystem) (fname : string) (ps : Z)
  (img : t_abootimg) (e : error) :
  replace_dtbs fs fname ps img = Abort e -> e = E_undefined \/ e = E_perror.
Proof.
  unfold replace_dtbs. intros H.
  destruct (negb (fits_dtbname _)); [injection H as <-; left; reflexivity|].
  destruct (fs (dtbh_name fname)) as [f|];
    [|injection H as <-; right; reflexivity].
  destruct (negb _); [injection H as <-; right; reflexivity|].
  destruct (ps <? _); [injection H as <-; left; reflexivity|].
  destruct (blen _ <? _); [injection H as <-; left; reflexivity|].
  destruct (replace_dtbs_loop _ _ _ _ _ _ _ _) as [[[d' tbl] p]|x] eqn:L;
    [discriminate H|].
  injection H as <-.
  apply replace_dtbs_loop_entries in L; [exact L|lia|].
  pose proof (get_u32_range (dtbh_block ps f) offsetof_num_entries) as R.
  fold (num_entries (dtbh_block ps f)) in R. lia.
Qed.

Lemma update_header_entries_errors (es : list config_entry) :
  forall img e,
    update_header_entries img es = Abort e ->
    In e [E_cmdline_too_long; E_blkdev_size; E_bad_config].
Proof.
  induction es as [|x es IH]; intros img e H; cbn in H; [discriminate H|].
  destruct (update_header_entry img x) as [img1|y] eqn:E;
    [apply (IH _ _ H)|].
  injection H as <-. destruct x; cbn [update_header_entry] in E;
    try discriminate E.
  - destruct (BOOT_ARGS_SIZE <=? _); [|discriminate E].
    injection E as <-. cbn. auto.
  - destruct (is_blkdev img && _); [|discriminate E].
    injection E as <-. cbn. auto.
  - injection E as <-. cbn. auto.
Qed.

Lemma stops_read_header (b : bool) (img : t_abootimg) :
  stops_only_with [E_perror; E_not_valid] (read_header b img).
Proof.
  unfold read_header.
  apply stops_bind; [apply stops_fread; cbn; auto|]. intros x.
  apply stops_bind; [apply stops_fstat|]. intros sz.
  match goal with |- context [if ?c then _ else _] => destruct c end;
    [apply stops_ret | apply stops_abort; cbn; auto].
Qed.

Lemma stops_update_header (img : t_abootimg) :
  stops_only_with [E_cmdline_too_long; E_blkdev_size; E_bad_config]
    (update_header img).
Proof.
  unfold update_header. apply stops_lift. intros e H.
  apply (update_header_entries_errors _ _ _ H).
Qed.

Lemma stops_load_sections (fs : filesystem) (img : t_abootimg) :
  stops_only_with [E_perror; E_page_size_null; E_undefined]
    (load_sections fs img).
Proof.
  assert (P : In E_perror [E_perror; E_page_size_null; E_undefined])
    by (cbn; auto).
  assert (RF : forall fname,
             stops_only_with [E_perror; E_page_size_null; E_undefined]
               (lift (read_file fs fname))).
  { intros fname. apply stops_lift. intros e H.
    rewrite (read_file_errors _ _ _ H). exact P. }
  unfold load_sections.
  destruct (page_size (header img) =? 0); [apply stops_abort; cbn; auto|].
  apply stops_bind.
  { unfold load_kernel. destruct (kernel_fname img); [|apply stops_ret].
    apply stops_bind; [apply RF|]. intros [sz k]. apply stops_ret. }
  intros img1. apply stops_bind.
  { unfold load_ramdisk. destruct (ramdisk_fname img1).
    - apply stops_bind; [apply RF|]. intros [sz k]. apply stops_ret.
    - destruct (kernel img1); [|apply stops_ret].
      apply stops_bind; [apply stops_fseek|]. intros _.
      apply stops_bind; [apply stops_fread; exact P|]. intros r.
      apply stops_ret. }
  intros img2. apply stops_bind.
  { unfold load_second. destruct (second_fname img2).
    - apply stops_bind; [apply RF|]. intros [sz k]. apply stops_ret.
    - destruct (ramdisk img2); [|apply stops_ret].
      destruct (negb _); [|apply stops_ret].
      apply stops_bind; [apply stops_fseek|]. intros _.
      apply stops_bind; [apply stops_fread; exact P|]. intros r.
      apply stops_ret. }
  intros img3. unfold load_dtbs. destruct (dtbs_fname img3).
  - apply stops_lift. intros e H.
    destruct (replace_dtbs_errors _ _ _ _ _ H) as [-> | ->]; cbn; auto.
  - destruct (negb _); [|apply stops_ret].
    unfold copy_dtbs.
    apply stops_bind; [apply stops_fseek|]. intros _.
    apply stops_bind; [apply stops_fread; exact P|]. intros d.
    destruct (blen d <? sizeof_dtbs_t); [apply stops_abort; cbn; auto|].
    destruct (blen d <? entry_at (num_entries d));
      [apply stops_abort; cbn; auto | apply stops_ret].
Qed.

Lemma stops_update_images (fs : filesystem) (img : t_abootimg) :
  stops_only_with [E_perror; E_page_size_null; E_undefined; E_too_big]
    (update_images fs img).
Proof.
  unfold update_images. apply stops_bind.
  - apply (stops_weaken [E_perror; E_page_size_null; E_undefined]);
      [|apply stops_load_sections].
    intros e I. cbn in *. intuition.
  - intros img1. unfold finish_update.
    destruct (size _ =? 0); [apply stops_ret|].
    destruct (size _ <? _); [apply stops_abort; cbn; auto | apply stops_ret].
Qed.

Lemma stops_run {A} (l : list error) (m : M A) (s : FILE) (e : error) :
  stops_only_with l m -> fst (m s) = Abort e -> In e l.
Proof.
  intros G H. destruct (m s) as [r s'] eqn:R. cbn [fst] in H. subst r.
  apply (G _ _ _ R).
Qed.

Lemma stops_main_update (fs : filesystem) (t : target) (a : arguments)
  (file : buffer) (e : error) :
  fst (main_update fs t a file) = Abort e ->
  In e [E_perror; E_not_valid; E_cmdline_too_long; E_blkdev_size;
        E_bad_config; E_page_size_null; E_too_big; E_undefined].
Proof.
  intros H. unfold main_update in H.
  refine (stops_run _ _ _ _ _ H).
  apply stops_bind.
  - unfold update_steps. apply stops_bind.
    + eapply stops_weaken; [|apply stops_read_header].
      intros x I. cbn in *. intuition.
    + intros i. apply stops_bind.
      * eapply stops_weaken; [|apply stops_update_header].
        intros x I. cbn in *. intuition.
      * intros j. eapply stops_weaken; [|apply stops_update_images].
        intros x I. cbn in *. intuition.
  - intros i. apply stops_only_undefined;
      [cbn; intuition | apply only_undefined_write_bootimg].
Qed.

Lemma stops_check_if_block_device (t : target) (capacity : Z)
  (img : t_abootimg) (e : error) :
  check_if_block_device t capacity img = Abort e -> e = E_partition.
Proof.
  unfold check_if_block_device. intros C.
  destruct (has_blkid t && is_blk t); [|discriminate C].
  destruct (has_type t); [|discriminate C].
  injection C as <-. reflexivity.
Qed.

Lemma stops_main_create (fs : filesystem) (t : target) (a : arguments)
  (file : buffer) (e : error) :
  fst (main_create fs t a file) = Abort e ->
  In e [E_partition; E_perror; E_cmdline_too_long; E_blkdev_size;
        E_bad_config; E_page_size_null; E_too_big; E_sanity; E_undefined].
Proof.
  intros H. unfold main_create in H.
  destruct (arg_kernel a) as [kf|]; [|discriminate H].
  destruct (arg_ramdisk a) as [rf|]; [|discriminate H].
  destruct (check_if_block_device t (blen file) (new_bootimg a))
    as [i0|x] eqn:C.
  2:{ cbn [fst] in H. injection H as <-.
      apply stops_check_if_block_device in C. subst x. cbn. auto. }
  refine (stops_run _ _ _ _ _ H).
  apply stops_bind.
  - eapply stops_weaken; [|apply stops_update_header].
    intros x I. cbn in *. intuition.
  - intros i. apply stops_bind.
    + eapply stops_weaken; [|apply stops_update_images].
      intros x I. cbn in *. intuition.
    + intros j. destruct (check_boot_img_header j =? 0).
      * apply stops_only_undefined;
          [cbn; intuition | apply only_undefined_write_bootimg].
      * apply stops_abort. cbn. intuition.
Qed.

(** ** The sanity check of a create run *)

Lemma update_header_entries_magic (es : list config_entry) :
  forall img img',
    update_header_entries img es = Ok img' ->
    magic (header img') = magic (header img).
Proof.
  induction es as [|e es IH]; intros img img' H; cbn in H.
  - injection H as <-. reflexivity.
  - destruct (update_header_entry img e) as [img1|x] eqn:E; [|discriminate H].
    rewrite (IH _ _ H). clear H IH.
    destruct e; cbn [update_header_entry] in E;
      try (injection E as <-; reflexivity); try discriminate E.
    + destruct (BOOT_ARGS_SIZE <=? _); [discriminate E|].
      injection E as <-. reflexivity.
    + destruct (is_blkdev img && _); [discriminate E|].
      injection E as <-. reflexivity.
Qed.

Lemma finish_update_size (img img' : t_abootimg) (s s' : FILE) :
  finish_update img s = (Ok img', s') ->
  total_size (header img') <= size img'.
Proof.
  intros H. unfold finish_update in H.
  cbn [size header with_signature] in H.
  destruct (Z.eqb_spec (size img) 0); [ret_inv H; cbn; lia|].
  destruct (Z.ltb_spec (size img) (total_size (header img)));
    [discriminate H|].
  ret_inv H. cbn [header size with_signature]. lia.
Qed.

Lemma created_image_passes_check (fs : filesystem) (img img' : t_abootimg)
  (s s' : FILE) (kf rf : string) :
  magic (header img) = BOOT_MAGIC ->
  kernel_fname img = Some kf -> ramdisk_fname img = Some rf ->
  update_images fs img s = (Ok img', s') ->
  header_fits32 (header img') ->
  check_boot_img_header img' = 0.
Proof.
  intros Mg Kf Rf U F. unfold update_images in U.
  apply bind_ok in U. destruct U as (img1 & s1 & L & Fin).
  pose proof (finish_update_size _ _ _ _ Fin) as Sz.
  apply finish_update_frame in Fin. destruct Fin as (Eh & _).
  apply load_sections_keeps in L.
  destruct L as (NZ & T & Kp & Rp & _).
  specialize (Kp kf Kf). specialize (Rp rf Rf).
  assert (Em : magic (header img1) = magic (header img)) by apply T.
  assert (Ep : page_size (header img1) = page_size (header img)) by apply T.
  rewrite <- Eh in Kp, Rp, Em, Ep.
  assert (Lm : length (magic (header img')) = 8%nat)
    by (rewrite Em, Mg; reflexivity).
  apply (proj2 (check_boot_img_header_spec img' Lm)).
  intros [X|[X|[X|[X|X]]]]; try congruence; try lia.
  rewrite (checked_size_exact _ F) in X.
  rewrite total_size_layout in Sz. unfold layout_of in Sz.
  rewrite (fits32_layout _ _ _ _ _ F) in Sz. cbn [layout_size] in Sz.
  destruct F as (Hp & _).
  set (n := ceil_div (kernel_size (header img')) (page_size (header img'))) in *.
  set (m := ceil_div (ramdisk_size (header img')) (page_size (header img'))) in *.
  set (o := ceil_div (second_size (header img')) (page_size (header img'))) in *.
  set (p := ceil_div (dtbs_size (header img')) (page_size (header img'))) in *.
  clearbody n m o p. nia.
Qed.

(** X15: the sanity check of a create run can fail only when the layout
    overflows 32 bits. When a create run stops with "Sanity cheks failed",
    the settings were applied and the sections loaded, and the total size
    computed from the resulting header does not fit in an [unsigned]: with
    sizes that fit, a kernel and a ramdisk read from files are not empty,
    the page size is not zero, the magic value is the one [new_bootimg] put
    there, and the size fixed by [update_images] covers the pages that
    [check_boot_img_header] counts. *)
Theorem sanity_check_fails_only_on_overflow (fs : filesystem) (t : target)
  (a : arguments) (file : buffer)
  (H : fst (main_create fs t a file) = Abort E_sanity) :
  exists imgb img0 s0 img s,
    check_if_block_device t (blen file) (new_bootimg a) = Ok imgb /\
    update_header imgb (open_bootimg true t file) = (Ok img0, s0) /\
    update_images fs img0 s0 = (Ok img, s) /\
    ~ header_fits32 (header img).
Proof.
  unfold main_create in H.
  destruct (arg_kernel a) as [kf|] eqn:Ak; [|discriminate H].
  destruct (arg_ramdisk a) as [rf|] eqn:Ar; [|discriminate H].
  destruct (check_if_block_device t (blen file) (new_bootimg a))
    as [imgb|x] eqn:C.
  2:{ exfalso. cbn [fst] in H. injection H as ->.
      unfold check_if_block_device in C.
      destruct (has_blkid t && is_blk t); [|discriminate C].
      destruct (has_type t); discriminate C. }
  assert (B : header imgb = new_header /\ kernel_fname imgb = Some kf /\
              ramdisk_fname imgb = Some rf).
  { unfold check_if_block_device in C.
    destruct (has_blkid t && is_blk t).
    - destruct (has_type t); [discriminate C|]. injection C as <-.
      cbn. auto.
    - injection C as <-. cbn. auto. }
  destruct B as (Bh & Bk & Br).
  unfold bind in H.
  destruct (update_header imgb (open_bootimg true t file))
    as [[img0|e0] s0] eqn:U0.
  2:{ exfalso. cbn [fst] in H. injection H as ->.
      pose proof (stops_update_header _ _ _ _ U0) as I. cbn in I.
      intuition discriminate. }
  destruct (update_images fs img0 s0) as [[img|e1] s] eqn:U1.
  2:{ exfalso. cbn [fst] in H. injection H as ->.
      pose proof (stops_update_images _ _ _ _ _ U1) as I. cbn in I.
      intuition discriminate. }
  exists imgb, img0, s0, img, s.
  split; [reflexivity|]. split; [exact U0|]. split; [exact U1|].
  intros F.
  pose proof U0 as U0'. apply update_header_frame in U0'.
  destruct U0' as (_ & (Kf & Rf & _) & _).
  unfold update_header, lift in U0. injection U0 as U0 _.
  apply update_header_entries_magic in U0.
  assert (Mg : magic (header img0) = BOOT_MAGIC)
    by (rewrite U0, Bh; reflexivity).
  rewrite (created_image_passes_check fs img0 img s0 s kf rf Mg
             ltac:(congruence) ltac:(congruence) U1 F) in H.
  cbn [Z.eqb] in H.
  destruct (write_bootimg img s) as [[[]|e2] s2] eqn:W; [discriminate H|].
  cbn [fst] in H. injection H as ->.
  pose proof (only_undefined_write_bootimg _ _ _ _ W). discriminate.
Qed.

Lemma sanity_check_fails_only_on_overflow_witness :
  exists imgb img0 s0 img s,
    check_if_block_device regular_file (blen (zeros 0))
      (new_bootimg wrapping_arguments) = Ok imgb /\
    update_header imgb (open_bootimg true regular_file (zeros 0))
    = (Ok img0, s0) /\
    update_images three_sections img0 s0 = (Ok img, s) /\
    ~ header_fits32 (header img).
Proof.
  apply (sanity_check_fails_only_on_overflow three_sections regular_file
           wrapping_arguments (zeros 0)).
  vm_compute. reflexivity.
Defined.

(** ** The layout that [-i] prints *)




(** ** The text of a setting *)

Lemma In_line_text (x : Z) (cmd : list Z) : In x (line_text cmd) -> In x cmd.
Proof.
  induction cmd as [|c r IH]; cbn; [auto|].
  destruct ((c =? 0) || (c =? 10)); cbn; [intros []|].
  intros [E|I]; auto.
Qed.

Lemma In_skip_blanks (x : Z) (p : list Z) : In x (skip_blanks p) -> In x p.
Proof.
  induction p as [|c r IH]; cbn; [auto|].
  destruct ((c =? 32) || (c =? 9)); cbn; auto.
Qed.

Lemma In_split_token (x : Z) (p : list Z) :
  In x (snd (split_token p)) -> In x p.
Proof.
  induction p as [|c r IH]; cbn; [auto|].
  destruct ((c =? 32) || (c =? 61) || (c =? 9)); cbn; [auto|].
  destruct (split_token r) as [t rest]. cbn in *. auto.
Qed.

Lemma parse_entry_without_equals (cmd : list Z) :
  ~ In 61 (line_text cmd) -> parse_entry cmd = cfg_unknown.
Proof.
  intros H. unfold parse_entry.
  destruct (split_token (skip_blanks (line_text cmd))) as [token p] eqn:E.
  destruct (skip_blanks p) as [|c r] eqn:S; [reflexivity|].
  destruct (Z.eqb_spec c 61) as [->|_]; [|reflexivity].
  exfalso. apply H. apply In_skip_blanks.
  apply In_split_token. rewrite E. cbn [snd].
  apply In_skip_blanks. rewrite S. left. reflexivity.
Qed.

Lemma update_header_entries_app (es1 es2 : list config_entry) :
  forall img,
    update_header_entries img (es1 ++ es2)
    = match update_header_entries img es1 with
      | Ok img1 => update_header_entries img1 es2
      | Abort e => Abort e
      end.
Proof.
  induction es1 as [|e es1 IH]; intros img; cbn; [reflexivity|].
  destruct (update_header_entry img e); [apply IH | reflexivity].
Qed.

(** X17: a line in which no equals sign stands before the end of the line
    is a bad config entry, whatever else it holds; an empty line is one. A
    list of settings that contains such a line anywhere is never applied to
    the end: [update_header] stops at that line with "bad config entry",
    unless an earlier line has stopped it. *)
Theorem line_without_equals_is_rejected (img : t_abootimg) (cmd : list Z)
  (H : ~ In 61 (line_text cmd)) :
  update_header_entry img (parse_entry cmd) = Abort E_bad_config /\
  forall (before after : list (list Z)) (img0 : t_abootimg),
    is_ok (update_header_entries img0
             (map parse_entry (before ++ cmd :: after))) = false.
Proof.
  rewrite (parse_entry_without_equals cmd H). split; [reflexivity|].
  intros before after img0. rewrite map_app, update_header_entries_app.
  destruct (update_header_entries img0 (map parse_entry before));
    [|reflexivity].
  cbn [map]. rewrite (parse_entry_without_equals cmd H). reflexivity.
Qed.

Lemma line_without_equals_is_rejected_witness :
  update_header_entry example_image (parse_entry [10]) = Abort E_bad_config.
Proof.
  apply (line_without_equals_is_rejected example_image [10]).
  intros [].
Defined.

Lemma line_text_app (a t : list Z) :
  Forall in_line a -> line_text (a ++ t) = a ++ line_text t.
Proof.
  induction 1 as [|c a [C0 C10] Ha IH]; cbn [app line_text]; [reflexivity|].
  destruct (Z.eqb_spec c 0); [contradiction|].
  destruct (Z.eqb_spec c 10); [contradiction|].
  cbn [orb]. rewrite IH. reflexivity.
Qed.

Lemma skip_blanks_app (b p : list Z) :
  Forall blank b -> skip_blanks (b ++ p) = skip_blanks p.
Proof.
  induction 1 as [|c b [->| ->] Hb IH]; cbn [app skip_blanks]; auto.
Qed.

Lemma skip_blanks_stop (p : list Z) :
  ~ blank (hd 0 p) -> skip_blanks p = p.
Proof.
  destruct p as [|c r]; cbn; [reflexivity|]. intros H.
  destruct (Z.eqb_spec c 32); [exfalso; apply H; left; assumption|].
  destruct (Z.eqb_spec c 9); [exfalso; apply H; right; assumption|].
  reflexivity.
Qed.

Lemma split_token_app (t p : list Z) :
  Forall in_token t -> blank (hd 0 p) \/ hd 0 p = 61 ->
  split_token (t ++ p) = (t, p).
Proof.
  intros Ht Hp. induction Ht as [|c t (C0 & C10 & C32 & C61 & C9) Ht IH];
    cbn [app].
  - destruct p as [|c r]; cbn in *.
    + destruct Hp as [[X|X]|X]; discriminate X.
    + destruct Hp as [[->| ->]| ->]; reflexivity.
  - cbn [split_token].
    destruct (Z.eqb_spec c 32); [contradiction|].
    destruct (Z.eqb_spec c 61); [contradiction|].
    destruct (Z.eqb_spec c 9); [contradiction|].
    cbn [orb]. rewrite IH. reflexivity.
Qed.

Lemma in_token_in_line (t : list Z) : Forall in_token t -> Forall in_line t.
Proof.
  intros H. eapply Forall_impl; [|exact H].
  intros c (C0 & C10 & _). split; assumption.
Qed.

Lemma blank_in_line (b : list Z) : Forall blank b -> Forall in_line b.
Proof.
  intros H. eapply Forall_impl; [|exact H].
  intros c [->| ->]; split; discriminate.
Qed.

(** A line made of a token, an equals sign and a value, with blanks around
    them, and the end of the line. *)
Lemma parse_entry_line (lead token mid1 mid2 value tail : list Z) (c : Z) :
  Forall blank lead -> Forall in_token (c :: token) -> Forall blank mid1 ->
  Forall blank mid2 -> is_value value ->
  tail = [] \/ hd 1 tail = 10 \/ hd 1 tail = 0 ->
  parse_entry (lead ++ (c :: token) ++ mid1 ++ [61] ++ mid2 ++ value ++ tail)
  = classify (c :: token) value.
Proof.
  intros Hl Ht H1 H2 [Hv Hb] Htail. unfold parse_entry.
  assert (E : line_text (lead ++ (c :: token) ++ mid1 ++ [61] ++ mid2
                         ++ value ++ tail)
              = lead ++ (c :: token) ++ mid1 ++ [61] ++ mid2 ++ value).
  { rewrite (line_text_app lead) by (apply blank_in_line; exact Hl).
    rewrite (line_text_app (c :: token)) by (apply in_token_in_line; exact Ht).
    rewrite (line_text_app mid1) by (apply blank_in_line; exact H1).
    rewrite (line_text_app [61])
      by (repeat constructor; discriminate).
    rewrite (line_text_app mid2) by (apply blank_in_line; exact H2).
    rewrite (line_text_app value) by exact Hv.
    assert (T : line_text tail = []).
    { destruct tail as [|x r]; [reflexivity|]. cbn in *.
      destruct Htail as [X|[->| ->]]; [discriminate X| |]; reflexivity. }
    rewrite T, app_nil_r. reflexivity. }
  rewrite E. rewrite skip_blanks_app by exact Hl.
  rewrite skip_blanks_stop.
  2:{ cbn [app hd]. inversion Ht as [|? ? (C0 & C10 & C32 & C61 & C9) _].
      intros [X|X]; contradiction. }
  assert (S : split_token ((c :: token) ++ mid1 ++ [61] ++ mid2 ++ value)
              = (c :: token, mid1 ++ [61] ++ mid2 ++ value)).
  { apply split_token_app; [exact Ht|].
    destruct H1 as [|x mid1 Hx _]; cbn; [right; reflexivity | left; exact Hx]. }
  rewrite S. rewrite skip_blanks_app by exact H1.
  cbn [app skip_blanks Z.eqb Pos.eqb orb].
  rewrite skip_blanks_app by exact H2.
  rewrite skip_blanks_stop by exact Hb. reflexivity.
Qed.

Lemma in_token_key (key sfx : list Z) :
  forallb (fun c => negb ((c =? 0) || (c =? 10) || (c =? 32) || (c =? 61)
                          || (c =? 9))) key = true ->
  Forall in_token sfx -> Forall in_token (key ++ sfx).
Proof.
  intros Hk Hs. apply Forall_app. split; [|exact Hs].
  apply Forall_forall. intros c I.
  rewrite forallb_forall in Hk. specialize (Hk c I).
  apply negb_true_iff in Hk.
  repeat (apply orb_false_elim in Hk; destruct Hk as [Hk ?]).
  unfold in_token.
  repeat match goal with
         | X : (_ =? _) = false |- _ => apply Z.eqb_neq in X
         end.
  repeat split; assumption.
Qed.

Lemma classify_cmdline_longer (c : Z) (sfx value : list Z) :
  c <> 0 -> classify (str "cmdline" ++ c :: sfx) value = cfg_unknown.
Proof.
  intros C. unfold classify.
  change (str "cmdline" ++ c :: sfx)
    with (99 :: 109 :: 100 :: 108 :: 105 :: 110 :: 101 :: c :: sfx).
  change (str "cmdline") with [99; 109; 100; 108; 105; 110; 101].
  cbn [strcmp hd tl Z.eqb Pos.eqb].
  destruct (Z.eqb_spec c 0) as [|_]; [contradiction|].
  replace (c - 0) with c by lia.
  destruct (Z.eqb_spec c 0) as [|_]; [contradiction|].
  reflexivity.
Qed.

(** X18: how a line names a setting. With blanks allowed before the token,
    around the equals sign and nothing required after the value, a token
    that starts with "name", "bootsize", "pagesize", "kerneladdr",
    "ramdiskaddr", "secondaddr" or "tagsaddr" selects that setting whatever
    characters follow the key in the token, because the key is compared
    with [strncmp] over its own length; "cmdline" is compared with [strcmp]
    and selects the command line only when it is the whole token. The value
    of a numeric setting is what [strtoul] reads in base 0 from the text
    after the equals sign. *)
Theorem keys_are_compared_by_prefix
  (lead sfx mid1 mid2 value tail : list Z)
  (Hl : Forall blank lead) (Hs : Forall in_token sfx)
  (H1 : Forall blank mid1) (H2 : Forall blank mid2) (Hv : is_value value)
  (Ht : tail = [] \/ hd 1 tail = 10 \/ hd 1 tail = 0) :
  let line key :=
    lead ++ (str key ++ sfx) ++ mid1 ++ [61] ++ mid2 ++ value ++ tail in
  parse_entry (line "name"%string) = cfg_name value /\
  parse_entry (line "bootsize"%string) = cfg_bootsize (strtoul value) /\
  parse_entry (line "pagesize"%string) = cfg_pagesize (strtoul value) /\
  parse_entry (line "kerneladdr"%string) = cfg_kerneladdr (strtoul value) /\
  parse_entry (line "ramdiskaddr"%string) = cfg_ramdiskaddr (strtoul value) /\
  parse_entry (line "secondaddr"%string) = cfg_secondaddr (strtoul value) /\
  parse_entry (line "tagsaddr"%string) = cfg_tagsaddr (strtoul value) /\
  parse_entry (line "cmdline"%string)
  = match sfx with [] => cfg_cmdline value | _ => cfg_unknown end.
Proof.
  intros line. unfold line.
  assert (P : forall key c k,
             str key = c :: k ->
             forallb (fun c => negb ((c =? 0) || (c =? 10) || (c =? 32)
                                     || (c =? 61) || (c =? 9))) (str key)
             = true ->
             parse_entry (lead ++ (str key ++ sfx) ++ mid1 ++ [61] ++ mid2
                          ++ value ++ tail)
             = classify (str key ++ sfx) value).
  { intros key c k E K. pose proof (in_token_key _ _ K Hs) as T.
    rewrite E in *. cbn [app] in *.
    apply (parse_entry_line lead (k ++ sfx) mid1 mid2 value tail c);
      assumption. }
  repeat split.
  - erewrite P by reflexivity. reflexivity.
  - erewrite P by reflexivity. reflexivity.
  - erewrite P by reflexivity. reflexivity.
  - erewrite P by reflexivity. reflexivity.
  - erewrite P by reflexivity. reflexivity.
  - erewrite P by reflexivity. reflexivity.
  - erewrite P by reflexivity. reflexivity.
  - erewrite P by reflexivity. destruct sfx as [|c sfx].
    + reflexivity.
    + apply classify_cmdline_longer. inversion Hs as [|? ? (C0 & _) _].
      exact C0.
Qed.

Lemma keys_are_compared_by_prefix_witness :
  parse_entry (str "pagesizes = 4096") = cfg_pagesize 4096.
Proof.
  apply (keys_are_compared_by_prefix [] (str "s") [32] [32] (str "4096") []).
  - constructor.
  - repeat constructor; discriminate.
  - repeat constructor.
  - repeat constructor.
  - split; [repeat constructor; discriminate|].
    intros [X|X]; discriminate X.
  - left. reflexivity.
Defined.

(** ** The config file, written and read *)

Lemma digit_of_hex_digit (d : Z) :
  0 <= d < 16 -> digit_of (hex_digit d) = Some d.
Proof.
  intros Hd. unfold digit_of, hex_digit.
  destruct (Z.ltb_spec d 10).
  - destruct (Z.leb_spec 48 (48 + d)); [|lia].
    destruct (Z.leb_spec (48 + d) 57); [|lia].
    cbn [andb]. f_equal. lia.
  - destruct (Z.leb_spec (87 + d) 57); [lia|].
    rewrite andb_false_r.
    destruct (Z.leb_spec 97 (87 + d)); [|lia].
    destruct (Z.leb_spec (87 + d) 122); [|lia].
    cbn [andb]. f_equal. lia.
Qed.

Lemma digit_of_range (c d : Z) : digit_of c = Some d -> 48 <= c.
Proof.
  unfold digit_of.
  destruct (Z.leb_spec 48 c); [intros; assumption|]. cbn [andb].
  destruct (Z.leb_spec 97 c); [lia|]. cbn [andb].
  destruct (Z.leb_spec 65 c); [lia|]. cbn [andb]. discriminate.
Qed.

Lemma is_hex_plain (l : list Z) :
  Forall is_hex l -> Forall (fun c => 48 <= c) l.
Proof.
  intros H. eapply Forall_impl; [|exact H].
  intros c (d & _ & E). apply (digit_of_range c d E).
Qed.

Lemma digits_app (acc : Z) (l r : list Z) :
  Forall is_hex l -> digits 16 acc (l ++ r) = digits 16 (digits 16 acc l) r.
Proof.
  intros H. revert acc. induction H as [|c l (d & Hd & E) Hl IH]; intros acc;
    cbn [app digits]; [reflexivity|].
  rewrite E. destruct (Z.ltb_spec d 16); [|lia]. apply IH.
Qed.

Lemma print_hex_spec (n : nat) :
  forall v acc,
    0 <= v < 16 ^ Z.of_nat n ->
    exists pre, print_hex n v acc = pre ++ acc /\ Forall is_hex pre /\
                digits 16 0 pre = v.
Proof.
  induction n as [|n IH]; intros v acc Hv.
  - exists []. change (16 ^ Z.of_nat 0) with 1 in Hv.
    repeat split; [constructor | cbn; lia].
  - rewrite Nat2Z.inj_succ, Z.pow_succ_r in Hv by lia.
    pose proof (Z.div_mod v 16 ltac:(lia)) as E.
    pose proof (Z.mod_pos_bound v 16 ltac:(lia)) as R.
    assert (Hx : is_hex (hex_digit (v mod 16))).
    { exists (v mod 16). split; [exact R | apply digit_of_hex_digit; exact R]. }
    assert (D1 : forall A, digits 16 A [hex_digit (v mod 16)]
                           = A * 16 + v mod 16).
    { intros A. cbn [digits]. rewrite digit_of_hex_digit by exact R.
      destruct (Z.ltb_spec (v mod 16) 16); [reflexivity|lia]. }
    cbn [print_hex]. destruct (Z.eqb_spec (v / 16) 0) as [Q|Q].
    + exists [hex_digit (v mod 16)].
      repeat split; [constructor; [exact Hx|constructor]|].
      rewrite D1. lia.
    + destruct (IH (v / 16) (hex_digit (v mod 16) :: acc)) as (pre & P & Hp & V).
      { split; [apply Z.div_pos; lia|]. apply Z.div_lt_upper_bound; lia. }
      exists (pre ++ [hex_digit (v mod 16)]).
      rewrite P, <- app_assoc. split; [reflexivity|].
      split; [apply Forall_app; split;
              [exact Hp | constructor; [exact Hx|constructor]]|].
      rewrite digits_app by exact Hp. rewrite V, D1. lia.
Qed.

Lemma fmt_x_spec (v : Z) :
  is_word v ->
  Forall is_hex (fmt_x v) /\ strtoul (48 :: 120 :: fmt_x v) = v.
Proof.
  intros Hv. unfold fmt_x.
  destruct (print_hex_spec 8 v []) as (pre & P & Hp & V).
  { unfold is_word in Hv. change (16 ^ Z.of_nat 8) with (2 ^ 32). exact Hv. }
  rewrite app_nil_r in P. rewrite P. split; [exact Hp|].
  unfold strtoul. cbn [skip_spaces isspace Z.eqb Z.leb Z.compare Pos.compare
                       Pos.compare_cont Pos.eqb orb andb].
  rewrite V. unfold is_word in Hv.
  destruct (Z.ltb_spec ULONG_MAX v) as [X|_]; [|reflexivity].
  unfold ULONG_MAX in X. change (2 ^ 64 - 1) with 18446744073709551615 in X.
  change (2 ^ 32) with 4294967296 in Hv. lia.
Qed.

Lemma getlines_line (a rest : list Z) :
  ~ In 10 a -> getlines (a ++ 10 :: rest) = (a ++ [10]) :: getlines rest.
Proof.
  induction a as [|c a IH]; intros H; cbn [app getlines].
  - reflexivity.
  - destruct (Z.eqb_spec c 10) as [->|_]; [exfalso; apply H; left; reflexivity|].
    rewrite IH by (intros I; apply H; right; exact I). reflexivity.
Qed.

Lemma c_string_spec (l t : list Z) :
  c_string l = Some t ->
  (length t < length l)%nat /\ ~ In 0 t /\
  exists r, l = t ++ 0 :: r.
Proof.
  revert t. induction l as [|c l IH]; intros t H; cbn in H; [discriminate H|].
  destruct (Z.eqb_spec c 0) as [->|C].
  - injection H as <-. cbn. split; [lia|]. split; [auto|].
    exists l. reflexivity.
  - destruct (c_string l) as [t'|]; [|discriminate H]. injection H as <-.
    destruct (IH t' eq_refl) as (L & N & r & ->). cbn.
    split; [lia|]. split; [intros [X|X]; [congruence|contradiction]|].
    exists r. reflexivity.
Qed.

Lemma c_string_app (t r : list Z) :
  ~ In 0 t -> c_string (t ++ 0 :: r) = Some t.
Proof.
  induction t as [|c t IH]; intros H; cbn; [reflexivity|].
  destruct (Z.eqb_spec c 0) as [->|_]; [exfalso; apply H; left; reflexivity|].
  rewrite IH by (intros I; apply H; right; exact I). reflexivity.
Qed.

Lemma firstn_repeat_le {A} (x : A) (k n : nat) :
  (k <= n)%nat -> firstn k (repeat x n) = repeat x k.
Proof.
  revert n. induction k as [|k IH]; intros [|n] L; cbn; try reflexivity;
    try lia.
  f_equal. apply IH. lia.
Qed.

Lemma pad_to_short (n : nat) (l : list Z) :
  (length l <= n)%nat -> pad_to n l = l ++ repeat 0 (n - length l).
Proof.
  intros L. unfold pad_to. rewrite firstn_app.
  rewrite firstn_all2 by exact L. f_equal.
  apply firstn_repeat_le. lia.
Qed.

Lemma getlines_two (k v rest : list Z) :
  ~ In 10 k -> ~ In 10 v ->
  getlines (k ++ v ++ [10] ++ rest) = (k ++ v ++ [10]) :: getlines rest.
Proof.
  intros Hk Hv. rewrite app_assoc. cbn [app].
  rewrite getlines_line.
  - rewrite <- app_assoc. reflexivity.
  - intros I. apply in_app_or in I. destruct I; contradiction.
Qed.

Lemma getlines_last (k v : list Z) :
  ~ In 10 k -> ~ In 10 v -> getlines (k ++ v ++ [10]) = [k ++ v ++ [10]].
Proof.
  intros Hk Hv. rewrite <- (app_nil_r [10]) at 1.
  rewrite getlines_two by assumption. reflexivity.
Qed.

Lemma hex_not_newline (l : list Z) : Forall is_hex l -> ~ In 10 l.
Proof.
  intros H I. apply is_hex_plain in H. rewrite Forall_forall in H.
  specialize (H 10 I). lia.
Qed.

Lemma parse_written_number (key : string) (c : Z) (k : list Z) (v : Z) :
  str key = c :: k -> Forall in_token (str key) -> is_word v ->
  parse_entry (str key ++ [32; 61; 32; 48; 120] ++ fmt_x v ++ [10])
  = classify (str key) (48 :: 120 :: fmt_x v) /\
  strtoul (48 :: 120 :: fmt_x v) = v.
Proof.
  intros E T Hv. destruct (fmt_x_spec v Hv) as [Hx Hs].
  split; [|exact Hs]. rewrite E in *.
  change ((c :: k) ++ [32; 61; 32; 48; 120] ++ fmt_x v ++ [10])
    with ([] ++ (c :: k) ++ [32] ++ [61] ++ [32] ++ (48 :: 120 :: fmt_x v)
          ++ [10]).
  apply parse_entry_line; try exact T;
    try (repeat constructor; fail).
  split.
  - constructor; [split; discriminate|].
    constructor; [split; discriminate|].
    apply is_hex_plain in Hx. eapply Forall_impl; [|exact Hx].
    intros x Hx'. cbv beta in Hx'. split; lia.
  - cbn [hd]. intros [X|X]; discriminate X.
Qed.

Lemma parse_written_text (key : string) (c : Z) (k value : list Z) :
  str key = c :: k -> Forall in_token (str key) ->
  ~ In 0 value -> plain_text value ->
  parse_entry (str key ++ [32; 61; 32] ++ value ++ [10])
  = classify (str key) value.
Proof.
  intros E T H0 [H10 Hb]. rewrite E in *.
  change ((c :: k) ++ [32; 61; 32] ++ value ++ [10])
    with ([] ++ (c :: k) ++ [32] ++ [61] ++ [32] ++ value ++ [10]).
  apply parse_entry_line; try exact T; try (repeat constructor; fail).
  split; [|exact Hb]. apply Forall_forall. intros x I.
  split; intros ->; contradiction.
Qed.

Lemma key_in_token (key : string) :
  forallb (fun c => negb ((c =? 0) || (c =? 10) || (c =? 32) || (c =? 61)
                          || (c =? 9))) (str key) = true ->
  Forall in_token (str key).
Proof.
  intros H. rewrite <- (app_nil_r (str key)).
  apply in_token_key; [exact H | constructor].
Qed.

Lemma apply_settings (img img0 : t_abootimg) (n c : list Z) :
  is_blkdev img0 = false -> (length c < 512)%nat ->
  exists img1,
    update_header_entries img0 (settings_of img n c) = Ok img1 /\
    size img1 = u32 (size img) /\
    page_size (header img1) = u32 (page_size (header img)) /\
    kernel_addr (header img1) = u32 (kernel_addr (header img)) /\
    ramdisk_addr (header img1) = u32 (ramdisk_addr (header img)) /\
    second_addr (header img1) = u32 (second_addr (header img)) /\
    tags_addr (header img1) = u32 (tags_addr (header img)) /\
    name (header img1) = pad_to 15 n ++ [0] /\
    cmdline (header img1) = pad_to 512 c.
Proof.
  intros D L. unfold settings_of.
  cbn [update_header_entries update_header_entry].
  rewrite D. cbn [andb].
  cbn [header with_header with_size is_blkdev].
  destruct (Z.leb_spec BOOT_ARGS_SIZE (Z.of_nat (length c))) as [X|_];
    [unfold BOOT_ARGS_SIZE in X; lia|].
  eexists. split; [reflexivity|]. repeat split.
Qed.

Lemma classify_keys (value : list Z) :
  classify (str "name") value = cfg_name value /\
  classify (str "bootsize") value = cfg_bootsize (strtoul value) /\
  classify (str "pagesize") value = cfg_pagesize (strtoul value) /\
  classify (str "kerneladdr") value = cfg_kerneladdr (strtoul value) /\
  classify (str "ramdiskaddr") value = cfg_ramdiskaddr (strtoul value) /\
  classify (str "secondaddr") value = cfg_secondaddr (strtoul value) /\
  classify (str "tagsaddr") value = cfg_tagsaddr (strtoul value) /\
  classify (str "cmdline") value = cfg_cmdline value.
Proof. repeat split. Qed.

Lemma no_newline (l : list Z) :
  forallb (fun c => negb (c =? 10)) l = true -> ~ In 10 l.
Proof.
  intros H I. rewrite forallb_forall in H. specialize (H 10 I).
  discriminate H.
Qed.

Lemma written_config_lines (img : t_abootimg) (n c : list Z) :
  is_word (size img) -> Forall is_word (header_words (header img)) ->
  ~ In 0 n -> ~ In 0 c -> plain_text n -> plain_text c ->
  config_of_text (Some (config_text img n c)) [] = settings_of img n c.
Proof.
  intros Sz Wd N0 C0 Pn Pc.
  unfold header_words in Wd.
  repeat match goal with
         | X : Forall _ (_ :: _) |- _ => inversion_clear X
         end.
  unfold config_of_text, config_text.
  change (map parse_entry (getlines [])) with (@nil config_entry).
  rewrite app_nil_r.
  repeat (rewrite getlines_two;
          [|apply no_newline; reflexivity
           |first [apply hex_not_newline, fmt_x_spec; assumption
                  |apply Pn | apply Pc]]).
  rewrite getlines_last; [|apply no_newline; reflexivity|apply Pc].
  cbn [map]. unfold settings_of.
  change (str "bootsize = 0x") with (str "bootsize" ++ [32; 61; 32; 48; 120]).
  change (str "pagesize = 0x") with (str "pagesize" ++ [32; 61; 32; 48; 120]).
  change (str "kerneladdr = 0x")
    with (str "kerneladdr" ++ [32; 61; 32; 48; 120]).
  change (str "ramdiskaddr = 0x")
    with (str "ramdiskaddr" ++ [32; 61; 32; 48; 120]).
  change (str "secondaddr = 0x")
    with (str "secondaddr" ++ [32; 61; 32; 48; 120]).
  change (str "tagsaddr = 0x") with (str "tagsaddr" ++ [32; 61; 32; 48; 120]).
  change (str "name = ") with (str "name" ++ [32; 61; 32]).
  change (str "cmdline = ") with (str "cmdline" ++ [32; 61; 32]).
  rewrite <- !app_assoc.
  destruct (parse_written_number "bootsize" _ _ (size img) eq_refl
              (key_in_token "bootsize" eq_refl) Sz) as [P1 V1].
  destruct (parse_written_number "pagesize" _ _ (page_size (header img))
              eq_refl (key_in_token "pagesize" eq_refl) ltac:(assumption))
    as [P2 V2].
  destruct (parse_written_number "kerneladdr" _ _ (kernel_addr (header img))
              eq_refl (key_in_token "kerneladdr" eq_refl) ltac:(assumption))
    as [P3 V3].
  destruct (parse_written_number "ramdiskaddr" _ _ (ramdisk_addr (header img))
              eq_refl (key_in_token "ramdiskaddr" eq_refl) ltac:(assumption))
    as [P4 V4].
  destruct (parse_written_number "secondaddr" _ _ (second_addr (header img))
              eq_refl (key_in_token "secondaddr" eq_refl) ltac:(assumption))
    as [P5 V5].
  destruct (parse_written_number "tagsaddr" _ _ (tags_addr (header img))
              eq_refl (key_in_token "tagsaddr" eq_refl) ltac:(assumption))
    as [P6 V6].
  rewrite P1, P2, P3, P4, P5, P6.
  rewrite (parse_written_text "name" _ _ n eq_refl
             (key_in_token "name" eq_refl) N0 Pn).
  rewrite (parse_written_text "cmdline" _ _ c eq_refl
             (key_in_token "cmdline" eq_refl) C0 Pc).
  repeat match goal with
         | |- context [classify (str ?key) ?v] =>
             first [ rewrite (proj1 (classify_keys v))
                   | rewrite (proj1 (proj2 (classify_keys v)))
                   | rewrite (proj1 (proj2 (proj2 (classify_keys v))))
                   | rewrite (proj1 (proj2 (proj2 (proj2 (classify_keys v)))))
                   | rewrite (proj1 (proj2 (proj2 (proj2 (proj2
                                (classify_keys v))))))
                   | rewrite (proj1 (proj2 (proj2 (proj2 (proj2 (proj2
                                (classify_keys v)))))))
                   | rewrite (proj1 (proj2 (proj2 (proj2 (proj2 (proj2 (proj2
                                (classify_keys v))))))))
                   | rewrite (proj2 (proj2 (proj2 (proj2 (proj2 (proj2 (proj2
                                (classify_keys v)))))))) ]
         end.
  rewrite V1, V2, V3, V4, V5, V6. reflexivity.
Qed.

Lemma c_string_padded (t : list Z) (k : nat) :
  ~ In 0 t -> c_string (t ++ repeat 0 (S k)) = Some t.
Proof. intros H. cbn [repeat]. apply c_string_app. exact H. Qed.

(** X19: the config file that [-x] writes restores the settings when it is
    given back with [-f]. For a header within its C types whose name and
    command line end in a NUL, hold no newline and do not start with a
    blank, [write_bootimg_config] writes eight lines; [getline] and
    [update_header_entry] read them back as the eight settings bootsize,
    pagesize, kerneladdr, ramdiskaddr, secondaddr, tagsaddr, name and
    cmdline with the values of the image; and applied to an image that is
    not a block device they give that image the same size, page size and
    addresses, and a name and a command line with the same text. *)
Theorem written_config_is_read_back (img img0 : t_abootimg) (n c : list Z)
  (W : wf_header (header img)) (Sz : is_word (size img))
  (Hn : c_string (name (header img)) = Some n)
  (Hc : c_string (cmdline (header img)) = Some c)
  (Pn : plain_text n) (Pc : plain_text c) (D : is_blkdev img0 = false) :
  exists text img1,
    write_bootimg_config img = Ok text /\
    config_of_text (Some text) [] = settings_of img n c /\
    update_header_entries img0 (config_of_text (Some text) []) = Ok img1 /\
    size img1 = size img /\
    page_size (header img1) = page_size (header img) /\
    kernel_addr (header img1) = kernel_addr (header img) /\
    ramdisk_addr (header img1) = ramdisk_addr (header img) /\
    second_addr (header img1) = second_addr (header img) /\
    tags_addr (header img1) = tags_addr (header img) /\
    c_string (name (header img1)) = Some n /\
    c_string (cmdline (header img1)) = Some c.
Proof.
  destruct W as (_ & _ & Wd & Ln & _ & Lc & _ & _ & _).
  destruct (c_string_spec _ _ Hn) as (Lnn & N0 & _).
  destruct (c_string_spec _ _ Hc) as (Lcc & C0 & _).
  rewrite Ln in Lnn. rewrite Lc in Lcc.
  pose proof (written_config_lines img n c Sz Wd N0 C0 Pn Pc) as E.
  destruct (apply_settings img img0 n c D Lcc)
    as (img1 & A & S1 & P1 & K1 & R1 & S2 & T1 & N1 & C1).
  exists (config_text img n c), img1.
  unfold header_words in Wd.
  repeat match goal with
         | X : Forall _ (_ :: _) |- _ => inversion_clear X
         end.
  rewrite u32_small in S1, P1, K1, R1, S2, T1 by assumption.
  split; [unfold write_bootimg_config; rewrite Hn, Hc; reflexivity|].
  split; [exact E|]. split; [rewrite E; exact A|].
  repeat (split; [assumption|]).
  split.
  - rewrite N1, pad_to_short by lia. rewrite <- app_assoc.
    replace (repeat 0 (15 - length n) ++ [0])
      with (repeat 0 (S (15 - length n)))
      by (rewrite <- repeat_cons; reflexivity).
    apply c_string_padded. exact N0.
  - rewrite C1, pad_to_short by lia.
    replace (512 - length c)%nat with (S (511 - length c)) by lia.
    apply c_string_padded. exact C0.
Qed.

Lemma Forall_is_byte_check (l : list Z) :
  forallb (fun x => (0 <=? x) && (x <? 256)) l = true -> Forall is_byte l.
Proof.
  intros H. apply Forall_forall. intros x I.
  rewrite forallb_forall in H. specialize (H x I).
  apply andb_prop in H. destruct H as [A B].
  apply Z.leb_le in A. apply Z.ltb_lt in B. split; assumption.
Qed.

Lemma written_config_is_read_back_witness :
  exists text img1,
    write_bootimg_config named_image = Ok text /\
    update_header_entries example_image (config_of_text (Some text) [])
    = Ok img1 /\
    kernel_addr (header img1) = 268468224 /\
    c_string (name (header img1)) = Some (str "boot").
Proof.
  destruct (written_config_is_read_back named_image example_image
              (str "boot") (str "console=ttyS0 quiet"))
    as (text & img1 & Wr & _ & U & _ & _ & K & _ & _ & _ & N & _).
  - unfold wf_header. cbn [named_image header with_header magic name cmdline
                           id with_name with_cmdline with_kernel_addr].
    split; [reflexivity|].
    split; [apply Forall_is_byte_check; reflexivity|].
    split; [repeat constructor; unfold is_word; cbn; lia|].
    split; [reflexivity|].
    split; [apply Forall_is_byte_check; reflexivity|].
    split; [reflexivity|].
    split; [apply Forall_is_byte_check; reflexivity|].
    split; [reflexivity|].
    repeat constructor; unfold is_word; lia.
  - unfold is_word. cbn. lia.
  - reflexivity.
  - reflexivity.
  - split; [apply no_newline; reflexivity|]. intros [X|X]; discriminate X.
  - split; [apply no_newline; reflexivity|]. intros [X|X]; discriminate X.
  - reflexivity.
  - exists text, img1. repeat split; assumption.
Defined.

(** ** The command line *)

Lemma list_pair_ind {A} (P : list A -> Prop) :
  P [] -> (forall x, P [x]) -> (forall x y l, P l -> P (x :: y :: l)) ->
  forall l, P l.
Proof.
  intros H0 H1 H2.
  assert (B : forall l, P l /\ forall x, P (x :: l)).
  { induction l as [|y l [IH1 IH2]]; split; auto. }
  intros l. apply B.
Qed.

Lemma parse_options_spec (cmd : command) (args : list string) :
  forall f cfg c f' cfg',
    parse_options cmd args f cfg = Parsed c f' cfg' ->
    (c = cmd \/ c = cmd_none) /\
    (Z.of_nat (length cfg) < MAX_CONF_LEN ->
     Z.of_nat (length cfg') < MAX_CONF_LEN) /\
    fn_image f' = fn_image f /\
    (forall v, fn_config f' = Some v ->
               fn_config f = Some v \/ In "-f"%string args /\ In v args) /\
    (forall v, fn_kernel f' = Some v ->
               fn_kernel f = Some v \/ In "-k"%string args /\ In v args) /\
    (forall v, fn_ramdisk f' = Some v ->
               fn_ramdisk f = Some v \/ In "-r"%string args /\ In v args) /\
    (forall v, fn_second f' = Some v ->
               fn_second f = Some v \/ In "-s"%string args /\ In v args) /\
    (forall v, fn_dtbs f' = Some v ->
               fn_dtbs f = Some v \/ In "-d"%string args /\ In v args).
Proof.
  induction args as [|opt|opt v rest IH] using list_pair_ind;
    intros f cfg c f' cfg' H.
  - cbn in H. injection H as <- <- <-. repeat split; auto.
  - cbn in H. injection H as <- <- <-. repeat split; auto.
  - cbn [parse_options] in H.
    assert (Keep : forall g,
               parse_options cmd rest g cfg = Parsed c f' cfg' ->
               fn_image g = fn_image f ->
               (forall x, fn_config g = Some x ->
                          fn_config f = Some x \/
                          opt = "-f"%string /\ x = v) ->
               (forall x, fn_kernel g = Some x ->
                          fn_kernel f = Some x \/
                          opt = "-k"%string /\ x = v) ->
               (forall x, fn_ramdisk g = Some x ->
                          fn_ramdisk f = Some x \/
                          opt = "-r"%string /\ x = v) ->
               (forall x, fn_second g = Some x ->
                          fn_second f = Some x \/
                          opt = "-s"%string /\ x = v) ->
               (forall x, fn_dtbs g = Some x ->
                          fn_dtbs f = Some x \/
                          opt = "-d"%string /\ x = v) ->
               (c = cmd \/ c = cmd_none) /\
               (Z.of_nat (length cfg) < MAX_CONF_LEN ->
                Z.of_nat (length cfg') < MAX_CONF_LEN) /\
               fn_image f' = fn_image f /\
               (forall x, fn_config f' = Some x ->
                  fn_config f = Some x \/
                  In "-f"%string (opt :: v :: rest) /\ In x (opt :: v :: rest)) /\
               (forall x, fn_kernel f' = Some x ->
                  fn_kernel f = Some x \/
                  In "-k"%string (opt :: v :: rest) /\ In x (opt :: v :: rest)) /\
               (forall x, fn_ramdisk f' = Some x ->
                  fn_ramdisk f = Some x \/
                  In "-r"%string (opt :: v :: rest) /\ In x (opt :: v :: rest)) /\
               (forall x, fn_second f' = Some x ->
                  fn_second f = Some x \/
                  In "-s"%string (opt :: v :: rest) /\ In x (opt :: v :: rest)) /\
               (forall x, fn_dtbs f' = Some x ->
                  fn_dtbs f = Some x \/
                  In "-d"%string (opt :: v :: rest) /\ In x (opt :: v :: rest))).
    { intros g Hg Gi Gc Gk Gr Gs Gd.
      destruct (IH _ _ _ _ _ Hg) as (Ic & Ib & Ii & Icf & Ik & Ir & Is & Id).
      split; [exact Ic|]. split; [exact Ib|]. split; [congruence|].
      repeat split; intros x Hx;
        [destruct (Icf x Hx) as [X|[X Y]]; [destruct (Gc x X) as [|[-> ->]]|]
        |destruct (Ik x Hx) as [X|[X Y]]; [destruct (Gk x X) as [|[-> ->]]|]
        |destruct (Ir x Hx) as [X|[X Y]]; [destruct (Gr x X) as [|[-> ->]]|]
        |destruct (Is x Hx) as [X|[X Y]]; [destruct (Gs x X) as [|[-> ->]]|]
        |destruct (Id x Hx) as [X|[X Y]]; [destruct (Gd x X) as [|[-> ->]]|]];
        cbn [In]; auto. }
    destruct (String.eqb_spec opt "-c").
    { destruct (Z.leb_spec MAX_CONF_LEN
                  (Z.of_nat (length cfg) + Z.of_nat (length (str v)) + 1))
        as [X|X]; [discriminate H|].
      destruct (IH _ _ _ _ _ H) as (Ic & Ib & Ii & Icf & Ik & Ir & Is & Id).
      split; [exact Ic|]. split.
      { intros _. apply Ib. rewrite !length_app. cbn [length]. lia. }
      split; [exact Ii|].
      repeat split; intros x Hx;
        [destruct (Icf x Hx) as [X'|[X' Y]]
        |destruct (Ik x Hx) as [X'|[X' Y]]
        |destruct (Ir x Hx) as [X'|[X' Y]]
        |destruct (Is x Hx) as [X'|[X' Y]]
        |destruct (Id x Hx) as [X'|[X' Y]]]; cbn [In]; auto. }
    destruct (String.eqb_spec opt "-f");
      [apply (Keep _ H); cbn; auto; intros x [= <-]; auto|].
    destruct (String.eqb_spec opt "-k");
      [apply (Keep _ H); cbn; auto; intros x [= <-]; auto|].
    destruct (String.eqb_spec opt "-r");
      [apply (Keep _ H); cbn; auto; intros x [= <-]; auto|].
    destruct (String.eqb_spec opt "-s");
      [apply (Keep _ H); cbn; auto; intros x [= <-]; auto|].
    destruct (String.eqb_spec opt "-d");
      [apply (Keep _ H); cbn; auto; intros x [= <-]; auto|].
    destruct (String.eqb_spec opt "-g");
      [apply (Keep _ H); cbn; auto|].
    injection H as <- <- <-. repeat split; auto.
Qed.

Lemma In_skipn_in {A} (x : A) (n : nat) (l : list A) :
  In x (skipn n l) -> In x l.
Proof.
  revert l. induction n as [|n IH]; intros [|y l]; cbn; auto.
Qed.

(** X20: [-x] takes the image and at most four output names. Whenever
    [parse_args] returns [extract], [argc] is between 3 and 7, so the
    assignments of [argv[7]] to the device-tree name and of [argv[8]] to the
    signature name are never reached: the device trees are always extracted
    under the default name "platform", no settings are collected, and a
    command line with a sixth operand, as the usage text allows, is
    refused. *)
Theorem extract_takes_at_most_five_operands (argv : list string)
  (f : fnames) (cfg : list Z)
  (H : parse_args argv = Parsed cmd_extract f cfg) :
  nth 1 argv ""%string = "-x"%string /\
  (3 <= length argv <= 7)%nat /\
  fn_image f = Some (nth 2 argv ""%string) /\
  fn_dtbs f = Some "platform"%string /\
  fn_signature f = Some "signature"%string /\ cfg = [].
Proof.
  unfold parse_args in H. cbv zeta in H.
  assert (O : forall cmd g,
             cmd <> cmd_extract ->
             parse_options cmd (skipn 3 argv) g [] <> Parsed cmd_extract f cfg).
  { intros cmd g N X. apply parse_options_spec in X.
    destruct X as ([X|X] & _); [apply N; congruence | discriminate X]. }
  destruct (Z.of_nat (length argv) <? 2); [discriminate H|].
  destruct (String.eqb_spec (nth 1 argv ""%string) "-h"); [discriminate H|].
  destruct (String.eqb_spec (nth 1 argv ""%string) "-i").
  { destruct (negb _); discriminate H. }
  destruct (String.eqb_spec (nth 1 argv ""%string) "-x") as [X|_].
  - destruct (Z.ltb_spec (Z.of_nat (length argv)) 3); [discriminate H|].
    destruct (Z.ltb_spec 7 (Z.of_nat (length argv))); [discriminate H|].
    cbn [orb] in H.
    destruct (Z.leb_spec 8 (Z.of_nat (length argv))); [lia|].
    destruct (Z.leb_spec 9 (Z.of_nat (length argv))); [lia|].
    injection H as <- <-.
    split; [exact X|]. split; [lia|].
    destruct (4 <=? _), (5 <=? _), (6 <=? _), (7 <=? _); repeat split.
  - destruct (String.eqb_spec (nth 1 argv ""%string) "-u").
    { destruct (_ <? 3); [discriminate H|].
      exfalso. apply (O cmd_update _ ltac:(discriminate) H). }
    destruct (String.eqb_spec (nth 1 argv ""%string) "--create").
    { destruct (_ <? 3); [discriminate H|].
      exfalso. apply (O cmd_create _ ltac:(discriminate) H). }
    destruct (String.eqb_spec (nth 1 argv ""%string) "--dtbs").
    { destruct (negb _); discriminate H. }
    discriminate H.
Qed.

Lemma extract_takes_at_most_five_operands_witness :
  fn_dtbs (mkfnames (Some "boot.img"%string) (Some "bootimg.cfg"%string)
             (Some "zImage"%string) (Some "initrd.gz"%string)
             (Some "stage2.img"%string) (Some "platform"%string)
             (Some "signature"%string))
  = Some "platform"%string.
Proof.
  apply (extract_takes_at_most_five_operands
           ["abootimg"; "-x"; "boot.img"]%string _ []).
  reflexivity.
Defined.

(** X21: in an update or a create run the default names of [new_bootimg]
    are dropped. When [parse_args] returns [update] or [create], the image
    is [argv[2]], and the config file, the kernel, the ramdisk, the second
    stage and the device trees are named only if the option [-f], [-k],
    [-r], [-s] or [-d] stands on the command line, with a name that stands
    there too; and the text collected from the [-c] options is shorter than
    the 4096 bytes of [config_args], so that the buffer holds it with its
    terminating NUL. *)
Theorem update_names_only_what_the_options_give (argv : list string)
  (cmd : command) (f : fnames) (cfg : list Z)
  (H : parse_args argv = Parsed cmd f cfg)
  (U : cmd = cmd_update \/ cmd = cmd_create) :
  fn_image f = Some (nth 2 argv ""%string) /\
  Z.of_nat (length cfg) < MAX_CONF_LEN /\
  (forall v, fn_config f = Some v -> In "-f"%string argv /\ In v argv) /\
  (forall v, fn_kernel f = Some v -> In "-k"%string argv /\ In v argv) /\
  (forall v, fn_ramdisk f = Some v -> In "-r"%string argv /\ In v argv) /\
  (forall v, fn_second f = Some v -> In "-s"%string argv /\ In v argv) /\
  (forall v, fn_dtbs f = Some v -> In "-d"%string argv /\ In v argv).
Proof.
  unfold parse_args in H. cbv zeta in H.
  assert (O : forall c,
             parse_options c (skipn 3 argv)
               (mkfnames (Some (nth 2 argv ""%string)) None None None None
                         None None) [] = Parsed cmd f cfg ->
             fn_image f = Some (nth 2 argv ""%string) /\
             Z.of_nat (length cfg) < MAX_CONF_LEN /\
             (forall v, fn_config f = Some v ->
                        In "-f"%string argv /\ In v argv) /\
             (forall v, fn_kernel f = Some v ->
                        In "-k"%string argv /\ In v argv) /\
             (forall v, fn_ramdisk f = Some v ->
                        In "-r"%string argv /\ In v argv) /\
             (forall v, fn_second f = Some v ->
                        In "-s"%string argv /\ In v argv) /\
             (forall v, fn_dtbs f = Some v ->
                        In "-d"%string argv /\ In v argv)).
  { intros c X. apply parse_options_spec in X.
    destruct X as (_ & B & I & Ecf & Ek & Er & Es & Ed).
    cbn [fn_image fn_config fn_kernel fn_ramdisk fn_second fn_dtbs] in *.
    split; [exact I|]. split; [apply B; reflexivity|].
    split; [intros v Hx; destruct (Ecf v Hx) as [Y|[Y1 Y2]];
            [discriminate Y | split; eapply In_skipn_in; eassumption]|].
    split; [intros v Hx; destruct (Ek v Hx) as [Y|[Y1 Y2]];
            [discriminate Y | split; eapply In_skipn_in; eassumption]|].
    split; [intros v Hx; destruct (Er v Hx) as [Y|[Y1 Y2]];
            [discriminate Y | split; eapply In_skipn_in; eassumption]|].
    split; [intros v Hx; destruct (Es v Hx) as [Y|[Y1 Y2]];
            [discriminate Y | split; eapply In_skipn_in; eassumption]|].
    intros v Hx; destruct (Ed v Hx) as [Y|[Y1 Y2]];
      [discriminate Y | split; eapply In_skipn_in; eassumption]. }
  destruct (Z.of_nat (length argv) <? 2);
    [injection H as <- _ _; destruct U; discriminate|].
  destruct (String.eqb_spec (nth 1 argv ""%string) "-h");
    [injection H as <- _ _; destruct U; discriminate|].
  destruct (String.eqb_spec (nth 1 argv ""%string) "-i").
  { destruct (negb _); injection H as <- _ _; destruct U; discriminate. }
  destruct (String.eqb_spec (nth 1 argv ""%string) "-x").
  { destruct (_ || _); injection H as <- _ _; destruct U; discriminate. }
  destruct (String.eqb_spec (nth 1 argv ""%string) "-u").
  { destruct (_ <? 3); [injection H as <- _ _; destruct U; discriminate|].
    apply (O _ H). }
  destruct (String.eqb_spec (nth 1 argv ""%string) "--create").
  { destruct (_ <? 3); [injection H as <- _ _; destruct U; discriminate|].
    apply (O _ H). }
  destruct (String.eqb_spec (nth 1 argv ""%string) "--dtbs").
  { destruct (negb _); injection H as <- _ _; destruct U; discriminate. }
  injection H as <- _ _; destruct U; discriminate.
Qed.

Lemma update_names_only_what_the_options_give_witness :
  parse_args ["abootimg"; "-u"; "boot.img"; "-k"; "zImage.new"]%string
  = Parsed cmd_update
      (mkfnames (Some "boot.img"%string) None (Some "zImage.new"%string)
         None None None None) [] /\
  fn_image (mkfnames (Some "boot.img"%string) None
              (Some "zImage.new"%string) None None None None)
  = Some "boot.img"%string /\
  Z.of_nat (@length Z []) < MAX_CONF_LEN.
Proof.
  split; [reflexivity|].
  destruct (update_names_only_what_the_options_give
              ["abootimg"; "-u"; "boot.img"; "-k"; "zImage.new"]%string
              cmd_update
              (mkfnames (Some "boot.img"%string) None
                 (Some "zImage.new"%string) None None None None) []
              eq_refl (or_introl eq_refl)) as (A & B & _).
  split; [exact A | exact B].
Defined.

(** ** Extraction of an image without device trees *)

Lemma extract_dtbs_reads (img : t_abootimg) (s s' : FILE)
  (r : buffer * list buffer) :
  extract_dtbs img s = (Ok r, s') -> 0 < dtbs_size (header img).
Proof.
  intros H. unfold extract_dtbs in H.
  destruct (page_size (header img) =? 0); [discriminate H|].
  apply bind_ok in H. destruct H as (u & s1 & _ & H).
  apply bind_ok in H. destruct H as (d & s2 & R & _).
  apply fread_ok in R. lia.
Qed.

Lemma extract_dtbs_of_nothing (img : t_abootimg) (s : FILE) :
  page_size (header img) <> 0 -> dtbs_size (header img) = 0 ->
  fst (extract_dtbs img s) = Abort E_perror.
Proof.
  intros P D. unfold extract_dtbs.
  destruct (Z.eqb_spec (page_size (header img)) 0) as [|_]; [contradiction|].
  rewrite D. reflexivity.
Qed.

(** X22: [-x] does not come to an end on an image without device trees.
    When the header declares a [dtbs_size] of zero, [extract_dtbs] asks
    [fread] for one item of zero bytes, gets zero items and stops in
    [abort_perror]; this happens after the config file, the kernel, the
    ramdisk and the second stage have been extracted, whenever those steps
    succeed. *)
Theorem extraction_stops_without_device_trees (t : target) (a : arguments)
  (file : buffer) (H : dtbs_size (header_of_block file) = 0) :
  is_ok (fst (main_extract t a (mkFILE file 0))) = false /\
  forall img s1 c k s2 r s3 sec s4,
    read_header (is_blk t) (new_bootimg a) (mkFILE file 0) = (Ok img, s1) ->
    write_bootimg_config img = Ok c ->
    extract_kernel img s1 = (Ok k, s2) ->
    extract_ramdisk img s2 = (Ok r, s3) ->
    extract_second img s3 = (Ok sec, s4) ->
    fst (main_extract t a (mkFILE file 0)) = Abort E_perror.
Proof.
  split.
  - destruct (main_extract t a (mkFILE file 0)) as [[x|e] s'] eqn:M;
      [|reflexivity].
    exfalso. unfold main_extract in M.
    apply bind_ok in M. destruct M as (img & s1 & R & M).
    apply bind_ok in M. destruct M as (c & s2 & _ & M).
    apply bind_ok in M. destruct M as (k & s3 & _ & M).
    apply bind_ok in M. destruct M as (r & s4 & _ & M).
    apply bind_ok in M. destruct M as (sec & s5 & _ & M).
    apply bind_ok in M. destruct M as (d & s6 & D & _).
    apply extract_dtbs_reads in D.
    destruct (read_header_accepts _ _ _ _ _ R) as (Eh & _).
    rewrite Eh, H in D. lia.
  - intros img s1 c k s2 r s3 sec s4 R C K Rd Sd.
    destruct (read_header_accepts _ _ _ _ _ R) as (Eh & _ & NR & _).
    assert (P : page_size (header img) <> 0).
    { intros X. apply NR. right. right. right. left. exact X. }
    assert (D : dtbs_size (header img) = 0) by (rewrite Eh; exact H).
    pose proof (extract_dtbs_of_nothing img s4 P D) as X.
    unfold main_extract.
    rewrite (bind_eq _ _ _ _ _ R).
    unfold lift at 1. rewrite C. unfold bind at 1.
    rewrite (bind_eq _ _ _ _ _ K).
    rewrite (bind_eq _ _ _ _ _ Rd).
    rewrite (bind_eq _ _ _ _ _ Sd).
    unfold bind at 1.
    destruct (extract_dtbs img s4) as [[d|e] s5]; cbn [fst] in X;
      [discriminate X|].
    injection X as ->. reflexivity.
Qed.

Lemma extraction_stops_without_device_trees_witness :
  is_ok (fst (main_extract regular_file no_arguments (mkFILE seven_pages 0)))
  = false.
Proof.
  apply (extraction_stops_without_device_trees regular_file no_arguments
           seven_pages).
  vm_compute. reflexivity.
Defined.

(** ** The bytes of a created image *)

Lemma section_written (buf : buffer) (size ps X : Z) (spec : Z -> Z)
  (s : FILE) :
  0 < ps < 2 ^ 32 -> 0 < size <= blen buf -> 0 <= X -> fpos s = X ->
  written_up_to ps X spec s ->
  exists s',
    (fwrite buf size ;;; fwrite (zeros ps) (section_padding ps size)) s
    = (Ok tt, s') /\
    written_up_to ps (X + ceil_div size ps * ps) (place spec X buf size) s'.
Proof.
  intros Hps Hsz HX Hpos (Hlen & Hlow & Hzero).
  rewrite (section_padding_exact ps size Hps).
  pose proof (Z.div_mod size ps ltac:(lia)) as E.
  pose proof (Z.mod_pos_bound size ps ltac:(lia)) as R.
  pose proof (ceil_div_split size ps ltac:(lia) ltac:(lia)) as C.
  assert (Q0 : 0 <= size / ps) by (apply Z.div_pos; lia).
  rewrite (Z.mul_comm ps) in E.
  assert (CE : ceil_div size ps * ps
               = size / ps * ps + (if size mod ps =? 0 then 0 else ps)).
  { rewrite C. destruct (size mod ps =? 0); ring. }
  assert (Q1 : 0 <= size / ps * ps) by nia.
  set (c := ceil_div size ps * ps) in *.
  set (q := size / ps * ps) in *.
  set (rmd := size mod ps) in *.
  clearbody c q rmd. clear C Q0.
  unfold bind, fwrite. cbn [blen zeros].
  destruct (Z.eqb_spec size 0) as [|_]; [lia|].
  destruct (Z.ltb_spec (blen buf) size) as [|_]; [lia|].
  destruct (Z.eqb_spec (ps - rmd) 0) as [|_]; [lia|].
  destruct (Z.ltb_spec ps (ps - rmd)) as [|_]; [lia|].
  eexists. split; [reflexivity|].
  unfold written_up_to, place. cbn [content fpos blen bget write_at zeros].
  rewrite Hpos.
  destruct (Z.eqb_spec rmd 0) as [Al|Al].
  - split; [lia|]. split.
    + intros i Hi. cases; try lia. apply Hlow. lia.
    + intros i Hi. cases; try lia.
  - split; [lia|]. split.
    + intros i Hi. cases; try lia. apply Hlow. lia.
    + intros i Hi. cases; try lia.
Qed.

Lemma written_up_to_seek (ps X : Z) (spec : Z -> Z) (s : FILE) (off : Z) :
  written_up_to ps X spec s ->
  written_up_to ps X spec (mkFILE (content s) off).
Proof. intros H. exact H. Qed.

Lemma header_written (img : t_abootimg) :
  let h := header img in
  let ps := page_size h in
  sizeof_boot_img_hdr <= ps < 2 ^ 32 ->
  exists s',
    write_header (zeros ps) img (mkFILE (zeros 0) 0) = (Ok tt, s') /\
    fpos s' = ps /\
    written_up_to ps ps
      (place (fun _ => 0) 0 (header_block h) sizeof_boot_img_hdr) s'.
Proof.
  intros h ps Hps. unfold write_header. fold h ps.
  rewrite (header_padding_exact ps Hps).
  unfold sizeof_boot_img_hdr in *.
  unfold bind, fseek, fwrite.
  cbn [content fpos blen header_block zeros sizeof_boot_img_hdr Z.eqb Z.ltb
       Z.compare Pos.compare Pos.compare_cont].
  destruct (Z.eqb_spec (ps - 608) 0) as [P|P].
  - eexists. split; [reflexivity|]. cbn [fpos]. split; [lia|].
    unfold written_up_to, place.
    cbn [content fpos blen bget write_at zeros header_block].
    split; [lia|]. split.
    + intros i Hi. cases; try lia; f_equal; lia.
    + intros i Hi. lia.
  - destruct (Z.ltb_spec ps (ps - 608)) as [|_]; [lia|].
    eexists. split; [reflexivity|]. cbn [fpos]. split; [lia|].
    unfold written_up_to, place.
    cbn [content fpos blen bget write_at zeros header_block].
    split; [lia|]. split.
    + intros i Hi. cases; try lia; f_equal; lia.
    + intros i Hi. lia.
Qed.

Lemma signature_written (sig : buffer) (ps X : Z) (spec : Z -> Z) (s : FILE) :
  255 < ps < 2 ^ 32 -> 255 <= blen sig -> 0 <= X ->
  written_up_to ps X spec s ->
  exists s',
    (fseek X ;;; fwrite sig 255 ;;;
     fwrite (zeros ps) (usize (ps - 255 mod ps))) s = (Ok tt, s') /\
    blen (content s') = X + ps /\
    forall i, 0 <= i < X + ps ->
              bget (content s') i = place spec X sig 255 i.
Proof.
  intros Hps Hsig HX (Hlen & Hlow & Hzero).
  rewrite (Z.mod_small 255 ps) by lia.
  assert (U : usize (ps - 255) = ps - 255).
  { unfold usize. apply Z.mod_small.
    change (2 ^ 32) with 4294967296 in Hps.
    change (2 ^ 64) with 18446744073709551616. lia. }
  rewrite U. unfold bind, fseek, fwrite.
  cbn [content fpos blen zeros Z.eqb].
  destruct (Z.ltb_spec (blen sig) 255) as [|_]; [lia|].
  destruct (Z.eqb_spec (ps - 255) 0) as [|_]; [lia|].
  destruct (Z.ltb_spec ps (ps - 255)) as [|_]; [lia|].
  eexists. split; [reflexivity|].
  unfold place. cbn [content fpos blen bget write_at zeros].
  split; [lia|].
  intros i Hi. cases; try lia;
    first [apply Hlow; lia | apply Hzero; lia].
Qed.

Lemma section_written_seek (buf : buffer) (size ps X : Z) (spec : Z -> Z)
  (s : FILE) :
  0 < ps < 2 ^ 32 -> 0 < size <= blen buf -> 0 <= X ->
  written_up_to ps X spec s ->
  exists s',
    (fseek X ;;; fwrite buf size ;;;
     fwrite (zeros ps) (section_padding ps size)) s = (Ok tt, s') /\
    written_up_to ps (X + ceil_div size ps * ps) (place spec X buf size) s'.
Proof.
  intros Hps Hsz HX I.
  destruct (section_written buf size ps X spec (mkFILE (content s) X)
              Hps Hsz HX eq_refl I) as (s' & W & I').
  exists s'. split; [|exact I'].
  unfold bind at 1. unfold fseek. exact W.
Qed.

Lemma written_up_to_nothing (ps X : Z) (spec : Z -> Z) (buf : buffer)
  (s : FILE) :
  written_up_to ps X spec s -> written_up_to ps X (place spec X buf 0) s.
Proof.
  intros (L & Low & Zero). split; [exact L|]. split; [|exact Zero].
  intros i Hi. unfold place. destruct (Z.ltb_spec i X); [|lia].
  apply Low. exact Hi.
Qed.

(** X23: the file that [write_bootimg] makes from nothing is the image that
    the layout describes. For a header without device trees whose sizes do
    not overflow, a page that holds the header, and kernel, ramdisk and
    second-stage buffers of the declared sizes, [write_bootimg] on an empty
    stream completes, the file is exactly [total_size] bytes long, and its
    bytes are the header, the kernel, the ramdisk, the second stage and the
    255 bytes of the signature, each at the start of its pages, with zeros
    in every byte between them: the extra page of padding written after a
    section whose size is a multiple of the page size is covered by what
    is written next. *)
Theorem created_image_is_the_layout (img : t_abootimg) (k r sb : buffer)
  (F : header_fits32 (header img))
  (Ps : sizeof_boot_img_hdr <= page_size (header img))
  (K : kernel img = Some k) (Lk : blen k = kernel_size (header img))
  (Nk : kernel_size (header img) <> 0)
  (R : ramdisk img = Some r) (Lr : blen r = ramdisk_size (header img))
  (Nr : ramdisk_size (header img) <> 0)
  (S2 : second_size (header img) = 0 \/
        second img = Some sb /\ blen sb = second_size (header img))
  (D : dtbs_size (header img) = 0) (Dh : dtbh img = None)
  (Sg : blen (signature img) = 255) :
  exists s',
    write_bootimg img (mkFILE (zeros 0) 0) = (Ok tt, s') /\
    blen (content s') = total_size (header img) /\
    forall i, 0 <= i < total_size (header img) ->
      bget (content s') i
      = image_bytes (header img) k r sb (signature img) i.
Proof.
  pose proof (fits32_facts _ _ _ _ _ F) as FF. cbv zeta in FF.
  destruct FF as (Bps & N0 & M0 & O0 & P0 & Kn & Rm & So & Dp & Tot).
  destruct (fits32_pages _ _ _ _ _ F) as (Pn & Pm & Po & Pp).
  pose proof F as (Hp & Hk & Hr & Hs & Hd & _).
  assert (ET : total_size (header img)
               = (1 + ceil_div (kernel_size (header img)) (page_size (header img))
                  + ceil_div (ramdisk_size (header img)) (page_size (header img))
                  + ceil_div (second_size (header img)) (page_size (header img)))
                 * page_size (header img) + page_size (header img)).
  { rewrite total_size_layout. unfold layout_of.
    rewrite (fits32_layout _ _ _ _ _ F). cbn [layout_size].
    rewrite D, (ceil_div_zero _ Hp). ring. }
  rewrite ET. unfold image_bytes, write_bootimg. cbv zeta.
  rewrite Pn, Pm, Po, Pp. rewrite D, (ceil_div_zero _ Hp) in *.
  set (h := header img) in *. set (ps := page_size h) in *.
  set (n := ceil_div (kernel_size h) ps) in *.
  set (m := ceil_div (ramdisk_size h) ps) in *.
  set (o := ceil_div (second_size h) ps) in *.
  destruct (Z.eqb_spec ps 0) as [|_]; [lia|].
  assert (Wps : sizeof_boot_img_hdr <= ps < 2 ^ 32) by lia.
  assert (Sps : 0 < ps < 2 ^ 32) by lia.
  change (2 ^ 32) with 4294967296 in Tot.
  (* header *)
  destruct (header_written img Wps) as (s1 & W1 & P1 & I1).
  fold h ps in W1, P1, I1. rewrite (bind_eq _ _ _ _ _ W1).
  set (spec0 := place (fun _ => 0) 0 (header_block h) sizeof_boot_img_hdr) in *.
  (* kernel *)
  unfold write_kernel. rewrite K. fold h ps.
  destruct (section_written k (kernel_size h) ps ps spec0 s1 Sps
              ltac:(lia) ltac:(lia) P1 I1) as (s2 & W2 & I2).
  rewrite (bind_eq _ _ _ _ _ W2). fold n in I2.
  replace (ps + n * ps) with ((1 + n) * ps) in I2 by ring.
  set (spec1 := place spec0 ps k (kernel_size h)) in *.
  (* ramdisk *)
  unfold write_ramdisk. rewrite R. fold h ps.
  rewrite (u32_small ((1 + n) * ps))
    by (change (2 ^ 32) with 4294967296; nia).
  destruct (section_written_seek r (ramdisk_size h) ps ((1 + n) * ps) spec1 s2
              Sps ltac:(lia) ltac:(nia) I2) as (s3 & W3 & I3).
  rewrite (bind_eq _ _ _ _ _ W3). fold m in I3.
  replace ((1 + n) * ps + m * ps) with ((1 + n + m) * ps) in I3 by ring.
  set (spec2 := place spec1 ((1 + n) * ps) r (ramdisk_size h)) in *.
  (* second stage *)
  assert (Sec : exists s4,
             write_second (zeros ps) n m img s3 = (Ok tt, s4) /\
             written_up_to ps ((1 + n + m + o) * ps)
               (place spec2 ((1 + n + m) * ps) sb (second_size h)) s4).
  { unfold write_second. fold h ps.
    destruct (Z.eqb_spec (second_size h) 0) as [Z0|NZ]; cbn [negb].
    - exists s3. split; [reflexivity|].
      assert (O' : o = 0) by (unfold o; rewrite Z0; apply ceil_div_zero; lia).
      rewrite O', Z0. replace (1 + n + m + 0) with (1 + n + m) by lia.
      apply written_up_to_nothing. exact I3.
    - destruct S2 as [Z0|[Sb Lb]]; [contradiction|]. rewrite Sb.
      rewrite (u32_small ((1 + n + m) * ps))
        by (change (2 ^ 32) with 4294967296; nia).
      destruct (section_written_seek sb (second_size h) ps ((1 + n + m) * ps)
                  spec2 s3 Sps ltac:(lia) ltac:(nia) I3) as (s4 & W4 & I4).
      exists s4. split; [exact W4|]. fold o in I4.
      replace ((1 + n + m) * ps + o * ps) with ((1 + n + m + o) * ps) in I4
        by ring.
      exact I4. }
  destruct Sec as (s4 & W4 & I4). rewrite (bind_eq _ _ _ _ _ W4).
  set (spec3 := place spec2 ((1 + n + m) * ps) sb (second_size h)) in *.
  (* device trees *)
  unfold write_dtbs. rewrite Dh. unfold bind at 1. unfold ret at 1.
  (* signature *)
  unfold write_signature. fold h ps.
  replace (1 + n + m + o + 0) with (1 + n + m + o) by lia.
  rewrite (u32_small ((1 + n + m + o) * ps))
    by (change (2 ^ 32) with 4294967296; nia).
  unfold sizeof_boot_img_hdr in Wps.
  destruct (signature_written (signature img) ps ((1 + n + m + o) * ps) spec3
              s4 ltac:(lia) ltac:(lia) ltac:(nia) I4) as (s5 & W5 & L5 & B5).
  exists s5. split; [exact W5|]. split; [exact L5|]. exact B5.
Qed.

Lemma created_image_is_the_layout_witness :
  exists s',
    write_bootimg two_sections_image (mkFILE (zeros 0) 0) = (Ok tt, s') /\
    blen (content s') = total_size (header two_sections_image).
Proof.
  destruct (created_image_is_the_layout two_sections_image
              (mkbuf 3 (fun _ => 1)) (mkbuf 2 (fun _ => 2)) (zeros 0))
    as (s' & W & L & _); try reflexivity; try discriminate.
  - unfold header_fits32, fits32. vm_compute.
    repeat split; (reflexivity || discriminate).
  - left. reflexivity.
  - exists s'. split; assumption.
Defined.

(** ** The device trees in the written image *)

Lemma fwrite_pos (b : buffer) (n : Z) (s s' : FILE) :
  fwrite b n s = (Ok tt, s') -> fpos s' = fpos s + n.
Proof.
  unfold fwrite. destruct (Z.eqb_spec n 0) as [->|_].
  - intros H. injection H as <-. lia.
  - destruct (blen b <? n); [discriminate|].
    intros H. injection H as <-. reflexivity.
Qed.

Lemma dtb_position_step (ps : Z) (d : buffer) (k : nat) :
  0 < ps ->
  dtb_position ps d k + dt_dtb_size d (Z.of_nat k) <= dtb_position ps d (S k).
Proof.
  intros Hps. cbn [dtb_position].
  pose proof (dt_dtb_size_nonneg d (Z.of_nat k)) as N.
  pose proof (ceil_div_bounds _ ps Hps N). lia.
Qed.

Lemma dtb_position_mono (ps : Z) (d : buffer) (j k : nat) :
  0 < ps -> (j <= k)%nat -> dtb_position ps d j <= dtb_position ps d k.
Proof.
  intros Hps L. induction L as [|k L IH]; [lia|].
  pose proof (dtb_position_step ps d k Hps) as St.
  pose proof (dt_dtb_size_nonneg d (Z.of_nat k)). lia.
Qed.

(** A sub-blob and its padding take whole pages. *)
Lemma dtb_rounded (ps sz : Z) :
  0 < ps < 2 ^ 32 -> 0 <= sz ->
  sz + (if 0 <? sz mod ps then u32 (ps - sz mod ps) else 0)
  = ceil_div sz ps * ps.
Proof.
  intros Hps Hsz. pose proof (Z.mod_pos_bound sz ps ltac:(lia)) as Hm.
  destruct (Z.ltb_spec 0 (sz mod ps)) as [L|L].
  - rewrite u32_small by lia.
    unfold ceil_div.
    replace (sz + ps - 1) with ((sz mod ps - 1) + (sz / ps + 1) * ps)
      by (pose proof (Z.div_mod sz ps ltac:(lia)); lia).
    rewrite Z.div_add by lia. rewrite Z.div_small by lia.
    pose proof (Z.div_mod sz ps ltac:(lia)). lia.
  - rewrite ceil_div_aligned by lia. lia.
Qed.

(** The loop writes the sub-blobs one after the other, each at the start of
    a page, and what follows the loop leaves them in place when it stays
    above the end of the last one. *)
Lemma write_dtbs_loop_places (ps : Z) (d : buffer) (tbl : list dtb_ptr)
  (rest : M unit) (B : Z) (Hps : 0 < ps < 2 ^ 32)
  (A : forall X, X <= B -> above X rest) :
  forall (len k0 : nat) (s s' : FILE),
    0 <= fpos s ->
    fpos s + (dtb_position ps d (k0 + len) - dtb_position ps d k0) <= B ->
    (write_dtbs_loop ps (zeros ps) d tbl (seq k0 len) ;;; rest) s
    = (Ok tt, s') ->
    forall k, (k0 <= k < k0 + len)%nat ->
      exists ptr,
        nth_error tbl k = Some ptr /\
        (0 < dt_dtb_size d (Z.of_nat k) ->
         dt_dtb_size d (Z.of_nat k) <= blen (deref d ptr)) /\
        forall j, 0 <= j < dt_dtb_size d (Z.of_nat k) ->
          bget (content s')
               (fpos s + (dtb_position ps d k - dtb_position ps d k0) + j)
          = bget (deref d ptr) j.
Proof.
  induction len as [|len IH]; intros k0 s s' P0 Fit H k Hk; [lia|].
  cbn [seq write_dtbs_loop] in H.
  destruct (blen d <? entry_at (Z.of_nat k0 + 1)); [discriminate H|].
  destruct (nth_error tbl k0) as [ptr|] eqn:Ep; [|discriminate H].
  set (sz := dt_dtb_size d (Z.of_nat k0)) in *.
  pose proof (dt_dtb_size_nonneg d (Z.of_nat k0)) as Nsz. fold sz in Nsz.
  pose proof (dtb_position_step ps d k0 ltac:(lia)) as St. fold sz in St.
  pose proof (dtb_position_mono ps d (S k0) (k0 + S len) ltac:(lia)
                ltac:(lia)) as Mo.
  rewrite bind_assoc in H.
  destruct (Nat.eq_dec k k0) as [->|Nk].
  - exists ptr. split; [exact Ep|]. fold sz.
    destruct (Z.ltb_spec 0 sz) as [Psz|Zsz];
      [|split; [intros Psz | intros j Hj]; lia].
    apply written_block_stays in H; [| exact Psz | exact P0 |].
    + destruct H as (Lb & _ & G). split; [intros _; exact Lb|].
      intros j Hj.
      replace (fpos s + (dtb_position ps d k0 - dtb_position ps d k0) + j)
        with (fpos s + j) by lia.
      apply G. exact Hj.
    + apply above_bind.
      * apply above_bind; [|intros _; apply above_write_dtbs_loop].
        destruct (0 <? sz mod ps); [|apply above_ret].
        apply above_fwrite, u32_range.
      * intros _. apply A. lia.
  - apply bind_ok in H. destruct H as ([] & s1 & W & H).
    apply fwrite_pos in W. rewrite bind_assoc in H.
    apply bind_ok in H. destruct H as ([] & s2 & Pd & H).
    assert (P2 : fpos s2 = fpos s + ceil_div sz ps * ps).
    { rewrite <- (dtb_rounded ps sz Hps Nsz).
      destruct (0 <? sz mod ps).
      - apply fwrite_pos in Pd. lia.
      - unfold ret in Pd. injection Pd as <-. lia. }
    pose proof (ceil_div_bounds sz ps ltac:(lia) Nsz) as Cb.
    assert (E1 : dtb_position ps d (S k0)
                 = dtb_position ps d k0 + ceil_div sz ps * ps)
      by reflexivity.
    destruct (IH (S k0) s2 s') with (k := k) as (ptr' & Ep' & Lb & G).
    + lia.
    + replace (S k0 + len)%nat with (k0 + S len)%nat by lia. lia.
    + exact H.
    + lia.
    + exists ptr'. split; [exact Ep'|]. split; [exact Lb|]. intros j Hj.
      rewrite <- (G j Hj). f_equal. lia.
Qed.

(** The table page at the start of the region, then the sub-blobs. *)
Lemma write_dtbs_places (img : t_abootimg) (d : buffer) (n m o : Z)
  (rest : M unit) (B : Z) (s s' : FILE) :
  let ps := page_size (header img) in
  let off := (1 + n + m + o) * ps in
  0 < ps < 2 ^ 32 -> 0 <= off < 2 ^ 32 -> dtbh img = Some d ->
  (forall X, X <= B -> above X rest) ->
  off + dtb_position ps d (Z.to_nat (num_entries d)) <= B ->
  (write_dtbs (zeros ps) n m o img ;;; rest) s = (Ok tt, s') ->
  ps <= blen d /\
  (forall j, 0 <= j < ps -> bget (content s') (off + j) = bget d j) /\
  forall k, (k < Z.to_nat (num_entries d))%nat ->
    exists ptr,
      nth_error (dtbs img) k = Some ptr /\
      (0 < dt_dtb_size d (Z.of_nat k) ->
       dt_dtb_size d (Z.of_nat k) <= blen (deref d ptr)) /\
      forall j, 0 <= j < dt_dtb_size d (Z.of_nat k) ->
        bget (content s') (off + dtb_position ps d k + j)
        = bget (deref d ptr) j.
Proof.
  intros ps off Hps Hoff Dh A Fit H.
  unfold write_dtbs in H. rewrite Dh in H. fold ps off in H.
  rewrite u32_small in H by exact Hoff.
  pose proof (dtb_position_mono ps d 0 (Z.to_nat (num_entries d))
                ltac:(lia) ltac:(lia)) as Mo.
  cbn [dtb_position] in Mo.
  rewrite bind_assoc in H.
  apply bind_ok in H. destruct H as ([] & s1 & Sk & H).
  apply fseek_ok in Sk. subst s1. rewrite bind_assoc in H.
  pose proof H as H1.
  apply written_block_stays in H1; [| lia | cbn [fpos]; lia |].
  2:{ cbn [fpos]. apply above_bind; [|intros _; apply A; lia].
      destruct (blen d <? sizeof_dtbs_t); [apply above_abort|].
      apply above_write_dtbs_loop. }
  cbn [fpos] in H1. destruct H1 as (Ld & _ & G).
  split; [exact Ld|]. split; [exact G|].
  apply bind_ok in H. destruct H as ([] & s2 & W & H).
  apply fwrite_pos in W. cbn [fpos] in W.
  destruct (blen d <? sizeof_dtbs_t); [discriminate H|].
  intros k Hk.
  destruct (write_dtbs_loop_places ps d (dtbs img) rest B Hps A
              (Z.to_nat (num_entries d)) 0%nat s2 s') with (k := k)
    as (ptr & Ep & Lb & Gk).
  - lia.
  - cbn [dtb_position Nat.add]. lia.
  - exact H.
  - lia.
  - exists ptr. split; [exact Ep|]. split; [exact Lb|]. intros j Hj.
    rewrite <- (Gk j Hj). f_equal. cbn [dtb_position]. lia.
Qed.

Lemma dtb_position_aligned (ps : Z) (d : buffer) (k : nat) :
  0 < ps -> dtb_position ps d k mod ps = 0.
Proof.
  intros Hps. induction k as [|k IH]; cbn [dtb_position].
  - apply Z.mod_same. lia.
  - rewrite Z.mod_add by lia. exact IH.
Qed.

Section WriterDtbs.
Variable img : t_abootimg.
Hypothesis F : header_fits32 (header img).

Let h := header img.
Let ps := page_size h.
Let n := ceil_div (kernel_size h) ps.
Let m := ceil_div (ramdisk_size h) ps.
Let o := ceil_div (second_size h) ps.
Let p := ceil_div (dtbs_size h) ps.

Lemma write_bootimg_dtbs (d : buffer) (s s' : FILE) :
  dtbh img = Some d ->
  dtb_position ps d (Z.to_nat (num_entries d)) <= p * ps ->
  write_bootimg img s = (Ok tt, s') ->
  ps <= blen d /\
  (forall j, 0 <= j < ps ->
             bget (content s') ((1 + n + m + o) * ps + j) = bget d j) /\
  forall k, (k < Z.to_nat (num_entries d))%nat ->
    exists ptr,
      nth_error (dtbs img) k = Some ptr /\
      (0 < dt_dtb_size d (Z.of_nat k) ->
       dt_dtb_size d (Z.of_nat k) <= blen (deref d ptr)) /\
      forall j, 0 <= j < dt_dtb_size d (Z.of_nat k) ->
        bget (content s') ((1 + n + m + o) * ps + dtb_position ps d k + j)
        = bget (deref d ptr) j.
Proof.
  intros Dh Fit H.
  destruct (write_bootimg_tail img F s s' H) as (s3 & _ & H3 & _).
  rewrite (write_after_ramdisk_unfold img F) in H3.
  apply bind_ok in H3. destruct H3 as ([] & s4 & _ & H4).
  unfold write_after_second in H4.
  pose proof (writer_pages img F) as WP. cbv zeta in WP.
  destruct WP as (En & Em & Eo & Ep). rewrite En, Em, Eo, Ep in H4.
  fold h ps n m o p in H4.
  pose proof (writer_facts img F) as WF. cbv zeta in WF.
  destruct WF
    as (Hp & Nn & Nm & No & Np & Kn & Rm & So & Dp & T & K0 & R0 & S0).
  fold h ps n m o p in Hp, Nn, Nm, No, Np, Kn, Rm, So, Dp, T.
  change (2 ^ 32) with 4294967296 in *.
  apply (write_dtbs_places img d n m o
           (write_signature (zeros ps) n m o p img)
           ((1 + n + m + o + p) * ps) s4 s').
  - exact Hp.
  - fold h ps. change (2 ^ 32) with 4294967296. nia.
  - exact Dh.
  - intros X L. apply above_write_signature. fold h ps.
    rewrite u32_small by (change (2 ^ 32) with 4294967296; nia). exact L.
  - fold h ps. lia.
  - exact H4.
Qed.
End WriterDtbs.

(** X24: where [write_bootimg] puts the device trees. For sizes that do not
    overflow, when the pages counted by [dtbs_size] hold the table page and
    the sub-blobs, each padded to whole pages, the first page of [img->dtbh]
    stands at the device-tree offset of the layout, and sub-blob [k] stands
    at the start of the page that follows sub-blob [k - 1] and its padding:
    the writer places the sub-blobs by their sizes, one after the other,
    without looking at the offset fields of the table, and the signature
    page that is written afterwards does not reach them. *)
Theorem device_trees_follow_the_table_page (img : t_abootimg) (d : buffer)
  (s s' : FILE) (F : header_fits32 (header img)) (Dh : dtbh img = Some d)
  (Fit : dtb_position (page_size (header img)) d (Z.to_nat (num_entries d))
         <= ceil_div (dtbs_size (header img)) (page_size (header img))
            * page_size (header img))
  (W : write_bootimg img s = (Ok tt, s')) :
  let ps := page_size (header img) in
  let doff := dtbs_offset (layout_of (header img)) in
  (forall j, 0 <= j < ps -> bget (content s') (doff + j) = bget d j) /\
  (forall k, (k < Z.to_nat (num_entries d))%nat ->
     exists ptr,
       nth_error (dtbs img) k = Some ptr /\
       dtb_position ps d k mod ps = 0 /\
       forall j, 0 <= j < dt_dtb_size d (Z.of_nat k) ->
         bget (content s') (doff + dtb_position ps d k + j)
         = bget (deref d ptr) j) /\
  doff + dtb_position ps d (Z.to_nat (num_entries d))
  <= signature_offset (layout_of (header img)).
Proof.
  intros ps doff.
  destruct (write_bootimg_dtbs img F d s s' Dh Fit W) as (_ & Tp & Bl).
  pose proof F as (Hp & _).
  unfold doff, layout_of. rewrite (fits32_layout _ _ _ _ _ F).
  cbn [dtbs_offset signature_offset]. fold ps.
  split; [exact Tp|]. split.
  - intros k Hk. destruct (Bl k Hk) as (ptr & Ep & _ & G).
    exists ptr. split; [exact Ep|]. split; [|exact G].
    apply dtb_position_aligned. exact Hp.
  - fold ps in Fit. lia.
Qed.

Lemma device_trees_follow_the_table_page_witness :
  exists s',
    write_bootimg two_trees_image (mkFILE (zeros 0) 0) = (Ok tt, s') /\
    bget (content s') 8292 = 7 /\
    bget (content s') 12388 = 8.
Proof.
  destruct (write_bootimg two_trees_image (mkFILE (zeros 0) 0))
    as [[[]|e] s'] eqn:E.
  - exists s'. split; [reflexivity|].
    destruct (device_trees_follow_the_table_page two_trees_image
                two_trees_table (mkFILE (zeros 0) 0) s')
      as (_ & Bl & _).
    + vm_compute. repeat split; discriminate.
    + reflexivity.
    + vm_compute. discriminate.
    + exact E.
    + split.
      * destruct (Bl 0%nat ltac:(vm_compute; lia)) as (ptr & Ep & _ & G).
        injection Ep as <-.
        exact (G 100 ltac:(vm_compute; split; [discriminate | reflexivity])).
      * destruct (Bl 1%nat ltac:(vm_compute; lia)) as (ptr & Ep & _ & G).
        injection Ep as <-.
        exact (G 100 ltac:(vm_compute; split; [discriminate | reflexivity])).
  - apply (f_equal (fun r => is_ok (fst r))) in E. vm_compute in E.
    discriminate E.
Defined.

(** ** Device trees that were replaced, in the written image *)

Lemma replace_dtbs_spec (fs : filesystem) (fname : string)
  (img : t_abootimg) (table : buffer) (blobs : list buffer) :
  let ps := page_size (header img) in
  0 < ps < 2 ^ 32 ->
  dtbs_names_fit fname (length blobs) ->
  dtbs_files fs fname table blobs ->
  0 < blen table <= ps ->
  num_entries (dtbh_block ps table) = Z.of_nat (length blobs) ->
  entry_at (Z.of_nat (length blobs)) <= ps ->
  Forall (fun b => 0 < blen b) blobs ->
  (1 + sum_pages ps blobs) * ps < 2 ^ 32 ->
  exists d',
    replace_dtbs fs fname ps img
    = Ok (with_header
            (with_dtbs_size ((1 + sum_pages ps blobs) * ps) (header img))
            (with_dtbh (Some d') (map Owned blobs) img)) /\
    blen d' = ps /\ num_entries d' = Z.of_nat (length blobs) /\
    forall i, (i < length blobs)%nat ->
      dt_offset d' (Z.of_nat i) = (1 + sum_pages ps (firstn i blobs)) * ps /\
      dt_dtb_size d' (Z.of_nat i) = blen (nth i blobs (zeros 0)).
Proof.
  intros ps Hps [Nt Nb] [Ft Fb] Ht Hn Hb Hpos Hfit.
  assert (Hd : u32 (blen table) = blen table) by (apply u32_small; lia).
  pose proof (sum_pages_nonneg ps blobs ltac:(lia) Hpos) as Nn.
  destruct (replace_dtbs_loop_spec fs fname ps blobs Hps Fb Hpos Hfit Nb
              blobs [] (dtbh_block ps table) eq_refl eq_refl Hn Hb)
    as (d' & Loop & Ld & Nd & Ed).
  { intros j Hj. inversion Hj. }
  cbn [length Z.of_nat map sum_pages fold_right] in Loop.
  rewrite Z.add_0_r in Loop.
  exists d'. split; [|split; [exact Ld | split; [exact Nd | exact Ed]]].
  unfold replace_dtbs. rewrite Nt. cbn [negb]. rewrite Ft, Hd.
  destruct (Z.ltb_spec 0 (blen table)) as [_|X]; [|lia].
  destruct (Z.leb_spec (blen table) (blen table)) as [_|X]; [|lia].
  cbn [andb negb].
  destruct (Z.ltb_spec ps (blen table)) as [X|_]; [lia|].
  cbn [blen dtbh_block].
  destruct (Z.ltb_spec ps sizeof_dtbs_t) as [X|_];
    [unfold entry_at, sizeof_dtbs_t, sizeof_dt_entry_t in *; lia|].
  rewrite Hn, Nat2Z.id, Loop. rewrite u32_small by nia. reflexivity.
Qed.

Lemma sum_pages_firstn_S (ps : Z) (blobs : list buffer) :
  forall k, (k < length blobs)%nat ->
    sum_pages ps (firstn (S k) blobs)
    = sum_pages ps (firstn k blobs)
      + ceil_div (blen (nth k blobs (zeros 0))) ps.
Proof.
  induction blobs as [|b l IH]; intros k Hk; cbn [length] in Hk; [lia|].
  destruct k as [|k].
  - cbn [firstn nth]. unfold sum_pages. cbn [fold_right]. lia.
  - change (firstn (S (S k)) (b :: l)) with (b :: firstn (S k) l).
    change (firstn (S k) (b :: l)) with (b :: firstn k l).
    cbn [nth]. unfold sum_pages in *. cbn [fold_right].
    rewrite (IH k) by lia. lia.
Qed.

(** With the sizes of the sub-blobs in the table, the places at which the
    writer puts them are the offsets that [update_images] computes. *)
Lemma dtb_position_replaced (ps : Z) (d : buffer) (blobs : list buffer) :
  (forall i, (i < length blobs)%nat ->
     dt_dtb_size d (Z.of_nat i) = blen (nth i blobs (zeros 0))) ->
  forall k, (k <= length blobs)%nat ->
    dtb_position ps d k = (1 + sum_pages ps (firstn k blobs)) * ps.
Proof.
  intros Sz. induction k as [|k IH]; intros Hk.
  - cbn [dtb_position firstn]. unfold sum_pages. cbn [fold_right]. lia.
  - cbn [dtb_position]. rewrite IH by lia. rewrite Sz by lia.
    rewrite sum_pages_firstn_S by lia. ring.
Qed.

(** A replacement that completes has formatted every file name inside
    [dtbname]. *)
Lemma replace_dtbs_loop_names (fs : filesystem) (fname : string) (ps : Z)
  (fuel : nat) :
  forall ientry p d tbl r,
    0 <= ientry ->
    replace_dtbs_loop fs fname ps fuel ientry p d tbl = Ok r ->
    forall k, ientry <= k < num_entries d ->
              fits_dtbname (dtb_name fname k) = true.
Proof.
  induction fuel as [|fuel IH]; intros ientry p d tbl r H0 H k Hk;
    cbn [replace_dtbs_loop] in H.
  - destruct (Z.ltb_spec ientry (num_entries d)); [discriminate H|lia].
  - destruct (Z.ltb_spec ientry (num_entries d)); [|lia].
    destruct (fits_dtbname (dtb_name fname ientry)) eqn:Fn;
      [|discriminate H].
    cbn [negb] in H.
    destruct (blen d <? entry_at (ientry + 1)); [discriminate H|].
    destruct (fs (dtb_name fname ientry)) as [f|]; [|discriminate H].
    destruct (blen f <=? 0); [discriminate H|].
    destruct (Z.eq_dec k ientry) as [->|Nk]; [exact Fn|].
    apply (IH (ientry + 1) _ _ _ r ltac:(lia) H).
    unfold num_entries.
    rewrite !get_set_u32_other
      by (unfold entry_at, offsetof_num_entries, offsetof_dtb_size,
          offsetof_offset, sizeof_dtbs_t, sizeof_dt_entry_t; lia).
    fold (num_entries d). lia.
Qed.

Lemma replace_dtbs_names (fs : filesystem) (fname : string) (ps : Z)
  (img img' : t_abootimg) (table : buffer) (n : nat) :
  fs (dtbh_name fname) = Some table ->
  num_entries (dtbh_block ps table) = Z.of_nat n ->
  replace_dtbs fs fname ps img = Ok img' ->
  dtbs_names_fit fname n.
Proof.
  intros Ft Hn H. unfold replace_dtbs in H.
  destruct (fits_dtbname (dtbh_name fname)) eqn:Fn; [|discriminate H].
  cbn [negb] in H. rewrite Ft in H.
  destruct (negb _); [discriminate H|].
  destruct (ps <? _); [discriminate H|].
  destruct (blen _ <? _); [discriminate H|].
  destruct (replace_dtbs_loop _ _ _ _ _ _ _ _) as [r|x] eqn:L;
    [|discriminate H].
  split; [exact Fn|]. intros k Hk.
  apply (replace_dtbs_loop_names fs fname ps _ 0 _ _ _ r (Z.le_refl 0) L).
  lia.
Qed.

Lemma replaced_trees_written (fs : filesystem) (fname : string)
  (img0 img : t_abootimg) (table : buffer) (blobs : list buffer)
  (s s' : FILE) :
  let ps := page_size (header img0) in
  0 < ps < 2 ^ 32 ->
  dtbs_files fs fname table blobs ->
  0 < blen table <= ps ->
  num_entries (dtbh_block ps table) = Z.of_nat (length blobs) ->
  entry_at (Z.of_nat (length blobs)) <= ps ->
  Forall (fun b => 0 < blen b) blobs ->
  (1 + sum_pages ps blobs) * ps < 2 ^ 32 ->
  replace_dtbs fs fname ps img0 = Ok img ->
  header_fits32 (header img) ->
  write_bootimg img s = (Ok tt, s') ->
  exists d',
    dtbh img = Some d' /\ blen d' = ps /\
    num_entries d' = Z.of_nat (length blobs) /\
    page_size (header img) = ps /\
    dtbs_size (header img) = (1 + sum_pages ps blobs) * ps /\
    (forall i, (i < length blobs)%nat ->
       dt_offset d' (Z.of_nat i) = (1 + sum_pages ps (firstn i blobs)) * ps /\
       dt_dtb_size d' (Z.of_nat i) = blen (nth i blobs (zeros 0))) /\
    let doff := dtbs_offset (layout_of (header img)) in
    signature_offset (layout_of (header img))
    = doff + dtbs_size (header img) /\
    signature_offset (layout_of (header img)) + ps <= blen (content s') /\
    0 <= doff /\
    (forall j, 0 <= j < ps -> bget (content s') (doff + j) = bget d' j) /\
    forall i, (i < length blobs)%nat ->
      ps <= dt_offset d' (Z.of_nat i) /\
      dt_offset d' (Z.of_nat i) + blen (nth i blobs (zeros 0))
      <= dtbs_size (header img) /\
      forall j, 0 <= j < blen (nth i blobs (zeros 0)) ->
        bget (content s') (doff + dt_offset d' (Z.of_nat i) + j)
        = bget (nth i blobs (zeros 0)) j.
Proof.
  intros ps Hps Hf Ht Hn Hb Hpos Hfit R F W.
  pose proof (replace_dtbs_names fs fname ps img0 img table (length blobs)
                (proj1 Hf) Hn R) as Hnm.
  destruct (replace_dtbs_spec fs fname img0 table blobs Hps Hnm Hf Ht Hn Hb
              Hpos Hfit) as (d' & R' & Ld & Nd & Ed).
  fold ps in R'. rewrite R' in R. injection R as E.
  assert (Dh : dtbh img = Some d') by (rewrite <- E; reflexivity).
  assert (Dt : dtbs img = map Owned blobs) by (rewrite <- E; reflexivity).
  assert (Ep : page_size (header img) = ps) by (rewrite <- E; reflexivity).
  assert (Es : dtbs_size (header img) = (1 + sum_pages ps blobs) * ps)
    by (rewrite <- E; reflexivity).
  clear E R'.
  pose proof (sum_pages_nonneg ps blobs ltac:(lia) Hpos) as Nn.
  assert (Pos : forall k, (k <= length blobs)%nat ->
                  dtb_position ps d' k
                  = (1 + sum_pages ps (firstn k blobs)) * ps).
  { apply dtb_position_replaced. intros i Hi. apply Ed. exact Hi. }
  assert (Cd : ceil_div (dtbs_size (header img)) ps * ps
               = dtbs_size (header img)).
  { apply ceil_div_aligned; [lia | rewrite Es; nia |].
    rewrite Es. apply Z.mod_mul. lia. }
  assert (Pn : dtb_position ps d' (length blobs) = dtbs_size (header img)).
  { rewrite Pos by lia. rewrite firstn_all. symmetry. exact Es. }
  pose proof (write_bootimg_dtbs img F d' s s' Dh) as WD.
  cbv zeta in WD. rewrite Ep, Nd, Nat2Z.id in WD.
  destruct (WD ltac:(lia) W) as (_ & Tp & Bl). clear WD.
  pose proof (write_bootimg_signature img F s s' W) as WS.
  cbv zeta in WS. rewrite Ep in WS. destruct WS as (_ & Len & _).
  pose proof (fits32_facts _ _ _ _ _ F) as FF. cbv zeta in FF.
  rewrite Ep in FF.
  destruct FF as (_ & N0 & M0 & O0 & P0 & _).
  exists d'. split; [exact Dh|]. split; [exact Ld|]. split; [exact Nd|].
  split; [exact Ep|]. split; [exact Es|]. split; [exact Ed|].
  unfold layout_of. rewrite (fits32_layout _ _ _ _ _ F).
  cbn [dtbs_offset signature_offset]. rewrite Ep.
  split; [lia|]. split; [exact Len|]. split; [nia|].
  split; [exact Tp|].
  intros i Hi. destruct (Ed i Hi) as (Eo & Ez).
  pose proof (dtb_position_step ps d' i ltac:(lia)) as St.
  pose proof (dtb_position_mono ps d' (S i) (length blobs) ltac:(lia)
                ltac:(lia)) as Mo.
  pose proof (dtb_position_mono ps d' 0 i ltac:(lia) ltac:(lia)) as M1.
  cbn [dtb_position] in M1.
  assert (Eo' : dt_offset d' (Z.of_nat i) = dtb_position ps d' i)
    by (rewrite Pos by lia; exact Eo).
  assert (Ez' : dt_dtb_size d' (Z.of_nat i) = blen (nth i blobs (zeros 0)))
    by exact Ez.
  split; [lia|]. split; [lia|].
  destruct (Bl i Hi) as (ptr & Ei & _ & G).
  rewrite Dt, nth_error_map, (nth_error_nth' blobs (zeros 0) Hi) in Ei.
  cbn [option_map] in Ei. injection Ei as <-. cbn [deref] in G.
  intros j Hj. rewrite Eo'. apply G. rewrite Ez'. exact Hj.
Qed.

(** X25: device trees loaded by [update_images] stand in the written image
    where their table says. After the table is replaced with sub-blobs read
    from files (a table file that fits in one page with its entries, no
    empty sub-blob, sizes that do not overflow) and the image is written,
    the table page stands at the device-tree offset of the layout and
    sub-blob [i] stands at that offset plus the offset field of entry [i],
    with the length that its size field gives and before the signature
    page: the offsets computed by [update_images] and the places chosen by
    the loop of [write_bootimg] are the same. *)
Theorem replaced_device_trees_stand_at_their_offsets (fs : filesystem)
  (fname : string) (img0 img : t_abootimg) (table : buffer)
  (blobs : list buffer) (s s' : FILE)
  (Hps : 0 < page_size (header img0) < 2 ^ 32)
  (Hf : dtbs_files fs fname table blobs)
  (Ht : 0 < blen table <= page_size (header img0))
  (Hn : num_entries (dtbh_block (page_size (header img0)) table)
        = Z.of_nat (length blobs))
  (Hb : entry_at (Z.of_nat (length blobs)) <= page_size (header img0))
  (Hpos : Forall (fun b => 0 < blen b) blobs)
  (Hfit : (1 + sum_pages (page_size (header img0)) blobs)
          * page_size (header img0) < 2 ^ 32)
  (R : replace_dtbs fs fname (page_size (header img0)) img0 = Ok img)
  (F : header_fits32 (header img))
  (W : write_bootimg img s = (Ok tt, s')) :
  exists d',
    dtbh img = Some d' /\
    let doff := dtbs_offset (layout_of (header img)) in
    (forall j, 0 <= j < page_size (header img) ->
               bget (content s') (doff + j) = bget d' j) /\
    forall i b, nth_error blobs i = Some b ->
      dt_dtb_size d' (Z.of_nat i) = blen b /\
      doff + dt_offset d' (Z.of_nat i) + dt_dtb_size d' (Z.of_nat i)
      <= signature_offset (layout_of (header img)) /\
      forall j, 0 <= j < blen b ->
        bget (content s') (doff + dt_offset d' (Z.of_nat i) + j) = bget b j.
Proof.
  pose proof (replaced_trees_written fs fname img0 img table blobs s s')
    as RW.
  cbv zeta in RW.
  destruct (RW Hps Hf Ht Hn Hb Hpos Hfit R F W)
    as (d' & Dh & _ & _ & Ep & _ & Ed & Sig & _ & _ & Tp & Bl).
  clear RW. exists d'. split; [exact Dh|]. cbv zeta.
  split; [rewrite Ep; exact Tp|].
  intros i b Hi.
  assert (Li : (i < length blobs)%nat)
    by (apply nth_error_Some; rewrite Hi; discriminate).
  apply (nth_error_nth _ _ (zeros 0)) in Hi.
  destruct (Ed i Li) as (_ & Ez). destruct (Bl i Li) as (_ & Le & G).
  rewrite Hi in Ez, Le, G.
  split; [exact Ez|]. split; [rewrite Sig, Ez; lia | exact G].
Qed.

Lemma replaced_device_trees_stand_at_their_offsets_witness :
  match replace_dtbs (platform_files 3000) "platform" 2048 aligned_image with
  | Ok img =>
      match write_bootimg img (mkFILE (zeros 0) 0) with
      | (Ok _, s') =>
          match dtbh img with
          | Some d' =>
              bget (content s')
                   (dtbs_offset (layout_of (header img)) + dt_offset d' 0 + 100)
              = 7
          | None => False
          end
      | (Abort _, _) => False
      end
  | Abort _ => False
  end.
Proof.
  destruct (replace_dtbs (platform_files 3000) "platform" 2048 aligned_image)
    as [img|e] eqn:R.
  - assert (Hw : header_words (header img)
                 = [4096; 0; 2; 0; 0; 0; 0; 2048; 6144; 0]).
    { pose proof (f_equal (fun r => match r with
                                    | Ok i => header_words (header i)
                                    | Abort _ => []
                                    end) R) as X.
      cbn beta iota in X. rewrite <- X. vm_compute. reflexivity. }
    unfold header_words in Hw.
    injection Hw as Eks _ Ers _ Ess _ _ Eps Eds _.
    assert (F : header_fits32 (header img)).
    { unfold header_fits32. rewrite Eks, Ers, Ess, Eps, Eds.
      unfold fits32. vm_compute. repeat split; (reflexivity || discriminate). }
    destruct (write_bootimg img (mkFILE (zeros 0) 0)) as [[[]|e] s'] eqn:W.
    + destruct (replaced_device_trees_stand_at_their_offsets
                  (platform_files 3000) "platform" aligned_image img
                  one_entry_table [mkbuf 3000 (fun _ => 7)]
                  (mkFILE (zeros 0) 0) s')
        as (d' & Dh & _ & Bl).
      * change (page_size (header aligned_image)) with 2048. lia.
      * split; [reflexivity|].
        intros [|[|k]] b Hk; cbn in Hk; try discriminate Hk.
        inversion Hk. reflexivity.
      * change (page_size (header aligned_image)) with 2048.
        change (blen one_entry_table) with 44. lia.
      * reflexivity.
      * change (page_size (header aligned_image)) with 2048.
        change (entry_at (Z.of_nat (length [mkbuf 3000 (fun _ => 7)])))
          with 44. lia.
      * repeat constructor.
      * change (page_size (header aligned_image)) with 2048.
        change (sum_pages 2048 [mkbuf 3000 (fun _ => 7)]) with 2. lia.
      * exact R.
      * exact F.
      * exact W.
      * rewrite Dh.
        destruct (Bl 0%nat (mkbuf 3000 (fun _ => 7)) eq_refl) as (_ & _ & G).
        apply (G 100). cbn [blen]. lia.
    + assert (X : is_ok (fst (write_bootimg img (mkFILE (zeros 0) 0))) = false)
        by (rewrite W; reflexivity).
      clear W.
      apply (f_equal (fun r => match r with
                               | Ok i => is_ok (fst (write_bootimg i
                                                      (mkFILE (zeros 0) 0)))
                               | Abort _ => false
                               end)) in R.
      cbn beta iota in R. rewrite X in R. vm_compute in R. discriminate R.
  - apply (f_equal is_ok) in R. vm_compute in R. discriminate R.
Defined.

Lemma nth_error_map_seq {A} (f : nat -> A) (n i : nat) :
  (i < n)%nat -> nth_error (map f (seq 0 n)) i = Some (f i).
Proof.
  intros Hi. rewrite nth_error_map.
  rewrite (nth_error_nth' (seq 0 n) 0%nat) by (rewrite length_seq; exact Hi).
  rewrite seq_nth by exact Hi. reflexivity.
Qed.

(** X26: device trees that were loaded and written are read back by
    [extract_dtbs] when its offset is the one of the layout. Under the
    conditions of the replacement, on the written file [extract_dtbs]
    completes; the table file holds the table with its entries as
    [update_images] left them, and sub-blob file [i] holds the bytes of the
    sub-blob that was loaded; every read through an offset field stays
    inside the block of [dtbs_size] bytes. *)
Theorem replaced_device_trees_are_extracted (fs : filesystem)
  (fname : string) (img0 img img1 : t_abootimg) (table : buffer)
  (blobs : list buffer) (s s' : FILE) (pos : Z)
  (Hps : 0 < page_size (header img0) < 2 ^ 32)
  (Hf : dtbs_files fs fname table blobs)
  (Ht : 0 < blen table <= page_size (header img0))
  (Hn : num_entries (dtbh_block (page_size (header img0)) table)
        = Z.of_nat (length blobs))
  (Hb : entry_at (Z.of_nat (length blobs)) <= page_size (header img0))
  (Hpos : Forall (fun b => 0 < blen b) blobs)
  (Hfit : (1 + sum_pages (page_size (header img0)) blobs)
          * page_size (header img0) < 2 ^ 32)
  (R : replace_dtbs fs fname (page_size (header img0)) img0 = Ok img)
  (F : header_fits32 (header img))
  (W : write_bootimg img s = (Ok tt, s'))
  (Agree : extract_dtbs_offset (page_size (header img))
             (kernel_size (header img)) (ramdisk_size (header img))
             (second_size (header img))
           = dtbs_offset (layout_of (header img)))
  (E1 : header img1 = header img) :
  exists d' tb bl s2,
    dtbh img = Some d' /\
    extract_dtbs img1 (mkFILE (content s') pos) = (Ok (tb, bl), s2) /\
    blen tb = entry_at (Z.of_nat (length blobs)) /\
    (forall j, 0 <= j < blen tb -> bget tb j = bget d' j) /\
    length bl = length blobs /\
    forall i b, nth_error blobs i = Some b ->
      dt_offset d' (Z.of_nat i) + dt_dtb_size d' (Z.of_nat i)
      <= dtbs_size (header img) /\
      exists b', nth_error bl i = Some b' /\ same_bytes b' b.
Proof.
  pose proof (replaced_trees_written fs fname img0 img table blobs s s')
    as RW.
  cbv zeta in RW.
  destruct (RW Hps Hf Ht Hn Hb Hpos Hfit R F W)
    as (d' & Dh & Ld & Nd & Ep & Es & Ed & Sig & Len & D0 & Tp & Bl).
  clear RW.
  set (ps := page_size (header img0)) in *.
  set (doff := dtbs_offset (layout_of (header img))) in *.
  set (ds := dtbs_size (header img)) in *.
  set (dr := sub (content s') doff ds).
  pose proof (sum_pages_nonneg ps blobs ltac:(lia) Hpos) as Nn.
  assert (Hds : ps <= ds) by (rewrite Es; nia).
  assert (E0 : 12 <= entry_at (Z.of_nat (length blobs)))
    by (unfold entry_at, sizeof_dtbs_t, sizeof_dt_entry_t; lia).
  assert (Gw : forall off, 0 <= off -> off + 4 <= ps ->
                 get_u32 dr off = get_u32 d' off).
  { intros off O1 O2. apply get_u32_ext. intros j Hj.
    unfold dr. cbn [bget sub]. apply Tp. lia. }
  assert (Nr : num_entries dr = Z.of_nat (length blobs)).
  { unfold num_entries. rewrite Gw; [exact Nd | |];
      unfold offsetof_num_entries, sizeof_dtbs_t in *; lia. }
  assert (Er : forall i, (i < length blobs)%nat ->
                 dt_offset dr (Z.of_nat i) = dt_offset d' (Z.of_nat i) /\
                 dt_dtb_size dr (Z.of_nat i) = dt_dtb_size d' (Z.of_nat i)).
  { intros i Hi. unfold dt_offset, dt_dtb_size.
    split; apply Gw;
      unfold entry_at, sizeof_dtbs_t, sizeof_dt_entry_t, offsetof_offset,
        offsetof_dtb_size in *; lia. }
  assert (X : extract_dtbs img1 (mkFILE (content s') pos)
              = (Ok (sub dr 0 (u32 (entry_at (num_entries dr))),
                     map (fun k => sub dr (dt_offset dr (Z.of_nat k))
                                       (dt_dtb_size dr (Z.of_nat k)))
                         (seq 0 (Z.to_nat (num_entries dr)))),
                 mkFILE (content s') (doff + ds))).
  { unfold extract_dtbs. rewrite E1, Ep.
    destruct (Z.eqb_spec ps 0) as [Z0|_]; [lia|].
    rewrite <- Ep.
    change (u32 ((1 + u32 (kernel_size (header img)
                           + ramdisk_size (header img)
                           + second_size (header img)
                           + page_size (header img) - 1)
                      / page_size (header img))
                 * page_size (header img)))
      with (extract_dtbs_offset (page_size (header img))
              (kernel_size (header img)) (ramdisk_size (header img))
              (second_size (header img))).
    rewrite Agree. fold doff ds.
    unfold bind, fseek. cbn [content fpos].
    rewrite fread_at by lia. fold dr.
    change (blen dr) with ds.
    destruct (Z.ltb_spec ds sizeof_dtbs_t) as [L|_];
      [unfold sizeof_dtbs_t in L; lia|].
    destruct (Z.ltb_spec ds (entry_at (num_entries dr))) as [L|_];
      [rewrite Nr in L; lia|].
    assert (Ex : existsb
                   (fun k => ds <? dt_offset dr (Z.of_nat k)
                                   + dt_dtb_size dr (Z.of_nat k))
                   (seq 0 (Z.to_nat (num_entries dr))) = false).
    { destruct (existsb _ _) eqn:Q; [|reflexivity]. exfalso.
      apply existsb_exists in Q. destruct Q as (k & Ik & Hk).
      apply in_seq in Ik. rewrite Nr, Nat2Z.id in Ik.
      destruct (Er k ltac:(lia)) as (Ro & Rz).
      destruct (Ed k ltac:(lia)) as (_ & Ez).
      destruct (Bl k ltac:(lia)) as (_ & Le & _).
      rewrite Ro, Rz, Ez in Hk. apply Z.ltb_lt in Hk. lia. }
    rewrite Ex. reflexivity. }
  exists d'. eexists. eexists. eexists.
  split; [exact Dh|]. split; [exact X|].
  rewrite Nr, Nat2Z.id.
  assert (U : u32 (entry_at (Z.of_nat (length blobs)))
              = entry_at (Z.of_nat (length blobs)))
    by (apply u32_small; lia).
  split; [cbn [blen sub]; exact U|].
  split.
  { cbn [blen bget sub]. rewrite U. intros j Hj.
    rewrite Z.add_0_l. unfold dr. cbn [bget sub]. apply Tp. lia. }
  split; [rewrite length_map, length_seq; reflexivity|].
  intros i b Hi.
  assert (Li : (i < length blobs)%nat)
    by (apply nth_error_Some; rewrite Hi; discriminate).
  apply (nth_error_nth _ _ (zeros 0)) in Hi.
  destruct (Ed i Li) as (_ & Ez). destruct (Bl i Li) as (_ & Le & G).
  destruct (Er i Li) as (Ro & Rz).
  rewrite Hi in Ez, Le, G.
  split; [fold ds; rewrite Ez; exact Le|].
  eexists. split; [apply nth_error_map_seq; exact Li|].
  split; cbn [blen bget sub]; [rewrite Rz; exact Ez|].
  rewrite Rz, Ez, Ro. intros j Hj. unfold dr. cbn [bget sub].
  rewrite Z.add_assoc. apply G. exact Hj.
Qed.

Lemma replaced_device_trees_are_extracted_witness :
  match replace_dtbs (platform_files 3000) "platform" 2048 aligned_image with
  | Ok img =>
      match write_bootimg img (mkFILE (zeros 0) 0) with
      | (Ok _, s') =>
          exists tb bl s2,
            extract_dtbs img (mkFILE (content s') 0) = (Ok (tb, bl), s2) /\
            blen tb = 44 /\ length bl = 1%nat
      | (Abort _, _) => False
      end
  | Abort _ => False
  end.
Proof.
  destruct (replace_dtbs (platform_files 3000) "platform" 2048 aligned_image)
    as [img|e] eqn:R.
  - assert (Hw : header_words (header img)
                 = [4096; 0; 2; 0; 0; 0; 0; 2048; 6144; 0]).
    { pose proof (f_equal (fun r => match r with
                                    | Ok i => header_words (header i)
                                    | Abort _ => []
                                    end) R) as X.
      cbn beta iota in X. rewrite <- X. vm_compute. reflexivity. }
    unfold header_words in Hw.
    injection Hw as Eks _ Ers _ Ess _ _ Eps Eds _.
    assert (F : header_fits32 (header img)).
    { unfold header_fits32. rewrite Eks, Ers, Ess, Eps, Eds.
      unfold fits32. vm_compute. repeat split; (reflexivity || discriminate). }
    destruct (write_bootimg img (mkFILE (zeros 0) 0)) as [[[]|e] s'] eqn:W.
    + destruct (replaced_device_trees_are_extracted
                  (platform_files 3000) "platform" aligned_image img img
                  one_entry_table [mkbuf 3000 (fun _ => 7)]
                  (mkFILE (zeros 0) 0) s' 0)
        as (d' & tb & bl & s2 & _ & X & Lt & _ & Ll & _).
      * change (page_size (header aligned_image)) with 2048. lia.
      * split; [reflexivity|].
        intros [|[|k]] b Hk; cbn in Hk; try discriminate Hk.
        inversion Hk. reflexivity.
      * change (page_size (header aligned_image)) with 2048.
        change (blen one_entry_table) with 44. lia.
      * reflexivity.
      * change (page_size (header aligned_image)) with 2048.
        change (entry_at (Z.of_nat (length [mkbuf 3000 (fun _ => 7)])))
          with 44. lia.
      * repeat constructor.
      * change (page_size (header aligned_image)) with 2048.
        change (sum_pages 2048 [mkbuf 3000 (fun _ => 7)]) with 2. lia.
      * exact R.
      * exact F.
      * exact W.
      * unfold layout_of. rewrite Eks, Ers, Ess, Eps, Eds. reflexivity.
      * reflexivity.
      * exists tb, bl, s2. split; [exact X|]. split; [exact Lt | exact Ll].
    + assert (X : is_ok (fst (write_bootimg img (mkFILE (zeros 0) 0))) = false)
        by (rewrite W; reflexivity).
      clear W.
      apply (f_equal (fun r => match r with
                               | Ok i => is_ok (fst (write_bootimg i
                                                      (mkFILE (zeros 0) 0)))
                               | Abort _ => false
                               end)) in R.
      cbn beta iota in R. rewrite X in R. vm_compute in R. discriminate R.
  - apply (f_equal is_ok) in R. vm_compute in R. discriminate R.
Defined.

(** ** Device trees copied from the original image *)

(** X27: device trees that [update_images] copies from the original image
    are placed by their sizes, and the table keeps the old offsets. After
    [dtbs_size] bytes are read from the original file and the image is
    written (sizes that do not overflow, a region whose pages hold the
    table page and the padded sub-blobs), the first page of the old region
    stands at the device-tree offset of the layout, with the offset fields
    it had; sub-blob [k], read in the old region at its offset field,
    stands after the table page and the sub-blobs before it, whatever that
    field holds; and a sub-blob that is not empty lies inside the bytes
    that were read. *)
Theorem copied_device_trees_are_repacked (img0 img : t_abootimg)
  (dsize doffset : Z) (s0 s1 s s' : FILE)
  (C : copy_dtbs dsize doffset img0 s0 = (Ok img, s1))
  (F : header_fits32 (header img))
  (Fit : dtb_position (page_size (header img))
           (sub (content s0) doffset dsize)
           (Z.to_nat (num_entries (sub (content s0) doffset dsize)))
         <= ceil_div (dtbs_size (header img)) (page_size (header img))
            * page_size (header img))
  (W : write_bootimg img s = (Ok tt, s')) :
  let d := sub (content s0) doffset dsize in
  let ps := page_size (header img) in
  let doff := dtbs_offset (layout_of (header img)) in
  header img = header img0 /\ dtbh img = Some d /\ ps <= dsize /\
  (forall j, 0 <= j < ps ->
     bget (content s') (doff + j) = bget (content s0) (doffset + j)) /\
  (forall k, (k < Z.to_nat (num_entries d))%nat ->
     (0 < dt_dtb_size d (Z.of_nat k) ->
      dt_offset d (Z.of_nat k) + dt_dtb_size d (Z.of_nat k) <= dsize) /\
     forall j, 0 <= j < dt_dtb_size d (Z.of_nat k) ->
       bget (content s') (doff + dtb_position ps d k + j)
       = bget (content s0) (doffset + dt_offset d (Z.of_nat k) + j)) /\
  (forall k, 0 <= k -> entry_at (k + 1) <= ps ->
     dt_offset (sub (content s') doff ps) k = dt_offset d k).
Proof.
  intros d ps doff.
  unfold copy_dtbs in C.
  apply bind_ok in C. destruct C as ([] & s2 & Sk & C).
  apply fseek_ok in Sk. subst s2.
  apply bind_ok in C. destruct C as (d0 & s3 & Rd & C).
  apply fread_ok in Rd. cbn [content fpos] in Rd.
  destruct Rd as (-> & -> & Pd & _ & _). fold d in C.
  destruct (blen d <? sizeof_dtbs_t); [discriminate C|].
  destruct (blen d <? entry_at (num_entries d)); [discriminate C|].
  unfold ret in C. injection C as <-.
  set (img := with_dtbh (Some d) _ img0) in *.
  assert (Dh : dtbh img = Some d) by reflexivity.
  pose proof (write_bootimg_dtbs img F d s s' Dh) as WD.
  cbv zeta in WD. fold ps in WD.
  destruct (WD Fit W) as (Ld & Tp & Bl). clear WD.
  pose proof F as (Hp & _). fold ps in Hp.
  unfold doff, layout_of. rewrite (fits32_layout _ _ _ _ _ F).
  cbn [dtbs_offset]. fold ps.
  set (off := (1 + _ + _ + _) * ps) in *.
  split; [reflexivity|]. split; [exact Dh|]. split; [exact Ld|].
  split; [intros j Hj; rewrite (Tp j Hj); reflexivity|].
  split.
  - intros k Hk. destruct (Bl k Hk) as (ptr & Ek & Lb & G).
    unfold img in Ek. cbn [dtbs with_dtbh] in Ek.
    rewrite nth_error_map_seq in Ek by exact Hk. injection Ek as <-.
    cbn [deref blen bget sub] in Lb, G. split.
    + intros Pk. specialize (Lb Pk). change (blen d) with dsize in Lb. lia.
    + intros j Hj. rewrite (G j Hj).
      change (bget d (dt_offset d (Z.of_nat k) + j))
        with (bget (content s0) (doffset + (dt_offset d (Z.of_nat k) + j))).
      f_equal. lia.
  - intros k K0 Hk. unfold dt_offset. apply get_u32_ext. intros j Hj.
    cbn [bget sub]. apply Tp.
    unfold entry_at, sizeof_dtbs_t, sizeof_dt_entry_t, offsetof_offset in *.
    lia.
Qed.

Lemma copied_device_trees_are_repacked_witness :
  match copy_dtbs 4096 0 aligned_image_with_trees (mkFILE tree_region 0) with
  | (Ok img, _) =>
      match write_bootimg img (mkFILE (zeros 0) 0) with
      | (Ok _, s') =>
          bget (content s') (dtbs_offset (layout_of (header img)) + 2048 + 5)
          = 9
      | (Abort _, _) => False
      end
  | (Abort _, _) => False
  end.
Proof.
  destruct (copy_dtbs 4096 0 aligned_image_with_trees (mkFILE tree_region 0))
    as [[img|e] s1] eqn:C.
  - assert (Hw : header_words (header img)
                 = [4096; 0; 2; 0; 0; 0; 0; 2048; 4096; 0]).
    { pose proof (f_equal (fun r => match fst r with
                                    | Ok i => header_words (header i)
                                    | Abort _ => []
                                    end) C) as X.
      cbn [fst] in X. rewrite <- X. vm_compute. reflexivity. }
    unfold header_words in Hw.
    injection Hw as Eks _ Ers _ Ess _ _ Eps Eds _.
    assert (F : header_fits32 (header img)).
    { unfold header_fits32. rewrite Eks, Ers, Ess, Eps, Eds.
      unfold fits32. vm_compute. repeat split; (reflexivity || discriminate). }
    destruct (write_bootimg img (mkFILE (zeros 0) 0)) as [[[]|e] s'] eqn:W.
    + destruct (copied_device_trees_are_repacked aligned_image_with_trees img
                  4096 0 (mkFILE tree_region 0) s1 (mkFILE (zeros 0) 0) s'
                  C F)
        as (_ & _ & _ & _ & Bl & _).
      * rewrite Eps, Eds. vm_compute. discriminate.
      * exact W.
      * destruct (Bl 0%nat ltac:(vm_compute; lia)) as (_ & G).
        specialize (G 5 ltac:(vm_compute; split; [discriminate | reflexivity])).
        rewrite Eps in G. exact G.
    + assert (X : is_ok (fst (write_bootimg img (mkFILE (zeros 0) 0))) = false)
        by (rewrite W; reflexivity).
      clear W.
      apply (f_equal (fun r => match fst r with
                               | Ok i => is_ok (fst (write_bootimg i
                                                      (mkFILE (zeros 0) 0)))
                               | Abort _ => false
                               end)) in C.
      cbn [fst] in C. rewrite X in C. vm_compute in C. discriminate C.
  - apply (f_equal (fun r => is_ok (fst r))) in C. vm_compute in C.
    discriminate C.
Defined.

(** ** The table printed by [--dtbs] *)

(** X28: [print_dtbh_info] reads the table at the device-tree offset of the
    layout, so it finds the table of a written image whatever the sizes of
    kernel, ramdisk and second stage are. On the image written after a
    replacement of the device trees it completes, and it prints the magic
    value and the version of the table, one entry for each sub-blob, and
    for entry [i] the words of the table with the offset
    (1 + sum_(j<i) ceil(s_j / page_size)) x page_size and the size s_i of
    the sub-blob. *)
Theorem printed_table_is_the_written_table (fs : filesystem)
  (fname : string) (img0 img img1 : t_abootimg) (table : buffer)
  (blobs : list buffer) (s s' : FILE) (pos : Z)
  (Hps : 0 < page_size (header img0) < 2 ^ 32)
  (Hf : dtbs_files fs fname table blobs)
  (Ht : 0 < blen table <= page_size (header img0))
  (Hn : num_entries (dtbh_block (page_size (header img0)) table)
        = Z.of_nat (length blobs))
  (Hb : entry_at (Z.of_nat (length blobs)) <= page_size (header img0))
  (Hpos : Forall (fun b => 0 < blen b) blobs)
  (Hfit : (1 + sum_pages (page_size (header img0)) blobs)
          * page_size (header img0) < 2 ^ 32)
  (R : replace_dtbs fs fname (page_size (header img0)) img0 = Ok img)
  (F : header_fits32 (header img))
  (W : write_bootimg img s = (Ok tt, s'))
  (E1 : header img1 = header img) :
  exists d' s2,
    dtbh img = Some d' /\
    print_dtbh_info img1 (mkFILE (content s') pos)
    = (Ok (mkdtbh_info (get_u32 d' 0) (get_u32 d' 4)
             (Z.of_nat (length blobs))
             (map (fun k => entry_words d' (Z.of_nat k))
                  (seq 0 (length blobs)))), s2) /\
    forall i b, nth_error blobs i = Some b ->
      nth 5 (entry_words d' (Z.of_nat i)) 0
      = (1 + sum_pages (page_size (header img0)) (firstn i blobs))
        * page_size (header img0) /\
      nth 6 (entry_words d' (Z.of_nat i)) 0 = blen b.
Proof.
  pose proof (replaced_trees_written fs fname img0 img table blobs s s')
    as RW.
  cbv zeta in RW.
  destruct (RW Hps Hf Ht Hn Hb Hpos Hfit R F W)
    as (d' & Dh & Ld & Nd & Ep & Es & Ed & Sig & Len & D0 & Tp & Bl).
  clear RW.
  pose proof (fits32_pages _ _ _ _ _ F) as (Pn & Pm & Po & _).
  pose proof (fits32_layout _ _ _ _ _ F) as Lay. cbv zeta in Lay.
  fold (layout_of (header img)) in Lay.
  assert (Eoff : u32 ((1 + pages (kernel_size (header img))
                             (page_size (header img))
                       + pages (ramdisk_size (header img))
                           (page_size (header img))
                       + pages (second_size (header img))
                           (page_size (header img)))
                      * page_size (header img))
                 = dtbs_offset (layout_of (header img))) by reflexivity.
  clear Lay Pn Pm Po.
  set (ps := page_size (header img0)) in *.
  set (doff := dtbs_offset (layout_of (header img))) in *.
  set (ds := dtbs_size (header img)) in *.
  set (dr := sub (content s') doff ds).
  pose proof (sum_pages_nonneg ps blobs ltac:(lia) Hpos) as Nn.
  assert (Hds : ps <= ds) by (rewrite Es; nia).
  assert (E0 : 12 <= entry_at (Z.of_nat (length blobs)))
    by (unfold entry_at, sizeof_dtbs_t, sizeof_dt_entry_t; lia).
  assert (Gw : forall off, 0 <= off -> off + 4 <= ps ->
                 get_u32 dr off = get_u32 d' off).
  { intros off O1 O2. apply get_u32_ext. intros j Hj.
    unfold dr. cbn [bget sub]. apply Tp. lia. }
  assert (Nr : num_entries dr = Z.of_nat (length blobs)).
  { unfold num_entries. rewrite Gw; [exact Nd | |];
      unfold offsetof_num_entries, sizeof_dtbs_t in *; lia. }
  assert (Ew : forall k, In k (seq 0 (length blobs)) ->
                 entry_words dr (Z.of_nat k) = entry_words d' (Z.of_nat k)).
  { intros k Hk. apply in_seq in Hk. unfold entry_words.
    apply map_ext_in. intros w Hw. apply Gw;
      unfold entry_at, sizeof_dtbs_t, sizeof_dt_entry_t in *;
      cbn [In] in Hw; lia. }
  exists d'. eexists. split; [exact Dh|]. split.
  - unfold print_dtbh_info. rewrite E1, Eoff, Ep.
    destruct (Z.eqb_spec ps 0) as [Z0|_]; [lia|].
    fold doff ds. unfold bind, fseek. cbn [content fpos].
    rewrite fread_at by lia. fold dr.
    change (blen dr) with ds.
    destruct (Z.ltb_spec ds sizeof_dtbs_t) as [L|_];
      [unfold sizeof_dtbs_t in L; lia|].
    destruct (Z.ltb_spec ds (entry_at (num_entries dr))) as [L|_];
      [rewrite Nr in L; lia|].
    unfold ret. rewrite Nr, Nat2Z.id.
    rewrite (map_ext_in _ _ _ Ew).
    rewrite (Gw 0), (Gw 4) by lia. reflexivity.
  - intros i b Hi.
    assert (Li : (i < length blobs)%nat)
      by (apply nth_error_Some; rewrite Hi; discriminate).
    apply (nth_error_nth _ _ (zeros 0)) in Hi.
    destruct (Ed i Li) as (Eo & Ez). rewrite Hi in Ez.
    unfold entry_words. cbn [map nth].
    split; [exact Eo | exact Ez].
Qed.

Lemma printed_table_is_the_written_table_witness :
  match replace_dtbs (platform_files 3000) "platform" 2048
          two_sections_image with
  | Ok img =>
      match write_bootimg img (mkFILE (zeros 0) 0) with
      | (Ok _, s') =>
          exists i s2,
            print_dtbh_info img (mkFILE (content s') 0) = (Ok i, s2) /\
            info_num_entries i = 1 /\
            map (fun e => (nth 5 e 0, nth 6 e 0)) (info_entries i)
            = [(2048, 3000)]
      | (Abort _, _) => False
      end
  | Abort _ => False
  end.
Proof.
  destruct (replace_dtbs (platform_files 3000) "platform" 2048
              two_sections_image) as [img|e] eqn:R.
  - assert (Hw : header_words (header img)
                 = [3; 0; 2; 0; 0; 0; 0; 2048; 6144; 0]).
    { pose proof (f_equal (fun r => match r with
                                    | Ok i => header_words (header i)
                                    | Abort _ => []
                                    end) R) as X.
      cbn beta iota in X. rewrite <- X. vm_compute. reflexivity. }
    unfold header_words in Hw.
    injection Hw as Eks _ Ers _ Ess _ _ Eps Eds _.
    assert (F : header_fits32 (header img)).
    { unfold header_fits32. rewrite Eks, Ers, Ess, Eps, Eds.
      unfold fits32. vm_compute. repeat split; (reflexivity || discriminate). }
    destruct (write_bootimg img (mkFILE (zeros 0) 0)) as [[[]|e] s'] eqn:W.
    + destruct (printed_table_is_the_written_table
                  (platform_files 3000) "platform" two_sections_image img img
                  one_entry_table [mkbuf 3000 (fun _ => 7)]
                  (mkFILE (zeros 0) 0) s' 0)
        as (d' & s2 & _ & X & Ev).
      * change (page_size (header two_sections_image)) with 2048. lia.
      * split; [reflexivity|].
        intros [|[|k]] b Hk; cbn in Hk; try discriminate Hk.
        inversion Hk. reflexivity.
      * change (page_size (header two_sections_image)) with 2048.
        change (blen one_entry_table) with 44. lia.
      * reflexivity.
      * change (page_size (header two_sections_image)) with 2048.
        change (entry_at (Z.of_nat (length [mkbuf 3000 (fun _ => 7)])))
          with 44. lia.
      * repeat constructor.
      * change (page_size (header two_sections_image)) with 2048.
        change (sum_pages 2048 [mkbuf 3000 (fun _ => 7)]) with 2. lia.
      * exact R.
      * exact F.
      * exact W.
      * reflexivity.
      * eexists. exists s2. split; [exact X|]. split; [reflexivity|].
        destruct (Ev 0%nat (mkbuf 3000 (fun _ => 7)) eq_refl) as (A & B).
        cbn [info_entries map seq length]. rewrite A, B.
        reflexivity.
    + assert (X : is_ok (fst (write_bootimg img (mkFILE (zeros 0) 0))) = false)
        by (rewrite W; reflexivity).
      clear W.
      apply (f_equal (fun r => match r with
                               | Ok i => is_ok (fst (write_bootimg i
                                                      (mkFILE (zeros 0) 0)))
                               | Abort _ => false
                               end)) in R.
      cbn beta iota in R. rewrite X in R. vm_compute in R. discriminate R.
  - apply (f_equal is_ok) in R. vm_compute in R. discriminate R.
Defined.

(** * The writer completes *)








(** * The round trip *)




(** * How a run ends *)

(** What [parse_args] returns for [-u] and [--create]. *)
Lemma parse_args_update (argv : list string) :
  nth 1 argv ""%string = "-u"%string ->
  parse_args argv = TooManyConfig \/
  (exists f cfg, parse_args argv = Parsed cmd_none f cfg) \/
  (exists f cfg, parse_args argv = Parsed cmd_update f cfg).
Proof.
  intros H. unfold parse_args. rewrite H.
  destruct (Z.of_nat (length argv) <? 2); [right; left; eauto|].
  cbn [String.eqb Ascii.eqb Bool.eqb andb].
  destruct (Z.of_nat (length argv) <? 3); [right; left; eauto|].
  destruct (parse_options cmd_update _ _ _) as [c f cfg|] eqn:P;
    [|left; reflexivity].
  destruct (parse_options_spec _ _ _ _ _ _ _ P) as ([->| ->] & _);
    [right; right | right; left]; eauto.
Qed.

Lemma parse_args_create (argv : list string) :
  nth 1 argv ""%string = "--create"%string ->
  parse_args argv = TooManyConfig \/
  (exists f cfg, parse_args argv = Parsed cmd_none f cfg) \/
  (exists f cfg, parse_args argv = Parsed cmd_create f cfg).
Proof.
  intros H. unfold parse_args. rewrite H.
  destruct (Z.of_nat (length argv) <? 2); [right; left; eauto|].
  cbn [String.eqb Ascii.eqb Bool.eqb andb].
  destruct (Z.of_nat (length argv) <? 3); [right; left; eauto|].
  destruct (parse_options cmd_create _ _ _) as [c f cfg|] eqn:P;
    [|left; reflexivity].
  destruct (parse_options_spec _ _ _ _ _ _ _ P) as ([->| ->] & _);
    [right; right | right; left]; eauto.
Qed.

(** X14: the ways an update or a create run can end. A run started with
    [-u] ends when [main] returns, or stops in [parse_args] with "too many
    config parameters.", or stops in [abort_perror], with "not a valid
    Android Boot Image", with one of the three messages of
    [update_header_entry], with "Image page size is null", with "updated is
    too big", or on undefined behaviour. A run started with [--create] ends
    when [main] returns, or stops with "too many config parameters.", with
    "refuse to write on a valid partition type", in [abort_perror], with
    one of the three messages of [update_header_entry], with "Image page
    size is null", with "updated is too big", with "Sanity cheks failed",
    or on undefined behaviour. In particular the loop over the entries of
    a device-tree table always ends. *)
Theorem errors_of_update_and_create (fs : filesystem) (t : target)
  (file : buffer) (argv : list string) :
  (nth 1 argv ""%string = "-u"%string ->
   main fs t file argv = Returns \/
   main fs t file argv = TooManyConfigParameters \/
   exists e,
     main fs t file argv = Stops e /\
     In e [E_perror; E_not_valid; E_cmdline_too_long; E_blkdev_size;
           E_bad_config; E_page_size_null; E_too_big; E_undefined]) /\
  (nth 1 argv ""%string = "--create"%string ->
   main fs t file argv = Returns \/
   main fs t file argv = TooManyConfigParameters \/
   exists e,
     main fs t file argv = Stops e /\
     In e [E_partition; E_perror; E_cmdline_too_long; E_blkdev_size;
           E_bad_config; E_page_size_null; E_too_big; E_sanity;
           E_undefined]).
Proof.
  split; intros H.
  - unfold main.
    destruct (parse_args_update argv H)
      as [-> | [(f & cfg & ->) | (f & cfg & ->)]];
      [right; left; reflexivity | left; reflexivity |].
    destruct (settings fs f cfg) as [a|].
    + destruct (fst (main_update fs t a file)) as [u|e] eqn:R;
        [left; reflexivity|].
      right; right. exists e. split; [reflexivity|].
      apply (stops_main_update fs t a file e R).
    + destruct (fst _) as [u|e] eqn:R; [left; reflexivity|].
      right; right. exists e. split; [reflexivity|].
      refine (stops_run _ _ _ _ _ R).
      apply stops_bind.
      * eapply stops_weaken; [|apply stops_read_header].
        intros x I. cbn in *. intuition.
      * intros i. apply stops_abort. cbn. auto.
  - unfold main.
    destruct (parse_args_create argv H)
      as [-> | [(f & cfg & ->) | (f & cfg & ->)]];
      [right; left; reflexivity | left; reflexivity |].
    destruct (settings fs f cfg) as [a|].
    + destruct (fst (main_create fs t a file)) as [u|e] eqn:R;
        [left; reflexivity|].
      right; right. exists e. split; [reflexivity|].
      apply (stops_main_create fs t a file e R).
    + destruct (fn_kernel f); [|left; reflexivity].
      destruct (fn_ramdisk f); [|left; reflexivity].
      destruct (check_if_block_device _ _ _) as [i|e] eqn:C;
        right; right; eexists; (split; [reflexivity|]).
      * cbn. auto.
      * apply stops_check_if_block_device in C. subst e. cbn. auto.
Qed.

Lemma errors_of_update_and_create_witness :
  main no_files regular_file (zeros 700) ["abootimg"; "-u"; "boot.img"]%string
  = Stops E_not_valid /\
  main no_files regular_file (zeros 700) long_settings
  = TooManyConfigParameters.
Proof.
  pose proof (proj1 (errors_of_update_and_create no_files regular_file
                       (zeros 700) ["abootimg"; "-u"; "boot.img"]%string)
                eq_refl) as [A | [A | (e & A & _)]].
  - apply (f_equal (fun x => match x with Returns => true | _ => false end))
      in A. vm_compute in A. discriminate A.
  - apply (f_equal (fun x => match x with
                             | TooManyConfigParameters => true
                             | _ => false end)) in A.
    vm_compute in A. discriminate A.
  - split; vm_compute; reflexivity.
Defined.
